(** * obsidian-webpage-export: the Docker / web-export subsystem

  A shallow embedding of the TypeScript sources

    - [settings/web-config.ts]          (WebConfig, validateWebConfig,
                                         migrateFromLegacyConfig)
    - [docker/docker-config-loader.ts]  (DockerConfigLoader)
    - [docker/vault-validator.ts]       (VaultValidator)
    - [docker/docker-logger.ts]         (DockerLogger)
    - [docker/enhanced-docker-integration.ts] (exportForDocker, runDockerExport)
    - [web-export/web-export-manager.ts] (WebExportManager)
    - the settings tab of [settings/]   (WebSettingsTab: saveConfig, loadConfig)
    - [main.ts]                         (HTMLExportPlugin: checkForUpdates, exportVault)

  Conventions of the embedding.

    - A JavaScript string is a sequence of UTF-16 code units.  It is
      written as a Rocq [string] in which each code unit stands as the
      one, two or three bytes of its UTF-8 form ([JS.of_units]): an ASCII
      string is written as itself, U+00A0 as the two bytes 194 and 160.
      White space is the WhiteSpace and LineTerminator set of ECMAScript.
      [toLowerCase] and [toUpperCase] map the letters A to Z and a to z
      and leave every other code unit as it is: the code compares the
      mapped text with ASCII words only (true, woff, DEBUG, ...), and no
      text with a character outside ASCII is mapped to one of them, so
      each comparison has the outcome it has in JavaScript.
    - [process.env] is a finite map from names to strings.
    - Collaborators whose code is outside this repository ([new URL],
      [JSON.parse], the host file system, the website builder, ...) are
      parameters: a result or a thrown error.
    - [console] output is a trace of structured events.  Strings that
      only exist for display and contain locale or floating point
      renderings are carried as the data they are rendered from. *)

From Stdlib Require Import ZArith Lia Bool List Ascii String.
From Stdlib Require Import Numbers.DecimalString.
From stdpp Require Import base option list strings gmap.

Set Default Proof Using "Type".

(* ===================================================================== *)
(** * JavaScript string primitives *)
(* ===================================================================== *)

Module JS.

Definition code (c : ascii) : nat := nat_of_ascii c.

Definition is_upper (c : ascii) : bool := (65 <=? code c)%nat && (code c <=? 90)%nat.
Definition is_lower (c : ascii) : bool := (97 <=? code c)%nat && (code c <=? 122)%nat.
Definition is_digit (c : ascii) : bool := (48 <=? code c)%nat && (code c <=? 57)%nat.

Definition lower_char (c : ascii) : ascii :=
  if is_upper c then ascii_of_nat (code c + 32) else c.
Definition upper_char (c : ascii) : ascii :=
  if is_lower c then ascii_of_nat (code c - 32) else c.

(** [String.prototype.toLowerCase] / [toUpperCase]. *)
Fixpoint toLowerCase (s : string) : string :=
  match s with
  | EmptyString => EmptyString
  | String c r => String (lower_char c) (toLowerCase r)
  end.

Fixpoint toUpperCase (s : string) : string :=
  match s with
  | EmptyString => EmptyString
  | String c r => String (upper_char c) (toUpperCase r)
  end.

Definition is_empty (s : string) : bool :=
  match s with EmptyString => true | String _ _ => false end.

(** ** Code units

    A JavaScript string is a sequence of UTF-16 code units.  The embedding
    writes it as a Rocq [string] in which each code unit stands as the one,
    two or three bytes of its UTF-8 form: a string of ASCII characters is
    written as itself, and the order of two strings, byte by byte, is their
    order code unit by code unit. *)
Definition byte (n : N) : ascii := ascii_of_N n.

Definition encode_unit (u : N) : string :=
  if (u <? 128)%N then String (byte u) EmptyString
  else if (u <? 2048)%N then
    String (byte (192 + u / 64)) (String (byte (128 + u mod 64)) EmptyString)
  else
    String (byte (224 + u / 4096))
      (String (byte (128 + (u / 64) mod 64)) (String (byte (128 + u mod 64)) EmptyString)).

Fixpoint of_units (us : list N) : string :=
  match us with
  | [] => EmptyString
  | u :: rest => encode_unit u +:+ of_units rest
  end.

(** [s.length], the number of code units: the first byte of a code unit is
    the only one of its bytes that is not from 128 to 191. *)
Definition is_continuation (c : ascii) : bool :=
  let n := N_of_ascii c in (128 <=? n)%N && (n <=? 191)%N.

Fixpoint code_unit_length (s : string) : nat :=
  match s with
  | EmptyString => O
  | String c r => if is_continuation c then code_unit_length r else S (code_unit_length r)
  end.

(** The code units [trim] removes, the WhiteSpace and LineTerminator of
    ECMAScript: TAB, LF, VT, FF, CR, SPACE, NO-BREAK SPACE, U+1680,
    U+2000 to U+200A, U+2028, U+2029, U+202F, U+205F, U+3000 and U+FEFF. *)
Definition white_space : list N :=
  [ 9; 10; 11; 12; 13; 32; 160; 5760;
    8192; 8193; 8194; 8195; 8196; 8197; 8198; 8199; 8200; 8201; 8202;
    8232; 8233; 8239; 8287; 12288; 65279 ]%N.

(** [w] is one white-space code unit. *)
Definition is_ws (w : string) : bool :=
  existsb (String.eqb w) (List.map encode_unit white_space).

(** What follows the white-space code unit [s] begins with, if it begins
    with one. *)
Definition after_ws (s : string) : option string :=
  match s with
  | EmptyString => None
  | String a r1 =>
      if is_ws (String a EmptyString) then Some r1
      else
        match r1 with
        | EmptyString => None
        | String b r2 =>
            if is_ws (String a (String b EmptyString)) then Some r2
            else
              match r2 with
              | EmptyString => None
              | String c r3 =>
                  if is_ws (String a (String b (String c EmptyString))) then Some r3
                  else None
              end
        end
  end.

(** [String.prototype.trimStart]: the leading white-space code units are
    dropped one after the other. *)
Fixpoint trimStart (s : string) : string :=
  match s with
  | EmptyString => EmptyString
  | String a r1 =>
      if is_ws (String a EmptyString) then trimStart r1
      else
        match r1 with
        | EmptyString => s
        | String b r2 =>
            if is_ws (String a (String b EmptyString)) then trimStart r2
            else
              match r2 with
              | EmptyString => s
              | String c r3 =>
                  if is_ws (String a (String b (String c EmptyString))) then trimStart r3
                  else s
              end
        end
  end.

(** [String.prototype.trimEnd]: the string is kept up to the point from
    which only white space follows. *)
Fixpoint trimEnd (s : string) : string :=
  match s with
  | EmptyString => EmptyString
  | String c r => if is_empty (trimStart s) then EmptyString else String c (trimEnd r)
  end.

(** [String.prototype.trim]. *)
Definition trim (s : string) : string := trimEnd (trimStart s).

(** A string used as a condition: the empty string is falsy, every other
    string truthy. *)
Definition truthy (s : string) : bool := negb (is_empty s).

(** An optional string property used as a condition ([undefined] is falsy). *)
Definition truthy_opt (o : option string) : bool :=
  match o with Some s => truthy s | None => false end.

(** [s.split(sep)] for a one-character separator. *)
Fixpoint split (sep : ascii) (s : string) : list string :=
  match s with
  | EmptyString => [EmptyString]
  | String c r =>
      if Ascii.eqb c sep then EmptyString :: split sep r
      else match split sep r with
           | [] => [String c EmptyString]
           | h :: t => String c h :: t
           end
  end.

(** [s.startsWith(p)]. *)
Definition startsWith (s p : string) : bool := String.prefix p s.

Fixpoint rev_onto (s acc : string) : string :=
  match s with
  | EmptyString => acc
  | String c r => rev_onto r (String c acc)
  end.
Definition reverse (s : string) : string := rev_onto s EmptyString.

(** [s.endsWith(p)]. *)
Definition endsWith (s p : string) : bool := String.prefix (reverse p) (reverse s).

(** [s.includes(p)]. *)
Fixpoint includes (s p : string) : bool :=
  String.prefix p s ||
  match s with
  | EmptyString => false
  | String _ r => includes r p
  end.

(** Decimal rendering of an integer, as in a template literal. *)
Definition decimal_of_Z (z : Z) : string :=
  match z with
  | Z0 => "0"
  | Zpos p => NilEmpty.string_of_uint (Pos.to_uint p)
  | Zneg p => "-" +:+ NilEmpty.string_of_uint (Pos.to_uint p)
  end.
Definition show_nat (n : nat) : string := NilEmpty.string_of_uint (Nat.to_uint n).
Definition show_Z (z : Z) : string := decimal_of_Z z.
Definition show_bool (b : bool) : string := if b then "true" else "false".

(** The double-quote character, for messages that quote a value. *)
Definition dquote : string := String (ascii_of_nat 34) EmptyString.

(** Every character of [s] satisfies [p]. *)
Fixpoint all_chars (p : ascii -> bool) (s : string) : bool :=
  match s with
  | EmptyString => true
  | String c r => p c && all_chars p r
  end.

(** [xs.includes(x)] on an array of strings. *)
Definition array_includes (xs : list string) (x : string) : bool :=
  existsb (String.eqb x) xs.


(** A line feed, [\n] in a string literal. *)
Definition newline : string := String (ascii_of_nat 10) EmptyString.

(** ** [trim] on code units

    What [trim] is in ECMAScript, on the sequence of code units: the white
    space at both ends is removed. *)
Definition is_space (u : N) : bool := existsb (N.eqb u) white_space.

Fixpoint trimStart_units (us : list N) : list N :=
  match us with
  | [] => []
  | u :: rest => if is_space u then trimStart_units rest else us
  end.

Definition trimEnd_units (us : list N) : list N := rev (trimStart_units (rev us)).

Definition trim_units (us : list N) : list N := trimEnd_units (trimStart_units us).

(** Code units are the numbers below 2^16. *)
Definition code_units (us : list N) : Prop := Forall (fun u => (u < 65536)%N) us.

(** A white-space code unit, by its number. *)
Definition space_unit (u : N) : Prop :=
  (9 <= u <= 13)%N \/ u = 32%N \/ u = 160%N \/ u = 5760%N
  \/ (8192 <= u <= 8202)%N \/ u = 8232%N \/ u = 8233%N \/ u = 8239%N
  \/ u = 8287%N \/ u = 12288%N \/ u = 65279%N.

(** A string of white-space code units only; the empty string is one. *)
Definition blank (s : string) : Prop :=
  exists us, Forall space_unit us /\ s = of_units us.

(** The string begins, or ends, with a white-space code unit. *)
Definition starts_with_space (s : string) : Prop :=
  exists u rest, space_unit u /\ s = encode_unit u +:+ rest.
Definition ends_with_space (s : string) : Prop :=
  exists u front, space_unit u /\ s = front +:+ encode_unit u.

(** Two characters that are equal, or the capital and the small form of
    one of the letters A to Z. *)
Definition same_letter (c d : ascii) : Prop :=
  c = d
  \/ ((65 <= code c <= 90)%nat /\ code d = (code c + 32)%nat)
  \/ ((65 <= code d <= 90)%nat /\ code c = (code d + 32)%nat).

(** Two strings that differ at most in the case of their letters. *)
Inductive same_ignoring_case : string -> string -> Prop :=
| same_empty : same_ignoring_case EmptyString EmptyString
| same_String c d s t :
    same_letter c d -> same_ignoring_case s t ->
    same_ignoring_case (String c s) (String d t).

(** [value] is [word] written in any case, with white space before and
    after it or without. *)
Definition reads_as (value word : string) : Prop :=
  exists before core after,
    value = before +:+ core +:+ after
    /\ blank before /\ blank after /\ same_ignoring_case core word.

End JS.

(* ===================================================================== *)
(** * Regular expressions (the fragment used by the analytics-id check) *)
(* ===================================================================== *)

Module Regex.

Inductive re : Type :=
| Void                         (* matches nothing *)
| Eps                          (* the empty string *)
| Chr (c : ascii)              (* a literal character *)
| Rng (lo hi : ascii)          (* a character range [lo-hi] *)
| Seq (r1 r2 : re)
| Alt (r1 r2 : re)
| Star (r : re).

(** [r+] *)
Definition Plus (r : re) : re := Seq r (Star r).

(** A literal string. *)
Fixpoint Lit (s : string) : re :=
  match s with
  | EmptyString => Eps
  | String c r => Seq (Chr c) (Lit r)
  end.

Fixpoint nullable (r : re) : bool :=
  match r with
  | Void => false
  | Eps => true
  | Chr _ => false
  | Rng _ _ => false
  | Seq r1 r2 => nullable r1 && nullable r2
  | Alt r1 r2 => nullable r1 || nullable r2
  | Star _ => true
  end.

Definition in_range (lo hi c : ascii) : bool :=
  (JS.code lo <=? JS.code c)%nat && (JS.code c <=? JS.code hi)%nat.

(** Brzozowski derivative. *)
Fixpoint deriv (c : ascii) (r : re) : re :=
  match r with
  | Void => Void
  | Eps => Void
  | Chr d => if Ascii.eqb c d then Eps else Void
  | Rng lo hi => if in_range lo hi c then Eps else Void
  | Seq r1 r2 =>
      if nullable r1 then Alt (Seq (deriv c r1) r2) (deriv c r2)
      else Seq (deriv c r1) r2
  | Alt r1 r2 => Alt (deriv c r1) (deriv c r2)
  | Star r1 => Seq (deriv c r1) (Star r1)
  end.

(** Whole-string match: [/^r$/.test(s)]. *)
Fixpoint full_match (r : re) (s : string) : bool :=
  match s with
  | EmptyString => nullable r
  | String c s' => full_match (deriv c r) s'
  end.

(** Denotation of a regular expression as a set of strings. *)
Inductive lang : re -> string -> Prop :=
| L_Eps : lang Eps EmptyString
| L_Chr c : lang (Chr c) (String c EmptyString)
| L_Rng lo hi c : in_range lo hi c = true -> lang (Rng lo hi) (String c EmptyString)
| L_Seq r1 r2 s1 s2 : lang r1 s1 -> lang r2 s2 -> lang (Seq r1 r2) (s1 +:+ s2)
| L_AltL r1 r2 s : lang r1 s -> lang (Alt r1 r2) s
| L_AltR r1 r2 s : lang r2 s -> lang (Alt r1 r2) s
| L_Star0 r : lang (Star r) EmptyString
| L_StarS r c s1 s2 :
    lang r (String c s1) -> lang (Star r) s2 -> lang (Star r) (String c s1 +:+ s2).

(** A regular expression that denotes the one-character strings whose
    character satisfies [p]. *)
Definition class_of (cls : re) (p : ascii -> bool) : Prop :=
  forall s, lang cls s <-> exists c, s = String c EmptyString /\ p c = true.

End Regex.

(* ===================================================================== *)
(** * settings/web-config.ts *)
(* ===================================================================== *)

Module WebConfig.

Record MetaTag : Type := {
  mt_name : string;
  mt_content : string;
  mt_property : option string
}.

Record Site : Type := {
  name : string;
  description : string;
  url : string;
  favicon : option string
}.

Record Features : Type := {
  search : bool;
  graphView : bool;
  navigation : bool;
  themeToggle : bool;
  backlinks : bool;
  tags : bool;
  outline : bool;
  sidebar : bool
}.

Record Seo : Type := {
  googleAnalyticsId : option string;
  customMetaTags : option (list MetaTag);
  generateSitemap : bool;
  generateRobotsTxt : bool
}.

Record Advanced : Type := {
  customCSS : option string;
  excludePatterns : list string;
  imageOptimization : bool;
  generateResponsiveImages : bool;
  slugifyPaths : bool;
  offlineResources : bool
}.

Record t : Type := {
  version : string;
  site : Site;
  features : Features;
  seo : Seo;
  advanced : Advanced
}.

(** [DEFAULT_WEB_CONFIG] *)
Definition DEFAULT_WEB_CONFIG : t := {|
  version := "1.0.0";
  site := {| name := "My Digital Garden";
             description := "A collection of interconnected notes and ideas";
             url := "https://example.com";
             favicon := None |};
  features := {| search := true; graphView := true; navigation := true;
                 themeToggle := true; backlinks := true; tags := true;
                 outline := true; sidebar := true |};
  seo := {| googleAnalyticsId := None;
            customMetaTags := Some [];
            generateSitemap := true;
            generateRobotsTxt := true |};
  advanced := {| customCSS := None;
                 excludePatterns := ["Private/**"; "Drafts/**"; ".obsidian/**"];
                 imageOptimization := true;
                 generateResponsiveImages := true;
                 slugifyPaths := true;
                 offlineResources := false |}
|}.

(** Assignments [config.section = v] and [config.section.field = v]. *)
Definition set_site (v : Site) (c : t) : t :=
  {| version := version c; site := v; features := features c; seo := seo c; advanced := advanced c |}.
Definition set_features (v : Features) (c : t) : t :=
  {| version := version c; site := site c; features := v; seo := seo c; advanced := advanced c |}.
Definition set_seo (v : Seo) (c : t) : t :=
  {| version := version c; site := site c; features := features c; seo := v; advanced := advanced c |}.
Definition set_advanced (v : Advanced) (c : t) : t :=
  {| version := version c; site := site c; features := features c; seo := seo c; advanced := v |}.
Definition set_version (v : string) (c : t) : t :=
  {| version := v; site := site c; features := features c; seo := seo c; advanced := advanced c |}.

Definition set_name (v : string) (c : t) : t :=
  let s := site c in
  set_site {| name := v; description := description s; url := url s; favicon := favicon s |} c.
Definition set_description (v : string) (c : t) : t :=
  let s := site c in
  set_site {| name := name s; description := v; url := url s; favicon := favicon s |} c.
Definition set_url (v : string) (c : t) : t :=
  let s := site c in
  set_site {| name := name s; description := description s; url := v; favicon := favicon s |} c.
Definition set_favicon (v : option string) (c : t) : t :=
  let s := site c in
  set_site {| name := name s; description := description s; url := url s; favicon := v |} c.

Definition set_search (v : bool) (c : t) : t :=
  let f := features c in
  set_features {| search := v; graphView := graphView f; navigation := navigation f;
                  themeToggle := themeToggle f; backlinks := backlinks f; tags := tags f;
                  outline := outline f; sidebar := sidebar f |} c.
Definition set_graphView (v : bool) (c : t) : t :=
  let f := features c in
  set_features {| search := search f; graphView := v; navigation := navigation f;
                  themeToggle := themeToggle f; backlinks := backlinks f; tags := tags f;
                  outline := outline f; sidebar := sidebar f |} c.
Definition set_navigation (v : bool) (c : t) : t :=
  let f := features c in
  set_features {| search := search f; graphView := graphView f; navigation := v;
                  themeToggle := themeToggle f; backlinks := backlinks f; tags := tags f;
                  outline := outline f; sidebar := sidebar f |} c.
Definition set_themeToggle (v : bool) (c : t) : t :=
  let f := features c in
  set_features {| search := search f; graphView := graphView f; navigation := navigation f;
                  themeToggle := v; backlinks := backlinks f; tags := tags f;
                  outline := outline f; sidebar := sidebar f |} c.
Definition set_backlinks (v : bool) (c : t) : t :=
  let f := features c in
  set_features {| search := search f; graphView := graphView f; navigation := navigation f;
                  themeToggle := themeToggle f; backlinks := v; tags := tags f;
                  outline := outline f; sidebar := sidebar f |} c.
Definition set_tags (v : bool) (c : t) : t :=
  let f := features c in
  set_features {| search := search f; graphView := graphView f; navigation := navigation f;
                  themeToggle := themeToggle f; backlinks := backlinks f; tags := v;
                  outline := outline f; sidebar := sidebar f |} c.
Definition set_outline (v : bool) (c : t) : t :=
  let f := features c in
  set_features {| search := search f; graphView := graphView f; navigation := navigation f;
                  themeToggle := themeToggle f; backlinks := backlinks f; tags := tags f;
                  outline := v; sidebar := sidebar f |} c.
Definition set_sidebar (v : bool) (c : t) : t :=
  let f := features c in
  set_features {| search := search f; graphView := graphView f; navigation := navigation f;
                  themeToggle := themeToggle f; backlinks := backlinks f; tags := tags f;
                  outline := outline f; sidebar := v |} c.

Definition set_googleAnalyticsId (v : option string) (c : t) : t :=
  let s := seo c in
  set_seo {| googleAnalyticsId := v; customMetaTags := customMetaTags s;
             generateSitemap := generateSitemap s; generateRobotsTxt := generateRobotsTxt s |} c.
Definition set_customMetaTags (v : option (list MetaTag)) (c : t) : t :=
  let s := seo c in
  set_seo {| googleAnalyticsId := googleAnalyticsId s; customMetaTags := v;
             generateSitemap := generateSitemap s; generateRobotsTxt := generateRobotsTxt s |} c.
Definition set_generateSitemap (v : bool) (c : t) : t :=
  let s := seo c in
  set_seo {| googleAnalyticsId := googleAnalyticsId s; customMetaTags := customMetaTags s;
             generateSitemap := v; generateRobotsTxt := generateRobotsTxt s |} c.
Definition set_generateRobotsTxt (v : bool) (c : t) : t :=
  let s := seo c in
  set_seo {| googleAnalyticsId := googleAnalyticsId s; customMetaTags := customMetaTags s;
             generateSitemap := generateSitemap s; generateRobotsTxt := v |} c.

Definition set_customCSS (v : option string) (c : t) : t :=
  let a := advanced c in
  set_advanced {| customCSS := v; excludePatterns := excludePatterns a;
                  imageOptimization := imageOptimization a;
                  generateResponsiveImages := generateResponsiveImages a;
                  slugifyPaths := slugifyPaths a; offlineResources := offlineResources a |} c.
Definition set_excludePatterns (v : list string) (c : t) : t :=
  let a := advanced c in
  set_advanced {| customCSS := customCSS a; excludePatterns := v;
                  imageOptimization := imageOptimization a;
                  generateResponsiveImages := generateResponsiveImages a;
                  slugifyPaths := slugifyPaths a; offlineResources := offlineResources a |} c.
Definition set_imageOptimization (v : bool) (c : t) : t :=
  let a := advanced c in
  set_advanced {| customCSS := customCSS a; excludePatterns := excludePatterns a;
                  imageOptimization := v;
                  generateResponsiveImages := generateResponsiveImages a;
                  slugifyPaths := slugifyPaths a; offlineResources := offlineResources a |} c.
Definition set_generateResponsiveImages (v : bool) (c : t) : t :=
  let a := advanced c in
  set_advanced {| customCSS := customCSS a; excludePatterns := excludePatterns a;
                  imageOptimization := imageOptimization a;
                  generateResponsiveImages := v;
                  slugifyPaths := slugifyPaths a; offlineResources := offlineResources a |} c.
Definition set_slugifyPaths (v : bool) (c : t) : t :=
  let a := advanced c in
  set_advanced {| customCSS := customCSS a; excludePatterns := excludePatterns a;
                  imageOptimization := imageOptimization a;
                  generateResponsiveImages := generateResponsiveImages a;
                  slugifyPaths := v; offlineResources := offlineResources a |} c.
Definition set_offlineResources (v : bool) (c : t) : t :=
  let a := advanced c in
  set_advanced {| customCSS := customCSS a; excludePatterns := excludePatterns a;
                  imageOptimization := imageOptimization a;
                  generateResponsiveImages := generateResponsiveImages a;
                  slugifyPaths := slugifyPaths a; offlineResources := v |} c.

(** [JSON.parse(JSON.stringify(c))]: a deep copy.  Values of the embedding
    are immutable, so the copy is the value itself; a property that is
    [undefined] is dropped by the round trip and reads as [undefined]. *)
Definition JSON_clone (c : t) : t := c.

(** The three vendor formats:
    [/^(G-[A-Z0-9]+|UA-\d+-\d+|GT-[A-Z0-9]+)$/]. *)
Definition upper_or_digit : Regex.re :=
  Regex.Alt (Regex.Rng "A" "Z") (Regex.Rng "0" "9").
Definition digit : Regex.re := Regex.Rng "0" "9".
Definition analytics_G : Regex.re :=
  Regex.Seq (Regex.Lit "G-") (Regex.Plus upper_or_digit).
Definition analytics_UA : Regex.re :=
  Regex.Seq (Regex.Lit "UA-")
    (Regex.Seq (Regex.Plus digit) (Regex.Seq (Regex.Chr "-") (Regex.Plus digit))).
Definition analytics_GT : Regex.re :=
  Regex.Seq (Regex.Lit "GT-") (Regex.Plus upper_or_digit).
Definition analytics_regex : Regex.re :=
  Regex.Alt analytics_G (Regex.Alt analytics_UA analytics_GT).

(** [!s || s.trim() === ''] *)
Definition missing (s : string) : bool :=
  negb (JS.truthy s) || JS.is_empty (JS.trim s).

(** A string that is empty or holds white space only. *)
Definition blank (s : string) : Prop := JS.blank s.

(** The three vendor formats, spelled out: [G-] or [GT-] followed by one or
    more capital letters or digits, or [UA-], digits, [-], digits. *)
Definition is_upper_or_digit (c : ascii) : bool := JS.is_upper c || JS.is_digit c.
Definition code_word (w : string) : Prop :=
  w <> EmptyString /\ JS.all_chars is_upper_or_digit w = true.
Definition number_word (w : string) : Prop :=
  w <> EmptyString /\ JS.all_chars JS.is_digit w = true.
Definition vendor_format (id : string) : Prop :=
  (exists w, id = "G-" +:+ w /\ code_word w)
  \/ (exists a b, id = "UA-" +:+ a +:+ "-" +:+ b /\ number_word a /\ number_word b)
  \/ (exists w, id = "GT-" +:+ w /\ code_word w).

Section Validate.

(** [new URL(s)] returns normally ([true]) or throws a TypeError ([false]). *)
Variable URL_parses : string -> bool.

(** [validateWebConfig(config)] *)
Definition validateWebConfig (config : t) : list string :=
  let errors := [] in
  let errors :=
    if missing (name (site config))
    then errors ++ ["Site name is required"] else errors in
  let errors :=
    if missing (description (site config))
    then errors ++ ["Site description is required"] else errors in
  let errors :=
    if missing (url (site config))
    then errors ++ ["Site URL is required"]
    else if URL_parses (url (site config)) then errors
         else errors ++ ["Site URL must be a valid URL (e.g., https://example.com)"] in
  let errors :=
    match googleAnalyticsId (seo config) with
    | Some id =>
        if JS.truthy id && negb (Regex.full_match analytics_regex id)
        then errors ++ ["Google Analytics ID must be in format G-XXXXXXXXXX, UA-XXXXXXXX-X, or GT-XXXXXXXXXX"]
        else errors
    | None => errors
    end in
  errors.

End Validate.


(** One of the legacy feature option objects, of which the migration
    reads [enabled]. *)
Record LegacyFeatureOptions : Type := { enabled : option bool }.

(** The legacy [ExportPipelineOptions], as far as the migration reads it. *)
Record LegacyConfig : Type := {
  siteName : option string;
  faviconPath : option string;
  searchOptions : option LegacyFeatureOptions;
  graphViewOptions : option LegacyFeatureOptions;
  fileNavigationOptions : option LegacyFeatureOptions;
  themeToggleOptions : option LegacyFeatureOptions;
  backlinkOptions : option LegacyFeatureOptions;
  tagOptions : option LegacyFeatureOptions;
  outlineOptions : option LegacyFeatureOptions;
  sidebarOptions : option LegacyFeatureOptions;
  legacy_slugifyPaths : option bool;
  legacy_offlineResources : option bool
}.

(** [if (value) { config.x = value }] *)
Definition migrate_string (value : option string)
    (set : string -> WebConfig.t -> WebConfig.t) (config : WebConfig.t) : WebConfig.t :=
  match value with
  | Some v => if JS.truthy v then set v config else config
  | None => config
  end.

(** [if (options) { config.features.x = options.enabled ?? true }] *)
Definition migrate_feature (options : option LegacyFeatureOptions)
    (set : bool -> WebConfig.t -> WebConfig.t) (config : WebConfig.t) : WebConfig.t :=
  match options with
  | Some o => set (default true (enabled o)) config
  | None => config
  end.

(** [if (value !== undefined) { config.advanced.x = value }] *)
Definition migrate_boolean (value : option bool)
    (set : bool -> WebConfig.t -> WebConfig.t) (config : WebConfig.t) : WebConfig.t :=
  match value with
  | Some v => set v config
  | None => config
  end.

(** [migrateFromLegacyConfig(legacyConfig)] *)
Definition migrateFromLegacyConfig (legacyConfig : LegacyConfig) : WebConfig.t :=
  let config := JSON_clone DEFAULT_WEB_CONFIG in
  let config := migrate_string (siteName legacyConfig) set_name config in
  let config := migrate_string (faviconPath legacyConfig)
                  (fun v => set_favicon (Some v)) config in
  let config := migrate_feature (searchOptions legacyConfig) set_search config in
  let config := migrate_feature (graphViewOptions legacyConfig) set_graphView config in
  let config := migrate_feature (fileNavigationOptions legacyConfig) set_navigation config in
  let config := migrate_feature (themeToggleOptions legacyConfig) set_themeToggle config in
  let config := migrate_feature (backlinkOptions legacyConfig) set_backlinks config in
  let config := migrate_feature (tagOptions legacyConfig) set_tags config in
  let config := migrate_feature (outlineOptions legacyConfig) set_outline config in
  let config := migrate_feature (sidebarOptions legacyConfig) set_sidebar config in
  let config := migrate_boolean (legacy_slugifyPaths legacyConfig) set_slugifyPaths config in
  let config := migrate_boolean (legacy_offlineResources legacyConfig)
                  set_offlineResources config in
  config.

(** The legacy option objects, each with the feature it is migrated to. *)
Definition migrated_features
  : list ((LegacyConfig -> option LegacyFeatureOptions) * (Features -> bool)) :=
  [ (searchOptions, search); (graphViewOptions, graphView);
    (fileNavigationOptions, navigation); (themeToggleOptions, themeToggle);
    (backlinkOptions, backlinks); (tagOptions, tags);
    (outlineOptions, outline); (sidebarOptions, sidebar) ].

(** A step that leaves everything but the features as it was. *)
Definition keeps_rest (f : WebConfig.t -> WebConfig.t) : Prop :=
  forall c, version (f c) = version c /\ site (f c) = site c
            /\ seo (f c) = seo c /\ advanced (f c) = advanced c.

End WebConfig.

(* ===================================================================== *)
(** * docker/docker-config-loader.ts *)
(* ===================================================================== *)

Module DockerConfigLoader.
Import WebConfig.

(** [process.env] *)
Abbreviation Env := (gmap string string).

(** A computation that writes lines with [console.warn]. *)
Definition Warn (A : Type) : Type := A * list string.
Definition wret {A} (a : A) : Warn A := (a, []).
Definition wbind {A B} (m : Warn A) (k : A -> Warn B) : Warn B :=
  let '(a, w1) := m in
  let '(b, w2) := k a in
  (b, w1 ++ w2).
Definition console_warn (line : string) : Warn unit := (tt, [line]).

Notation "x <-- m ;; k" := (wbind m (fun x => k))
  (at level 100, m at next level, right associativity, only parsing).

(** [process.env.X] used as a condition and then read. *)
Definition env_truthy (env : Env) (x : string) : option string :=
  match env !! x with
  | Some v => if JS.truthy v then Some v else None
  | None => None
  end.

(** The text [parseBooleanEnv] warns with. *)
Definition invalid_boolean_message (envVar value : string) (defaultValue : bool) : string :=
  "Invalid boolean value for " +:+ envVar +:+ ": " +:+ JS.dquote +:+ value +:+ JS.dquote
  +:+ ". Using default: " +:+ JS.show_bool defaultValue.

(** [parseBooleanEnv(envVar, defaultValue)] *)
Definition parseBooleanEnv (env : Env) (envVar : string) (defaultValue : bool) : Warn bool :=
  match env !! envVar with
  | None => wret defaultValue
  | Some value =>
      let lowerValue := JS.trim (JS.toLowerCase value) in
      if String.eqb lowerValue "true" || String.eqb lowerValue "1" || String.eqb lowerValue "yes"
      then wret true
      else
        if String.eqb lowerValue "false" || String.eqb lowerValue "0" || String.eqb lowerValue "no"
        then wret false
        else
          _ <-- console_warn (invalid_boolean_message envVar value defaultValue) ;;
          wret defaultValue
  end.

(** What [JSON.parse] does with the text of [OBSIDIAN_CUSTOM_META_TAGS]:
    it throws, or returns an array (read as [MetaTag[]] by an unchecked
    cast), or returns a value that is not an array. *)
Inductive JsonParse : Type :=
| JsonThrows
| JsonArray (metaTags : list MetaTag)
| JsonNotArray.

(** [loadFromEnvironment()], part "Site Information". *)
Definition loadSiteInformation (env : Env) (config : WebConfig.t) : WebConfig.t :=
  let config := match env_truthy env "OBSIDIAN_SITE_NAME" with
                | Some v => set_name v config | None => config end in
  let config := match env_truthy env "OBSIDIAN_SITE_DESCRIPTION" with
                | Some v => set_description v config | None => config end in
  let config := match env_truthy env "OBSIDIAN_SITE_URL" with
                | Some v => set_url v config | None => config end in
  let config := match env_truthy env "OBSIDIAN_SITE_FAVICON" with
                | Some v => set_favicon (Some v) config | None => config end in
  config.

(** [loadFromEnvironment()], part "Features (boolean environment variables)". *)
Definition loadFeatures (env : Env) (config : WebConfig.t) : Warn WebConfig.t :=
  b <-- parseBooleanEnv env "OBSIDIAN_FEATURE_SEARCH" (search (features config)) ;;
  let config := set_search b config in
  b <-- parseBooleanEnv env "OBSIDIAN_FEATURE_GRAPH_VIEW" (graphView (features config)) ;;
  let config := set_graphView b config in
  b <-- parseBooleanEnv env "OBSIDIAN_FEATURE_NAVIGATION" (navigation (features config)) ;;
  let config := set_navigation b config in
  b <-- parseBooleanEnv env "OBSIDIAN_FEATURE_THEME_TOGGLE" (themeToggle (features config)) ;;
  let config := set_themeToggle b config in
  b <-- parseBooleanEnv env "OBSIDIAN_FEATURE_BACKLINKS" (backlinks (features config)) ;;
  let config := set_backlinks b config in
  b <-- parseBooleanEnv env "OBSIDIAN_FEATURE_TAGS" (tags (features config)) ;;
  let config := set_tags b config in
  b <-- parseBooleanEnv env "OBSIDIAN_FEATURE_OUTLINE" (outline (features config)) ;;
  let config := set_outline b config in
  b <-- parseBooleanEnv env "OBSIDIAN_FEATURE_SIDEBAR" (sidebar (features config)) ;;
  let config := set_sidebar b config in
  wret config.

Section Loader.

Variable JSON_parse : string -> JsonParse.

(** [loadFromEnvironment()], part "SEO & Analytics". *)
Definition loadSeo (env : Env) (config : WebConfig.t) : Warn WebConfig.t :=
  let config := match env_truthy env "OBSIDIAN_GOOGLE_ANALYTICS_ID" with
                | Some v => set_googleAnalyticsId (Some v) config | None => config end in
  b <-- parseBooleanEnv env "OBSIDIAN_GENERATE_SITEMAP" (generateSitemap (seo config)) ;;
  let config := set_generateSitemap b config in
  b <-- parseBooleanEnv env "OBSIDIAN_GENERATE_ROBOTS_TXT" (generateRobotsTxt (seo config)) ;;
  let config := set_generateRobotsTxt b config in
  match env_truthy env "OBSIDIAN_CUSTOM_META_TAGS" with
  | Some v =>
      match JSON_parse v with
      | JsonArray metaTags => wret (set_customMetaTags (Some metaTags) config)
      | JsonNotArray => wret config
      | JsonThrows =>
          _ <-- console_warn "Invalid OBSIDIAN_CUSTOM_META_TAGS JSON format, using defaults" ;;
          wret config
      end
  | None => wret config
  end.

(** [loadFromEnvironment()], part "Advanced settings". *)
Definition loadAdvanced (env : Env) (config : WebConfig.t) : Warn WebConfig.t :=
  let config := match env_truthy env "OBSIDIAN_CUSTOM_CSS" with
                | Some v => set_customCSS (Some v) config | None => config end in
  let config :=
    match env_truthy env "OBSIDIAN_EXCLUDE_PATTERNS" with
    | Some v =>
        set_excludePatterns
          (List.filter (fun pattern => (0 <? String.length pattern)%nat)
             (List.map JS.trim (JS.split "," v))) config
    | None => config
    end in
  b <-- parseBooleanEnv env "OBSIDIAN_IMAGE_OPTIMIZATION" (imageOptimization (advanced config)) ;;
  let config := set_imageOptimization b config in
  b <-- parseBooleanEnv env "OBSIDIAN_RESPONSIVE_IMAGES" (generateResponsiveImages (advanced config)) ;;
  let config := set_generateResponsiveImages b config in
  b <-- parseBooleanEnv env "OBSIDIAN_SLUGIFY_PATHS" (slugifyPaths (advanced config)) ;;
  let config := set_slugifyPaths b config in
  b <-- parseBooleanEnv env "OBSIDIAN_OFFLINE_RESOURCES" (offlineResources (advanced config)) ;;
  let config := set_offlineResources b config in
  wret config.

(** [loadFromEnvironment()] *)
Definition loadFromEnvironment (env : Env) : Warn WebConfig.t :=
  let config := JSON_clone DEFAULT_WEB_CONFIG in
  let config := loadSiteInformation env config in
  config <-- loadFeatures env config ;;
  config <-- loadSeo env config ;;
  config <-- loadAdvanced env config ;;
  wret config.

End Loader.

(** [validateEnvironmentConfig(config)] *)
Definition validateEnvironmentConfig (URL_parses : string -> bool) (config : WebConfig.t)
  : list string :=
  validateWebConfig URL_parses config.

(** The boolean environment variables the loader recognises, each with the
    field of the configuration it is read into. *)
Definition boolean_variables : list (string * (WebConfig.t -> bool)) :=
  [ ("OBSIDIAN_FEATURE_SEARCH", fun c => search (features c));
    ("OBSIDIAN_FEATURE_GRAPH_VIEW", fun c => graphView (features c));
    ("OBSIDIAN_FEATURE_NAVIGATION", fun c => navigation (features c));
    ("OBSIDIAN_FEATURE_THEME_TOGGLE", fun c => themeToggle (features c));
    ("OBSIDIAN_FEATURE_BACKLINKS", fun c => backlinks (features c));
    ("OBSIDIAN_FEATURE_TAGS", fun c => tags (features c));
    ("OBSIDIAN_FEATURE_OUTLINE", fun c => outline (features c));
    ("OBSIDIAN_FEATURE_SIDEBAR", fun c => sidebar (features c));
    ("OBSIDIAN_GENERATE_SITEMAP", fun c => generateSitemap (seo c));
    ("OBSIDIAN_GENERATE_ROBOTS_TXT", fun c => generateRobotsTxt (seo c));
    ("OBSIDIAN_IMAGE_OPTIMIZATION", fun c => imageOptimization (advanced c));
    ("OBSIDIAN_RESPONSIVE_IMAGES", fun c => generateResponsiveImages (advanced c));
    ("OBSIDIAN_SLUGIFY_PATHS", fun c => slugifyPaths (advanced c));
    ("OBSIDIAN_OFFLINE_RESOURCES", fun c => offlineResources (advanced c)) ].

(** The words a boolean variable may hold. *)
Definition true_words : list string := ["true"; "1"; "yes"].
Definition false_words : list string := ["false"; "0"; "no"].

(** The value is one of the words, in any case and with or without white
    space around it. *)
Definition holds (value : string) (words : list string) : Prop :=
  exists word, In word words /\ JS.reads_as value word.

(** How the variable [x] must show in the field [field] of the loaded
    configuration and on the console. *)
Definition boolean_variable_rule (env : Env) (loaded : WebConfig.t) (console : list string)
    (x : string) (field : WebConfig.t -> bool) : Prop :=
  match env !! x with
  | None => field loaded = field DEFAULT_WEB_CONFIG
  | Some value =>
      (holds value true_words -> field loaded = true)
      /\ (holds value false_words -> field loaded = false)
      /\ (~ holds value true_words -> ~ holds value false_words ->
          field loaded = field DEFAULT_WEB_CONFIG
          /\ In (invalid_boolean_message x value (field DEFAULT_WEB_CONFIG)) console)
  end.


(** [getSupportedEnvironmentVariables()]: the variables with their
    descriptions, in the order of the object literal. *)
Definition getSupportedEnvironmentVariables : list (string * string) :=
  [ ("OBSIDIAN_SITE_NAME", "Name of the website (required)");
    ("OBSIDIAN_SITE_DESCRIPTION", "Description of the website (required)");
    ("OBSIDIAN_SITE_URL", "Base URL of the website (required, e.g., https://example.com)");
    ("OBSIDIAN_SITE_FAVICON", "Path to favicon file (optional)");
    ("OBSIDIAN_FEATURE_SEARCH", "Enable search functionality (default: true)");
    ("OBSIDIAN_FEATURE_GRAPH_VIEW", "Enable graph view (default: true)");
    ("OBSIDIAN_FEATURE_NAVIGATION", "Enable file navigation (default: true)");
    ("OBSIDIAN_FEATURE_THEME_TOGGLE", "Enable theme toggle (default: true)");
    ("OBSIDIAN_FEATURE_BACKLINKS", "Enable backlinks (default: true)");
    ("OBSIDIAN_FEATURE_TAGS", "Enable tags (default: true)");
    ("OBSIDIAN_FEATURE_OUTLINE", "Enable document outline (default: true)");
    ("OBSIDIAN_FEATURE_SIDEBAR", "Enable sidebar (default: true)");
    ("OBSIDIAN_GOOGLE_ANALYTICS_ID", "Google Analytics tracking ID (optional, format: G-XXXXXXXXXX)");
    ("OBSIDIAN_GENERATE_SITEMAP", "Generate sitemap.xml (default: true)");
    ("OBSIDIAN_GENERATE_ROBOTS_TXT", "Generate robots.txt (default: true)");
    ("OBSIDIAN_CUSTOM_META_TAGS", "Custom meta tags as JSON array (optional)");
    ("OBSIDIAN_CUSTOM_CSS", "Custom CSS to inject (optional)");
    ("OBSIDIAN_EXCLUDE_PATTERNS", "Comma-separated list of patterns to exclude (default: Private/**,Drafts/**,.obsidian/**)");
    ("OBSIDIAN_IMAGE_OPTIMIZATION", "Enable image optimization (default: true)");
    ("OBSIDIAN_RESPONSIVE_IMAGES", "Generate responsive images (default: true)");
    ("OBSIDIAN_SLUGIFY_PATHS", "Convert paths to URL-friendly slugs (default: true)");
    ("OBSIDIAN_OFFLINE_RESOURCES", "Include resources for offline use (default: false)") ].

(** [Object.keys(getSupportedEnvironmentVariables())] *)
Definition supported_names : list string := List.map fst getSupportedEnvironmentVariables.

(** The string variables the loader recognises, each with the field of the
    configuration it is read into. *)
Definition string_variables : list (string * (WebConfig.t -> option string)) :=
  [ ("OBSIDIAN_SITE_NAME", fun c => Some (name (site c)));
    ("OBSIDIAN_SITE_DESCRIPTION", fun c => Some (description (site c)));
    ("OBSIDIAN_SITE_URL", fun c => Some (url (site c)));
    ("OBSIDIAN_SITE_FAVICON", fun c => favicon (site c));
    ("OBSIDIAN_GOOGLE_ANALYTICS_ID", fun c => googleAnalyticsId (seo c));
    ("OBSIDIAN_CUSTOM_CSS", fun c => customCSS (advanced c)) ].

(** What [logEnvironmentConfig] writes to the console. *)
Inductive ConfigLine : Type :=
| Warned (text : string)              (* [console.warn(text)] of the loader *)
| Printed (text : string)             (* [console.log(text)] *)
| PrintedConfig (config : WebConfig.t).   (* [console.log(JSON.stringify(config, null, 2))] *)

(** The line written for a supported variable that is set. *)
Definition variable_line (env : Env) (envVar : string) : list ConfigLine :=
  match env !! envVar with
  | Some value =>
      let maskedValue := if JS.includes envVar "ANALYTICS" then "***" else value in
      [Printed ("  " +:+ envVar +:+ "=" +:+ maskedValue)]
  | None => []
  end.

(** [logEnvironmentConfig()] *)
Definition logEnvironmentConfig (JSON_parse : string -> JsonParse)
    (URL_parses : string -> bool) (env : Env) : list ConfigLine :=
  let '(config, warnings) := loadFromEnvironment JSON_parse env in
  let supportedVars := getSupportedEnvironmentVariables in
  List.map Warned warnings
  ++ [ Printed "=== Docker Environment Configuration ===";
       Printed "Loaded configuration:";
       PrintedConfig config;
       Printed (JS.newline +:+ "Environment variables detected:") ]
  ++ flat_map (variable_line env) (List.map fst supportedVars)
  ++ (let errors := validateEnvironmentConfig URL_parses config in
      if (0 <? length errors)%nat then
        Printed (JS.newline +:+ "Configuration errors:")
        :: List.map (fun error => Printed ("  - " +:+ error)) errors
      else [Printed (JS.newline +:+ "Configuration is valid âœ“")]).

(** A text of commas and white space only. *)
Definition separators (v : string) : Prop :=
  exists us, Forall (fun u => u = 44%N \/ JS.space_unit u) us /\ v = JS.of_units us.


(** The warning for a meta tags variable that is not JSON. *)
Definition invalid_meta_tags : string :=
  "Invalid OBSIDIAN_CUSTOM_META_TAGS JSON format, using defaults".

End DockerConfigLoader.

(* ===================================================================== *)
(** * JavaScript errors *)
(* ===================================================================== *)

Module Error.

(** An [Error] object: [error.name], [error.code] (set by Node's
    file-system errors) and [error.message]. *)
Record t : Type := {
  name : string;
  code : option string;
  message : string
}.

(** [new Error(m)] *)
Definition make (m : string) : t := {| name := "Error"; code := None; message := m |}.

(** [String(error)], also what a template literal renders. *)
Definition toString (e : t) : string :=
  if JS.is_empty (name e) then message e
  else if JS.is_empty (message e) then name e
  else name e +:+ ": " +:+ message e.

End Error.

(* ===================================================================== *)
(** * docker/vault-validator.ts *)
(* ===================================================================== *)

Module ValidationError.
Inductive Severity : Type := error | warning.
Record t : Type := {
  code : string;
  message : string;
  path : option string;
  severity : Severity
}.
End ValidationError.

Module ValidationWarning.
Record t : Type := {
  code : string;
  message : string;
  path : option string;
  suggestion : option string
}.
End ValidationWarning.

Module ValidationResult.
Record t : Type := {
  isValid : bool;
  errors : list ValidationError.t;
  warnings : list ValidationWarning.t;
  suggestions : list string
}.
End ValidationResult.

(** The file system as the validator observes it through [existsSync],
    [statSync], [readdirSync] and [readFileSync]. *)
Module FS.

#[warnings="-register-all"]
Inductive Node : Type :=
| File (size : N) (content : Error.t + string)
    (* a regular file; [readFileSync] throws or returns its text *)
| Dir (readable : bool) (entries : list (string * Node))
    (* a directory; [readdirSync] throws when it is not readable *)
| Broken.
    (* a name that [readdirSync] lists but that cannot be followed (for
       instance a dangling link): [existsSync] is false, [statSync] throws *)

Fixpoint entry (item : string) (entries : list (string * Node)) : option Node :=
  match entries with
  | [] => None
  | (n, child) :: rest => if String.eqb n item then Some child else entry item rest
  end.

(** The node reached from [n] along the path components [p]. *)
Fixpoint resolve (p : list string) (n : Node) : option Node :=
  match p with
  | [] => Some n
  | item :: p' =>
      match n with
      | Dir _ entries =>
          match entry item entries with
          | Some child => resolve p' child
          | None => None
          end
      | _ => None
      end
  end.

Definition exists_node (o : option Node) : bool :=
  match o with
  | Some (File _ _) | Some (Dir _ _) => true
  | _ => false
  end.

Definition isDirectory (o : option Node) : bool :=
  match o with
  | Some (Dir _ _) => true
  | _ => false
  end.

(** [path.join(a, b)] for a normalised absolute [a] and a plain name [b]. *)
Definition join (a b : string) : string :=
  if JS.endsWith a "/" then a +:+ b else a +:+ "/" +:+ b.

Fixpoint join_all (a : string) (p : list string) : string :=
  match p with
  | [] => a
  | item :: p' => join_all (join a item) p'
  end.

(** A path below the vault, relative to it, as [findLargeFiles] reports it. *)
Fixpoint relative (p : list string) : string :=
  match p with
  | [] => EmptyString
  | [item] => item
  | item :: p' => item +:+ "/" +:+ relative p'
  end.

(** [reaches p n f]: following the names [p] from [n], through directories
    that can be listed, leads to [f]. *)
Inductive reaches : list string -> Node -> Node -> Prop :=
| reaches_here n : reaches [] n n
| reaches_below item p entries child f :
    In (item, child) entries -> reaches p child f ->
    reaches (item :: p) (Dir true entries) f.

End FS.

Module VaultValidator.
Import FS.

(** A validator: [this.vaultPath] (already resolved) and the file system
    found there ([None]: nothing exists at the path). *)
Record t : Type := {
  vaultPath : string;
  root : option Node
}.

Definition obsidianPath (v : t) : string := join (vaultPath v) ".obsidian".

(** What is found at a path below the vault. *)
Definition at_path (v : t) (p : list string) : option Node :=
  match root v with
  | Some n => resolve p n
  | None => None
  end.

Definition existsSync (v : t) (p : list string) : bool := exists_node (at_path v p).

(** The three arrays [validateVault] creates and its helpers push onto. *)
Record Report : Type := {
  errors : list ValidationError.t;
  warnings : list ValidationWarning.t;
  suggestions : list string
}.

Definition empty_report : Report :=
  {| errors := []; warnings := []; suggestions := [] |}.

Definition push_error (e : ValidationError.t) (r : Report) : Report :=
  {| errors := errors r ++ [e]; warnings := warnings r; suggestions := suggestions r |}.
Definition push_warning (w : ValidationWarning.t) (r : Report) : Report :=
  {| errors := errors r; warnings := warnings r ++ [w]; suggestions := suggestions r |}.
Definition push_suggestions (l : list string) (r : Report) : Report :=
  {| errors := errors r; warnings := warnings r; suggestions := suggestions r ++ l |}.

Definition mk_error (code message : string) (path : string) : ValidationError.t :=
  {| ValidationError.code := code;
     ValidationError.message := message;
     ValidationError.path := Some path;
     ValidationError.severity := ValidationError.error |}.

Definition mk_warning (code message : string) (path : option string) (suggestion : string)
  : ValidationWarning.t :=
  {| ValidationWarning.code := code;
     ValidationWarning.message := message;
     ValidationWarning.path := path;
     ValidationWarning.suggestion := Some suggestion |}.

(** [validateBasicStructure(errors, warnings)] *)
Definition validateBasicStructure (v : t) (r : Report) : Report :=
  if negb (exists_node (root v)) then
    push_error (mk_error "VAULT_NOT_FOUND"
                  ("Vault directory not found: " +:+ vaultPath v) (vaultPath v)) r
  else if negb (isDirectory (root v)) then
    push_error (mk_error "VAULT_NOT_DIRECTORY"
                  ("Vault path is not a directory: " +:+ vaultPath v) (vaultPath v)) r
  else if negb (existsSync v [".obsidian"]) then
    push_error (mk_error "OBSIDIAN_CONFIG_MISSING"
                  "Missing .obsidian configuration directory. This does not appear to be a valid Obsidian vault."
                  (obsidianPath v)) r
  else if negb (isDirectory (at_path v [".obsidian"])) then
    push_error (mk_error "OBSIDIAN_CONFIG_NOT_DIRECTORY"
                  ".obsidian exists but is not a directory" (obsidianPath v)) r
  else r.

(** The two errors [validateBasicStructure] reports about [.obsidian]. *)
Definition OBSIDIAN_CONFIG_MISSING (v : t) : ValidationError.t :=
  mk_error "OBSIDIAN_CONFIG_MISSING"
    "Missing .obsidian configuration directory. This does not appear to be a valid Obsidian vault."
    (obsidianPath v).

Definition OBSIDIAN_CONFIG_NOT_DIRECTORY (v : t) : ValidationError.t :=
  mk_error "OBSIDIAN_CONFIG_NOT_DIRECTORY"
    ".obsidian exists but is not a directory" (obsidianPath v).

Section WithJSON.

(** [JSON.parse(text)]: [None] when it returns, [Some e] when it throws [e]. *)
Variable JSON_parse_error : string -> option Error.t.

(** What [readFileSync(path, 'utf-8')] throws on a directory. *)
Definition EISDIR : Error.t :=
  {| Error.name := "Error";
     Error.code := Some "EISDIR";
     Error.message := "EISDIR: illegal operation on a directory, read" |}.

Definition ENOENT (path : string) : Error.t :=
  {| Error.name := "Error";
     Error.code := Some "ENOENT";
     Error.message := "ENOENT: no such file or directory, open '" +:+ path +:+ "'" |}.

(** The error caught by [validateJsonFile], if any. *)
Definition json_file_error (path : string) (o : option Node) : option Error.t :=
  match o with
  | Some (File _ (inr content)) => JSON_parse_error content
  | Some (File _ (inl e)) => Some e
  | Some (Dir _ _) => Some EISDIR
  | Some Broken | None => Some (ENOENT path)
  end.

(** [validateJsonFile(filePath, fileName, errors, warnings)] *)
Definition validateJsonFile (v : t) (filePath : list string) (fileName : string)
    (r : Report) : Report :=
  let path := join_all (vaultPath v) filePath in
  match json_file_error path (at_path v filePath) with
  | None => r
  | Some e =>
      push_error (mk_error "INVALID_JSON"
                    ("Invalid JSON in " +:+ fileName +:+ ": " +:+ Error.message e) path) r
  end.

(** [validateObsidianConfig(errors, warnings, suggestions)] *)
Definition validateObsidianConfig (v : t) (r : Report) : Report :=
  if negb (existsSync v [".obsidian"]) then r
  else
    let appJsonPath := [".obsidian"; "app.json"] in
    let r :=
      if negb (existsSync v appJsonPath) then
        push_warning (mk_warning "APP_JSON_MISSING"
          "app.json not found. Obsidian may not have been properly initialized."
          (Some (join_all (vaultPath v) appJsonPath))
          "Open the vault in Obsidian to generate the configuration file.") r
      else validateJsonFile v appJsonPath "app.json" r in
    let workspaceJsonPath := [".obsidian"; "workspace.json"] in
    let r :=
      if negb (existsSync v workspaceJsonPath) then
        push_warning (mk_warning "WORKSPACE_JSON_MISSING"
          "workspace.json not found. This may indicate the vault has never been opened."
          (Some (join_all (vaultPath v) workspaceJsonPath))
          "Open the vault in Obsidian to generate workspace configuration.") r
      else validateJsonFile v workspaceJsonPath "workspace.json" r in
    let communityPluginsPath := [".obsidian"; "community-plugins.json"] in
    let r :=
      if existsSync v communityPluginsPath then
        let r := validateJsonFile v communityPluginsPath "community-plugins.json" r in
        let pluginsDir := [".obsidian"; "plugins"] in
        if negb (existsSync v pluginsDir) then
          push_warning (mk_warning "PLUGINS_DIRECTORY_MISSING"
            "Community plugins are configured but plugins directory is missing."
            (Some (join_all (vaultPath v) pluginsDir))
            "Install community plugins or disable them in Obsidian settings.") r
        else r
      else r in
    let corePluginsPath := [".obsidian"; "core-plugins.json"] in
    if existsSync v corePluginsPath then
      validateJsonFile v corePluginsPath "core-plugins.json" r
    else r.

Definition problematicPlugins : list string := ["obsidian-git"; "obsidian-sync"].

(** [validatePluginConfig(errors, warnings, suggestions)] *)
Definition validatePluginConfig (v : t) (r : Report) : Report :=
  let pluginsDir := [".obsidian"; "plugins"] in
  if negb (existsSync v pluginsDir) then r
  else
    let htmlExportPluginDir := pluginsDir ++ ["webpage-html-export"] in
    let r :=
      if existsSync v htmlExportPluginDir then
        let dataJsonPath := htmlExportPluginDir ++ ["data.json"] in
        if existsSync v dataJsonPath
        then validateJsonFile v dataJsonPath "HTML Export plugin data.json" r
        else r
      else r in
    fold_left
      (fun r pluginId =>
         let pluginDir := pluginsDir ++ [pluginId] in
         if existsSync v pluginDir then
           push_warning (mk_warning "POTENTIALLY_PROBLEMATIC_PLUGIN"
             ("Plugin " +:+ JS.dquote +:+ pluginId +:+ JS.dquote
              +:+ " detected. This plugin may interfere with Docker exports.")
             (Some (join_all (vaultPath v) pluginDir))
             "Consider disabling this plugin for Docker exports or ensure it doesn't conflict with the export process.") r
         else r)
      problematicPlugins r.

(** [countFilesWithExtension(extension, dir)].  A [statSync] that throws
    leaves the loop through the [catch], keeping the count reached. *)
Fixpoint countFilesWithExtension (extension : string) (dir : Node) : N :=
  match dir with
  | Dir true entries =>
      (fix loop (items : list (string * Node)) : N :=
         match items with
         | [] => 0
         | (item, child) :: rest =>
             match child with
             | Broken => 0
             | Dir _ _ =>
                 (if negb (JS.startsWith item ".")
                  then countFilesWithExtension extension child else 0) + loop rest
             | File _ _ =>
                 (if JS.endsWith item extension then 1 else 0) + loop rest
             end
         end) entries
  | _ => 0
  end%N.

(** The same walk started at a path that may not exist. *)
Definition countFilesWithExtension_at (extension : string) (o : option Node) : N :=
  match o with
  | Some dir => countFilesWithExtension extension dir
  | None => 0%N
  end.

(** [hasFilesWithExtension(extension)] *)
Definition hasFilesWithExtension (v : t) (extension : string) : bool :=
  (0 <? countFilesWithExtension_at extension (root v))%N.

Definition is_broken (n : Node) : bool :=
  match n with Broken => true | _ => false end.
Definition is_file (n : Node) : bool :=
  match n with File _ _ => true | _ => false end.

(** [countFilesInDirectory(dir)] (non-recursive) *)
Definition countFilesInDirectory (o : option Node) : N :=
  match o with
  | Some (Dir true entries) =>
      if existsb (fun e => is_broken (snd e)) entries then 0%N
      else N.of_nat (length (List.filter (fun e => is_file (snd e)) entries))
  | _ => 0%N
  end.

(** [getDirectorySize(dir)] *)
Fixpoint getDirectorySize (dir : Node) : N :=
  match dir with
  | Dir true entries =>
      (fix loop (items : list (string * Node)) : N :=
         match items with
         | [] => 0
         | (item, child) :: rest =>
             match child with
             | Broken => 0
             | Dir _ _ => getDirectorySize child + loop rest
             | File size _ => size + loop rest
             end
         end) entries
  | _ => 0
  end%N.

Definition getDirectorySize_at (o : option Node) : N :=
  match o with
  | Some dir => getDirectorySize dir
  | None => 0%N
  end.

(** [getMaxDirectoryDepth(dir, currentDepth)] *)
Fixpoint getMaxDirectoryDepth (dir : Node) (currentDepth : N) : N :=
  match dir with
  | Dir true entries =>
      (fix loop (items : list (string * Node)) (maxDepth : N) : N :=
         match items with
         | [] => maxDepth
         | (item, child) :: rest =>
             if JS.startsWith item "." then loop rest maxDepth
             else
               match child with
               | Broken => maxDepth
               | Dir _ _ =>
                   loop rest (N.max maxDepth (getMaxDirectoryDepth child (currentDepth + 1)))
               | File _ _ => loop rest maxDepth
               end
         end) entries currentDepth
  | _ => currentDepth
  end%N.

Definition getMaxDirectoryDepth_at (o : option Node) : N :=
  match o with
  | Some dir => getMaxDirectoryDepth dir 0
  | None => 0%N
  end.

(** [findLargeFiles(dir, sizeThreshold)]; [prefix] is the path of [dir]
    below the vault, from which the reported relative path is made. *)
Fixpoint findLargeFiles (prefix : list string) (dir : Node) (sizeThreshold : N)
  : list (string * N) :=
  match dir with
  | Dir true entries =>
      (fix loop (items : list (string * Node)) : list (string * N) :=
         match items with
         | [] => []
         | (item, child) :: rest =>
             if JS.startsWith item "." then loop rest
             else
               match child with
               | Broken => []
               | Dir _ _ =>
                   findLargeFiles (prefix ++ [item]) child sizeThreshold ++ loop rest
               | File size _ =>
                   (if (sizeThreshold <? size)%N
                    then [(relative (prefix ++ [item]), size)] else []) ++ loop rest
               end
         end) entries
  | _ => []
  end.

Definition findLargeFiles_at (o : option Node) (sizeThreshold : N) : list (string * N) :=
  match o with
  | Some dir => findLargeFiles [] dir sizeThreshold
  | None => []
  end.

Definition show_N (n : N) : string := NilEmpty.string_of_uint (N.to_uint n).

(** [(bytes / (1024 * 1024)).toFixed(1)]: the quotient is exact in binary
    floating point, and [toFixed] rounds it to tenths, halves upwards. *)
Definition toFixed1_MB (bytes : N) : string :=
  let tenths := ((bytes * 20 + 1048576) / 2097152)%N in
  show_N (tenths / 10) +:+ "." +:+ show_N (tenths mod 10).

(** [checkForLargeFiles(warnings, suggestions)] *)
Definition checkForLargeFiles (v : t) (r : Report) : Report :=
  let largeFiles := findLargeFiles_at (root v) (50 * 1024 * 1024) in
  if (0 <? length largeFiles)%nat then
    let r :=
      push_warning (mk_warning "LARGE_FILES_DETECTED"
        ("Large files detected (" +:+ JS.show_nat (length largeFiles) +:+ " files > 50MB)")
        None
        "Consider excluding large files from export or optimizing them for web delivery.") r in
    push_suggestions
      (List.map (fun file => "Large file: " +:+ fst file +:+ " (" +:+ toFixed1_MB (snd file) +:+ " MB)")
         largeFiles) r
  else r.

Definition attachmentDirs : list string := ["attachments"; "files"; "images"; "media"].

(** [validateContent(errors, warnings, suggestions)] *)
Definition validateContent (v : t) (r : Report) : Report :=
  let r :=
    if negb (hasFilesWithExtension v ".md") then
      push_warning (mk_warning "NO_MARKDOWN_FILES"
        "No markdown files found in the vault." None
        "Ensure the vault contains .md files to export.") r
    else r in
  let assetsDir := ["assets"] in
  let r :=
    if existsSync v assetsDir then
      let assetCount := countFilesInDirectory (at_path v assetsDir) in
      if (1000 <? assetCount)%N then
        push_warning (mk_warning "LARGE_ASSETS_DIRECTORY"
          ("Large number of assets detected (" +:+ show_N assetCount
           +:+ " files). This may slow down exports.")
          (Some (join_all (vaultPath v) assetsDir))
          "Consider optimizing or organizing assets to improve export performance.") r
      else r
    else r in
  let r :=
    fold_left
      (fun r dirName =>
         let dirPath := [dirName] in
         if existsSync v dirPath then
           let fileCount := countFilesInDirectory (at_path v dirPath) in
           if (500 <? fileCount)%N then
             push_warning (mk_warning "LARGE_ATTACHMENT_DIRECTORY"
               ("Large attachment directory detected: " +:+ dirName +:+ " ("
                +:+ show_N fileCount +:+ " files)")
               (Some (join_all (vaultPath v) dirPath))
               "Consider organizing attachments or using exclude patterns for unused files.") r
           else r
         else r)
      attachmentDirs r in
  checkForLargeFiles v r.

(** [validatePerformance(warnings, suggestions)] *)
Definition validatePerformance (v : t) (r : Report) : Report :=
  let markdownCount := countFilesWithExtension_at ".md" (root v) in
  let r :=
    if (5000 <? markdownCount)%N then
      push_warning (mk_warning "LARGE_VAULT_SIZE"
        ("Large vault detected (" +:+ show_N markdownCount
         +:+ " markdown files). Export may take significant time.")
        None
        "Consider using exclude patterns to limit the scope of the export or enable incremental exports.") r
    else r in
  let vaultSize := getDirectorySize_at (root v) in
  let r :=
    if (1000 * (1024 * 1024) <? vaultSize)%N then
      push_warning (mk_warning "LARGE_VAULT_DISK_SIZE"
        ("Large vault size detected (" +:+ toFixed1_MB vaultSize +:+ " MB).")
        None
        "Consider excluding large files or directories that are not needed for the web export.") r
    else r in
  let maxDepth := getMaxDirectoryDepth_at (root v) in
  if (10 <? maxDepth)%N then
    push_warning (mk_warning "DEEP_DIRECTORY_STRUCTURE"
      ("Deep directory structure detected (" +:+ show_N maxDepth +:+ " levels deep).")
      None
      "Consider flattening the directory structure for better web navigation.") r
  else r.

Definition is_error (e : ValidationError.t) : bool :=
  match ValidationError.severity e with
  | ValidationError.error => true
  | ValidationError.warning => false
  end.

(** [validateVault()] *)
Definition validateVault (v : t) : ValidationResult.t :=
  let r := empty_report in
  let r := validateBasicStructure v r in
  let r := validateObsidianConfig v r in
  let r := validatePluginConfig v r in
  let r := validateContent v r in
  let r := validatePerformance v r in
  let isValid := (length (List.filter is_error (errors r)) =? 0)%nat in
  {| ValidationResult.isValid := isValid;
     ValidationResult.errors := errors r;
     ValidationResult.warnings := warnings r;
     ValidationResult.suggestions := suggestions r |}.

(** The error [validateJsonFile] adds for the file at [filePath]. *)
Definition json_errors (v : t) (filePath : list string) (fileName : string)
  : list ValidationError.t :=
  let path := join_all (vaultPath v) filePath in
  match json_file_error path (at_path v filePath) with
  | None => []
  | Some e =>
      [mk_error "INVALID_JSON" ("Invalid JSON in " +:+ fileName +:+ ": " +:+ Error.message e) path]
  end.

(** The errors reported for the file at [filePath], which is checked only
    when it exists. *)
Definition invalid_json (v : t) (filePath : list string) (fileName : string)
  : list ValidationError.t :=
  if existsSync v filePath then json_errors v filePath fileName else [].

(** The file at [filePath] is absent, or it can be read and parsed. *)
Definition absent_or_parses (v : t) (filePath : list string) : bool :=
  negb (existsSync v filePath)
  || match json_file_error (join_all (vaultPath v) filePath) (at_path v filePath) with
     | None => true
     | Some _ => false
     end.

End WithJSON.

(** No name on the path begins with a dot. *)
Definition visible (p : list string) : Prop :=
  Forall (fun item => JS.startsWith item "." = false) p.

(** The configuration files whose JSON the validator checks, each with the
    name it is reported under. *)
Definition checked_json_files : list (list string * string) :=
  [ ([".obsidian"; "app.json"], "app.json");
    ([".obsidian"; "workspace.json"], "workspace.json");
    ([".obsidian"; "community-plugins.json"], "community-plugins.json");
    ([".obsidian"; "core-plugins.json"], "core-plugins.json");
    ([".obsidian"; "plugins"; "webpage-html-export"; "data.json"],
     "HTML Export plugin data.json") ].

(** The codes of the errors the validator reports. *)
Definition error_codes : list string :=
  [ "VAULT_NOT_FOUND"; "VAULT_NOT_DIRECTORY";
    "OBSIDIAN_CONFIG_MISSING"; "OBSIDIAN_CONFIG_NOT_DIRECTORY"; "INVALID_JSON" ].

End VaultValidator.

(* ===================================================================== *)
(** * Effects: mutable state and exceptions *)
(* ===================================================================== *)

Module Eff.

(** A computation over a state [S] that returns a value or throws. *)
Definition M (S A : Type) : Type := S -> (Error.t + A) * S.

Definition ret {S A} (a : A) : M S A := fun s => (inr a, s).

Definition bind {S A B} (m : M S A) (k : A -> M S B) : M S B :=
  fun s =>
    match m s with
    | (inr a, s') => k a s'
    | (inl e, s') => (inl e, s')
    end.

Definition throw {S A} (e : Error.t) : M S A := fun s => (inl e, s).

Definition modify {S} (f : S -> S) : M S unit := fun s => (inr tt, f s).

(** [try { m } catch (error) { h error }] *)
Definition try_catch {S A} (m : M S A) (h : Error.t -> M S A) : M S A :=
  fun s =>
    match m s with
    | (inr a, s') => (inr a, s')
    | (inl e, s') => h e s'
    end.

(** [try { m } finally { f }]: [f] runs on every way out of [m]; when [f]
    itself throws, that error replaces the outcome of [m]. *)
Definition try_finally {S A} (m : M S A) (f : M S unit) : M S A :=
  fun s =>
    match m s with
    | (r, s') =>
        match f s' with
        | (inr _, s'') => (r, s'')
        | (inl e, s'') => (inl e, s'')
        end
    end.

(** [for (const x of xs) { body x }] *)
Fixpoint for_each {S A} (xs : list A) (body : A -> M S unit) : M S unit :=
  match xs with
  | [] => ret tt
  | x :: rest => bind (body x) (fun _ => for_each rest body)
  end.

Definition when {S} (b : bool) (m : M S unit) : M S unit :=
  if b then m else ret tt.

(** The value a run returned, if it returned. *)
Definition value_of {S A} (r : (Error.t + A) * S) : option A :=
  match r with
  | (inr a, _) => Some a
  | (inl _, _) => None
  end.

(** [m] never throws, and every value it returns satisfies [Q]. *)
Definition yields {S A} (m : M S A) (Q : A -> Prop) : Prop :=
  forall s, exists a s', m s = (inr a, s') /\ Q a.

(** [m] never throws. *)
Definition total {S A} (m : M S A) : Prop := yields m (fun _ => True).

End Eff.

Notation "x <- m ;; k" := (Eff.bind m (fun x => k))
  (at level 100, m at next level, right associativity, only parsing).
Notation "m ;;; k" := (Eff.bind m (fun _ => k))
  (at level 100, right associativity, only parsing).

(* ===================================================================== *)
(** * docker/docker-logger.ts *)
(* ===================================================================== *)

Module LogLevel.

Inductive t : Type := DEBUG | INFO | WARN | ERROR.

(** The numeric value of each member of the enum. *)
Definition value (l : t) : N :=
  match l with
  | DEBUG => 0
  | INFO => 1
  | WARN => 2
  | ERROR => 3
  end.

Definition ltb (a b : t) : bool := (value a <? value b)%N.
Definition leb (a b : t) : bool := (value a <=? value b)%N.
Definition eqb (a b : t) : bool := (value a =? value b)%N.

End LogLevel.

Module DockerLogger.

Record TroubleshootingInfo : Type := {
  errorCode : string;
  description : string;
  possibleCauses : list string;
  solutions : list string;
  documentationLinks : option (list string)
}.

(** Values stored in a log entry's [context]. *)
Inductive Value : Type :=
| VString (s : string)
| VOptString (s : option string)
| VNumber (n : Z)
| VBoolean (b : bool)
| VStrings (l : list string)
| VDuration (ms : Z)                 (* [formatDuration(ms)] *)
| VTroubleshooting (info : TroubleshootingInfo).

Definition Context : Type := list (string * Value).

(** A number that is an integer, an infinity or [NaN]: the values
    [Math.round] returns. *)
Inductive Number : Type :=
| Integer (z : Z)
| Infinity
| NegInfinity
| NaN.

(** A number in a template literal. *)
Definition show_Number (n : Number) : string :=
  match n with
  | Integer z => JS.show_Z z
  | Infinity => "Infinity"
  | NegInfinity => "-Infinity"
  | NaN => "NaN"
  end.

Record ProgressInfo : Type := {
  current : Z;
  total : Z;
  stage : string;
  percentage : Number
}.

(** [LogEntry]; [timestamp] is the instant whose ISO rendering is stored. *)
Record LogEntry : Type := {
  timestamp : Z;
  level : LogLevel.t;
  message : string;
  context : option Context;
  error : option Error.t;
  duration : option Z;
  progress : option ProgressInfo
}.

Record t : Type := {
  logLevel : LogLevel.t;
  isCI : bool;
  startTime : Z;
  logEntries : list LogEntry
}.

(** [generateSummaryReport()]: the data its text is rendered from. *)
Record SummaryReport : Type := {
  totalDuration : Z;
  errorEntries : list LogEntry;
  warningEntries : list LogEntry
}.

Definition errorCount (r : SummaryReport) : nat := length (errorEntries r).
Definition warningCount (r : SummaryReport) : nat := length (warningEntries r).
(** The [Status:] line: [SUCCESS] ([true]) or [FAILED]. *)
Definition status (r : SummaryReport) : bool := (errorCount r =? 0)%nat.

Inductive Stream : Type := console_log | console_warn | console_error.

(** What is written to the console. *)
Inductive ConsoleEvent : Type :=
| Line (stream : Stream) (entry : LogEntry)    (* the formatted line of [outputLog] *)
| ErrorStack (entry : LogEntry)                (* [console.error(entry.error.stack)] *)
| ContextDump (entry : LogEntry)               (* [console.log('  Context:', ...)] *)
| CIAnnotation (entry : LogEntry)              (* [console.log(`::level::json`)] *)
| TroubleshootingBlock (info : TroubleshootingInfo)
| SummaryPrinted (report : SummaryReport)
| ValidationReportPrinted (result : ValidationResult.t)
| WarnText (text : string).                    (* a plain [console.warn(text)] *)

(** The process as the logger and its callers see it: the singleton
    logger, the console, and how often the clock has been read. *)
Record Process : Type := {
  logger : t;
  console : list ConsoleEvent;
  ticks : nat
}.

(** [parseLogLevel(level)] *)
Definition parseLogLevel (level : string) : LogLevel.t :=
  let u := JS.toUpperCase level in
  if String.eqb u "DEBUG" then LogLevel.DEBUG
  else if String.eqb u "INFO" then LogLevel.INFO
  else if String.eqb u "WARN" then LogLevel.WARN
  else if String.eqb u "ERROR" then LogLevel.ERROR
  else LogLevel.INFO.

(** [!!process.env.X] *)
Definition env_set (env : gmap string string) (x : string) : bool :=
  JS.truthy_opt (env !! x).

(** [detectCIEnvironment()] *)
Definition detectCIEnvironment (env : gmap string string) : bool :=
  env_set env "CI" || env_set env "GITHUB_ACTIONS" || env_set env "GITLAB_CI"
  || env_set env "JENKINS_URL" || env_set env "BUILDKITE" || env_set env "CIRCLECI".

(** [process.env.LOG_LEVEL || 'INFO'] *)
Definition LOG_LEVEL_or_INFO (env : gmap string string) : string :=
  match env !! "LOG_LEVEL" with
  | Some s => if JS.truthy s then s else "INFO"
  | None => "INFO"
  end.

(** The private constructor, run at time [now]. *)
Definition new (env : gmap string string) (now : Z) : t :=
  {| logLevel := parseLogLevel (LOG_LEVEL_or_INFO env);
     isCI := detectCIEnvironment env;
     startTime := now;
     logEntries := [] |}.

(** [getInstance()]: [instance] is the static field, [None] before the
    first call.  Returns the logger and the new value of the field. *)
Definition getInstance (env : gmap string string) (now : Z) (instance : option t)
  : t * option t :=
  match instance with
  | Some lg => (lg, Some lg)
  | None => let lg := new env now in (lg, Some lg)
  end.

(** [s.repeat(count)] throws a RangeError when the count is negative or
    infinite, and when the result would be longer than the longest string:
    [2^29 - 24] code units, the limit of V8 on a 64-bit platform. *)
Definition RangeError (count : string) : Error.t :=
  {| Error.name := "RangeError";
     Error.code := None;
     Error.message := "Invalid count value: " +:+ count |}.

Definition MAX_STRING_LENGTH : Z := 536870888.

Definition InvalidStringLength : Error.t :=
  {| Error.name := "RangeError";
     Error.code := None;
     Error.message := "Invalid string length" |}.

Fixpoint copies (n : nat) (s : string) : string :=
  match n with
  | O => EmptyString
  | S n' => s +:+ copies n' s
  end.

Definition repeat_string (s : string) (count : Z) : Error.t + string :=
  if (count <? 0)%Z then inl (RangeError (JS.show_Z count))
  else if (MAX_STRING_LENGTH <? count * Z.of_nat (JS.code_unit_length s))%Z
       then inl InvalidStringLength
  else inr (copies (Z.to_nat count) s).

(** [Math.round((percentage / 100) * 20)] for an integer percentage: a
    fifth of an integer is never within a tenth of a half, so the rounding
    of the floating point product is the rounding of the exact one. *)
Definition filled_cells (percentage : Z) : Z := ((2 * percentage + 5) / 10)%Z.

(** [generateProgressBar(percentage)], the width being its default, 20.
    The two [repeat] calls are evaluated from left to right, so a bar that
    would be too long is refused before the negative count of spaces is.
    With an infinite percentage the first count is infinite; with [NaN]
    both counts are [NaN], which [repeat] takes as 0. *)
Definition generateProgressBar (percentage : Number) : Error.t + string :=
  match percentage with
  | Integer p =>
      let width := 20%Z in
      let filled := filled_cells p in
      let empty := (width - filled)%Z in
      match repeat_string "█" filled with
      | inl e => inl e
      | inr bar =>
          match repeat_string " " empty with
          | inl e => inl e
          | inr space => inr ("[" +:+ bar +:+ space +:+ "] " +:+ JS.show_Z p +:+ "%")
          end
      end
  | Infinity => inl (RangeError "Infinity")
  | NegInfinity => inl (RangeError "-Infinity")
  | NaN => inr "[] NaN%"
  end.

Section Methods.

(** [Date.now()]: the [k]-th reading of the clock. *)
Variable Date_now : nat -> Z.

Definition now : Eff.M Process Z :=
  fun p => (inr (Date_now (ticks p)),
            {| logger := logger p; console := console p; ticks := S (ticks p) |}).

Definition write (ev : ConsoleEvent) : Eff.M Process unit :=
  Eff.modify (fun p =>
    {| logger := logger p; console := console p ++ [ev]; ticks := ticks p |}).

(** [this.logEntries.push(entry)] *)
Definition push_entry (entry : LogEntry) : Eff.M Process unit :=
  Eff.modify (fun p =>
    {| logger := {| logLevel := logLevel (logger p); isCI := isCI (logger p);
                    startTime := startTime (logger p);
                    logEntries := logEntries (logger p) ++ [entry] |};
       console := console p; ticks := ticks p |}).

Definition this : Eff.M Process t := fun p => (inr (logger p), p).

(** [if (entry.progress) { const progressBar = this.generateProgressBar(...) }],
    which throws what [generateProgressBar] throws. *)
Definition draw_progress (entry : LogEntry) : Eff.M Process unit :=
  match progress entry with
  | Some info =>
      match generateProgressBar (percentage info) with
      | inl e => Eff.throw e
      | inr _ => Eff.ret tt
      end
  | None => Eff.ret tt
  end.

(** [outputLog(entry)]: the text of the line is put together, progress bar
    included, before anything is written. *)
Definition outputLog (entry : LogEntry) : Eff.M Process unit :=
  lg <- this ;;
  draw_progress entry ;;;
  match level entry with
  | LogLevel.ERROR =>
      write (Line console_error entry) ;;;
      Eff.when (bool_decide (is_Some (error entry)) && LogLevel.leb (logLevel lg) LogLevel.DEBUG)
        (write (ErrorStack entry))
  | LogLevel.WARN => write (Line console_warn entry)
  | _ => write (Line console_log entry)
  end ;;;
  Eff.when (bool_decide (is_Some (context entry)) && LogLevel.leb (logLevel lg) LogLevel.DEBUG)
    (write (ContextDump entry)) ;;;
  Eff.when (isCI lg && LogLevel.leb LogLevel.WARN (level entry))
    (write (CIAnnotation entry)).

(** [log(level, message, context, error, progress, duration)] *)
Definition log (level : LogLevel.t) (message : string) (context : option Context)
    (error : option Error.t) (progress : option ProgressInfo) (duration : option Z)
  : Eff.M Process unit :=
  lg <- this ;;
  if LogLevel.ltb level (logLevel lg) then Eff.ret tt
  else
    ts <- now ;;
    let entry := {| timestamp := ts; level := level; message := message;
                    context := context; error := error;
                    duration := duration; progress := progress |} in
    push_entry entry ;;;
    outputLog entry.

Definition debug (message : string) (context : option Context) : Eff.M Process unit :=
  log LogLevel.DEBUG message context None None None.

Definition info (message : string) (context : option Context) : Eff.M Process unit :=
  log LogLevel.INFO message context None None None.

Definition warn (message : string) (context : option Context) : Eff.M Process unit :=
  log LogLevel.WARN message context None None None.

Definition error_ (message : string) (error : option Error.t) (context : option Context)
  : Eff.M Process unit :=
  log LogLevel.ERROR message context error None None.

(** [Math.round((current / total) * 100)], computed in floating point: an
    integer, or an infinity or [NaN] when [total] is 0. *)
Variable round_percentage : Z -> Z -> Number.

(** [`${stage}: ${current}/${total} (${percentage}%)`] *)
Definition progress_message (stage : string) (current total : Z) (percentage : Number)
  : string :=
  stage +:+ ": " +:+ JS.show_Z current +:+ "/" +:+ JS.show_Z total
  +:+ " (" +:+ show_Number percentage +:+ "%)".

(** [progress(stage, current, total, message?)] *)
Definition progress_ (stage : string) (current total : Z) (message : option string)
  : Eff.M Process unit :=
  let percentage := round_percentage current total in
  let progressInfo := {| current := current; total := total; stage := stage;
                         percentage := percentage |} in
  let progressMessage :=
    match message with
    | Some m => if JS.truthy m then m else progress_message stage current total percentage
    | None => progress_message stage current total percentage
    end in
  log LogLevel.INFO progressMessage None None (Some progressInfo) None.

(** [{ ...context, operationId }] *)
Definition with_operationId (context : option Context) (operationId : Z) : Context :=
  default [] context ++ [("operationId", VNumber operationId)].

(** [startOperation(operation, context)] *)
Definition startOperation (operation : string) (context : option Context)
  : Eff.M Process Z :=
  operationId <- now ;;
  info ("Starting: " +:+ operation) (Some (with_operationId context operationId)) ;;;
  Eff.ret operationId.

(** [endOperation(operation, operationId, context)] *)
Definition endOperation (operation : string) (operationId : Z) (context : option Context)
  : Eff.M Process unit :=
  t1 <- now ;;
  let duration := (t1 - operationId)%Z in
  log LogLevel.INFO ("Completed: " +:+ operation)
    (Some (with_operationId context operationId)) None None (Some duration).

(** [errorWithTroubleshooting(message, troubleshooting, error?)] *)
Definition errorWithTroubleshooting (message : string) (troubleshooting : TroubleshootingInfo)
    (error : option Error.t) : Eff.M Process unit :=
  error_ message error (Some [("troubleshooting", VTroubleshooting troubleshooting)]) ;;;
  lg <- this ;;
  Eff.when (isCI lg) (write (TroubleshootingBlock troubleshooting)).

Definition has_level (l : LogLevel.t) (entry : LogEntry) : bool :=
  LogLevel.eqb (level entry) l.

(** The report computed from a logger at time [t1]. *)
Definition summary_of (lg : t) (t1 : Z) : SummaryReport :=
  {| totalDuration := (t1 - startTime lg)%Z;
     errorEntries := List.filter (has_level LogLevel.ERROR) (logEntries lg);
     warningEntries := List.filter (has_level LogLevel.WARN) (logEntries lg) |}.

(** [generateSummaryReport()] *)
Definition generateSummaryReport : Eff.M Process SummaryReport :=
  t1 <- now ;;
  lg <- this ;;
  Eff.ret (summary_of lg t1).

End Methods.


(** The stream [outputLog] writes the line of an entry to. *)
Definition stream_of (l : LogLevel.t) : Stream :=
  match l with
  | LogLevel.ERROR => console_error
  | LogLevel.WARN => console_warn
  | _ => console_log
  end.

(** What [outputLog] writes for an entry, by a logger with the given level
    and CI flag: the line, then the optional stack, context and annotation. *)
Definition console_output (lg : DockerLogger.t) (entry : LogEntry) : list ConsoleEvent :=
  [Line (stream_of (level entry)) entry]
  ++ (if LogLevel.eqb (level entry) LogLevel.ERROR
         && bool_decide (is_Some (error entry)) && LogLevel.leb (logLevel lg) LogLevel.DEBUG
      then [ErrorStack entry] else [])
  ++ (if bool_decide (is_Some (context entry)) && LogLevel.leb (logLevel lg) LogLevel.DEBUG
      then [ContextDump entry] else [])
  ++ (if isCI lg && LogLevel.leb LogLevel.WARN (level entry)
      then [CIAnnotation entry] else []).

(** The progress bar of an entry can be drawn: the entry has no progress
    information, or [generateProgressBar] returns for its percentage. *)
Definition drawable (progress : option ProgressInfo) : bool :=
  match progress with
  | Some info =>
      match generateProgressBar (percentage info) with
      | inl _ => false
      | inr _ => true
      end
  | None => true
  end.

(** The logger after [this.logEntries.push(entry)]. *)
Definition with_entry (lg : DockerLogger.t) (entry : LogEntry) : DockerLogger.t :=
  {| logLevel := logLevel lg; isCI := isCI lg; startTime := startTime lg;
     logEntries := logEntries lg ++ [entry] |}.

(** The entry whose line an event writes. *)
Definition line_entry (ev : ConsoleEvent) : option LogEntry :=
  match ev with Line _ e => Some e | _ => None end.

(** [LogLevel[level]]: the name of a member of the enum. *)
Definition level_name (l : LogLevel.t) : string :=
  match l with
  | LogLevel.DEBUG => "DEBUG"
  | LogLevel.INFO => "INFO"
  | LogLevel.WARN => "WARN"
  | LogLevel.ERROR => "ERROR"
  end.

(** [p'] has the level, CI flag and start time of [p], and holds what [p]
    had logged and written, possibly with more after it. *)
Definition extends (p p' : Process) : Prop :=
  logLevel (logger p') = logLevel (logger p)
  /\ isCI (logger p') = isCI (logger p)
  /\ startTime (logger p') = startTime (logger p)
  /\ (exists new, logEntries (logger p') = logEntries (logger p) ++ new)
  /\ (exists lines, console p' = console p ++ lines).


(** The object [exportLogsAsJSON] renders: its instants are carried as
    numbers, its entries as they are stored. *)
Record LogExport : Type := {
  export_startTime : Z;
  export_endTime : Z;
  export_duration : Z;
  totalEntries : nat;
  export_errorCount : nat;
  export_warningCount : nat;
  export_success : bool;
  entries : list LogEntry
}.

Section JsonExport.
Variable Date_now : nat -> Z.

(** [exportLogsAsJSON()] *)
Definition exportLogsAsJSON : Eff.M Process LogExport :=
  lg <- this ;;
  endTime <- now Date_now ;;
  t1 <- now Date_now ;;
  Eff.ret {| export_startTime := startTime lg;
             export_endTime := endTime;
             export_duration := (t1 - startTime lg)%Z;
             totalEntries := length (logEntries lg);
             export_errorCount :=
               length (List.filter (has_level LogLevel.ERROR) (logEntries lg));
             export_warningCount :=
               length (List.filter (has_level LogLevel.WARN) (logEntries lg));
             export_success :=
               (length (List.filter (has_level LogLevel.ERROR) (logEntries lg)) =? 0)%nat;
             entries := logEntries lg |}.
End JsonExport.

End DockerLogger.

(** [DockerTroubleshooting] *)
Module DockerTroubleshooting.
Import DockerLogger.

Definition VAULT_NOT_FOUND : TroubleshootingInfo := {|
  errorCode := "VAULT_NOT_FOUND";
  description := "The specified vault directory could not be found";
  possibleCauses :=
    [ "Incorrect vault path specified";
      "Vault directory not mounted in Docker container";
      "Permission issues accessing the vault directory" ];
  solutions :=
    [ "Verify the vault path is correct";
      "Ensure the vault directory is properly mounted with -v flag";
      "Check file permissions and ownership";
      "Use absolute paths when mounting volumes" ];
  documentationLinks := Some
    [ "https://docs.docker.com/storage/volumes/";
      "https://github.com/KosmosisDire/obsidian-webpage-export/blob/master/docs/docker-automation-guide.md" ]
|}.

Definition INVALID_OBSIDIAN_VAULT : TroubleshootingInfo := {|
  errorCode := "INVALID_OBSIDIAN_VAULT";
  description := "The directory does not appear to be a valid Obsidian vault";
  possibleCauses :=
    [ "Missing .obsidian configuration directory";
      "Vault has never been opened in Obsidian";
      "Corrupted vault configuration" ];
  solutions :=
    [ "Open the vault in Obsidian to initialize configuration";
      "Check that .obsidian directory exists and contains app.json";
      "Create a new vault and copy content if configuration is corrupted" ];
  documentationLinks := None
|}.

Definition PERMISSION_DENIED : TroubleshootingInfo := {|
  errorCode := "PERMISSION_DENIED";
  description := "Permission denied when accessing vault files";
  possibleCauses :=
    [ "Docker container running with insufficient permissions";
      "File ownership issues between host and container";
      "SELinux or AppArmor restrictions" ];
  solutions :=
    [ "Run Docker with --user flag matching host user";
      "Use chown to fix file ownership issues";
      "Add :Z flag to volume mounts for SELinux systems";
      "Check Docker daemon permissions" ];
  documentationLinks := None
|}.

Definition OUT_OF_MEMORY : TroubleshootingInfo := {|
  errorCode := "OUT_OF_MEMORY";
  description := "Export process ran out of memory";
  possibleCauses :=
    [ "Vault is very large with many files";
      "Large images or attachments consuming memory";
      "Docker container memory limit too low" ];
  solutions :=
    [ "Increase Docker container memory limit with --memory flag";
      "Use exclude patterns to reduce export scope";
      "Enable image optimization to reduce memory usage";
      "Process vault in smaller batches" ];
  documentationLinks := None
|}.

End DockerTroubleshooting.

(* ===================================================================== *)
(** * docker/enhanced-docker-integration.ts *)
(* ===================================================================== *)

(** [Partial<WebConfig>]: every top-level property may be absent. *)
Module PartialWebConfig.
Record t : Type := {
  version : option string;
  site : option WebConfig.Site;
  features : option WebConfig.Features;
  seo : option WebConfig.Seo;
  advanced : option WebConfig.Advanced
}.
End PartialWebConfig.

Module DockerExportOptions.
Record t : Type := {
  vaultPath : string;
  outputPath : string;
  configOverrides : option PartialWebConfig.t;
  validateVault : option bool;
  logLevel : option string
}.
End DockerExportOptions.

Module DockerExportResult.
Record t : Type := {
  success : bool;
  outputPath : string;
  duration : Z;
  filesGenerated : Z;
  warnings : list string;
  errors : list string;
  validationResult : option ValidationResult.t
}.
End DockerExportResult.

Module EnhancedDockerIntegration.
Import DockerLogger.

(** What the process is given by its host. *)
Record Host : Type := {
  env : gmap string string;                   (* [process.env] *)
  argv : list string;                         (* [process.argv.slice(2)] *)
  Date_now : nat -> Z;                        (* successive readings of the clock *)
  round_percentage : Z -> Z -> Number;        (* floating point rounding of a ratio *)
  URL_parses : string -> bool;                (* [new URL(s)] returns *)
  JSON_parse_meta : string -> DockerConfigLoader.JsonParse;
  JSON_parse_error : string -> option Error.t;
  path_resolve : string -> string;            (* [path.resolve(p)] *)
  fs : string -> option FS.Node               (* what is found at an absolute path *)
}.

(** [Object.assign(config, overrides)]: every own property of [overrides]
    is assigned to the property of the same name of [config]. *)
Definition Object_assign (config : WebConfig.t) (overrides : PartialWebConfig.t) : WebConfig.t :=
  let config := match PartialWebConfig.version overrides with
                | Some v => WebConfig.set_version v config | None => config end in
  let config := match PartialWebConfig.site overrides with
                | Some v => WebConfig.set_site v config | None => config end in
  let config := match PartialWebConfig.features overrides with
                | Some v => WebConfig.set_features v config | None => config end in
  let config := match PartialWebConfig.seo overrides with
                | Some v => WebConfig.set_seo v config | None => config end in
  let config := match PartialWebConfig.advanced overrides with
                | Some v => WebConfig.set_advanced v config | None => config end in
  config.

(** The merge the specification describes for the overrides: a section
    given by the caller is merged into the earlier section property by
    property, so a property the caller leaves out keeps its earlier value. *)
Definition keep_earlier {A} (earlier given : option A) : option A :=
  match given with
  | Some v => Some v
  | None => earlier
  end.

Definition deep_merge_as_specified (config : WebConfig.t) (overrides : PartialWebConfig.t)
  : WebConfig.t :=
  {| WebConfig.version := default (WebConfig.version config) (PartialWebConfig.version overrides);
     WebConfig.site :=
       match PartialWebConfig.site overrides with
       | Some s =>
           {| WebConfig.name := WebConfig.name s;
              WebConfig.description := WebConfig.description s;
              WebConfig.url := WebConfig.url s;
              WebConfig.favicon :=
                keep_earlier (WebConfig.favicon (WebConfig.site config)) (WebConfig.favicon s) |}
       | None => WebConfig.site config
       end;
     WebConfig.features := default (WebConfig.features config) (PartialWebConfig.features overrides);
     WebConfig.seo :=
       match PartialWebConfig.seo overrides with
       | Some s =>
           {| WebConfig.googleAnalyticsId :=
                keep_earlier (WebConfig.googleAnalyticsId (WebConfig.seo config))
                  (WebConfig.googleAnalyticsId s);
              WebConfig.customMetaTags :=
                keep_earlier (WebConfig.customMetaTags (WebConfig.seo config))
                  (WebConfig.customMetaTags s);
              WebConfig.generateSitemap := WebConfig.generateSitemap s;
              WebConfig.generateRobotsTxt := WebConfig.generateRobotsTxt s |}
       | None => WebConfig.seo config
       end;
     WebConfig.advanced :=
       match PartialWebConfig.advanced overrides with
       | Some a =>
           {| WebConfig.customCSS :=
                keep_earlier (WebConfig.customCSS (WebConfig.advanced config))
                  (WebConfig.customCSS a);
              WebConfig.excludePatterns := WebConfig.excludePatterns a;
              WebConfig.imageOptimization := WebConfig.imageOptimization a;
              WebConfig.generateResponsiveImages := WebConfig.generateResponsiveImages a;
              WebConfig.slugifyPaths := WebConfig.slugifyPaths a;
              WebConfig.offlineResources := WebConfig.offlineResources a |}
       | None => WebConfig.advanced config
       end |}.

(** [Object.keys(config.features).filter(key => config.features[key]).length] *)
Definition featuresEnabled (f : WebConfig.Features) : nat :=
  length (List.filter (fun b : bool => b)
    [ WebConfig.search f; WebConfig.graphView f; WebConfig.navigation f;
      WebConfig.themeToggle f; WebConfig.backlinks f; WebConfig.tags f;
      WebConfig.outline f; WebConfig.sidebar f ]).

Section Integration.

Variable h : Host.

Abbreviation P := (Eff.M Process).

(** [await this.delay(ms)]: time passes; the clock readings are the host's. *)
Definition delay (ms : Z) : P unit := Eff.ret tt.

(** [loadConfiguration(overrides)] *)
Definition loadConfiguration (overrides : option PartialWebConfig.t) : P WebConfig.t :=
  let '(config, lines) :=
    DockerConfigLoader.loadFromEnvironment (JSON_parse_meta h) (env h) in
  Eff.for_each lines (fun line => write (WarnText line)) ;;;
  let config := match overrides with
                | Some o => Object_assign config o
                | None => config
                end in
  let errors := DockerConfigLoader.validateEnvironmentConfig (URL_parses h) config in
  Eff.when (0 <? length errors)%nat
    (warn (Date_now h) "Configuration validation warnings:" (Some [("errors", VStrings errors)]) ;;;
     Eff.for_each errors (fun error => warn (Date_now h) ("Config: " +:+ error) None)) ;;;
  debug (Date_now h) "Loaded configuration"
    (Some [ ("siteName", VString (WebConfig.name (WebConfig.site config)));
            ("siteUrl", VString (WebConfig.url (WebConfig.site config)));
            ("featuresEnabled", VNumber (Z.of_nat (featuresEnabled (WebConfig.features config))));
            ("excludePatterns",
             VNumber (Z.of_nat (length (WebConfig.excludePatterns (WebConfig.advanced config))))) ]) ;;;
  Eff.ret config.

(** [new VaultValidator(vaultPath)] *)
Definition new_VaultValidator (vaultPath : string) : VaultValidator.t :=
  {| VaultValidator.vaultPath := path_resolve h vaultPath;
     VaultValidator.root := fs h (path_resolve h vaultPath) |}.

(** [validateVault(vaultPath)] *)
Definition validateVault (vaultPath : string) : P ValidationResult.t :=
  let validator := new_VaultValidator vaultPath in
  let result := VaultValidator.validateVault (JSON_parse_error h) validator in
  debug (Date_now h) "Vault validation completed"
    (Some [ ("isValid", VBoolean (ValidationResult.isValid result));
            ("errorCount", VNumber (Z.of_nat (length (ValidationResult.errors result))));
            ("warningCount", VNumber (Z.of_nat (length (ValidationResult.warnings result)))) ]) ;;;
  lg <- this ;;
  Eff.when (LogLevel.value (logLevel lg) <=? 0)%N
    (write (ValidationReportPrinted result)) ;;;
  Eff.ret result.

(** [performExport(vaultPath, outputPath, config)] *)
Definition performExport (vaultPath outputPath : string) (config : WebConfig.t)
  : P DockerExportResult.t :=
  let progress := progress_ (Date_now h) (round_percentage h) in
  Eff.try_catch
    (progress "Initializing" 0%Z 100%Z None ;;;
     delay 500%Z ;;;
     progress "Processing vault" 20%Z 100%Z None ;;;
     delay 1000%Z ;;;
     progress "Optimizing assets" 40%Z 100%Z None ;;;
     delay 1500%Z ;;;
     progress "Generating pages" 60%Z 100%Z None ;;;
     delay 2000%Z ;;;
     progress "Creating search index" 80%Z 100%Z None ;;;
     delay 1000%Z ;;;
     progress "Finalizing export" 100%Z 100%Z None ;;;
     delay 500%Z ;;;
     Eff.ret {| DockerExportResult.success := true;
                DockerExportResult.outputPath := outputPath;
                DockerExportResult.duration := 0%Z;
                DockerExportResult.filesGenerated := 150%Z;
                DockerExportResult.warnings := [];
                DockerExportResult.errors := [];
                DockerExportResult.validationResult := None |})
    (fun error =>
       Eff.ret {| DockerExportResult.success := false;
                  DockerExportResult.outputPath := outputPath;
                  DockerExportResult.duration := 0%Z;
                  DockerExportResult.filesGenerated := 0%Z;
                  DockerExportResult.warnings := [];
                  DockerExportResult.errors := [Error.message error];
                  DockerExportResult.validationResult := None |}).

(** The three private methods [exportForDocker] calls inside its [try]. *)
Record Steps : Type := {
  step_loadConfiguration : option PartialWebConfig.t -> P WebConfig.t;
  step_validateVault : string -> P ValidationResult.t;
  step_performExport : string -> string -> WebConfig.t -> P DockerExportResult.t
}.

(** The body of the [try] block of [exportForDocker]. *)
Definition exportForDocker_try (steps : Steps) (options : DockerExportOptions.t)
    (startTime operationId : Z) : P DockerExportResult.t :=
  info (Date_now h) "Loading configuration from environment variables" None ;;;
  config <- step_loadConfiguration steps (DockerExportOptions.configOverrides options) ;;
  (* [inl r]: the function returns [r] here; [inr v]: it goes on with [v] *)
  validated <-
    (if negb (bool_decide (DockerExportOptions.validateVault options = Some false)) then
       info (Date_now h) "Validating vault structure and configuration" None ;;;
       validationResult <- step_validateVault steps (DockerExportOptions.vaultPath options) ;;
       if negb (ValidationResult.isValid validationResult) then
         let errorMessage := "Vault validation failed - cannot proceed with export" in
         errorWithTroubleshooting (Date_now h) errorMessage
           DockerTroubleshooting.INVALID_OBSIDIAN_VAULT None ;;;
         t1 <- now (Date_now h) ;;
         Eff.ret (inl
           {| DockerExportResult.success := false;
              DockerExportResult.outputPath := DockerExportOptions.outputPath options;
              DockerExportResult.duration := (t1 - startTime)%Z;
              DockerExportResult.filesGenerated := 0%Z;
              DockerExportResult.warnings :=
                List.map ValidationWarning.message (ValidationResult.warnings validationResult);
              DockerExportResult.errors :=
                List.map ValidationError.message (ValidationResult.errors validationResult);
              DockerExportResult.validationResult := Some validationResult |})
       else
         Eff.when (0 <? length (ValidationResult.warnings validationResult))%nat
           (warn (Date_now h)
              ("Vault validation completed with "
               +:+ JS.show_nat (length (ValidationResult.warnings validationResult))
               +:+ " warnings") None ;;;
            Eff.for_each (ValidationResult.warnings validationResult)
              (fun warning =>
                 warn (Date_now h)
                   ("[" +:+ ValidationWarning.code warning +:+ "] "
                    +:+ ValidationWarning.message warning)
                   (Some [("path", VOptString (ValidationWarning.path warning))]))) ;;;
         Eff.ret (inr (Some validationResult))
     else Eff.ret (inr None)) ;;
  match validated with
  | inl result => Eff.ret result
  | inr validationResult =>
      info (Date_now h) "Starting web export process" None ;;;
      exportResult <- step_performExport steps (DockerExportOptions.vaultPath options)
                        (DockerExportOptions.outputPath options) config ;;
      t1 <- now (Date_now h) ;;
      let duration := (t1 - startTime)%Z in
      endOperation (Date_now h) "Docker Export" operationId
        (Some [ ("success", VBoolean (DockerExportResult.success exportResult));
                ("filesGenerated", VNumber (DockerExportResult.filesGenerated exportResult)) ]) ;;;
      (if DockerExportResult.success exportResult then
         info (Date_now h) "Docker export completed successfully"
           (Some [ ("duration", VDuration duration);
                   ("filesGenerated", VNumber (DockerExportResult.filesGenerated exportResult));
                   ("outputPath", VString (DockerExportOptions.outputPath options)) ])
       else
         error_ (Date_now h) "Docker export failed" None
           (Some [ ("duration", VDuration duration);
                   ("errors", VStrings (DockerExportResult.errors exportResult)) ])) ;;;
      report <- generateSummaryReport (Date_now h) ;;
      write (SummaryPrinted report) ;;;
      Eff.ret {| DockerExportResult.success := DockerExportResult.success exportResult;
                 DockerExportResult.outputPath := DockerExportResult.outputPath exportResult;
                 DockerExportResult.duration := duration;
                 DockerExportResult.filesGenerated := DockerExportResult.filesGenerated exportResult;
                 DockerExportResult.warnings := DockerExportResult.warnings exportResult;
                 DockerExportResult.errors := DockerExportResult.errors exportResult;
                 DockerExportResult.validationResult := validationResult |}
  end.

(** The [catch (error)] block of [exportForDocker]. *)
Definition exportForDocker_catch (options : DockerExportOptions.t)
    (startTime operationId : Z) (error : Error.t) : P DockerExportResult.t :=
  endOperation (Date_now h) "Docker Export" operationId (Some [("success", VBoolean false)]) ;;;
  let errorMessage := "Docker export failed: " +:+ Error.message error in
  (if bool_decide (Error.code error = Some "ENOENT") then
     errorWithTroubleshooting (Date_now h) errorMessage
       DockerTroubleshooting.VAULT_NOT_FOUND (Some error)
   else if bool_decide (Error.code error = Some "EACCES") then
     errorWithTroubleshooting (Date_now h) errorMessage
       DockerTroubleshooting.PERMISSION_DENIED (Some error)
   else if JS.includes (Error.message error) "out of memory" then
     errorWithTroubleshooting (Date_now h) errorMessage
       DockerTroubleshooting.OUT_OF_MEMORY (Some error)
   else
     error_ (Date_now h) errorMessage (Some error) None) ;;;
  report <- generateSummaryReport (Date_now h) ;;
  write (SummaryPrinted report) ;;;
  t1 <- now (Date_now h) ;;
  Eff.ret {| DockerExportResult.success := false;
             DockerExportResult.outputPath := DockerExportOptions.outputPath options;
             DockerExportResult.duration := (t1 - startTime)%Z;
             DockerExportResult.filesGenerated := 0%Z;
             DockerExportResult.warnings := [];
             DockerExportResult.errors := [errorMessage];
             DockerExportResult.validationResult := None |}.

(** The two statements of [exportForDocker] before its [try]. *)
Definition exportForDocker_start (options : DockerExportOptions.t) : P (Z * Z) :=
  startTime <- now (Date_now h) ;;
  operationId <- startOperation (Date_now h) "Docker Export"
    (Some [ ("vaultPath", VString (DockerExportOptions.vaultPath options));
            ("outputPath", VString (DockerExportOptions.outputPath options)) ]) ;;
  Eff.ret (startTime, operationId).

(** [exportForDocker(options)], for any behaviour of the three private
    methods it calls. *)
Definition exportForDocker_with (steps : Steps) (options : DockerExportOptions.t)
  : P DockerExportResult.t :=
  started <- exportForDocker_start options ;;
  let '(startTime, operationId) := started in
  Eff.try_catch
    (exportForDocker_try steps options startTime operationId)
    (exportForDocker_catch options startTime operationId).

(** The private methods as the class defines them. *)
Definition own_steps : Steps :=
  {| step_loadConfiguration := loadConfiguration;
     step_validateVault := validateVault;
     step_performExport := performExport |}.

(** [exportForDocker(options)] *)
Definition exportForDocker (options : DockerExportOptions.t) : P DockerExportResult.t :=
  exportForDocker_with own_steps options.

(** [a || b || c] on optional strings, the last one a literal. *)
Definition first_truthy (a b : option string) (c : string) : string :=
  if JS.truthy_opt a then default c a
  else if JS.truthy_opt b then default c b
  else c.

(** The options [runDockerExport] builds from the command line and the
    environment. *)
Definition cli_options : DockerExportOptions.t :=
  let args := argv h in
  let vaultPath := first_truthy (args !! 0%nat) (env h !! "VAULT_PATH") "/vault" in
  let outputPath := first_truthy (args !! 1%nat) (env h !! "OUTPUT_PATH") "/output" in
  {| DockerExportOptions.vaultPath := vaultPath;
     DockerExportOptions.outputPath := outputPath;
     DockerExportOptions.configOverrides := None;
     DockerExportOptions.validateVault := Some true;
     DockerExportOptions.logLevel := None |}.

(** The first statements of [runDockerExport], up to its log line. *)
Definition runDockerExport_start : P unit :=
  info (Date_now h) "Starting Docker export"
    (Some [ ("vaultPath", VString (DockerExportOptions.vaultPath cli_options));
            ("outputPath", VString (DockerExportOptions.outputPath cli_options)) ]).

(** [runDockerExport()], for any behaviour of the private methods: the
    value returned is the code given to [process.exit]. *)
Definition runDockerExport_with (steps : Steps) : P Z :=
  runDockerExport_start ;;;
  result <- exportForDocker_with steps cli_options ;;
  Eff.ret (if DockerExportResult.success result then 0%Z else 1%Z).

(** [runDockerExport()] *)
Definition runDockerExport : P Z := runDockerExport_with own_steps.

(** [getLogger()] at the start of the process: the singleton is created if
    the static field [instance] is still empty. *)
Definition getLogger (instance : option DockerLogger.t) (ticks : nat) : Process :=
  match instance with
  | Some lg => {| logger := lg; console := []; ticks := ticks |}
  | None =>
      {| logger := fst (getInstance (env h) (Date_now h ticks) None);
         console := []; ticks := S ticks |}
  end.

(** The floating point computation [Math.round((c / 100) * 100)] gives [c]
    for the six values [performExport] reports. *)
Definition rounds_exactly : Prop :=
  forall c, In c [0; 20; 40; 60; 80; 100]%Z -> round_percentage h c 100%Z = Integer c.

(** What a run with the class's own methods reports. *)
Definition outcome (options : DockerExportOptions.t) (result : DockerExportResult.t) : Prop :=
  let V := VaultValidator.validateVault (JSON_parse_error h)
             (new_VaultValidator (DockerExportOptions.vaultPath options)) in
  DockerExportResult.outputPath result = DockerExportOptions.outputPath options
  /\ if bool_decide (DockerExportOptions.validateVault options = Some false) then
       DockerExportResult.success result = true
       /\ DockerExportResult.filesGenerated result = 150%Z
       /\ DockerExportResult.errors result = []
       /\ DockerExportResult.warnings result = []
       /\ DockerExportResult.validationResult result = None
     else if ValidationResult.isValid V then
       DockerExportResult.success result = true
       /\ DockerExportResult.filesGenerated result = 150%Z
       /\ DockerExportResult.errors result = []
       /\ DockerExportResult.warnings result = []
       /\ DockerExportResult.validationResult result = Some V
     else
       DockerExportResult.success result = false
       /\ DockerExportResult.filesGenerated result = 0%Z
       /\ DockerExportResult.errors result
          = List.map ValidationError.message (ValidationResult.errors V)
       /\ DockerExportResult.warnings result
          = List.map ValidationWarning.message (ValidationResult.warnings V)
       /\ DockerExportResult.validationResult result = Some V.

End Integration.

End EnhancedDockerIntegration.

(* ===================================================================== *)
(** * The settings tab: loading and saving the configuration *)
(* ===================================================================== *)

Module WebSettingsTab.
Import WebConfig.

(** The plugin's stored data, as far as the settings tab reads it. *)
Record Data : Type := {
  webConfig : option PartialWebConfig.t;
  exportOptions : option LegacyConfig
}.

(** What the settings tab writes and shows. *)
Inductive Event : Type :=
| ConsoleWarn (errors : list string)   (* [console.warn('Web config validation errors:', errors)] *)
| SaveData (data : Data)               (* [this.plugin.saveData(data)] *)
| Notice (text : string)               (* [new Notice(text)] *)
| ConsoleError (text : string) (error : Error.t).

(** The host application. *)
Record Host : Type := {
  URL_parses : string -> bool;                    (* [new URL(s)] returns *)
  loadData_fails : option Data -> option Error.t; (* [loadData()] rejects *)
  saveData_fails : Data -> option Error.t;        (* [saveData(data)] rejects *)
  vaultName : option string                       (* [app?.vault?.getName()] *)
}.

(** The tab's [config] field, the stored data ([None]: no data yet) and
    what has been written so far. *)
Record State : Type := {
  config : WebConfig.t;
  stored : option Data;
  events : list Event
}.

Abbreviation T := (Eff.M State).

Definition emit (ev : Event) : T unit :=
  Eff.modify (fun s => {| config := config s; stored := stored s; events := events s ++ [ev] |}).

(** [this.config = c] *)
Definition set_config (c : WebConfig.t) : T unit :=
  Eff.modify (fun s => {| config := c; stored := stored s; events := events s |}).

Definition this_config : T WebConfig.t := fun s => (inr (config s), s).

(** The object [{ ...c }] of a complete configuration, read as a partial one. *)
Definition as_partial (c : WebConfig.t) : PartialWebConfig.t :=
  {| PartialWebConfig.version := Some (version c);
     PartialWebConfig.site := Some (site c);
     PartialWebConfig.features := Some (features c);
     PartialWebConfig.seo := Some (seo c);
     PartialWebConfig.advanced := Some (advanced c) |}.

(** [{ webConfig: c }] *)
Definition data_of (c : WebConfig.t) : Data :=
  {| webConfig := Some (as_partial c); exportOptions := None |}.

Section Tab.

Variable host : Host.

(** [await this.plugin.loadData()] *)
Definition loadData : T (option Data) :=
  fun s =>
    match loadData_fails host (stored s) with
    | Some e => (inl e, s)
    | None => (inr (stored s), s)
    end.

(** [await this.plugin.saveData(data)]: the data replaces what was stored. *)
Definition saveData (data : Data) : T unit :=
  fun s =>
    let s := {| config := config s; stored := stored s; events := events s ++ [SaveData data] |} in
    match saveData_fails host data with
    | Some e => (inl e, s)
    | None => (inr tt, {| config := config s; stored := Some data; events := events s |})
    end.

(** [saveConfig()] *)
Definition saveConfig : T unit :=
  config <- this_config ;;
  let errors := validateWebConfig (URL_parses host) config in
  Eff.when (0 <? length errors)%nat (emit (ConsoleWarn errors)) ;;;
  Eff.try_catch
    (saveData (data_of config))
    (fun error =>
       emit (Notice ("Failed to save settings: " +:+ Error.message error)) ;;;
       emit (ConsoleError "Failed to save web config:" error)).

(** [loadConfig()] *)
Definition loadConfig : T unit :=
  Eff.try_catch
    (data <- loadData ;;
     match data with
     | Some {| webConfig := Some w |} =>
         set_config (EnhancedDockerIntegration.Object_assign DEFAULT_WEB_CONFIG w)
     | Some {| webConfig := None; exportOptions := Some legacy |} =>
         set_config (migrateFromLegacyConfig legacy) ;;;
         saveConfig
     | _ =>
         set_config (JSON_clone DEFAULT_WEB_CONFIG) ;;;
         match vaultName host with
         | Some n => Eff.when (JS.truthy n) (set_config (set_name n (JSON_clone DEFAULT_WEB_CONFIG)))
         | None => Eff.ret tt
         end
     end)
    (fun error =>
       emit (ConsoleError "Failed to load web config:" error) ;;;
       set_config (JSON_clone DEFAULT_WEB_CONFIG)).

End Tab.

(** A tab opened anew on the same stored data: its [config] starts as a
    copy of the defaults. *)
Definition reopened (s : State) : State :=
  {| config := JSON_clone DEFAULT_WEB_CONFIG; stored := stored s; events := events s |}.

End WebSettingsTab.

(* ===================================================================== *)
(** * web-export/web-export-manager.ts *)
(* ===================================================================== *)

Module WebExportManager.

(** A [Path] object of [utils/path], as far as the manager reads it. *)
Record Path : Type := {
  path : string;
  extension : string;
  isAbsolute : bool;
  isDirectory : bool;
  exists_ : bool
}.

(** A [TFile] of the host application. *)
Record TFile : Type := { file_path : string }.

(** A file of the built website; [isWebpage] is [f instanceof Webpage]. *)
Record Attachment : Type := {
  targetPath : string;
  isWebpage : bool
}.

(** [website.index] *)
Record Index : Type := {
  deletedFiles : option (list string);
  newFiles : list Attachment;
  updatedFiles : list Attachment;
  websiteDataAttachment : Attachment;
  indexDataAttachment : Attachment
}.

Record Website : Type := { index : Index }.

(** What the manager does to the host application, in order. *)
Inductive Event : Type :=
| Notice (text : string)                       (* [new Notice(text, 5000)] *)
| LogError (what : Error.t + string) (title : string)  (* [ExportLog.error(what, title, true)] *)
| Log (text : string)                          (* [ExportLog.log(text)] *)
| AddToProgressCap (twice : nat)               (* [ExportLog.addToProgressCap(twice / 2)] *)
| Progress (title text color : string)         (* [ExportLog.progress(0.5, title, text, color)] *)
| BeginBatch                                   (* [MarkdownRendererAPI.beginBatch()] *)
| EndBatch                                     (* [MarkdownRendererAPI.endBatch()] *)
| CreateDirectory (p : Path)                   (* [p.createDirectory()] *)
| Build (files : list TFile) (destination : Path)
| Delete (p : Path)                            (* [p.delete()] *)
| RemoveEmptyDirectories (dir : string)        (* [Path.removeEmptyDirectories(dir)] *)
| DownloadAttachments (files : list Attachment).

(** The host application and the modules outside this file.  An operation
    that may fail is given the events so far and says whether it throws. *)
Record Host : Type := {
  new_Path : string -> Path;                   (* [new Path(p)] *)
  new_Path_in : string -> string -> Path;      (* [new Path(p, workingDirectory)] *)
  joinString : Path -> string -> Path;
  createDirectory : list Event -> Path -> option Error.t;
  build : list Event -> list TFile -> Path -> Error.t + option Website;
  delete : list Event -> Path -> option Error.t;
  removeEmptyDirectories : list Event -> string -> option Error.t;
  downloadAttachments : list Event -> list Attachment -> option Error.t
}.

Abbreviation X := (Eff.M (list Event)).

Definition emit (ev : Event) : X unit := Eff.modify (fun tr => tr ++ [ev]).

(** An awaited operation: it is recorded, then returns or throws. *)
Definition attempt (ev : Event) (outcome : list Event -> option Error.t) : X unit :=
  fun tr =>
    match outcome tr with
    | None => (inr tt, tr ++ [ev])
    | Some e => (inl e, tr ++ [ev])
    end.

Definition attempt_value {A} (ev : Event) (outcome : list Event -> Error.t + A) : X A :=
  fun tr => (outcome tr, tr ++ [ev]).

Definition fontExtensions : list string := ["woff"; "woff2"; "ttf"; "otf"].

(** [isFontFile(filePath)] *)
Definition isFontFile (filePath : Path) : bool :=
  JS.array_includes fontExtensions (JS.toLowerCase (extension filePath)).

(** An extension that is woff, woff2, ttf or otf, in small or capital
    letters. *)
Definition font_extension (ext : string) : Prop :=
  exists w, In w ["woff"; "woff2"; "ttf"; "otf"] /\ JS.same_ignoring_case ext w.

(** The result of the two input validations. *)
Record Validation : Type := {
  isValid : bool;
  error : option string
}.

Definition invalid (e : string) : Validation := {| isValid := false; error := Some e |}.
Definition valid : Validation := {| isValid := true; error := None |}.

Section Manager.

Variable host : Host.

(** [validateVaultStructure()] *)
Definition validateVaultStructure : X Validation :=
  let obsidianConfigPath := new_Path host ".obsidian" in
  if negb (exists_ obsidianConfigPath) then
    Eff.ret (invalid "Invalid vault: .obsidian directory not found. Please ensure you're exporting from a valid Obsidian vault.")
  else
    let appConfigPath := joinString host obsidianConfigPath "app.json" in
    Eff.when (negb (exists_ appConfigPath))
      (emit (Log "Warning: app.json not found in .obsidian directory. Some features may not work correctly.")) ;;;
    Eff.ret valid.

(** [validateExportInputs(files, destination)] *)
Definition validateExportInputs (files : list TFile) (destination : Path) : X Validation :=
  if (length files =? 0)%nat then Eff.ret (invalid "No files selected for export")
  else if negb (isAbsolute destination) then Eff.ret (invalid "Export path must be absolute")
  else if negb (isDirectory destination) then Eff.ret (invalid "Export path must be a directory")
  else
    created <-
      (if negb (exists_ destination) then
         Eff.try_catch
           (attempt (CreateDirectory destination) (fun tr => createDirectory host tr destination) ;;;
            Eff.ret None)
           (fun error =>
              Eff.ret (Some (invalid ("Cannot create export directory: " +:+ Error.message error))))
       else Eff.ret None) ;;
    match created with
    | Some failure => Eff.ret failure
    | None =>
        vaultValidation <- validateVaultStructure ;;
        if negb (isValid vaultValidation) then Eff.ret vaultValidation
        else Eff.ret valid
    end.

(** One turn of the loop of [cleanupOldFiles]. *)
Definition cleanup_one (destination : Path) (deletedFile : string) : X unit :=
  let filePath := new_Path_in host deletedFile (path destination) in
  if isFontFile filePath then
    emit (Progress "Deleting Old Files" ("Skipping: " +:+ path filePath) "var(--color-yellow)")
  else
    Eff.try_catch
      (attempt (Delete filePath) (fun tr => delete host tr filePath) ;;;
       emit (Progress "Deleting Old Files" ("Deleting: " +:+ path filePath) "var(--color-red)"))
      (fun error =>
         emit (Log ("Warning: Could not delete file " +:+ path filePath +:+ ": "
                    +:+ Error.toString error))).

(** [cleanupOldFiles(website, destination)] *)
Definition cleanupOldFiles (website : Website) (destination : Path) : X unit :=
  match deletedFiles (index website) with
  | None | Some [] => Eff.ret tt
  | Some files =>
      emit (AddToProgressCap (length files)) ;;;
      Eff.for_each files (cleanup_one destination) ;;;
      Eff.try_catch
        (attempt (RemoveEmptyDirectories (path destination))
           (fun tr => removeEmptyDirectories host tr (path destination)))
        (fun error =>
           emit (Log ("Warning: Could not remove empty directories: " +:+ Error.toString error)))
  end.

(** [saveWebsiteFiles(website)] *)
Definition saveWebsiteFiles (website : Website) : X unit :=
  Eff.try_catch
    (let assetFiles :=
       List.filter (fun f => negb (isWebpage f)) (newFiles (index website))
       ++ List.filter (fun f => negb (isWebpage f)) (updatedFiles (index website)) in
     Eff.when (0 <? length assetFiles)%nat
       (attempt (DownloadAttachments assetFiles)
          (fun tr => downloadAttachments host tr assetFiles)) ;;;
     let websiteDataFiles :=
       [ websiteDataAttachment (index website); indexDataAttachment (index website) ] in
     attempt (DownloadAttachments websiteDataFiles)
       (fun tr => downloadAttachments host tr websiteDataFiles) ;;;
     emit (Log ("Saved " +:+ JS.show_nat (length assetFiles) +:+ " asset files and website data")))
    (fun error =>
       Eff.throw (Error.make ("Failed to save website files: " +:+ Error.message error))).

(** The [try] block of [exportFiles]. *)
Definition exportFiles_try (files : list TFile) (destination : Path)
    (saveFiles deleteOld : bool) : X (option Website) :=
  emit (Log "Starting web-optimized export...") ;;;
  website <- attempt_value (Build files destination) (fun tr => build host tr files destination) ;;
  match website with
  | None =>
      emit (Notice "❌ Export Cancelled") ;;;
      Eff.ret None
  | Some website =>
      Eff.when deleteOld (cleanupOldFiles website destination) ;;;
      Eff.when saveFiles (saveWebsiteFiles website) ;;;
      emit (Log "Web export completed successfully") ;;;
      Eff.ret (Some website)
  end.

(** [exportFiles(files, destination, saveFiles, deleteOld)] *)
Definition exportFiles (files : list TFile) (destination : Path)
    (saveFiles deleteOld : bool) : X (option Website) :=
  validationResult <- validateExportInputs files destination ;;
  if negb (isValid validationResult) then
    emit (Notice ("❌ Export validation failed: " +:+ default "undefined" (error validationResult))) ;;;
    emit (LogError (inr (default "undefined" (error validationResult))) "Export Validation Failed") ;;;
    Eff.ret None
  else
    emit BeginBatch ;;;
    Eff.try_finally
      (Eff.try_catch
         (exportFiles_try files destination saveFiles deleteOld)
         (fun error =>
            emit (Notice ("❌ Export Failed: " +:+ Error.message error)) ;;;
            emit (LogError (inl error) "Export Failed") ;;;
            Eff.ret None))
      (emit EndBatch).

(** The [Path] objects [cleanupOldFiles] makes of [website.index.deletedFiles]. *)
Definition deleted_paths (website : Website) (destination : Path) : list Path :=
  List.map (fun f => new_Path_in host f (path destination))
    (default [] (deletedFiles (index website))).

End Manager.

(** The paths handed to [delete] and the paths skipped, read off a trace. *)
Definition deleted_of (ev : Event) : option Path :=
  match ev with Delete p => Some p | _ => None end.
Definition deletions (tr : list Event) : list Path := omap deleted_of tr.

Definition is_skip (ev : Event) : option string :=
  match ev with
  | Progress _ text color =>
      if String.eqb color "var(--color-yellow)" then Some text else None
  | _ => None
  end.
Definition skips (tr : list Event) : list string := omap is_skip tr.

Definition is_begin (ev : Event) : bool :=
  match ev with BeginBatch => true | _ => false end.
Definition is_end (ev : Event) : bool :=
  match ev with EndBatch => true | _ => false end.

(** [count f tr]: how many events of [tr] satisfy [f]. *)
Definition count (f : Event -> bool) (tr : list Event) : nat := length (List.filter f tr).

(** An event that neither opens nor closes a batch and deletes no font. *)
Definition inner_event (ev : Event) : bool :=
  match ev with
  | BeginBatch | EndBatch => false
  | Delete p => negb (isFontFile p)
  | _ => true
  end.

(** Every run of [m] only adds events to the trace, all satisfying [ok]. *)
Definition appends {A} (ok : Event -> bool) (m : X A) : Prop :=
  forall tr, exists evs, snd (m tr) = tr ++ evs /\ forallb ok evs = true.

(** The texts written for a skipped and for a failed deletion. *)
Definition skipping (p : Path) : string := "Skipping: " +:+ path p.
Definition could_not_delete (p : Path) (e : Error.t) : string :=
  "Warning: Could not delete file " +:+ path p +:+ ": " +:+ Error.toString e.
Definition could_not_sweep (e : Error.t) : string :=
  "Warning: Could not remove empty directories: " +:+ Error.toString e.


(** An event that removes something from the destination. *)
Definition removes (ev : Event) : bool :=
  match ev with
  | Delete _ | RemoveEmptyDirectories _ => true
  | _ => false
  end.

(** An event that writes files of the website to disk. *)
Definition saves (ev : Event) : bool :=
  match ev with
  | DownloadAttachments _ => true
  | _ => false
  end.

(** An event that builds, removes or saves, or opens or closes a batch. *)
Definition works (ev : Event) : bool :=
  match ev with
  | Build _ _ | Delete _ | RemoveEmptyDirectories _ | DownloadAttachments _
  | BeginBatch | EndBatch | AddToProgressCap _ | Progress _ _ _ => true
  | _ => false
  end.

Section Vault.

Variable host : Host.

(** [app.vault.getFiles()] *)
Variable getFiles : list TFile.

(** [exportVault(destination, saveFiles, deleteOld)] *)
Definition exportVault (destination : Path) (saveFiles deleteOld : bool) : X (option Website) :=
  let files := getFiles in
  exportFiles host files destination saveFiles deleteOld.

(** [exportForWeb(files?, destination?)]: an array, even an empty one, is
    truthy, so only an absent [files] is replaced by the vault's files. *)
Definition exportForWeb (files : option (list TFile)) (destination : option Path)
  : X (option Website) :=
  let filesToExport := default getFiles files in
  let exportPath := default (new_Path host "/output") destination in
  website <- exportFiles host filesToExport exportPath true true ;;
  match website with
  | Some _ =>
      emit (Notice ("✅ Web export completed successfully!" +:+ JS.newline +:+ JS.newline
                    +:+ "Files saved to: " +:+ path exportPath)) ;;;
      emit (Log ("Web export completed: " +:+ JS.show_nat (length filesToExport)
                 +:+ " files exported to " +:+ path exportPath))
  | None => Eff.ret tt
  end ;;;
  Eff.ret website.

(** [HTMLExportPlugin.exportDocker()] *)
Definition plugin_exportDocker : X unit :=
  exportVault (new_Path host "/output") true true ;;; Eff.ret tt.

(** [HTMLExportPlugin.exportVault(path)] *)
Definition plugin_exportVault (path : string) : X unit :=
  exportVault (new_Path host path) true false ;;; Eff.ret tt.

End Vault.

(** The text shown for inputs that fail validation. *)
Definition validation_failed (reason : string) : list Event :=
  [ Notice ("❌ Export validation failed: " +:+ reason);
    LogError (inr reason) "Export Validation Failed" ].

End WebExportManager.

(* ===================================================================== *)
(** * main.ts: the plugin's update check *)
(* ===================================================================== *)

Module HTMLExportPlugin.

(** [HTMLExportPlugin.updateInfo] *)
Record UpdateInfo : Type := {
  updateAvailable : bool;
  latestVersion : string;
  currentVersion : string;
  updateNote : string
}.

(** The manifest served by the repository, as far as it is read. *)
Record Manifest : Type := {
  version : option string;
  manifest_updateNote : option string
}.

(** The response of [requestUrl]; reading [json] parses the body and may
    throw. *)
Record Response : Type := {
  status : Z;
  json : Error.t + Manifest
}.

Record Host : Type := {
  manifest_version : string;                  (* [this.manifest.version] *)
  Date_now : nat -> Z;                        (* successive readings of the clock *)
  requestUrl : string -> Error.t + Response;  (* rejects, or resolves to a response *)
  i18n_updateAvailable : string               (* [i18n.updateAvailable] *)
}.

(** The static field, the lines given to [ExportLog.log], and how often
    the clock has been read. *)
Record State : Type := {
  updateInfo : UpdateInfo;
  logged : list string;
  ticks : nat
}.

(** The value of the static field before the first check. *)
Definition initial_updateInfo : UpdateInfo :=
  {| updateAvailable := false; latestVersion := "0"; currentVersion := "0";
     updateNote := EmptyString |}.

Abbreviation U := (Eff.M State).

Definition ExportLog_log (line : string) : U unit :=
  Eff.modify (fun s => {| updateInfo := updateInfo s; logged := logged s ++ [line];
                          ticks := ticks s |}).

Definition set_updateInfo (info : UpdateInfo) : U unit :=
  Eff.modify (fun s => {| updateInfo := info; logged := logged s; ticks := ticks s |}).

Definition get_updateInfo : U UpdateInfo := fun s => (inr (updateInfo s), s).

(** [a < b] on strings: the order of their code units. *)
Definition string_lt (a b : string) : bool := String.ltb a b.

Definition manifest_url : string :=
  "https://raw.githubusercontent.com/KosmosisDire/obsidian-webpage-export/master/manifest.json?cache=".
Definition manifest_beta_url : string :=
  "https://raw.githubusercontent.com/KosmosisDire/obsidian-webpage-export/master/manifest-beta.json?cache=".

Section Plugin.

Variable h : Host.

Definition now : U Z :=
  fun s => (inr (Date_now h (ticks s)),
            {| updateInfo := updateInfo s; logged := logged s; ticks := S (ticks s) |}).

(** [await requestUrl(url)] *)
Definition request (url : string) : U Response :=
  fun s => (requestUrl h url, s).

(** Reading [manifestResp.json]. *)
Definition read_json (r : Response) : U Manifest := fun s => (json r, s).

(** [checkForUpdates()] *)
Definition checkForUpdates : U UpdateInfo :=
  let currentVersion := manifest_version h in
  Eff.try_catch
    (t0 <- now ;;
     let url := manifest_url +:+ JS.show_Z t0 +:+ EmptyString in
     url <- (if JS.endsWith (manifest_version h) "b" then
               t1 <- now ;;
               Eff.ret (manifest_beta_url +:+ JS.show_Z t1 +:+ EmptyString)
             else Eff.ret url) ;;
     manifestResp <- request url ;;
     (if negb (status manifestResp =? 200)%Z
      then Eff.throw (Error.make "Could not fetch manifest")
      else Eff.ret tt) ;;;
     manifest <- read_json manifestResp ;;
     let latestVersion := default currentVersion (version manifest) in
     let updateAvailable := string_lt currentVersion latestVersion in
     let updateNote := default EmptyString (manifest_updateNote manifest) in
     set_updateInfo {| updateAvailable := updateAvailable;
                       latestVersion := latestVersion;
                       currentVersion := currentVersion;
                       updateNote := updateNote |} ;;;
     Eff.when updateAvailable
       (ExportLog_log (i18n_updateAvailable h +:+ ": " +:+ currentVersion +:+ " âŸ¶ "
                       +:+ latestVersion)) ;;;
     get_updateInfo)
    (fun _ =>
       ExportLog_log "Could not check for update" ;;;
       set_updateInfo {| updateAvailable := false;
                         latestVersion := currentVersion;
                         currentVersion := currentVersion;
                         updateNote := EmptyString |} ;;;
       get_updateInfo).

(** The URL the check requests when the clock reads as in state [s]. *)
Definition requested_url (s : State) : string :=
  if JS.endsWith (manifest_version h) "b"
  then manifest_beta_url +:+ JS.show_Z (Date_now h (S (ticks s)))
  else manifest_url +:+ JS.show_Z (Date_now h (ticks s)).

(** The manifest the check obtains, if it obtains one. *)
Definition fetched (s : State) : option Manifest :=
  match requestUrl h (requested_url s) with
  | inr r => if (status r =? 200)%Z
             then match json r with inr m => Some m | inl _ => None end
             else None
  | inl _ => None
  end.

End Plugin.

End HTMLExportPlugin.

(* ===================================================================== *)
(** * Sample inputs *)
(* ===================================================================== *)

Module Samples.
Import FS.

(** A [JSON.parse] that accepts every text. *)
Definition json_accepts_all : string -> option Error.t := fun _ => None.

(** A [new URL] that accepts the default site address and nothing else. *)
Definition URL_accepts_example : string -> bool :=
  fun s => String.eqb s "https://example.com".

(** The default configuration with a site name of one space. *)
Definition config_blank_name : WebConfig.t :=
  WebConfig.set_name " " WebConfig.DEFAULT_WEB_CONFIG.

(** The default configuration with an empty analytics id. *)
Definition config_empty_analytics : WebConfig.t :=
  WebConfig.set_googleAnalyticsId (Some EmptyString) WebConfig.DEFAULT_WEB_CONFIG.

Definition note (text : string) : Node := File (N.of_nat (String.length text)) (inr text).

(** Three notes and no [.obsidian] directory. *)
Definition vault_three_notes : VaultValidator.t :=
  {| VaultValidator.vaultPath := "/vault";
     VaultValidator.root := Some (Dir true
       [ ("a.md", note "# A"); ("b.md", note "# B"); ("c.md", note "# C") ]) |}.

(** The same notes next to a regular file named [.obsidian]. *)
Definition vault_obsidian_is_file : VaultValidator.t :=
  {| VaultValidator.vaultPath := "/vault";
     VaultValidator.root := Some (Dir true
       [ (".obsidian", note "not a directory");
         ("a.md", note "# A"); ("b.md", note "# B"); ("c.md", note "# C") ]) |}.

(** A vault with its configuration directory. *)
Definition vault_with_config : VaultValidator.t :=
  {| VaultValidator.vaultPath := "/vault";
     VaultValidator.root := Some (Dir true
       [ (".obsidian", Dir true [ ("app.json", note "{}") ]);
         ("a.md", note "# A"); ("b.md", note "# B"); ("c.md", note "# C") ]) |}.

(** A clock that starts at 1000 and advances one millisecond a reading. *)
Definition clock : nat -> Z := fun k => (1000 + Z.of_nat k)%Z.

(** A process whose logger was created with [LOG_LEVEL=warn]. *)
Definition process_at_WARN : DockerLogger.Process :=
  {| DockerLogger.logger := DockerLogger.new {[ "LOG_LEVEL" := "warn" ]} 1000;
     DockerLogger.console := [];
     DockerLogger.ticks := 1 |}.

(** A host whose environment sets the analytics id and nothing else. *)
Definition host_with_analytics : EnhancedDockerIntegration.Host :=
  {| EnhancedDockerIntegration.env := {[ "OBSIDIAN_GOOGLE_ANALYTICS_ID" := "G-ABC123" ]};
     EnhancedDockerIntegration.argv := [];
     EnhancedDockerIntegration.Date_now := clock;
     EnhancedDockerIntegration.round_percentage :=
       fun current total => DockerLogger.Integer (current * 100 / total)%Z;
     EnhancedDockerIntegration.URL_parses := URL_accepts_example;
     EnhancedDockerIntegration.JSON_parse_meta := fun _ => DockerConfigLoader.JsonThrows;
     EnhancedDockerIntegration.JSON_parse_error := json_accepts_all;
     EnhancedDockerIntegration.path_resolve := fun p => p;
     EnhancedDockerIntegration.fs := fun _ => None |}.

(** Overrides that turn the sitemap off and say nothing of the analytics id. *)
Definition seo_without_sitemap : WebConfig.Seo :=
  {| WebConfig.googleAnalyticsId := None;
     WebConfig.customMetaTags := None;
     WebConfig.generateSitemap := false;
     WebConfig.generateRobotsTxt := true |}.

Definition overrides_sitemap_off : PartialWebConfig.t :=
  {| PartialWebConfig.version := None;
     PartialWebConfig.site := None;
     PartialWebConfig.features := None;
     PartialWebConfig.seo := Some seo_without_sitemap;
     PartialWebConfig.advanced := None |}.

(** A host with no environment whose vault path holds the given vault. *)
Definition host_with_vault (v : VaultValidator.t) : EnhancedDockerIntegration.Host :=
  {| EnhancedDockerIntegration.env := ∅;
     EnhancedDockerIntegration.argv := [VaultValidator.vaultPath v; "/out"];
     EnhancedDockerIntegration.Date_now := clock;
     EnhancedDockerIntegration.round_percentage :=
       fun current total => DockerLogger.Integer (current * 100 / total)%Z;
     EnhancedDockerIntegration.URL_parses := URL_accepts_example;
     EnhancedDockerIntegration.JSON_parse_meta := fun _ => DockerConfigLoader.JsonThrows;
     EnhancedDockerIntegration.JSON_parse_error := json_accepts_all;
     EnhancedDockerIntegration.path_resolve := fun p => p;
     EnhancedDockerIntegration.fs :=
       fun p => if String.eqb p (VaultValidator.vaultPath v) then VaultValidator.root v else None |}.

(** Private methods of which [validateVault] throws a file-system error. *)
Definition EACCES : Error.t :=
  {| Error.name := "Error"; Error.code := Some "EACCES";
     Error.message := "EACCES: permission denied, scandir '/vault'" |}.

Definition steps_validation_throws (h : EnhancedDockerIntegration.Host)
  : EnhancedDockerIntegration.Steps :=
  {| EnhancedDockerIntegration.step_loadConfiguration :=
       EnhancedDockerIntegration.loadConfiguration h;
     EnhancedDockerIntegration.step_validateVault := fun _ => Eff.throw EACCES;
     EnhancedDockerIntegration.step_performExport :=
       EnhancedDockerIntegration.performExport h |}.

(** A process whose logger has just been created by the host above. *)
Definition process_started (h : EnhancedDockerIntegration.Host) : DockerLogger.Process :=
  EnhancedDockerIntegration.getLogger h None 0.

(** The extension of a path: what follows its last dot. *)
Definition extension_of (p : string) : string :=
  match JS.split "." p with
  | [] | [_] => EmptyString
  | parts => List.last parts EmptyString
  end.

Definition path_object (p : string) : WebExportManager.Path :=
  {| WebExportManager.path := p;
     WebExportManager.extension := extension_of p;
     WebExportManager.isAbsolute := JS.startsWith p "/";
     WebExportManager.isDirectory := true;
     WebExportManager.exists_ := true |}.

Definition attachment (p : string) : WebExportManager.Attachment :=
  {| WebExportManager.targetPath := p; WebExportManager.isWebpage := false |}.

(** A built website that asks for three old files to be deleted, one of
    them a font. *)
Definition website_with_old_files : WebExportManager.Website :=
  {| WebExportManager.index :=
       {| WebExportManager.deletedFiles :=
            Some ["old/page.html"; "fonts/Inter.WOFF2"; "old/img.png"];
          WebExportManager.newFiles := [attachment "site-lib/styles.css"];
          WebExportManager.updatedFiles := [];
          WebExportManager.websiteDataAttachment := attachment "site-lib/metadata.json";
          WebExportManager.indexDataAttachment := attachment "site-lib/search-index.json" |} |}.

(** A host on which every deletion and the sweep of empty directories
    fail, while building and saving work. *)
Definition host_cleanup_fails : WebExportManager.Host :=
  {| WebExportManager.new_Path := path_object;
     WebExportManager.new_Path_in := fun p dir => path_object (dir +:+ "/" +:+ p);
     WebExportManager.joinString := fun p s => path_object (WebExportManager.path p +:+ "/" +:+ s);
     WebExportManager.createDirectory := fun _ _ => None;
     WebExportManager.build := fun _ _ _ => inr (Some website_with_old_files);
     WebExportManager.delete := fun _ _ => Some EACCES;
     WebExportManager.removeEmptyDirectories := fun _ _ => Some EACCES;
     WebExportManager.downloadAttachments := fun _ _ => None |}.

(** A host on which the build throws. *)
Definition host_build_throws : WebExportManager.Host :=
  {| WebExportManager.new_Path := path_object;
     WebExportManager.new_Path_in := fun p dir => path_object (dir +:+ "/" +:+ p);
     WebExportManager.joinString := fun p s => path_object (WebExportManager.path p +:+ "/" +:+ s);
     WebExportManager.createDirectory := fun _ _ => None;
     WebExportManager.build := fun _ _ _ => inl (Error.make "render failed");
     WebExportManager.delete := fun _ _ => None;
     WebExportManager.removeEmptyDirectories := fun _ _ => None;
     WebExportManager.downloadAttachments := fun _ _ => None |}.

Definition one_file : list WebExportManager.TFile :=
  [ {| WebExportManager.file_path := "a.md" |} ].

(** Legacy options with a site name of a space and a no-break space, and
    search turned off. *)
Definition legacy_blank_name : WebConfig.LegacyConfig :=
  {| WebConfig.siteName := Some (JS.of_units [32; 160]%N); WebConfig.faviconPath := None;
     WebConfig.searchOptions := Some {| WebConfig.enabled := Some false |};
     WebConfig.graphViewOptions := Some {| WebConfig.enabled := None |};
     WebConfig.fileNavigationOptions := None; WebConfig.themeToggleOptions := None;
     WebConfig.backlinkOptions := None; WebConfig.tagOptions := None;
     WebConfig.outlineOptions := None; WebConfig.sidebarOptions := None;
     WebConfig.legacy_slugifyPaths := None;
     WebConfig.legacy_offlineResources := Some true |}.

(** Exclude patterns with white space around them, an empty piece and a
    piece that is a no-break space. *)
Definition padded_patterns : string :=
  " Private/** ,, Drafts/**," +:+ JS.of_units [160]%N.

(** A vault path at which nothing exists. *)
Definition vault_missing : VaultValidator.t :=
  {| VaultValidator.vaultPath := "/vault"; VaultValidator.root := None |}.

(** A [JSON.parse] that rejects every text. *)
Definition json_rejects_all : string -> DockerConfigLoader.JsonParse :=
  fun _ => DockerConfigLoader.JsonThrows.

(** A settings tab that holds the configuration with the blank site name,
    before anything was stored. *)
Definition tab_with_blank_name : WebSettingsTab.State :=
  {| WebSettingsTab.config := config_blank_name;
     WebSettingsTab.stored := None;
     WebSettingsTab.events := [] |}.

(** The plugin before its first update check. *)
Definition plugin_started : HTMLExportPlugin.State :=
  {| HTMLExportPlugin.updateInfo := HTMLExportPlugin.initial_updateInfo;
     HTMLExportPlugin.logged := [];
     HTMLExportPlugin.ticks := 0 |}.

(** A host application whose data store works. *)
Definition tab_host : WebSettingsTab.Host :=
  {| WebSettingsTab.URL_parses := URL_accepts_example;
     WebSettingsTab.loadData_fails := fun _ => None;
     WebSettingsTab.saveData_fails := fun _ => None;
     WebSettingsTab.vaultName := Some "Notes" |}.

(** A host on which building and deleting work and every download fails. *)
Definition host_saving_fails : WebExportManager.Host :=
  {| WebExportManager.new_Path := path_object;
     WebExportManager.new_Path_in := fun p dir => path_object (dir +:+ "/" +:+ p);
     WebExportManager.joinString := fun p s => path_object (WebExportManager.path p +:+ "/" +:+ s);
     WebExportManager.createDirectory := fun _ _ => None;
     WebExportManager.build := fun _ _ _ => inr (Some website_with_old_files);
     WebExportManager.delete := fun _ _ => None;
     WebExportManager.removeEmptyDirectories := fun _ _ => None;
     WebExportManager.downloadAttachments := fun _ _ => Some (Error.make "disk full") |}.

(** A plugin at version 1.9.0 for which the repository serves 1.10.0. *)
Definition plugin_at_1_9 : HTMLExportPlugin.Host :=
  {| HTMLExportPlugin.manifest_version := "1.9.0";
     HTMLExportPlugin.Date_now := clock;
     HTMLExportPlugin.requestUrl := fun _ =>
       inr {| HTMLExportPlugin.status := 200;
              HTMLExportPlugin.json :=
                inr {| HTMLExportPlugin.version := Some "1.10.0";
                       HTMLExportPlugin.manifest_updateNote := None |} |};
     HTMLExportPlugin.i18n_updateAvailable := "Update available" |}.

End Samples.

(* ===================================================================== *)
(** * Properties *)
(* ===================================================================== *)

(** ** Lists *)

Lemma filter_length_zero {A} (f : A -> bool) (l : list A) :
  (length (List.filter f l) =? 0)%nat = false <-> exists x, In x l /\ f x = true.
Proof.
  induction l as [|a l IH]; simpl.
  - split; [discriminate | intros (x & [] & _)].
  - destruct (f a) eqn:Ha; simpl.
    + split; [intros _; exists a; auto | reflexivity].
    + rewrite IH. split.
      * intros (x & Hin & Hx). exists x. auto.
      * intros (x & [-> | Hin] & Hx); [congruence | exists x; auto].
Qed.

(** ** Computations that never throw *)

Module EffFacts.
Import Eff.

Section Rules.

Context {S : Type}.

Lemma yields_ret {A} (a : A) (Q : A -> Prop) : Q a -> yields (S:=S) (ret a) Q.
Proof. intros H s. exists a, s. split; [reflexivity | exact H]. Qed.

Lemma yields_bind {A B} (m : M S A) (k : A -> M S B) (P : A -> Prop) (Q : B -> Prop) :
  yields m P -> (forall a, P a -> yields (k a) Q) -> yields (bind m k) Q.
Proof.
  intros Hm Hk s. destruct (Hm s) as (a & s1 & E & Ha).
  destruct (Hk a Ha s1) as (b & s2 & E2 & Hb).
  exists b, s2. unfold bind. rewrite E. split; assumption.
Qed.

Lemma yields_weaken {A} (m : M S A) (P Q : A -> Prop) :
  yields m P -> (forall a, P a -> Q a) -> yields m Q.
Proof.
  intros Hm HPQ s. destruct (Hm s) as (a & s1 & E & Ha). exists a, s1. auto.
Qed.

Lemma total_yields {A} (m : M S A) (Q : A -> Prop) :
  total m -> (forall a, Q a) -> yields m Q.
Proof. intros Hm HQ. apply (yields_weaken m (fun _ => True)); [exact Hm|]. intros a _. apply HQ. Qed.

Lemma total_bind {A B} (m : M S A) (k : A -> M S B) :
  total m -> (forall a, total (k a)) -> total (bind m k).
Proof.
  intros Hm Hk. apply (yields_bind m k (fun _ => True)); [exact Hm|].
  intros a _. apply Hk.
Qed.

Lemma yields_seq {A B} (m : M S A) (k : A -> M S B) (Q : B -> Prop) :
  total m -> (forall a, yields (k a) Q) -> yields (bind m k) Q.
Proof.
  intros Hm Hk. apply (yields_bind m k (fun _ => True)); [exact Hm|].
  intros a _. apply Hk.
Qed.

Lemma total_modify (f : S -> S) : total (modify f).
Proof. intros s. exists tt, (f s). auto. Qed.

Lemma total_when (b : bool) (m : M S unit) : total m -> total (when b m).
Proof. intros Hm. destruct b; [exact Hm | apply yields_ret; exact I]. Qed.

Lemma total_for_each {A} (xs : list A) (body : A -> M S unit) :
  (forall x, total (body x)) -> total (for_each xs body).
Proof.
  intros Hbody. induction xs as [|x xs IH]; simpl.
  - apply yields_ret. exact I.
  - apply total_bind; auto.
Qed.

(** A [try] whose handler never throws never throws, whatever its body does. *)
Lemma yields_try_catch {A} (m : M S A) (h : Error.t -> M S A) (Q : A -> Prop) :
  (forall s a s', m s = (inr a, s') -> Q a) ->
  (forall e, yields (h e) Q) ->
  yields (try_catch m h) Q.
Proof.
  intros Hm Hh s. unfold try_catch.
  destruct (m s) as [[e|a] s1] eqn:E.
  - apply Hh.
  - exists a, s1. split; [reflexivity | eapply Hm; exact E].
Qed.

Lemma yields_try_catch_body {A} (m : M S A) (h : Error.t -> M S A) (Q : A -> Prop) :
  yields m Q -> yields (try_catch m h) Q.
Proof.
  intros Hm s. destruct (Hm s) as (a & s1 & E & Ha).
  exists a, s1. unfold try_catch. rewrite E. auto.
Qed.

End Rules.

End EffFacts.

(** ** Regular expressions: the matcher decides the denotation *)

Module RegexFacts.
Import Regex.

Lemma append_nil (t : string) : EmptyString +:+ t = t.
Proof. reflexivity. Qed.

Lemma append_cons (c : ascii) (s t : string) : String c s +:+ t = String c (s +:+ t).
Proof. reflexivity. Qed.

Lemma append_empty_r (s : string) : s +:+ EmptyString = s.
Proof. induction s as [|c s IH]; [reflexivity|]. rewrite append_cons. congruence. Qed.

Lemma append_assoc (a b c : string) : (a +:+ b) +:+ c = a +:+ (b +:+ c).
Proof. induction a as [|x a IH]; [reflexivity|]. rewrite !append_cons. congruence. Qed.

Lemma append_is_empty (a b : string) :
  a +:+ b = EmptyString -> a = EmptyString /\ b = EmptyString.
Proof. destruct a; [rewrite append_nil; auto | rewrite append_cons; discriminate]. Qed.

Lemma lang_Void_inv s : lang Void s -> False.
Proof. inversion 1. Qed.

Lemma lang_Eps_inv s : lang Eps s -> s = EmptyString.
Proof. inversion 1; reflexivity. Qed.

Lemma lang_Chr_inv c s : lang (Chr c) s -> s = String c EmptyString.
Proof. inversion 1; reflexivity. Qed.

Lemma lang_Rng_inv lo hi s :
  lang (Rng lo hi) s -> exists c, s = String c EmptyString /\ in_range lo hi c = true.
Proof. inversion 1; subst. eauto. Qed.

Lemma lang_Seq_inv r1 r2 s :
  lang (Seq r1 r2) s -> exists s1 s2, s = s1 +:+ s2 /\ lang r1 s1 /\ lang r2 s2.
Proof. inversion 1; subst. eauto. Qed.

Lemma lang_Alt_inv r1 r2 s : lang (Alt r1 r2) s -> lang r1 s \/ lang r2 s.
Proof. inversion 1; subst; auto. Qed.

Lemma lang_Star_inv r s :
  lang (Star r) s ->
  s = EmptyString
  \/ exists c s1 s2, s = String c s1 +:+ s2 /\ lang r (String c s1) /\ lang (Star r) s2.
Proof. inversion 1; subst; [left; reflexivity | right; eauto 6]. Qed.

(** A star absorbs one more word in front, empty or not. *)
Lemma lang_Star_app r s1 s2 :
  lang r s1 -> lang (Star r) s2 -> lang (Star r) (s1 +:+ s2).
Proof.
  intros H1 H2. destruct s1 as [|c s1]; [exact H2|].
  apply L_StarS; assumption.
Qed.

Lemma nullable_lang r : nullable r = true <-> lang r EmptyString.
Proof.
  induction r as [| | c | lo hi | r1 IH1 r2 IH2 | r1 IH1 r2 IH2 | r IH]; simpl.
  - split; [discriminate | intros H; destruct (lang_Void_inv _ H)].
  - split; [constructor | reflexivity].
  - split; [discriminate | intros H; apply lang_Chr_inv in H; discriminate].
  - split; [discriminate | intros H; apply lang_Rng_inv in H as (c & E & _); discriminate].
  - rewrite andb_true_iff, IH1, IH2. split.
    + intros [H1 H2]. change EmptyString with (EmptyString +:+ EmptyString).
      constructor; assumption.
    + intros H. apply lang_Seq_inv in H as (s1 & s2 & E & H1 & H2).
      symmetry in E. apply append_is_empty in E as [-> ->]. auto.
  - rewrite orb_true_iff, IH1, IH2. split.
    + intros [H|H]; [apply L_AltL | apply L_AltR]; assumption.
    + apply lang_Alt_inv.
  - split; [constructor | reflexivity].
Qed.

Lemma deriv_lang c r : forall s, lang (deriv c r) s <-> lang r (String c s).
Proof.
  induction r as [| | d | lo hi | r1 IH1 r2 IH2 | r1 IH1 r2 IH2 | r IH]; intros s; simpl.
  - split; intros H; destruct (lang_Void_inv _ H).
  - split; intros H; [destruct (lang_Void_inv _ H) | apply lang_Eps_inv in H; discriminate].
  - destruct (Ascii.eqb_spec c d) as [->|Hne].
    + split; intros H.
      * apply lang_Eps_inv in H as ->. constructor.
      * apply lang_Chr_inv in H. injection H as ->. constructor.
    + split; intros H; [destruct (lang_Void_inv _ H)|].
      apply lang_Chr_inv in H. injection H as E _. congruence.
  - destruct (in_range lo hi c) eqn:Hr.
    + split; intros H.
      * apply lang_Eps_inv in H as ->. constructor. exact Hr.
      * apply lang_Rng_inv in H as (x & E & _). injection E as _ ->. constructor.
    + split; intros H; [destruct (lang_Void_inv _ H)|].
      apply lang_Rng_inv in H as (x & E & Hx). injection E as -> _. congruence.
  - assert (Hleft : forall s, lang (Seq (deriv c r1) r2) s ->
                              lang (Seq r1 r2) (String c s)).
    { intros t H. apply lang_Seq_inv in H as (s1 & s2 & -> & H1 & H2).
      apply IH1 in H1. change (String c (s1 +:+ s2)) with (String c s1 +:+ s2).
      constructor; assumption. }
    assert (Hback : forall s, lang (Seq r1 r2) (String c s) ->
                              lang (Seq (deriv c r1) r2) s
                              \/ (lang r1 EmptyString /\ lang (deriv c r2) s)).
    { intros t H. apply lang_Seq_inv in H as (s1 & s2 & E & H1 & H2).
      destruct s1 as [|x s1]; [rewrite append_nil in E | rewrite append_cons in E].
      - right. subst s2. split; [exact H1 | apply IH2; exact H2].
      - injection E as <- ->. left. constructor; [apply IH1; exact H1 | exact H2]. }
    destruct (nullable r1) eqn:Hn.
    + split; intros H.
      * apply lang_Alt_inv in H as [H|H]; [apply Hleft; exact H|].
        apply IH2 in H. apply nullable_lang in Hn.
        change (String c s) with (EmptyString +:+ String c s).
        constructor; assumption.
      * apply Hback in H as [H|[_ H]]; [apply L_AltL | apply L_AltR]; exact H.
    + split; intros H; [apply Hleft; exact H|].
      apply Hback in H as [H|[H _]]; [exact H|].
      apply nullable_lang in H. congruence.
  - split; intros H.
    + apply lang_Alt_inv in H as [H|H]; [apply L_AltL, IH1 | apply L_AltR, IH2]; exact H.
    + apply lang_Alt_inv in H as [H|H]; [apply L_AltL, IH1 | apply L_AltR, IH2]; exact H.
  - split; intros H.
    + apply lang_Seq_inv in H as (s1 & s2 & -> & H1 & H2).
      apply IH in H1. change (String c (s1 +:+ s2)) with (String c s1 +:+ s2).
      apply L_StarS; assumption.
    + apply lang_Star_inv in H as [E|(x & s1 & s2 & E & H1 & H2)]; [discriminate|].
      rewrite append_cons in E. injection E as <- ->.
      constructor; [apply IH; exact H1 | exact H2].
Qed.

(** The matcher accepts exactly the strings of the denotation. *)
Lemma full_match_lang r s : full_match r s = true <-> lang r s.
Proof.
  revert r. induction s as [|c s IH]; intros r; simpl.
  - apply nullable_lang.
  - rewrite IH. apply deriv_lang.
Qed.

End RegexFacts.

(** ** White space, [trim] and the case of letters *)

Module TrimFacts.
Import RegexFacts.

Lemma length_append (s t : string) :
  String.length (s +:+ t) = (String.length s + String.length t)%nat.
Proof. induction s as [|c s IH]; [reflexivity|]. rewrite append_cons. simpl. rewrite IH. reflexivity. Qed.

Lemma is_empty_true s : JS.is_empty s = true <-> s = EmptyString.
Proof. destruct s; simpl; split; congruence. Qed.

Lemma of_units_app us vs : JS.of_units (us ++ vs) = JS.of_units us +:+ JS.of_units vs.
Proof.
  induction us as [|u us IH]; [reflexivity|].
  cbn [app JS.of_units]. rewrite IH, append_assoc. reflexivity.
Qed.

(** The code units U+0061, U+00E0, U+20AC and U+2588 as the text of a
    literal. *)
Example of_units_literal : JS.of_units [97; 224; 8364; 9608]%N = "aà€█".
Proof. reflexivity. Qed.

(** The white-space code units, by number and as the list [trim] uses. *)
Lemma space_unit_In u : JS.space_unit u <-> In u JS.white_space.
Proof. unfold JS.space_unit, JS.white_space. cbn [In]. lia. Qed.

Lemma is_ws_In w : JS.is_ws w = true <-> In w (List.map JS.encode_unit JS.white_space).
Proof.
  unfold JS.is_ws. rewrite existsb_exists. split.
  - intros (x & Hx & E). apply String.eqb_eq in E. subst x. exact Hx.
  - intros H. exists w. split; [exact H | apply String.eqb_refl].
Qed.

Lemma is_ws_unit w : JS.is_ws w = true <-> exists u, JS.space_unit u /\ w = JS.encode_unit u.
Proof.
  rewrite is_ws_In, List.in_map_iff. split.
  - intros (u & <- & Hu). exists u. split; [apply space_unit_In; exact Hu | reflexivity].
  - intros (u & Hu & ->). exists u. split; [reflexivity | apply space_unit_In; exact Hu].
Qed.

Lemma encode_unit_shape u :
  (exists a, JS.encode_unit u = String a EmptyString)
  \/ (exists a b, JS.encode_unit u = String a (String b EmptyString))
  \/ (exists a b c, JS.encode_unit u = String a (String b (String c EmptyString))).
Proof.
  unfold JS.encode_unit. destruct (u <? 128)%N; [eauto|]. destruct (u <? 2048)%N; eauto 6.
Qed.

Lemma is_ws_shape w :
  JS.is_ws w = true ->
  (exists a, w = String a EmptyString)
  \/ (exists a b, w = String a (String b EmptyString))
  \/ (exists a b c, w = String a (String b (String c EmptyString))).
Proof. intros H. apply is_ws_unit in H as (u & _ & ->). apply encode_unit_shape. Qed.

Ltac each_space H :=
  apply is_ws_In in H; cbv [List.map JS.white_space In] in H;
  repeat (destruct H as [H|H]; [subst|]); [..|destruct H].

(** What [after_ws] finds. *)
Lemma after_ws_Some s r :
  JS.after_ws s = Some r -> exists w, JS.is_ws w = true /\ s = w +:+ r.
Proof.
  destruct s as [|a [|b [|c r3]]]; cbn [JS.after_ws];
    repeat match goal with
           | |- context [if ?b then _ else _] => destruct b eqn:?
           end;
    intros [=]; subst; eexists; (split; [eassumption | reflexivity]).
Qed.

Lemma after_ws_None s w r : JS.after_ws s = None -> JS.is_ws w = true -> s <> w +:+ r.
Proof.
  intros Hnone Hw ->.
  destruct (is_ws_shape w Hw) as [(a & ->) | [(a & b & ->) | (a & b & c & ->)]];
    rewrite ?append_cons, ?append_nil in Hnone; cbn [JS.after_ws] in Hnone;
    repeat match type of Hnone with
           | context [if ?b then _ else _] => destruct b eqn:?
           end;
    congruence.
Qed.

Lemma after_ws_word w r : JS.is_ws w = true -> JS.after_ws (w +:+ r) = Some r.
Proof. intros H. each_space H; reflexivity. Qed.

Lemma trimStart_eq s :
  JS.trimStart s = match JS.after_ws s with Some r => JS.trimStart r | None => s end.
Proof.
  destruct s as [|a [|b [|c r3]]]; cbn [JS.after_ws];
    [reflexivity | | |];
    match goal with |- JS.trimStart ?x = _ =>
      change (JS.trimStart x) with
        (let s := x in
         match s with
         | EmptyString => EmptyString
         | String a r1 =>
             if JS.is_ws (String a EmptyString) then JS.trimStart r1
             else match r1 with
                  | EmptyString => s
                  | String b r2 =>
                      if JS.is_ws (String a (String b EmptyString)) then JS.trimStart r2
                      else match r2 with
                           | EmptyString => s
                           | String c r3 =>
                               if JS.is_ws (String a (String b (String c EmptyString)))
                               then JS.trimStart r3 else s
                           end
                  end
         end)
    end; cbv zeta iota beta;
    repeat match goal with
           | |- context [if ?b then _ else _] => destruct b
           end; reflexivity.
Qed.

Lemma trimStart_word w r : JS.is_ws w = true -> JS.trimStart (w +:+ r) = JS.trimStart r.
Proof. intros H. rewrite trimStart_eq, (after_ws_word w r H). reflexivity. Qed.

Lemma trimStart_clean s : JS.after_ws s = None -> JS.trimStart s = s.
Proof. intros H. rewrite trimStart_eq, H. reflexivity. Qed.

(** Blank strings. *)
Lemma blank_empty : JS.blank EmptyString.
Proof. exists []. split; [constructor | reflexivity]. Qed.

Lemma blank_word w s : JS.is_ws w = true -> JS.blank s -> JS.blank (w +:+ s).
Proof.
  intros Hw (us & Hus & ->). apply is_ws_unit in Hw as (u & Hu & ->).
  exists (u :: us). split; [constructor; assumption | reflexivity].
Qed.

Lemma blank_inv s :
  JS.blank s ->
  s = EmptyString \/ exists w s', JS.is_ws w = true /\ JS.blank s' /\ s = w +:+ s'.
Proof.
  intros ([|u us] & Hus & ->); [left; reflexivity|]. right.
  apply List.Forall_cons_iff in Hus as [Hu Hus].
  exists (JS.encode_unit u), (JS.of_units us).
  split; [apply is_ws_unit; eauto|]. split; [exists us; auto | reflexivity].
Qed.

Lemma blank_app a b : JS.blank a -> JS.blank b -> JS.blank (a +:+ b).
Proof.
  intros (us & Hus & ->) (vs & Hvs & ->). exists (us ++ vs).
  split; [apply List.Forall_app; auto | symmetry; apply of_units_app].
Qed.

Lemma blank_one w : JS.is_ws w = true -> JS.blank w.
Proof.
  intros H. rewrite <- (append_empty_r w). apply blank_word; [exact H | apply blank_empty].
Qed.

Lemma trimStart_blank_app b t : JS.blank b -> JS.trimStart (b +:+ t) = JS.trimStart t.
Proof.
  intros (us & Hus & ->). induction us as [|u us IH]; [reflexivity|].
  apply List.Forall_cons_iff in Hus as [Hu Hus]. cbn [JS.of_units].
  rewrite append_assoc, trimStart_word by (apply is_ws_unit; eauto). auto.
Qed.

Lemma trimStart_blank s : JS.blank s -> JS.trimStart s = EmptyString.
Proof.
  intros H. rewrite <- (append_empty_r s), trimStart_blank_app by exact H. reflexivity.
Qed.

(** [trimStart] drops a blank beginning and leaves a string that does not
    begin with white space. *)
Lemma trimStart_split s :
  exists b, JS.blank b /\ s = b +:+ JS.trimStart s /\ JS.after_ws (JS.trimStart s) = None.
Proof.
  remember (String.length s) as n eqn:Hn. revert s Hn.
  induction n as [n IH] using lt_wf_ind. intros s Hn.
  rewrite trimStart_eq. destruct (JS.after_ws s) as [r|] eqn:E.
  - destruct (after_ws_Some s r E) as (w & Hw & ->).
    assert (Hlen : (String.length r < n)%nat).
    { subst n. rewrite length_append.
      destruct (is_ws_shape w Hw) as [(a & ->) | [(a & b & ->) | (a & b & c & ->)]];
        simpl; lia. }
    destruct (IH _ Hlen r eq_refl) as (b & Hb & Hr & Hclean).
    exists (w +:+ b). split; [apply blank_word; assumption|].
    split; [rewrite append_assoc, <- Hr; reflexivity | exact Hclean].
  - exists EmptyString. split; [apply blank_empty|]. split; [reflexivity | exact E].
Qed.

Lemma is_empty_trimStart s : JS.is_empty (JS.trimStart s) = true <-> JS.blank s.
Proof.
  split.
  - intros H. apply is_empty_true in H.
    destruct (trimStart_split s) as (b & Hb & Hs & _).
    rewrite H, append_empty_r in Hs. subst s. exact Hb.
  - intros H. rewrite trimStart_blank by exact H. reflexivity.
Qed.

Lemma blank_trimStart s : JS.blank (JS.trimStart s) <-> JS.blank s.
Proof.
  split.
  - intros H. destruct (trimStart_split s) as (b & Hb & Hs & _).
    rewrite Hs. apply blank_app; assumption.
  - intros H. rewrite trimStart_blank by exact H. apply blank_empty.
Qed.

Lemma trimEnd_String c r :
  JS.trimEnd (String c r)
  = if JS.is_empty (JS.trimStart (String c r)) then EmptyString else String c (JS.trimEnd r).
Proof. reflexivity. Qed.

Lemma trimEnd_blank s : JS.blank s -> JS.trimEnd s = EmptyString.
Proof.
  intros H. destruct s as [|c r]; [reflexivity|].
  rewrite trimEnd_String. apply is_empty_trimStart in H. rewrite H. reflexivity.
Qed.

Lemma is_empty_trimEnd s : JS.is_empty (JS.trimEnd s) = true <-> JS.blank s.
Proof.
  destruct s as [|c r].
  - split; [intros _; apply blank_empty | reflexivity].
  - rewrite trimEnd_String, <- is_empty_trimStart.
    destruct (JS.is_empty (JS.trimStart (String c r))); simpl; split; congruence.
Qed.

(** [trimEnd] drops a blank end and leaves a string of which no end is
    blank. *)
Lemma trimEnd_split s :
  exists a, JS.blank a /\ s = JS.trimEnd s +:+ a
            /\ forall p q, JS.trimEnd s = p +:+ q -> JS.blank q -> q = EmptyString.
Proof.
  induction s as [|c r IH].
  - exists EmptyString. split; [apply blank_empty|]. split; [reflexivity|].
    intros [|x p] q E _; [rewrite append_nil in E; auto | discriminate].
  - rewrite trimEnd_String.
    destruct (JS.is_empty (JS.trimStart (String c r))) eqn:E.
    + exists (String c r). split; [apply is_empty_trimStart; exact E|]. split; [reflexivity|].
      intros [|x p] q Eq _; [rewrite append_nil in Eq; auto | discriminate].
    + destruct IH as (a & Ha & Hr & Hend). exists a. split; [exact Ha|].
      split; [rewrite append_cons, <- Hr; reflexivity|].
      intros [|x p] q Eq Hq.
      * rewrite append_nil in Eq. subst q.
        assert (Hall : JS.blank (String c r))
          by (rewrite Hr, <- append_cons; apply blank_app; assumption).
        apply is_empty_trimStart in Hall. congruence.
      * rewrite append_cons in Eq. injection Eq as -> Eq. eapply Hend; eassumption.
Qed.

(** [s.trim() === ''] holds of the blank strings and of no other. *)
Lemma is_empty_trim s : JS.is_empty (JS.trim s) = true <-> JS.blank s.
Proof. unfold JS.trim. rewrite is_empty_trimEnd. apply blank_trimStart. Qed.

(** [trim] returns a part of the string, with white space before and
    after it. *)
Lemma trim_split s :
  exists b a, JS.blank b /\ JS.blank a /\ s = b +:+ JS.trim s +:+ a.
Proof.
  destruct (trimStart_split s) as (b & Hb & Hs & _).
  destruct (trimEnd_split (JS.trimStart s)) as (a & Ha & Ht & _).
  exists b, a. split; [exact Hb|]. split; [exact Ha|].
  unfold JS.trim. rewrite <- Ht. exact Hs.
Qed.

Lemma encode_unit_not_empty u : JS.encode_unit u <> EmptyString.
Proof.
  destruct (encode_unit_shape u) as [(a & ->) | [(a & b & ->) | (a & b & c & ->)]]; discriminate.
Qed.

(** What [trim] returns neither begins nor ends with white space. *)
Lemma trim_clean s : ~ JS.starts_with_space (JS.trim s) /\ ~ JS.ends_with_space (JS.trim s).
Proof.
  destruct (trimStart_split s) as (_ & _ & _ & Hclean).
  destruct (trimEnd_split (JS.trimStart s)) as (a & Ha & Ht & Hend).
  unfold JS.trim. split.
  - intros (u & rest & Hu & E). rewrite E, append_assoc in Ht.
    apply (after_ws_None _ _ _ Hclean) in Ht; [exact Ht | apply is_ws_unit; eauto].
  - intros (u & front & Hu & E).
    apply (encode_unit_not_empty u). apply (Hend front); [exact E|].
    apply blank_one, is_ws_unit. eauto.
Qed.

(** A string that neither begins nor ends with white space is its own
    [trim]. *)
Lemma trim_of_clean s :
  ~ JS.starts_with_space s -> ~ JS.ends_with_space s -> JS.trim s = s.
Proof.
  intros Hstart Hend. unfold JS.trim.
  assert (Hs : JS.trimStart s = s).
  { apply trimStart_clean. destruct (JS.after_ws s) as [r|] eqn:E; [|reflexivity].
    exfalso. apply Hstart. apply after_ws_Some in E as (w & Hw & ->).
    apply is_ws_unit in Hw as (u & Hu & ->). exists u, r. auto. }
  rewrite Hs. clear Hs Hstart.
  induction s as [|c r IH]; [reflexivity|].
  rewrite trimEnd_String.
  destruct (JS.is_empty (JS.trimStart (String c r))) eqn:E.
  - exfalso. apply is_empty_trimStart in E. destruct E as (us & Hus & E).
    destruct (exists_last (l := us)) as (front & u & ->).
    { intros ->. discriminate. }
    apply List.Forall_app in Hus as [_ Hu]. apply List.Forall_cons_iff in Hu as [Hu _].
    apply Hend. exists u, (JS.of_units front). split; [exact Hu|].
    rewrite E, of_units_app. cbn [JS.of_units]. rewrite append_empty_r. reflexivity.
  - f_equal. apply IH. intros (u & front & Hu & ->). apply Hend.
    exists u, (String c front). split; [exact Hu | reflexivity].
Qed.

Lemma trim_idempotent s : JS.trim (JS.trim s) = JS.trim s.
Proof. apply trim_of_clean; apply trim_clean. Qed.

(** A no-break space, a space and a byte order mark before, a line
    separator and an ideographic space after; the letter after the two
    bytes of U+00E0 is kept with them. *)
Example trim_removes_every_white_space :
  JS.trim (JS.of_units [160; 32; 65279]%N +:+ "a " +:+ JS.of_units [224]%N
           +:+ JS.of_units [8232; 12288]%N)
  = "a " +:+ JS.of_units [224]%N.
Proof. vm_compute. reflexivity. Qed.

(** ** Letters *)

Lemma toLowerCase_app s t :
  JS.toLowerCase (s +:+ t) = JS.toLowerCase s +:+ JS.toLowerCase t.
Proof.
  induction s as [|c s IH]; [reflexivity|].
  rewrite append_cons. simpl. rewrite IH. reflexivity.
Qed.

Lemma toLowerCase_split v p q :
  JS.toLowerCase v = p +:+ q ->
  exists v1 v2, v = v1 +:+ v2 /\ JS.toLowerCase v1 = p /\ JS.toLowerCase v2 = q.
Proof.
  revert v. induction p as [|c p IH]; intros v E.
  - exists EmptyString, v. auto.
  - destruct v as [|x v]; [discriminate|]. rewrite append_cons in E. simpl in E.
    injection E as Ex E. destruct (IH v E) as (v1 & v2 & -> & <- & <-).
    exists (String x v1), v2. rewrite <- Ex. auto.
Qed.

Lemma lower_char_keeps c : JS.is_upper c = false -> JS.lower_char c = c.
Proof. unfold JS.lower_char. intros ->. reflexivity. Qed.

Lemma lower_char_same c : JS.same_letter c (JS.lower_char c).
Proof.
  destruct c as [[] [] [] [] [] [] [] []];
    first [left; reflexivity | right; left; vm_compute; repeat split; lia].
Qed.

Lemma lower_char_inv c d : JS.is_lower d = false -> JS.lower_char c = d -> c = d.
Proof.
  intros Hd <-. destruct c as [[] [] [] [] [] [] [] []]; first [reflexivity | discriminate].
Qed.

Lemma same_letter_lower c d :
  JS.is_upper d = false -> JS.same_letter c d -> JS.lower_char c = d.
Proof.
  intros Hd [-> | [[Hc E] | [Hc E]]].
  - apply lower_char_keeps. exact Hd.
  - unfold JS.lower_char, JS.is_upper.
    replace (_ && _) with true
      by (symmetry; apply andb_true_iff; split; apply Nat.leb_le; lia).
    rewrite <- E. apply ascii_nat_embedding.
  - exfalso. unfold JS.is_upper in Hd. apply andb_false_iff in Hd as [H|H];
      apply Nat.leb_gt in H; lia.
Qed.

(** Lower-casing gives a word without capitals exactly from the texts that
    are the word but for the case of their letters. *)
Lemma toLowerCase_same core w :
  JS.all_chars (fun c => negb (JS.is_upper c)) w = true ->
  JS.toLowerCase core = w <-> JS.same_ignoring_case core w.
Proof.
  intros Hw. split.
  - intros <-. clear Hw. induction core as [|c core IH]; simpl; constructor;
      [apply lower_char_same | exact IH].
  - intros H. induction H as [|c d s t Hcd _ IH]; [reflexivity|].
    simpl in Hw. apply andb_true_iff in Hw as [Hd Hw]. apply negb_true_iff in Hd.
    simpl. rewrite (same_letter_lower c d Hd Hcd), IH by exact Hw. reflexivity.
Qed.

Lemma all_chars_app p s t :
  JS.all_chars p (s +:+ t) = JS.all_chars p s && JS.all_chars p t.
Proof.
  induction s as [|c s IH]; [reflexivity|].
  rewrite append_cons. simpl. rewrite IH, andb_assoc. reflexivity.
Qed.

(** White space holds no letter, so lower-casing leaves it as it is, and
    only white space is lower-cased to white space. *)
Lemma blank_no_letter b :
  JS.blank b -> JS.all_chars (fun c => negb (JS.is_lower c) && negb (JS.is_upper c)) b = true.
Proof.
  intros (us & Hus & ->). induction us as [|u us IH]; [reflexivity|].
  apply List.Forall_cons_iff in Hus as [Hu Hus]. cbn [JS.of_units].
  rewrite all_chars_app, (IH Hus), andb_true_r.
  apply space_unit_In in Hu. cbv [JS.white_space In] in Hu.
  repeat (destruct Hu as [Hu|Hu]; [subst; reflexivity|]). destruct Hu.
Qed.

Lemma toLowerCase_blank_inv x b : JS.blank b -> JS.toLowerCase x = b -> x = b.
Proof.
  intros Hb. apply blank_no_letter in Hb. revert b Hb.
  induction x as [|c x IH]; intros b Hb <-; [reflexivity|].
  simpl in Hb. apply andb_true_iff in Hb as [Hc Hb]. apply andb_true_iff in Hc as [Hc _].
  apply negb_true_iff in Hc. simpl. f_equal; [|apply IH; [exact Hb | reflexivity]].
  apply lower_char_inv; [exact Hc | reflexivity].
Qed.

Lemma toLowerCase_blank b : JS.blank b -> JS.toLowerCase b = b.
Proof.
  intros Hb. apply blank_no_letter in Hb.
  induction b as [|c b IH]; [reflexivity|].
  simpl in Hb. apply andb_true_iff in Hb as [Hc Hb]. apply andb_true_iff in Hc as [_ Hc].
  apply negb_true_iff in Hc. simpl. rewrite (lower_char_keeps c Hc), IH by exact Hb.
  reflexivity.
Qed.

(** ** Words of small letters and digits *)

Lemma plain_not_space c r :
  JS.is_lower c || JS.is_digit c = true -> JS.after_ws (String c r) = None.
Proof.
  intros Hc. destruct (JS.after_ws (String c r)) as [r'|] eqn:E; [|reflexivity].
  exfalso. apply after_ws_Some in E as (w & Hw & E).
  each_space Hw; cbv in E; injection E as -> _; vm_compute in Hc; discriminate.
Qed.

Lemma plain_not_upper w :
  JS.all_chars (fun c => JS.is_lower c || JS.is_digit c) w = true ->
  JS.all_chars (fun c => negb (JS.is_upper c)) w = true.
Proof.
  induction w as [|c w IH]; [reflexivity|]. simpl. intros H.
  apply andb_true_iff in H as [Hc Hw]. rewrite (IH Hw), andb_true_r.
  destruct c as [[] [] [] [] [] [] [] []]; first [reflexivity | discriminate].
Qed.

Lemma trimEnd_word w a :
  w <> EmptyString ->
  JS.all_chars (fun c => JS.is_lower c || JS.is_digit c) w = true ->
  JS.blank a -> JS.trimEnd (w +:+ a) = w.
Proof.
  intros Hne Hw Ha. induction w as [|c w IH]; [congruence|].
  simpl in Hw. apply andb_true_iff in Hw as [Hc Hw].
  rewrite append_cons, trimEnd_String, (trimStart_clean _ (plain_not_space c _ Hc)).
  cbn [JS.is_empty]. f_equal.
  destruct w as [|d w]; [rewrite append_nil; apply trimEnd_blank; exact Ha|].
  apply IH; [discriminate | exact Hw].
Qed.

(** A text is lower-cased and trimmed to a word of small letters and
    digits exactly when it is that word in some case, with white space
    around it or not. *)
Lemma trim_toLowerCase_word v w :
  w <> EmptyString ->
  JS.all_chars (fun c => JS.is_lower c || JS.is_digit c) w = true ->
  JS.trim (JS.toLowerCase v) = w <-> JS.reads_as v w.
Proof.
  intros Hne Hw. split.
  - intros E. destruct (trim_split (JS.toLowerCase v)) as (b & a & Hb & Ha & Hv).
    rewrite E in Hv.
    apply toLowerCase_split in Hv as (v1 & v23 & -> & H1 & H23).
    apply toLowerCase_split in H23 as (v2 & v3 & -> & H2 & H3).
    apply (toLowerCase_blank_inv _ _ Hb) in H1. apply (toLowerCase_blank_inv _ _ Ha) in H3.
    subst v1 v3. exists b, v2, a. repeat split; try assumption.
    apply toLowerCase_same; [apply plain_not_upper; exact Hw | exact H2].
  - intros (b & core & a & -> & Hb & Ha & Hcore).
    apply toLowerCase_same in Hcore; [|apply plain_not_upper; exact Hw].
    rewrite !toLowerCase_app, Hcore, (toLowerCase_blank b Hb), (toLowerCase_blank a Ha).
    unfold JS.trim. rewrite trimStart_blank_app by exact Hb.
    destruct w as [|c w]; [congruence|].
    pose proof Hw as Hw'. simpl in Hw'. apply andb_true_iff in Hw' as [Hc _].
    rewrite append_cons, (trimStart_clean _ (plain_not_space c _ Hc)), <- append_cons.
    apply trimEnd_word; assumption.
Qed.


(** ** The bytes of a code unit, and [trim] on code units *)

Lemma byte_eq n c : (n < 256)%N -> JS.byte n = c -> n = N_of_ascii c.
Proof. intros Hn <-. unfold JS.byte. symmetry. apply N_ascii_embedding. exact Hn. Qed.

(** The three parts of a code unit that its bytes carry. *)
Lemma unit_parts u :
  exists a b c : N,
    (u = 4096 * a + 64 * b + c /\ b < 64 /\ c < 64)%N
    /\ (u / 4096 = a /\ (u / 64) mod 64 = b /\ u mod 64 = c /\ u / 64 = 64 * a + b)%N.
Proof.
  assert (H64 : 64%N <> 0%N) by discriminate.
  pose proof (N.div_mod u 64 H64) as D1. pose proof (N.mod_upper_bound u 64 H64) as M1.
  pose proof (N.div_mod (u / 64) 64 H64) as D2.
  pose proof (N.mod_upper_bound (u / 64) 64 H64) as M2.
  pose proof (N.Div0.div_div u 64 64) as Hdd. change (64 * 64)%N with 4096%N in Hdd.
  rewrite Hdd in D2.
  exists (u / 4096)%N, ((u / 64) mod 64)%N, (u mod 64)%N.
  generalize dependent (u mod 64)%N. intros c.
  generalize dependent ((u / 64) mod 64)%N. intros b.
  generalize dependent (u / 64)%N. intros q.
  generalize dependent (u / 4096)%N. intros a. intros.
  repeat split; try assumption; lia.
Qed.

Ltac unit_bytes u :=
  let a := fresh "a" in let b := fresh "b" in let c := fresh "c" in
  let Ea := fresh "Ea" in let Eb := fresh "Eb" in let Ec := fresh "Ec" in
  let Eq := fresh "Eq" in let Hu := fresh "Hu" in
  destruct (unit_parts u) as (a & b & c & Hu & Ea & Eb & Ec & Eq);
  rewrite ?Ea, ?Eb, ?Ec, ?Eq in *; clear Ea Eb Ec Eq;
  repeat match goal with
         | H : JS.byte ?e = ?c |- _ =>
             apply byte_eq in H; [vm_compute (N_of_ascii c) in H | lia]
         end.

Lemma is_space_In u : JS.is_space u = true <-> In u JS.white_space.
Proof.
  unfold JS.is_space. rewrite existsb_exists. split.
  - intros (x & Hx & E). apply N.eqb_eq in E. subst x. exact Hx.
  - intros H. exists u. split; [exact H | apply N.eqb_refl].
Qed.

Lemma is_space_unit u : JS.is_space u = true <-> JS.space_unit u.
Proof. rewrite is_space_In. symmetry. apply space_unit_In. Qed.

(** A code unit whose bytes begin a text that begins with the bytes of a
    white-space code unit is that code unit. *)
Lemma encode_unit_space u v r r' :
  (u < 65536)%N -> In v JS.white_space ->
  JS.encode_unit u +:+ r = JS.encode_unit v +:+ r' -> u = v /\ r = r'.
Proof.
  intros Hu Hv E. cbv [JS.white_space In] in Hv.
  repeat (destruct Hv as [<-|Hv];
          [ match type of E with
            | _ = JS.encode_unit ?x +:+ _ =>
                let w := eval vm_compute in (JS.encode_unit x) in
                change (JS.encode_unit x) with w in E
            end;
            unfold JS.encode_unit in E;
            destruct (u <? 128)%N eqn:H1;
            [ apply N.ltb_lt in H1
            | apply N.ltb_ge in H1; destruct (u <? 2048)%N eqn:H2;
              [apply N.ltb_lt in H2 | apply N.ltb_ge in H2] ];
            rewrite ?append_cons, ?append_nil in E;
            injection E; intros; unit_bytes u;
            first [ split; [lia | assumption] | exfalso; lia ]
          |]).
  destruct Hv.
Qed.

(** The bytes of a code unit after its first are in the range 128 to 191,
    where no white-space code unit begins. *)
Lemma is_ws_first c w :
  JS.is_ws (String c w) = true -> (N_of_ascii c < 128 \/ 192 <= N_of_ascii c)%N.
Proof.
  intros H. apply is_ws_In in H. cbv [List.map JS.white_space In] in H.
  repeat (destruct H as [H|H];
          [cbv in H; injection H as <- _; vm_compute;
           first [left; reflexivity | right; discriminate]|]).
  destruct H.
Qed.

Lemma blank_first c s :
  JS.blank (String c s) -> (N_of_ascii c < 128 \/ 192 <= N_of_ascii c)%N.
Proof.
  intros H. apply blank_inv in H as [H | (w & s' & Hw & _ & E)]; [discriminate|].
  destruct (is_ws_shape w Hw) as [(a & ->) | [(a & b & ->) | (a & b & d & ->)]];
    rewrite append_cons in E; injection E as -> _; exact (is_ws_first _ _ Hw).
Qed.

Lemma not_blank_continuation n s :
  (128 <= n < 192)%N -> ~ JS.blank (String (JS.byte n) s).
Proof.
  intros Hn H. apply blank_first in H. unfold JS.byte in H.
  rewrite N_ascii_embedding in H by lia. lia.
Qed.

(** A blank text that begins with the bytes of a code unit: the code unit
    is white space, and the rest is blank. *)
Lemma blank_encode_unit u r :
  (u < 65536)%N -> JS.blank (JS.encode_unit u +:+ r) -> JS.is_space u = true /\ JS.blank r.
Proof.
  intros Hu H. apply blank_inv in H as [H | (w & s' & Hw & Hs' & E)].
  - destruct (encode_unit_shape u) as [(a & Ea) | [(a & b & Ea) | (a & b & c & Ea)]];
      rewrite Ea in H; discriminate.
  - apply is_ws_In in Hw. apply List.in_map_iff in Hw as (v & <- & Hv).
    destruct (encode_unit_space u v r s' Hu Hv E) as [-> ->].
    split; [apply is_space_In; exact Hv | exact Hs'].
Qed.

Lemma after_ws_unit u r :
  (u < 65536)%N -> JS.is_space u = false -> JS.after_ws (JS.encode_unit u +:+ r) = None.
Proof.
  intros Hu Hspace. destruct (JS.after_ws _) as [r'|] eqn:E; [|reflexivity].
  apply after_ws_Some in E as (w & Hw & E).
  apply is_ws_In in Hw. apply List.in_map_iff in Hw as (v & <- & Hv).
  destruct (encode_unit_space u v r r' Hu Hv E) as [-> _].
  apply is_space_In in Hv. congruence.
Qed.

(** [trimStart] on the bytes is [trimStart] on the code units. *)
Lemma trimStart_of_units us :
  JS.code_units us -> JS.trimStart (JS.of_units us) = JS.of_units (JS.trimStart_units us).
Proof.
  intros Hus. induction Hus as [|u us Hu Hus IH]; [reflexivity|].
  cbn [JS.of_units JS.trimStart_units]. destruct (JS.is_space u) eqn:E.
  - rewrite trimStart_word by (apply is_ws_unit; exists u; split;
                               [apply is_space_unit; exact E | reflexivity]).
    exact IH.
  - apply trimStart_clean, after_ws_unit; assumption.
Qed.

Lemma blank_of_units us r :
  JS.code_units us -> JS.blank (JS.of_units us +:+ r) ->
  Forall (fun u => JS.is_space u = true) us /\ JS.blank r.
Proof.
  intros Hus. induction Hus as [|u us Hu Hus IH]; intros H.
  - split; [constructor | exact H].
  - cbn [JS.of_units] in H. rewrite append_assoc in H.
    apply (blank_encode_unit u _ Hu) in H as [Hspace H].
    destruct (IH H) as [Hall Hr]. split; [constructor; assumption | exact Hr].
Qed.

(** [trimEnd] keeps the bytes of a code unit that is followed by a text
    that is not blank, or is not white space itself. *)
Lemma trimEnd_encode_unit u r :
  (u < 65536)%N ->
  ~ JS.blank (JS.encode_unit u +:+ r) ->
  JS.trimEnd (JS.encode_unit u +:+ r) = JS.encode_unit u +:+ JS.trimEnd r.
Proof.
  intros Hu Hnot.
  destruct (unit_parts u) as (a & b & c & Hparts & Ea & Eb & Ec & _).
  assert (Hkeep : forall x s, ~ JS.blank (String x s) ->
                    JS.trimEnd (String x s) = String x (JS.trimEnd s)).
  { intros x s H. rewrite trimEnd_String.
    destruct (JS.is_empty (JS.trimStart (String x s))) eqn:E; [|reflexivity].
    apply is_empty_trimStart in E. contradiction. }
  revert Hnot. unfold JS.encode_unit. rewrite ?Ea, ?Eb, ?Ec.
  destruct (u <? 128)%N; [|destruct (u <? 2048)%N];
    rewrite ?append_cons, ?append_nil; intros Hnot;
    rewrite Hkeep by exact Hnot;
    repeat (rewrite Hkeep by (apply not_blank_continuation; lia)); reflexivity.
Qed.

(** A text of code units that does not end with white space, followed by
    white space: [trimEnd] returns the code units. *)
Lemma trimEnd_units_blank core a :
  JS.code_units core ->
  (forall front u, core = front ++ [u] -> JS.is_space u = false) ->
  JS.blank a ->
  JS.trimEnd (JS.of_units core +:+ a) = JS.of_units core.
Proof.
  intros Hcore. induction Hcore as [|u core Hu Hcore IH]; intros Hlast Ha.
  - apply trimEnd_blank. exact Ha.
  - cbn [JS.of_units]. rewrite append_assoc, trimEnd_encode_unit; [| exact Hu |].
    + f_equal. apply IH; [|exact Ha].
      intros front x ->. apply (Hlast (u :: front) x). reflexivity.
    + rewrite <- append_assoc. change (JS.encode_unit u +:+ JS.of_units core)
        with (JS.of_units (u :: core)).
      intros H. apply blank_of_units in H as [Hall _]; [|constructor; assumption].
      destruct (exists_last (l := u :: core)) as (front & x & E); [discriminate|].
      rewrite E in Hall. apply List.Forall_app in Hall as [_ Hx].
      apply List.Forall_cons_iff in Hx as [Hx _].
      rewrite (Hlast front x E) in Hx. discriminate.
Qed.

Lemma trimStart_units_split us :
  exists spaces,
    us = spaces ++ JS.trimStart_units us
    /\ Forall (fun u => JS.is_space u = true) spaces
    /\ (forall u rest, JS.trimStart_units us = u :: rest -> JS.is_space u = false).
Proof.
  induction us as [|u us (spaces & E & Hspaces & Hfirst)].
  - exists []. split; [reflexivity|]. split; [constructor | discriminate].
  - cbn [JS.trimStart_units]. destruct (JS.is_space u) eqn:Hu.
    + exists (u :: spaces). split; [cbn [app]; congruence|].
      split; [constructor; assumption | exact Hfirst].
    + exists []. split; [reflexivity|]. split; [constructor|].
      intros x rest [= <- _]. exact Hu.
Qed.

Lemma blank_spaces spaces :
  Forall (fun u => JS.is_space u = true) spaces -> JS.blank (JS.of_units spaces).
Proof.
  intros H. exists spaces. split; [|reflexivity].
  eapply List.Forall_impl; [|exact H]. intros u Hu. apply is_space_unit. exact Hu.
Qed.

(** [trimEnd] on the bytes is [trimEnd] on the code units. *)
Lemma trimEnd_of_units us :
  JS.code_units us -> JS.trimEnd (JS.of_units us) = JS.of_units (JS.trimEnd_units us).
Proof.
  intros Hus. unfold JS.trimEnd_units.
  destruct (trimStart_units_split (rev us)) as (spaces & E & Hspaces & Hfirst).
  set (kept := JS.trimStart_units (rev us)) in *.
  assert (Eus : us = rev kept ++ rev spaces)
    by (rewrite <- List.rev_app_distr, <- E, List.rev_involutive; reflexivity).
  rewrite Eus at 1. rewrite of_units_app. apply trimEnd_units_blank.
  - unfold JS.code_units in *. rewrite Eus in Hus. apply List.Forall_app in Hus as [H _]. exact H.
  - intros front u Hkept. apply (f_equal (@rev N)) in Hkept.
    rewrite List.rev_involutive, List.rev_app_distr in Hkept. cbn [rev app] in Hkept.
    apply (Hfirst u (rev front)). exact Hkept.
  - apply blank_spaces. apply List.Forall_rev. exact Hspaces.
Qed.

(** [trim] on the bytes of a sequence of code units is [trim] on the code
    units: the white-space code units at both ends are removed, and nothing
    else. *)
Lemma trim_of_units us :
  JS.code_units us -> JS.trim (JS.of_units us) = JS.of_units (JS.trim_units us).
Proof.
  intros Hus. unfold JS.trim, JS.trim_units. rewrite trimStart_of_units by exact Hus.
  apply trimEnd_of_units.
  destruct (trimStart_units_split us) as (spaces & E & _).
  unfold JS.code_units in *. rewrite E in Hus. apply List.Forall_app in Hus as [_ H]. exact H.
Qed.


Lemma byte_inj n m : (n < 256)%N -> (m < 256)%N -> JS.byte n = JS.byte m -> n = m.
Proof.
  intros Hn Hm E. apply (f_equal N_of_ascii) in E. unfold JS.byte in E.
  rewrite !N_ascii_embedding in E by assumption. exact E.
Qed.

(** No code unit's bytes begin with the bytes of another: a text is the
    bytes of one sequence of code units at most. *)
Lemma encode_unit_prefix u v r r' :
  (u < 65536)%N -> (v < 65536)%N ->
  JS.encode_unit u +:+ r = JS.encode_unit v +:+ r' -> u = v /\ r = r'.
Proof.
  intros Hu Hv. unfold JS.encode_unit.
  destruct (unit_parts u) as (a & b & c & Hparts & Ea & Eb & Ec & Eq).
  destruct (unit_parts v) as (a' & b' & c' & Hparts' & Ea' & Eb' & Ec' & Eq').
  rewrite Ea, Eb, Ec, Eq, Ea', Eb', Ec', Eq'. clear Ea Eb Ec Eq Ea' Eb' Ec' Eq'.
  destruct (u <? 128)%N eqn:U1;
    [apply N.ltb_lt in U1
    | apply N.ltb_ge in U1; destruct (u <? 2048)%N eqn:U2;
      [apply N.ltb_lt in U2 | apply N.ltb_ge in U2]];
    (destruct (v <? 128)%N eqn:V1;
     [apply N.ltb_lt in V1
     | apply N.ltb_ge in V1; destruct (v <? 2048)%N eqn:V2;
       [apply N.ltb_lt in V2 | apply N.ltb_ge in V2]]);
    rewrite ?append_cons, ?append_nil; intros E; injection E; intros;
    repeat match goal with
           | H : JS.byte _ = JS.byte _ |- _ => apply byte_inj in H; [| lia | lia]
           end;
    first [split; [lia | assumption] | exfalso; lia].
Qed.

Lemma of_units_inj us vs :
  JS.code_units us -> JS.code_units vs -> JS.of_units us = JS.of_units vs -> us = vs.
Proof.
  intros Hus. revert vs. induction Hus as [|u us Hu Hus IH]; intros vs Hvs E.
  - destruct Hvs as [|v vs Hv Hvs]; [reflexivity|]. cbn [JS.of_units] in E.
    destruct (encode_unit_shape v) as [(x & Ev) | [(x & y & Ev) | (x & y & z & Ev)]];
      rewrite Ev in E; discriminate.
  - destruct Hvs as [|v vs Hv Hvs]; cbn [JS.of_units] in E.
    + destruct (encode_unit_shape u) as [(x & Eu) | [(x & y & Eu) | (x & y & z & Eu)]];
        rewrite Eu in E; discriminate.
    + apply encode_unit_prefix in E as [-> E]; [|assumption..].
      f_equal. apply IH; assumption.
Qed.

Lemma is_continuation_byte n :
  (n < 256)%N -> JS.is_continuation (JS.byte n) = ((128 <=? n)%N && (n <=? 191)%N).
Proof.
  intros Hn. unfold JS.is_continuation, JS.byte. cbv zeta.
  rewrite N_ascii_embedding by exact Hn. reflexivity.
Qed.

Lemma code_unit_length_encode_unit u r :
  (u < 65536)%N -> JS.code_unit_length (JS.encode_unit u +:+ r) = S (JS.code_unit_length r).
Proof.
  intros Hu. unfold JS.encode_unit.
  destruct (unit_parts u) as (a & b & c & Hparts & Ea & Eb & Ec & Eq).
  rewrite Ea, Eb, Ec, Eq. clear Ea Eb Ec Eq.
  destruct (u <? 128)%N eqn:U1;
    [apply N.ltb_lt in U1
    | apply N.ltb_ge in U1; destruct (u <? 2048)%N eqn:U2;
      [apply N.ltb_lt in U2 | apply N.ltb_ge in U2]];
    rewrite ?append_cons, ?append_nil; cbn [JS.code_unit_length];
    rewrite !is_continuation_byte by lia;
    repeat match goal with
           | |- context [(?x <=? ?y)%N] => destruct (N.leb_spec x y)
           end;
    cbn [andb]; first [reflexivity | exfalso; lia].
Qed.

(** [length] is the number of code units of a text. *)
Lemma code_unit_length_of_units us :
  JS.code_units us -> JS.code_unit_length (JS.of_units us) = length us.
Proof.
  induction 1 as [|u us Hu Hus IH]; [reflexivity|].
  cbn [JS.of_units length]. rewrite code_unit_length_encode_unit by exact Hu.
  rewrite IH. reflexivity.
Qed.

End TrimFacts.

(** ** validateWebConfig *)

Module WebConfigFacts.
Import Regex RegexFacts TrimFacts WebConfig.

(** The test [!s || s.trim() === ''] holds exactly of the blank strings. *)
Lemma missing_blank s : missing s = true <-> blank s.
Proof.
  unfold missing, blank, JS.truthy. rewrite <- is_empty_trim.
  destruct s as [|c s]; [split; reflexivity|]. cbn [JS.is_empty negb orb]. reflexivity.
Qed.

Lemma missing_false s : missing s = false <-> ~ blank s.
Proof.
  rewrite <- missing_blank. destruct (missing s); split; congruence.
Qed.

Lemma lang_Lit p s : lang (Lit p) s <-> s = p.
Proof.
  revert s. induction p as [|c p IH]; intros s; simpl.
  - split; [apply lang_Eps_inv | intros ->; constructor].
  - split.
    + intros H. apply lang_Seq_inv in H as (s1 & s2 & -> & H1 & H2).
      apply lang_Chr_inv in H1 as ->. apply IH in H2 as ->. reflexivity.
    + intros ->. change (String c p) with (String c EmptyString +:+ p).
      constructor; [constructor | apply IH; reflexivity].
Qed.

Lemma lang_Lit_Seq p r s :
  lang (Seq (Lit p) r) s <-> exists w, s = p +:+ w /\ lang r w.
Proof.
  split.
  - intros H. apply lang_Seq_inv in H as (s1 & s2 & -> & H1 & H2).
    apply lang_Lit in H1 as ->. eauto.
  - intros (w & -> & H). constructor; [apply lang_Lit; reflexivity | exact H].
Qed.

Lemma class_digit : class_of digit JS.is_digit.
Proof.
  intros s. split.
  - intros H. apply lang_Rng_inv in H as (c & -> & Hc). exists c. split; [reflexivity|exact Hc].
  - intros (c & -> & Hc). constructor. exact Hc.
Qed.

Lemma class_upper_or_digit : class_of upper_or_digit is_upper_or_digit.
Proof.
  intros s. unfold is_upper_or_digit. split.
  - intros H. apply lang_Alt_inv in H as [H|H];
      apply lang_Rng_inv in H as (c & -> & Hc); exists c; (split; [reflexivity|]);
      apply orb_true_iff; [left | right]; exact Hc.
  - intros (c & -> & Hc). apply orb_true_iff in Hc as [Hc|Hc];
      [apply L_AltL | apply L_AltR]; constructor; exact Hc.
Qed.

Lemma lang_Star_class cls p w :
  class_of cls p -> (lang (Star cls) w <-> JS.all_chars p w = true).
Proof.
  intros Hcls. split.
  - intros H. remember (Star cls) as r eqn:Er.
    induction H as [| | | | | | r0 | r0 c s1 s2 H1 _ H2 IH2]; try discriminate.
    + reflexivity.
    + injection Er as ->. apply Hcls in H1 as (x & E & Hx).
      injection E as -> ->. rewrite append_cons, append_nil. simpl.
      rewrite Hx. apply IH2. reflexivity.
  - induction w as [|c w IH]; simpl; intros H; [constructor|].
    apply andb_true_iff in H as [Hc Hw].
    change (String c w) with (String c EmptyString +:+ w).
    apply L_StarS; [apply Hcls; eauto | apply IH; exact Hw].
Qed.

Lemma lang_Plus_class cls p w :
  class_of cls p ->
  (lang (Plus cls) w <-> w <> EmptyString /\ JS.all_chars p w = true).
Proof.
  intros Hcls. unfold Plus. split.
  - intros H. apply lang_Seq_inv in H as (s1 & s2 & -> & H1 & H2).
    apply Hcls in H1 as (c & -> & Hc). rewrite append_cons, append_nil.
    split; [discriminate|]. simpl. rewrite Hc.
    apply (lang_Star_class cls p); assumption.
  - intros [Hne H]. destruct w as [|c w]; [congruence|]. simpl in H.
    apply andb_true_iff in H as [Hc Hw].
    change (String c w) with (String c EmptyString +:+ w).
    constructor; [apply Hcls; eauto | apply (lang_Star_class cls p); assumption].
Qed.

(** The regular expression of the source denotes the three formats. *)
Lemma analytics_regex_vendor_format id :
  full_match analytics_regex id = true <-> vendor_format id.
Proof.
  rewrite full_match_lang. unfold analytics_regex, vendor_format.
  unfold analytics_G, analytics_UA, analytics_GT, code_word, number_word.
  split.
  - intros H. apply lang_Alt_inv in H as [H|H]; [|apply lang_Alt_inv in H as [H|H]].
    + left. apply lang_Lit_Seq in H as (w & -> & H).
      exists w. split; [reflexivity|].
      apply (lang_Plus_class _ _ w class_upper_or_digit). exact H.
    + right; left. apply lang_Lit_Seq in H as (w & -> & H).
      apply lang_Seq_inv in H as (a & t & -> & Ha & H).
      apply lang_Seq_inv in H as (d & b & -> & Hd & Hb).
      apply lang_Chr_inv in Hd as ->.
      exists a, b. split; [reflexivity|].
      split; [apply (lang_Plus_class _ _ a class_digit) | apply (lang_Plus_class _ _ b class_digit)];
        assumption.
    + right; right. apply lang_Lit_Seq in H as (w & -> & H).
      exists w. split; [reflexivity|].
      apply (lang_Plus_class _ _ w class_upper_or_digit). exact H.
  - intros [(w & -> & H) | [(a & b & -> & Ha & Hb) | (w & -> & H)]].
    + apply L_AltL. apply lang_Lit_Seq. exists w. split; [reflexivity|].
      apply (lang_Plus_class _ _ w class_upper_or_digit). exact H.
    + apply L_AltR, L_AltL. apply lang_Lit_Seq. exists (a +:+ "-" +:+ b).
      split; [reflexivity|].
      constructor; [apply (lang_Plus_class _ _ a class_digit); exact Ha|].
      constructor; [constructor | apply (lang_Plus_class _ _ b class_digit); exact Hb].
    + apply L_AltR, L_AltR. apply lang_Lit_Seq. exists w. split; [reflexivity|].
      apply (lang_Plus_class _ _ w class_upper_or_digit). exact H.
Qed.


Lemma analytics_check_passes id :
  JS.truthy id && negb (full_match analytics_regex id) = false
  <-> id = EmptyString \/ vendor_format id.
Proof.
  rewrite <- analytics_regex_vendor_format.
  destruct id as [|c id]; simpl.
  - split; auto.
  - destruct (full_match _ _); simpl; split; auto.
    intros [H|H]; discriminate.
Qed.

(** C3, as the code has it.  [validateWebConfig] is a total function, and
    it returns the empty list exactly when site name, description and URL
    each hold a character that is not white space, the URL is accepted by
    [new URL], and the analytics id is absent, empty, or in one of the
    three vendor formats. *)
Theorem validateWebConfig_empty_iff (URL_parses : string -> bool) (config : WebConfig.t) :
  validateWebConfig URL_parses config = []
  <-> ~ blank (name (site config))
      /\ ~ blank (description (site config))
      /\ ~ blank (url (site config))
      /\ URL_parses (url (site config)) = true
      /\ match googleAnalyticsId (seo config) with
         | None => True
         | Some id => id = EmptyString \/ vendor_format id
         end.
Proof.
  unfold validateWebConfig. rewrite <- !missing_false.
  destruct (googleAnalyticsId (seo config)) as [id|].
  - rewrite <- analytics_check_passes.
    destruct (missing (name (site config))), (missing (description (site config))),
      (missing (url (site config))), (URL_parses (url (site config))),
      (JS.truthy id && negb (full_match analytics_regex id));
      simpl; split; try discriminate; try tauto;
      intros (? & ? & ? & ? & ?); discriminate.
  - destruct (missing (name (site config))), (missing (description (site config))),
      (missing (url (site config))), (URL_parses (url (site config)));
      simpl; split; try discriminate; try tauto;
      intros (? & ? & ? & ? & ?); discriminate.
Qed.

(** A site name of one space is not empty, description and URL are not
    empty, the URL parses and no analytics id is set, and still an error
    is returned. *)
Lemma validateWebConfig_blank_name_counterexample :
  name (site Samples.config_blank_name) = " "
  /\ description (site Samples.config_blank_name)
     = "A collection of interconnected notes and ideas"
  /\ url (site Samples.config_blank_name) = "https://example.com"
  /\ Samples.URL_accepts_example (url (site Samples.config_blank_name)) = true
  /\ googleAnalyticsId (seo Samples.config_blank_name) = None
  /\ validateWebConfig Samples.URL_accepts_example Samples.config_blank_name
     = ["Site name is required"].
Proof. repeat split. Qed.

(** A site name of a no-break space and a line separator is missing. *)
Example validateWebConfig_no_break_space_name :
  validateWebConfig Samples.URL_accepts_example
    (set_name (JS.of_units [160; 8232]%N) DEFAULT_WEB_CONFIG)
  = ["Site name is required"].
Proof. vm_compute. reflexivity. Qed.

(** An analytics id that is present but empty passes the check. *)
Example validateWebConfig_empty_analytics :
  validateWebConfig Samples.URL_accepts_example Samples.config_empty_analytics = [].
Proof. reflexivity. Qed.

Example validateWebConfig_analytics_formats :
  List.map (full_match analytics_regex)
    ["G-ABC123"; "UA-12345-6"; "GT-X9"; "G-"; "g-abc"; "UA-12345"; "G-ABC "; EmptyString]
  = [true; true; true; false; false; false; false; false].
Proof. vm_compute. reflexivity. Qed.

End WebConfigFacts.

(** ** DockerConfigLoader *)

Module ConfigLoaderFacts.
Import WebConfig DockerConfigLoader TrimFacts.

Lemma parseBooleanEnv_unset env x d :
  env !! x = None -> parseBooleanEnv env x d = (d, []).
Proof. intros H. unfold parseBooleanEnv. rewrite H. reflexivity. Qed.

Lemma parseBooleanEnv_true env x d s :
  env !! x = Some s ->
  JS.array_includes true_words (JS.trim (JS.toLowerCase s)) = true ->
  parseBooleanEnv env x d = (true, []).
Proof.
  intros H Hw. unfold parseBooleanEnv. rewrite H. cbv zeta.
  unfold JS.array_includes, true_words in Hw. simpl in Hw.
  rewrite orb_false_r, orb_assoc in Hw. rewrite Hw. reflexivity.
Qed.

Lemma parseBooleanEnv_false env x d s :
  env !! x = Some s ->
  JS.array_includes true_words (JS.trim (JS.toLowerCase s)) = false ->
  JS.array_includes false_words (JS.trim (JS.toLowerCase s)) = true ->
  parseBooleanEnv env x d = (false, []).
Proof.
  intros H Ht Hf. unfold parseBooleanEnv. rewrite H. cbv zeta.
  unfold JS.array_includes, true_words, false_words in Ht, Hf. simpl in Ht, Hf.
  rewrite orb_false_r, orb_assoc in Ht, Hf. rewrite Ht, Hf. reflexivity.
Qed.

Lemma parseBooleanEnv_other env x d s :
  env !! x = Some s ->
  JS.array_includes true_words (JS.trim (JS.toLowerCase s)) = false ->
  JS.array_includes false_words (JS.trim (JS.toLowerCase s)) = false ->
  parseBooleanEnv env x d = (d, [invalid_boolean_message x s d]).
Proof.
  intros H Ht Hf. unfold parseBooleanEnv. rewrite H. cbv zeta.
  unfold JS.array_includes, true_words, false_words in Ht, Hf. simpl in Ht, Hf.
  rewrite orb_false_r, orb_assoc in Ht, Hf. rewrite Ht, Hf. reflexivity.
Qed.

(** [false] followed by a no-break space is read as false, without a
    warning; [YES] after a line separator is read as true. *)
Example parseBooleanEnv_no_break_space :
  parseBooleanEnv {[ "X" := "false" +:+ JS.of_units [160]%N ]} "X" true = (false, [])
  /\ parseBooleanEnv {[ "X" := JS.of_units [8232]%N +:+ "YES" ]} "X" false = (true, []).
Proof. split; vm_compute; reflexivity. Qed.

(** Each part of the loader leaves the other sections as they were. *)
Lemma loadSiteInformation_frame env c :
  features (loadSiteInformation env c) = features c
  /\ seo (loadSiteInformation env c) = seo c
  /\ advanced (loadSiteInformation env c) = advanced c.
Proof.
  unfold loadSiteInformation.
  destruct (env_truthy env "OBSIDIAN_SITE_NAME"),
    (env_truthy env "OBSIDIAN_SITE_DESCRIPTION"),
    (env_truthy env "OBSIDIAN_SITE_URL"),
    (env_truthy env "OBSIDIAN_SITE_FAVICON"); repeat split.
Qed.

Ltac name_parses :=
  repeat match goal with
         | |- context [parseBooleanEnv ?e ?x ?d] =>
             let b := fresh "b" in let w := fresh "w" in
             destruct (parseBooleanEnv e x d) as [b w]
         end.

Lemma loadFeatures_spec env c :
  let p1 := parseBooleanEnv env "OBSIDIAN_FEATURE_SEARCH" (search (features c)) in
  let p2 := parseBooleanEnv env "OBSIDIAN_FEATURE_GRAPH_VIEW" (graphView (features c)) in
  let p3 := parseBooleanEnv env "OBSIDIAN_FEATURE_NAVIGATION" (navigation (features c)) in
  let p4 := parseBooleanEnv env "OBSIDIAN_FEATURE_THEME_TOGGLE" (themeToggle (features c)) in
  let p5 := parseBooleanEnv env "OBSIDIAN_FEATURE_BACKLINKS" (backlinks (features c)) in
  let p6 := parseBooleanEnv env "OBSIDIAN_FEATURE_TAGS" (tags (features c)) in
  let p7 := parseBooleanEnv env "OBSIDIAN_FEATURE_OUTLINE" (outline (features c)) in
  let p8 := parseBooleanEnv env "OBSIDIAN_FEATURE_SIDEBAR" (sidebar (features c)) in
  loadFeatures env c
  = (set_features {| search := fst p1; graphView := fst p2; navigation := fst p3;
                     themeToggle := fst p4; backlinks := fst p5; tags := fst p6;
                     outline := fst p7; sidebar := fst p8 |} c,
     snd p1 ++ snd p2 ++ snd p3 ++ snd p4 ++ snd p5 ++ snd p6 ++ snd p7 ++ snd p8 ++ []).
Proof.
  unfold loadFeatures, wbind, wret. cbn -[parseBooleanEnv]. name_parses. reflexivity.
Qed.

Section WithJSON.

Variable JSON_parse : string -> JsonParse.

Lemma loadSeo_spec env c :
  let p1 := parseBooleanEnv env "OBSIDIAN_GENERATE_SITEMAP" (generateSitemap (seo c)) in
  let p2 := parseBooleanEnv env "OBSIDIAN_GENERATE_ROBOTS_TXT" (generateRobotsTxt (seo c)) in
  let r := loadSeo JSON_parse env c in
  features (fst r) = features c
  /\ advanced (fst r) = advanced c
  /\ generateSitemap (seo (fst r)) = fst p1
  /\ generateRobotsTxt (seo (fst r)) = fst p2
  /\ exists rest, snd r = snd p1 ++ snd p2 ++ rest.
Proof.
  unfold loadSeo, wbind, wret, console_warn.
  destruct (env_truthy env "OBSIDIAN_GOOGLE_ANALYTICS_ID");
    cbn -[parseBooleanEnv env_truthy]; name_parses;
    (destruct (env_truthy env "OBSIDIAN_CUSTOM_META_TAGS") as [v|];
     [destruct (JSON_parse v)|]); cbn; repeat split; eauto.
Qed.

Lemma loadAdvanced_spec env c :
  let p1 := parseBooleanEnv env "OBSIDIAN_IMAGE_OPTIMIZATION" (imageOptimization (advanced c)) in
  let p2 := parseBooleanEnv env "OBSIDIAN_RESPONSIVE_IMAGES"
              (generateResponsiveImages (advanced c)) in
  let p3 := parseBooleanEnv env "OBSIDIAN_SLUGIFY_PATHS" (slugifyPaths (advanced c)) in
  let p4 := parseBooleanEnv env "OBSIDIAN_OFFLINE_RESOURCES" (offlineResources (advanced c)) in
  let r := loadAdvanced env c in
  features (fst r) = features c
  /\ seo (fst r) = seo c
  /\ imageOptimization (advanced (fst r)) = fst p1
  /\ generateResponsiveImages (advanced (fst r)) = fst p2
  /\ slugifyPaths (advanced (fst r)) = fst p3
  /\ offlineResources (advanced (fst r)) = fst p4
  /\ snd r = snd p1 ++ snd p2 ++ snd p3 ++ snd p4 ++ [].
Proof.
  unfold loadAdvanced, wbind, wret.
  destruct (env_truthy env "OBSIDIAN_CUSTOM_CSS"),
    (env_truthy env "OBSIDIAN_EXCLUDE_PATTERNS");
    cbn -[parseBooleanEnv JS.split JS.trim List.filter]; name_parses; cbn; repeat split.
Qed.

Lemma loadFromEnvironment_unfold env :
  let c1 := loadSiteInformation env DEFAULT_WEB_CONFIG in
  let r2 := loadFeatures env c1 in
  let r3 := loadSeo JSON_parse env (fst r2) in
  let r4 := loadAdvanced env (fst r3) in
  loadFromEnvironment JSON_parse env = (fst r4, snd r2 ++ snd r3 ++ snd r4 ++ []).
Proof.
  cbv zeta. unfold loadFromEnvironment, wbind, wret, JSON_clone.
  destruct (loadFeatures env _) as [c2 w2]. cbn [fst snd].
  destruct (loadSeo JSON_parse env c2) as [c3 w3]. cbn [fst snd].
  destruct (loadAdvanced env c3) as [c4 w4]. reflexivity.
Qed.

(** The comparison of the lower-cased and trimmed value with a list of
    words of small letters and digits finds the values that are one of the
    words in some case, with or without white space around it. *)
Lemma includes_holds words value :
  Forall (fun w => w <> EmptyString
                   /\ JS.all_chars (fun c => JS.is_lower c || JS.is_digit c) w = true) words ->
  JS.array_includes words (JS.trim (JS.toLowerCase value)) = true <-> holds value words.
Proof.
  intros Hwords. rewrite List.Forall_forall in Hwords.
  unfold JS.array_includes, holds. rewrite existsb_exists. split.
  - intros (w & Hin & E). apply String.eqb_eq in E. destruct (Hwords w Hin) as [Hne Hw].
    exists w. split; [exact Hin|]. apply (trim_toLowerCase_word value w Hne Hw). exact E.
  - intros (w & Hin & Hr). destruct (Hwords w Hin) as [Hne Hw].
    exists w. split; [exact Hin|]. apply String.eqb_eq.
    apply (trim_toLowerCase_word value w Hne Hw). exact Hr.
Qed.

Lemma true_holds value :
  JS.array_includes true_words (JS.trim (JS.toLowerCase value)) = true
  <-> holds value true_words.
Proof. apply includes_holds. repeat constructor; discriminate. Qed.

Lemma false_holds value :
  JS.array_includes false_words (JS.trim (JS.toLowerCase value)) = true
  <-> holds value false_words.
Proof. apply includes_holds. repeat constructor; discriminate. Qed.

(** No text is both a word for true and a word for false. *)
Lemma true_or_false x :
  JS.array_includes true_words x = true -> JS.array_includes false_words x = false.
Proof.
  unfold JS.array_includes. rewrite existsb_exists. intros (w & Hin & E).
  apply String.eqb_eq in E. subst x. cbv [true_words In] in Hin.
  repeat (destruct Hin as [<-|Hin]; [reflexivity|]). destruct Hin.
Qed.

Lemma rule_of_parse env loaded console x (field : WebConfig.t -> bool) :
  field loaded = fst (parseBooleanEnv env x (field DEFAULT_WEB_CONFIG)) ->
  (forall m, In m (snd (parseBooleanEnv env x (field DEFAULT_WEB_CONFIG))) -> In m console) ->
  boolean_variable_rule env loaded console x field.
Proof.
  intros Hfield Hconsole. unfold boolean_variable_rule.
  destruct (env !! x) as [s|] eqn:Hx.
  - rewrite <- true_holds, <- false_holds.
    destruct (JS.array_includes true_words _) eqn:Ht.
    { rewrite (parseBooleanEnv_true _ _ _ _ Hx Ht) in Hfield.
      rewrite (true_or_false _ Ht).
      split; [intros _; exact Hfield|]. split; [discriminate|]. intros H. contradiction H; reflexivity. }
    destruct (JS.array_includes false_words _) eqn:Hf.
    { rewrite (parseBooleanEnv_false _ _ _ _ Hx Ht Hf) in Hfield.
      split; [discriminate|]. split; [intros _; exact Hfield|].
      intros _ H. contradiction H; reflexivity. }
    rewrite (parseBooleanEnv_other _ _ _ _ Hx Ht Hf) in Hfield, Hconsole.
    split; [discriminate|]. split; [discriminate|]. intros _ _.
    split; [exact Hfield | apply Hconsole; left; reflexivity].
  - rewrite (parseBooleanEnv_unset _ _ _ Hx) in Hfield. exact Hfield.
Qed.

(** C7.  The loader is a total function of the environment, and each of
    the fourteen boolean variables obeys the rule: unset, the field keeps
    its default; holding [true], [1] or [yes], in small or capital letters
    and with or without white space before and after, the field is true;
    holding [false], [0] or [no] in the same way it is false; holding
    anything else, the field keeps its default and a warning naming the
    variable and the value is written.  The rule is stated with
    [JS.reads_as], which names the white-space code units by number and
    compares letters by their codes. *)
Theorem boolean_variables_parsed (env : Env) :
  Forall (fun '(x, field) =>
            boolean_variable_rule env
              (fst (loadFromEnvironment JSON_parse env))
              (snd (loadFromEnvironment JSON_parse env)) x field)
    boolean_variables.
Proof.
  rewrite loadFromEnvironment_unfold. cbv zeta. cbn [fst snd].
  destruct (loadSiteInformation_frame env DEFAULT_WEB_CONFIG) as (Hf1 & Hs1 & Ha1).
  set (c1 := loadSiteInformation env DEFAULT_WEB_CONFIG) in *.
  pose proof (loadFeatures_spec env c1) as H2. cbv zeta in H2.
  set (r2 := loadFeatures env c1) in *.
  destruct (loadSeo_spec env (fst r2)) as (Hf3 & Ha3 & Hmap & Hrob & (rest & Hw3)).
  set (r3 := loadSeo JSON_parse env (fst r2)) in *.
  destruct (loadAdvanced_spec env (fst r3)) as (Hf4 & Hs4 & Hio & Hri & Hsp & Hor & Hw4).
  set (r4 := loadAdvanced env (fst r3)) in *.
  assert (Hfeat : features (fst r4) = features (fst r2)) by congruence.
  assert (Hseo2 : seo (fst r2) = seo DEFAULT_WEB_CONFIG) by (rewrite H2; exact Hs1).
  assert (Hadv3 : advanced (fst r3) = advanced DEFAULT_WEB_CONFIG)
    by (rewrite Ha3, H2; exact Ha1).
  rewrite Hf1 in H2. rewrite Hseo2 in Hmap, Hrob, Hw3.
  rewrite Hadv3 in Hio, Hri, Hsp, Hor, Hw4.
  assert (Hw2 := f_equal snd H2). cbn [snd] in Hw2.
  rewrite Hw2, Hw3, Hw4.
  unfold boolean_variables.
  repeat match goal with
         | |- Forall _ (_ :: _) => constructor
         | |- Forall _ [] => constructor
         end;
    apply rule_of_parse; cbv beta;
    try (rewrite Hfeat, H2; reflexivity);
    try (rewrite Hs4; assumption);
    try assumption;
    intros m Hm; rewrite ?in_app_iff; tauto.
Qed.

End WithJSON.

End ConfigLoaderFacts.

(** ** DockerLogger *)

Create HintDb never_throws discriminated.

Ltac prove_total :=
  repeat first
    [ progress intros
    | solve [auto with never_throws]
    | apply EffFacts.total_bind
    | apply EffFacts.total_when
    | apply EffFacts.total_for_each
    | apply EffFacts.total_modify
    | apply (EffFacts.yields_ret _ (fun _ => True) I)
    | match goal with
      | |- Eff.total (if ?b then _ else _) => destruct b
      | |- Eff.total (match ?x with _ => _ end) => destruct x
      end ].

Module LoggerFacts.
Import Eff DockerLogger.

Section WithClock.

Variable Date_now : nat -> Z.
Variable round_percentage : Z -> Z -> Number.

Lemma total_now : Eff.total (now Date_now).
Proof. intros p. eexists _, _. split; [reflexivity | exact I]. Qed.

Lemma total_this : Eff.total this.
Proof. intros p. eexists _, _. split; [reflexivity | exact I]. Qed.

Lemma total_write ev : Eff.total (write ev).
Proof. apply EffFacts.total_modify. Qed.

Lemma total_push_entry e : Eff.total (push_entry e).
Proof. apply EffFacts.total_modify. Qed.

Hint Resolve total_now total_this total_write total_push_entry : never_throws.

(** Drawing the progress bar is the one step of [outputLog] that can
    throw. *)
Lemma total_draw_progress entry :
  drawable (progress entry) = true -> Eff.total (draw_progress entry).
Proof.
  unfold draw_progress, drawable. destruct (progress entry) as [info|];
    [destruct (generateProgressBar (percentage info)); [discriminate|]|];
    intros _; apply (EffFacts.yields_ret _ (fun _ => True) I).
Qed.

Lemma total_outputLog entry : drawable (progress entry) = true -> Eff.total (outputLog entry).
Proof.
  intros H. unfold outputLog.
  apply EffFacts.total_bind; [apply total_this|]. intros lg.
  apply EffFacts.total_bind; [apply total_draw_progress; exact H|]. intros _.
  prove_total.
Qed.

Lemma total_log level message context error progress duration :
  drawable progress = true ->
  Eff.total (log Date_now level message context error progress duration).
Proof.
  intros H. unfold log.
  apply EffFacts.total_bind; [apply total_this|]. intros lg.
  destruct (LogLevel.ltb level (logLevel lg)); [prove_total|].
  apply EffFacts.total_bind; [apply total_now|]. intros ts.
  apply EffFacts.total_bind; [apply total_push_entry|]. intros _.
  apply total_outputLog. exact H.
Qed.

Lemma total_debug message context : Eff.total (debug Date_now message context).
Proof. apply total_log. reflexivity. Qed.

Lemma total_info message context : Eff.total (info Date_now message context).
Proof. apply total_log. reflexivity. Qed.

Lemma total_warn message context : Eff.total (warn Date_now message context).
Proof. apply total_log. reflexivity. Qed.

Lemma total_error message error context : Eff.total (error_ Date_now message error context).
Proof. apply total_log. reflexivity. Qed.

Lemma total_progress stage current total_ message :
  drawable (Some {| current := current; total := total_; stage := stage;
                    percentage := round_percentage current total_ |}) = true ->
  Eff.total (progress_ Date_now round_percentage stage current total_ message).
Proof. intros H. apply total_log. exact H. Qed.

Hint Resolve total_debug total_info total_warn total_error : never_throws.

Lemma total_startOperation operation context :
  Eff.total (startOperation Date_now operation context).
Proof. unfold startOperation. prove_total. Qed.

Lemma total_endOperation operation operationId context :
  Eff.total (endOperation Date_now operation operationId context).
Proof.
  unfold endOperation. apply EffFacts.total_bind; [apply total_now|]. intros t1.
  apply total_log. reflexivity.
Qed.

Lemma total_errorWithTroubleshooting message troubleshooting error :
  Eff.total (errorWithTroubleshooting Date_now message troubleshooting error).
Proof. unfold errorWithTroubleshooting. prove_total. Qed.

Lemma total_generateSummaryReport : Eff.total (generateSummaryReport Date_now).
Proof. unfold generateSummaryReport. prove_total. Qed.

(** A call below the logger's level returns at once. *)
Lemma log_below p level message context error progress duration :
  LogLevel.ltb level (logLevel (logger p)) = true ->
  log Date_now level message context error progress duration p = (inr tt, p).
Proof.
  intros H. unfold log, bind, this. rewrite H. reflexivity.
Qed.

End WithClock.

#[export] Hint Resolve total_now total_this total_write total_push_entry
  total_debug total_info total_warn total_error
  total_startOperation total_endOperation
  total_errorWithTroubleshooting total_generateSummaryReport : never_throws.


Lemma logger_outputLog entry p : logger (snd (outputLog entry p)) = logger p.
Proof.
  unfold outputLog, draw_progress, bind, this, when, write, modify, ret, throw.
  destruct (progress entry) as [info|];
    [destruct (generateProgressBar (percentage info)); [reflexivity|]|];
    (destruct (level entry); cbn;
     repeat match goal with |- context [if ?b then _ else _] => destruct b; cbn end;
     reflexivity).
Qed.

Lemma logLevel_log Date_now level message context error progress duration p :
  logLevel (logger (snd (log Date_now level message context error progress duration p)))
  = logLevel (logger p).
Proof.
  unfold log, bind, this. destruct (LogLevel.ltb level (logLevel (logger p))); [reflexivity|].
  cbn -[outputLog].
  match goal with |- context [outputLog ?e ?q] =>
    pose proof (logger_outputLog e q) as H; destruct (outputLog e q) as [[?|[]] ?] end;
    cbn in *; rewrite H; reflexivity.
Qed.

(** C9.  The levels are ordered DEBUG < INFO < WARN < ERROR.  A logger is
    created with the level parsed from [LOG_LEVEL] (INFO when the variable
    is unset); [getInstance] returns an existing logger as it is, and no
    logging call changes a logger's level.  A call whose level is strictly
    below the logger's level changes nothing at all: no entry, no console
    output, no reading of the clock, and therefore the same summary report. *)
Theorem calls_below_the_level_are_noops :
  (LogLevel.ltb LogLevel.DEBUG LogLevel.INFO = true
   /\ LogLevel.ltb LogLevel.INFO LogLevel.WARN = true
   /\ LogLevel.ltb LogLevel.WARN LogLevel.ERROR = true)
  /\ (forall (env : gmap string string) (t0 : Z),
        logLevel (new env t0) = parseLogLevel (LOG_LEVEL_or_INFO env)
        /\ (env !! "LOG_LEVEL" = None -> logLevel (new env t0) = LogLevel.INFO))
  /\ (forall (env : gmap string string) (t0 : Z) (lg : DockerLogger.t),
        getInstance env t0 (Some lg) = (lg, Some lg))
  /\ (forall Date_now level message context error progress duration p,
        logLevel (logger (snd (log Date_now level message context error progress duration p)))
        = logLevel (logger p))
  /\ (forall Date_now level message context error progress duration p,
        LogLevel.ltb level (logLevel (logger p)) = true ->
        log Date_now level message context error progress duration p = (inr tt, p)
        /\ generateSummaryReport Date_now
             (snd (log Date_now level message context error progress duration p))
           = generateSummaryReport Date_now p)
  /\ (forall Date_now round_percentage p,
        (LogLevel.ltb LogLevel.DEBUG (logLevel (logger p)) = true ->
         forall message context, debug Date_now message context p = (inr tt, p))
        /\ (LogLevel.ltb LogLevel.INFO (logLevel (logger p)) = true ->
            (forall message context, info Date_now message context p = (inr tt, p))
            /\ (forall stage current total_ message,
                  progress_ Date_now round_percentage stage current total_ message p
                  = (inr tt, p)))
        /\ (LogLevel.ltb LogLevel.WARN (logLevel (logger p)) = true ->
            forall message context, warn Date_now message context p = (inr tt, p))).
Proof.
  split; [repeat split|].
  split.
  { intros env t0. split; [reflexivity|].
    intros H. unfold new, LOG_LEVEL_or_INFO. cbn. rewrite H. reflexivity. }
  split; [reflexivity|].
  split; [intros; apply logLevel_log|].
  split.
  { intros Date_now level message context error progress duration p H.
    rewrite (log_below Date_now p level message context error progress duration H).
    split; reflexivity. }
  intros Date_now round_percentage p.
  split; [|split]; intros Hlow; [| split |]; intros; apply log_below; exact Hlow.
Qed.

(** With [LOG_LEVEL=warn], an [info] call leaves the process as it was. *)
Lemma calls_below_the_level_are_noops_witness :
  logLevel (logger Samples.process_at_WARN) = LogLevel.WARN
  /\ info Samples.clock "Starting Docker export" None Samples.process_at_WARN
     = (inr tt, Samples.process_at_WARN).
Proof.
  split; [vm_compute; reflexivity|].
  destruct calls_below_the_level_are_noops as (_ & _ & _ & _ & Hlog & _).
  apply (Hlog Samples.clock LogLevel.INFO "Starting Docker export" None None None None
           Samples.process_at_WARN).
  vm_compute. reflexivity.
Defined.

Example warn_at_WARN_is_logged :
  List.map message
    (logEntries (logger (snd (warn Samples.clock "careful" None Samples.process_at_WARN))))
  = ["careful"]
  /\ length (console (snd (warn Samples.clock "careful" None Samples.process_at_WARN))) = 1%nat.
Proof. split; vm_compute; reflexivity. Qed.

End LoggerFacts.

(** ** VaultValidator *)

Module VaultValidatorFacts.
Import FS VaultValidator.

Lemma errors_push_warning w r : errors (push_warning w r) = errors r.
Proof. reflexivity. Qed.

Lemma errors_push_suggestions l r : errors (push_suggestions l r) = errors r.
Proof. reflexivity. Qed.

Lemma errors_fold_left {A} (f : Report -> A -> Report) (l : list A) :
  (forall r a, errors (f r a) = errors r) ->
  forall r, errors (fold_left f l r) = errors r.
Proof.
  intros Hf. induction l as [|a l IH]; intros r; simpl; [reflexivity|].
  rewrite IH. apply Hf.
Qed.

Lemma errors_checkForLargeFiles v r : errors (checkForLargeFiles v r) = errors r.
Proof. unfold checkForLargeFiles. destruct (_ <? _)%nat; reflexivity. Qed.

(** The content checks only ever add warnings and suggestions. *)
Lemma errors_validateContent v r : errors (validateContent v r) = errors r.
Proof.
  unfold validateContent.
  rewrite errors_checkForLargeFiles, errors_fold_left.
  - destruct (existsSync v ["assets"]); [destruct (_ <? _)%N|];
      destruct (negb _); reflexivity.
  - intros r0 a. destruct (existsSync v [a]); [destruct (_ <? _)%N|]; reflexivity.
Qed.

(** So do the performance checks. *)
Lemma errors_validatePerformance v r : errors (validatePerformance v r) = errors r.
Proof.
  unfold validatePerformance.
  repeat match goal with |- context [if ?b then _ else _] => destruct b end;
    reflexivity.
Qed.

(** Nothing exists below a name that is not a directory. *)
Lemma exists_below v a b :
  existsSync v [a; b] = true -> isDirectory (at_path v [a]) = true.
Proof.
  unfold existsSync, at_path. destruct (root v) as [n|]; [|discriminate].
  simpl. destruct n as [| rd es |]; try discriminate.
  destruct (entry a es) as [[| rd' es' |]|]; simpl; try discriminate.
  reflexivity.
Qed.

Lemma not_exists_below v a b :
  isDirectory (at_path v [a]) = false -> existsSync v [a; b] = false.
Proof.
  intros H. destruct (existsSync v [a; b]) eqn:E; [|reflexivity].
  apply exists_below in E. congruence.
Qed.

Section Validity.

Variable JSON_parse_error : string -> option Error.t.

Lemma isValid_false_iff (v : VaultValidator.t) :
  ValidationResult.isValid (validateVault JSON_parse_error v) = false <->
  exists e, In e (ValidationResult.errors (validateVault JSON_parse_error v))
            /\ ValidationError.severity e = ValidationError.error.
Proof.
  unfold validateVault; cbn [ValidationResult.isValid ValidationResult.errors].
  rewrite filter_length_zero. split; intros (e & Hin & He); exists e; split; auto.
  - unfold is_error in He. destruct (ValidationError.severity e); congruence.
  - unfold is_error. rewrite He. reflexivity.
Qed.

(** C1.  In every result of [validateVault], [isValid] is false exactly
    when the error list holds an entry of severity [error]; it is the
    value of one expression over the error list alone, so two results
    with the same errors have the same validity whatever their warnings
    and suggestions are. *)
Theorem validateVault_isValid_from_errors (v : VaultValidator.t) :
  let result := validateVault JSON_parse_error v in
  (ValidationResult.isValid result = false <->
     exists e, In e (ValidationResult.errors result)
               /\ ValidationError.severity e = ValidationError.error)
  /\ ValidationResult.isValid result
     = (length (List.filter is_error (ValidationResult.errors result)) =? 0)%nat
  /\ (forall v' : VaultValidator.t,
        ValidationResult.errors (validateVault JSON_parse_error v')
        = ValidationResult.errors result ->
        ValidationResult.isValid (validateVault JSON_parse_error v')
        = ValidationResult.isValid result).
Proof.
  cbv zeta. split; [|split].
  - apply isValid_false_iff.
  - reflexivity.
  - intros v' Heq. unfold validateVault in *.
    cbn [ValidationResult.isValid ValidationResult.errors] in *.
    rewrite Heq. reflexivity.
Qed.

(** The error list of a whole validation is the one left by the three
    structural checks. *)
Lemma validateVault_errors (v : VaultValidator.t) :
  ValidationResult.errors (validateVault JSON_parse_error v)
  = errors (validatePluginConfig JSON_parse_error v
              (validateObsidianConfig JSON_parse_error v
                 (validateBasicStructure v empty_report))).
Proof.
  unfold validateVault; cbn [ValidationResult.errors].
  rewrite errors_validatePerformance, errors_validateContent. reflexivity.
Qed.

Lemma validatePluginConfig_no_plugins v r :
  existsSync v [".obsidian"; "plugins"] = false ->
  validatePluginConfig JSON_parse_error v r = r.
Proof. intros H. unfold validatePluginConfig. rewrite H. reflexivity. Qed.

(** C2, as the code has it.  When the vault path is a directory in which
    nothing named [.obsidian] exists, the result is invalid and its error
    list is the single error [OBSIDIAN_CONFIG_MISSING], whatever else the
    directory holds.  When [.obsidian] exists there but is not a
    directory, the single error is [OBSIDIAN_CONFIG_NOT_DIRECTORY]. *)
Theorem validateVault_without_obsidian_directory (v : VaultValidator.t) :
  isDirectory (root v) = true ->
  isDirectory (at_path v [".obsidian"]) = false ->
  let result := validateVault JSON_parse_error v in
  ValidationResult.isValid result = false
  /\ ValidationResult.errors result
     = [ if existsSync v [".obsidian"]
         then OBSIDIAN_CONFIG_NOT_DIRECTORY v
         else OBSIDIAN_CONFIG_MISSING v ].
Proof.
  intros Hroot Hobs result.
  assert (Herr : ValidationResult.errors result
                 = [ if existsSync v [".obsidian"]
                     then OBSIDIAN_CONFIG_NOT_DIRECTORY v
                     else OBSIDIAN_CONFIG_MISSING v ]).
  { subst result. rewrite validateVault_errors.
    rewrite validatePluginConfig_no_plugins by (apply not_exists_below; exact Hobs).
    assert (Hex : exists_node (root v) = true).
    { destruct (root v) as [[]|]; simpl in *; congruence. }
    unfold validateObsidianConfig, validateBasicStructure.
    rewrite Hex, Hroot, Hobs. simpl negb at 1 2.
    destruct (existsSync v [".obsidian"]) eqn:E; cbn [negb].
    - rewrite !(not_exists_below v ".obsidian") by exact Hobs. cbn [negb].
      reflexivity.
    - reflexivity. }
  split; [|exact Herr].
  apply isValid_false_iff.
  fold result. rewrite Herr.
  eexists; split; [left; reflexivity|].
  destruct (existsSync v [".obsidian"]); reflexivity.
Qed.

End Validity.


(** The scenario of three notes without a configuration directory. *)
Lemma validateVault_without_obsidian_directory_witness :
  ValidationResult.isValid
    (validateVault Samples.json_accepts_all Samples.vault_three_notes) = false
  /\ List.map ValidationError.code
       (ValidationResult.errors
          (validateVault Samples.json_accepts_all Samples.vault_three_notes))
     = ["OBSIDIAN_CONFIG_MISSING"].
Proof.
  destruct (validateVault_without_obsidian_directory
              Samples.json_accepts_all Samples.vault_three_notes eq_refl eq_refl)
    as [Hvalid Herrors].
  split; [exact Hvalid|]. rewrite Herrors. reflexivity.
Defined.

(** A directory in which [.obsidian] is a regular file has no [.obsidian]
    subdirectory, and its single error is not [OBSIDIAN_CONFIG_MISSING]. *)
Lemma validateVault_obsidian_file_counterexample :
  isDirectory (root Samples.vault_obsidian_is_file) = true
  /\ isDirectory (at_path Samples.vault_obsidian_is_file [".obsidian"]) = false
  /\ List.map ValidationError.code
       (ValidationResult.errors
          (validateVault Samples.json_accepts_all Samples.vault_obsidian_is_file))
     = ["OBSIDIAN_CONFIG_NOT_DIRECTORY"].
Proof. repeat split; vm_compute; reflexivity. Qed.

Example validateVault_with_config :
  ValidationResult.isValid
    (validateVault Samples.json_accepts_all Samples.vault_with_config) = true
  /\ List.map ValidationWarning.code
       (ValidationResult.warnings
          (validateVault Samples.json_accepts_all Samples.vault_with_config))
     = ["WORKSPACE_JSON_MISSING"].
Proof. split; vm_compute; reflexivity. Qed.

End VaultValidatorFacts.

(** ** EnhancedDockerIntegration *)

Module IntegrationFacts.
Import Eff DockerLogger EnhancedDockerIntegration LoggerFacts.

Lemma Object_assign_sections (config : WebConfig.t) (o : PartialWebConfig.t) :
  Object_assign config o
  = {| WebConfig.version := default (WebConfig.version config) (PartialWebConfig.version o);
       WebConfig.site := default (WebConfig.site config) (PartialWebConfig.site o);
       WebConfig.features := default (WebConfig.features config) (PartialWebConfig.features o);
       WebConfig.seo := default (WebConfig.seo config) (PartialWebConfig.seo o);
       WebConfig.advanced := default (WebConfig.advanced config) (PartialWebConfig.advanced o) |}.
Proof.
  destruct config, o as [[v|] [s|] [f|] [e|] [a|]]; reflexivity.
Qed.

Lemma loadConfiguration_yields (h : Host) (overrides : option PartialWebConfig.t) :
  yields (loadConfiguration h overrides)
    (fun config =>
       config = match overrides with
                | Some o =>
                    Object_assign
                      (fst (DockerConfigLoader.loadFromEnvironment (JSON_parse_meta h) (env h))) o
                | None => fst (DockerConfigLoader.loadFromEnvironment (JSON_parse_meta h) (env h))
                end).
Proof.
  unfold loadConfiguration.
  destruct (DockerConfigLoader.loadFromEnvironment (JSON_parse_meta h) (env h)) as [config lines].
  cbn [fst].
  apply EffFacts.yields_seq; [prove_total|]. intros _.
  apply EffFacts.yields_seq; [prove_total|]. intros _.
  apply EffFacts.yields_seq; [prove_total|]. intros _.
  apply EffFacts.yields_ret. destruct overrides; reflexivity.
Qed.

(** C4, as the code has it.  [loadConfiguration] never throws; the
    configuration it returns is the one loaded from the environment over a
    copy of the defaults (the defaults themselves when the environment is
    empty), with every top-level property of the overrides assigned over
    it whole: a section the caller gives replaces the earlier section, a
    section the caller leaves out stays as loaded. *)
Theorem loadConfiguration_layers (h : Host) (overrides : option PartialWebConfig.t) :
  let loaded := fst (DockerConfigLoader.loadFromEnvironment (JSON_parse_meta h) (env h)) in
  yields (loadConfiguration h overrides)
    (fun config =>
       match overrides with
       | None => config = loaded
       | Some o =>
           WebConfig.version config = default (WebConfig.version loaded) (PartialWebConfig.version o)
           /\ WebConfig.site config = default (WebConfig.site loaded) (PartialWebConfig.site o)
           /\ WebConfig.features config
              = default (WebConfig.features loaded) (PartialWebConfig.features o)
           /\ WebConfig.seo config = default (WebConfig.seo loaded) (PartialWebConfig.seo o)
           /\ WebConfig.advanced config
              = default (WebConfig.advanced loaded) (PartialWebConfig.advanced o)
       end)
  /\ (env h = ∅ -> loaded = WebConfig.DEFAULT_WEB_CONFIG).
Proof.
  cbv zeta. split.
  - eapply EffFacts.yields_weaken; [apply loadConfiguration_yields|].
    intros config Hc. rewrite Hc. destruct overrides as [o|]; [|reflexivity].
    rewrite Object_assign_sections. repeat split.
  - intros ->. vm_compute. reflexivity.
Qed.

(** The environment sets the analytics id, the caller's [seo] overrides
    leave it out, and the resolved configuration has lost it, where the
    merge of the specification keeps it. *)
Lemma loadConfiguration_shallow_counterexample :
  let h := Samples.host_with_analytics in
  let loaded := fst (DockerConfigLoader.loadFromEnvironment (JSON_parse_meta h) (env h)) in
  WebConfig.googleAnalyticsId (WebConfig.seo loaded) = Some "G-ABC123"
  /\ WebConfig.googleAnalyticsId Samples.seo_without_sitemap = None
  /\ (fun config => WebConfig.googleAnalyticsId (WebConfig.seo config))
       <$> value_of (loadConfiguration h (Some Samples.overrides_sitemap_off)
                       (Samples.process_started h))
     = Some None
  /\ WebConfig.googleAnalyticsId
       (WebConfig.seo (deep_merge_as_specified loaded Samples.overrides_sitemap_off))
     = Some "G-ABC123".
Proof. cbv zeta. repeat split; vm_compute; reflexivity. Qed.


Section Run.

Variable h : Host.

Lemma total_exportForDocker_start options : Eff.total (exportForDocker_start h options).
Proof. unfold exportForDocker_start. prove_total. Qed.

Lemma total_loadConfiguration overrides : Eff.total (loadConfiguration h overrides).
Proof.
  eapply EffFacts.yields_weaken; [apply loadConfiguration_yields | auto].
Qed.

(** The [catch] block always returns, and what it returns is a failure. *)
Lemma exportForDocker_catch_yields options startTime operationId e :
  yields (exportForDocker_catch h options startTime operationId e)
    (fun result =>
       DockerExportResult.success result = false
       /\ DockerExportResult.errors result = ["Docker export failed: " +:+ Error.message e]).
Proof.
  unfold exportForDocker_catch.
  apply EffFacts.yields_seq; [prove_total|]. intros _. cbv zeta.
  apply EffFacts.yields_seq; [prove_total|]. intros _.
  apply EffFacts.yields_seq; [prove_total|]. intros report.
  apply EffFacts.yields_seq; [prove_total|]. intros _.
  apply EffFacts.yields_seq; [prove_total|]. intros t1.
  apply EffFacts.yields_ret. split; reflexivity.
Qed.

Lemma total_exportForDocker_with steps options :
  Eff.total (exportForDocker_with h steps options).
Proof.
  unfold exportForDocker_with.
  apply EffFacts.total_bind; [apply total_exportForDocker_start|].
  intros [startTime operationId].
  apply EffFacts.yields_try_catch; [auto|].
  intros e. eapply EffFacts.yields_weaken; [apply exportForDocker_catch_yields | auto].
Qed.

Lemma exportForDocker_with_caught steps options p startTime operationId p1 e p2 :
  exportForDocker_start h options p = (inr (startTime, operationId), p1) ->
  exportForDocker_try h steps options startTime operationId p1 = (inl e, p2) ->
  exists result p',
    exportForDocker_with h steps options p = (inr result, p')
    /\ DockerExportResult.success result = false
    /\ DockerExportResult.errors result = ["Docker export failed: " +:+ Error.message e].
Proof.
  intros Hstart Htry.
  destruct (exportForDocker_catch_yields options startTime operationId e p2)
    as (result & p' & Hcatch & Hresult).
  exists result, p'. split; [|exact Hresult].
  unfold exportForDocker_with, bind, try_catch. rewrite Hstart, Htry. exact Hcatch.
Qed.

Lemma runDockerExport_with_exit steps p :
  exists p0 result p',
    runDockerExport_start h p = (inr tt, p0)
    /\ exportForDocker_with h steps (cli_options h) p0 = (inr result, p')
    /\ runDockerExport_with h steps p
       = (inr (if DockerExportResult.success result then 0%Z else 1%Z), p').
Proof.
  assert (Hstart : Eff.total (runDockerExport_start h))
    by (unfold runDockerExport_start; prove_total).
  destruct (Hstart p) as ([] & p0 & E0 & _).
  destruct (total_exportForDocker_with steps (cli_options h) p0) as (result & p' & E1 & _).
  exists p0, result, p'. split; [exact E0|]. split; [exact E1|].
  unfold runDockerExport_with, bind. rewrite E0, E1. reflexivity.
Qed.

(** The class's own [validateVault] returns what the validator computes. *)
Lemma validateVault_yields vaultPath :
  yields (validateVault h vaultPath)
    (fun result =>
       result = VaultValidator.validateVault (JSON_parse_error h)
                  (new_VaultValidator h vaultPath)).
Proof.
  unfold validateVault. cbv zeta.
  apply EffFacts.yields_seq; [prove_total|]. intros _.
  apply EffFacts.yields_seq; [prove_total|]. intros lg.
  apply EffFacts.yields_seq; [prove_total|]. intros _.
  apply EffFacts.yields_ret. reflexivity.
Qed.

(** With the class's own methods the [try] block returns a failure for a
    vault that fails validation: the export step is not reached. *)
Lemma exportForDocker_try_own options startTime operationId :
  DockerExportOptions.validateVault options <> Some false ->
  ValidationResult.isValid
    (VaultValidator.validateVault (JSON_parse_error h)
       (new_VaultValidator h (DockerExportOptions.vaultPath options))) = false ->
  yields (exportForDocker_try h (own_steps h) options startTime operationId)
    (fun result => DockerExportResult.success result = false).
Proof.
  intros Hvalidate. unfold exportForDocker_try.
  set (V := VaultValidator.validateVault _ _). intros HV.
  apply EffFacts.yields_seq; [prove_total|]. intros _.
  apply EffFacts.yields_seq; [apply total_loadConfiguration|]. intros config.
  apply (EffFacts.yields_bind _ _
           (fun validated =>
              match validated with
              | inl result => DockerExportResult.success result = false
              | inr _ => False
              end)).
  - rewrite bool_decide_eq_false_2 by exact Hvalidate. cbn [negb].
    apply EffFacts.yields_seq; [prove_total|]. intros _.
    apply (EffFacts.yields_bind _ _ (fun result => result = V));
      [apply validateVault_yields|].
    intros result ->. rewrite HV. cbn [negb]. cbv zeta.
    apply EffFacts.yields_seq; [prove_total|]. intros _.
    apply EffFacts.yields_seq; [prove_total|]. intros t1.
    apply EffFacts.yields_ret. reflexivity.
  - intros [result | validationResult]; [|intros []].
    intros Hresult. apply EffFacts.yields_ret. exact Hresult.
Qed.

(** With the class's own methods a vault that fails validation gives exit
    code 1. *)
Lemma runDockerExport_own :
  ValidationResult.isValid
    (VaultValidator.validateVault (JSON_parse_error h)
       (new_VaultValidator h (DockerExportOptions.vaultPath (cli_options h)))) = false ->
  yields (runDockerExport h) (fun code => code = 1%Z).
Proof.
  intros Hinvalid. unfold runDockerExport, runDockerExport_with.
  apply EffFacts.yields_seq; [unfold runDockerExport_start; prove_total|]. intros _.
  eapply EffFacts.yields_bind.
  - unfold exportForDocker_with.
    apply EffFacts.yields_seq; [apply total_exportForDocker_start|].
    intros [startTime operationId].
    apply EffFacts.yields_try_catch_body.
    apply exportForDocker_try_own; [discriminate | exact Hinvalid].
  - intros result Hresult. apply EffFacts.yields_ret. cbv beta in Hresult.
    rewrite Hresult. reflexivity.
Qed.

End Run.


(** C6.  Whatever the private methods do, [exportForDocker] returns a
    result and never throws; an error thrown inside its [try] block is
    turned into a result with [success] false; [runDockerExport] exits
    with 0 when that result has [success] true and with 1 otherwise, so a
    thrown error gives exit code 1; and with the class's own methods a
    vault that fails validation gives exit code 1. *)
Theorem failures_exit_with_code_1 (h : Host) (steps : Steps) :
  (forall options, Eff.total (exportForDocker_with h steps options))
  /\ (forall options p startTime operationId p1 e p2,
        exportForDocker_start h options p = (inr (startTime, operationId), p1) ->
        exportForDocker_try h steps options startTime operationId p1 = (inl e, p2) ->
        exists result p',
          exportForDocker_with h steps options p = (inr result, p')
          /\ DockerExportResult.success result = false
          /\ DockerExportResult.errors result = ["Docker export failed: " +:+ Error.message e])
  /\ (forall p, exists p0 result p',
        runDockerExport_start h p = (inr tt, p0)
        /\ exportForDocker_with h steps (cli_options h) p0 = (inr result, p')
        /\ runDockerExport_with h steps p
           = (inr (if DockerExportResult.success result then 0%Z else 1%Z), p'))
  /\ (forall p p0 startTime operationId p1 e p2,
        runDockerExport_start h p = (inr tt, p0) ->
        exportForDocker_start h (cli_options h) p0 = (inr (startTime, operationId), p1) ->
        exportForDocker_try h steps (cli_options h) startTime operationId p1 = (inl e, p2) ->
        exists p', runDockerExport_with h steps p = (inr 1%Z, p'))
  /\ (ValidationResult.isValid
        (VaultValidator.validateVault (JSON_parse_error h)
           (new_VaultValidator h (DockerExportOptions.vaultPath (cli_options h)))) = false ->
      yields (runDockerExport h) (fun code => code = 1%Z)).
Proof.
  split; [intros; apply total_exportForDocker_with|].
  split; [intros *; apply exportForDocker_with_caught|].
  split; [apply runDockerExport_with_exit|].
  split.
  - intros p p0 startTime operationId p1 e p2 Hrun Hstart Htry.
    destruct (exportForDocker_with_caught h steps _ _ _ _ _ _ _ Hstart Htry)
      as (result & p' & Hexport & Hfailed & _).
    exists p'. unfold runDockerExport_with, bind. rewrite Hrun, Hexport, Hfailed.
    reflexivity.
  - apply runDockerExport_own.
Qed.

(** Three notes without a configuration directory: exit code 1, with the
    class's own methods and when [validateVault] throws. *)
Lemma failures_exit_with_code_1_witness :
  value_of (runDockerExport (Samples.host_with_vault Samples.vault_three_notes)
              (Samples.process_started (Samples.host_with_vault Samples.vault_three_notes)))
  = Some 1%Z
  /\ value_of (runDockerExport_with (Samples.host_with_vault Samples.vault_three_notes)
                 (Samples.steps_validation_throws
                    (Samples.host_with_vault Samples.vault_three_notes))
                 (Samples.process_started (Samples.host_with_vault Samples.vault_three_notes)))
     = Some 1%Z.
Proof.
  split; [|vm_compute; reflexivity].
  destruct (failures_exit_with_code_1
              (Samples.host_with_vault Samples.vault_three_notes)
              (own_steps (Samples.host_with_vault Samples.vault_three_notes)))
    as (_ & _ & _ & _ & Hinvalid).
  destruct (Hinvalid ltac:(vm_compute; reflexivity)
              (Samples.process_started (Samples.host_with_vault Samples.vault_three_notes)))
    as (code & p' & Hrun & ->).
  rewrite Hrun. reflexivity.
Defined.

(** A vault with its configuration directory: exit code 0. *)
Example runDockerExport_valid_vault :
  value_of (runDockerExport (Samples.host_with_vault Samples.vault_with_config)
              (Samples.process_started (Samples.host_with_vault Samples.vault_with_config)))
  = Some 0%Z.
Proof. vm_compute. reflexivity. Qed.

End IntegrationFacts.

(** ** WebExportManager *)

Module ExportFacts.
Import Eff WebExportManager.

Section Appends.

Variable ok : Event -> bool.

Lemma appends_ret {A} (a : A) : appends ok (ret a).
Proof. intros tr. exists []. split; [symmetry; apply app_nil_r | reflexivity]. Qed.

Lemma appends_throw {A} (e : Error.t) : appends ok (throw (A:=A) e).
Proof. intros tr. exists []. split; [symmetry; apply app_nil_r | reflexivity]. Qed.

Lemma appends_bind {A B} (m : X A) (k : A -> X B) :
  appends ok m -> (forall a, appends ok (k a)) -> appends ok (bind m k).
Proof.
  intros Hm Hk tr. destruct (Hm tr) as (e1 & E1 & H1). unfold bind.
  destruct (m tr) as [[e|a] tr1]; cbn [snd] in *; subst tr1.
  - exists e1. auto.
  - destruct (Hk a (tr ++ e1)) as (e2 & E2 & H2). exists (e1 ++ e2).
    rewrite E2, forallb_app, H1, H2, app_assoc. auto.
Qed.

Lemma appends_emit ev : ok ev = true -> appends ok (emit ev).
Proof. intros H tr. exists [ev]. cbn. rewrite H. auto. Qed.

Lemma appends_attempt ev outcome : ok ev = true -> appends ok (attempt ev outcome).
Proof.
  intros H tr. exists [ev]. unfold attempt. destruct (outcome tr); cbn; rewrite H; auto.
Qed.

Lemma appends_attempt_value {A} ev (outcome : list Event -> Error.t + A) :
  ok ev = true -> appends ok (attempt_value ev outcome).
Proof. intros H tr. exists [ev]. cbn. rewrite H. auto. Qed.

Lemma appends_when b (m : X unit) : appends ok m -> appends ok (when b m).
Proof. intros H. destruct b; [exact H | apply appends_ret]. Qed.

Lemma appends_for_each {A} (xs : list A) (body : A -> X unit) :
  (forall x, appends ok (body x)) -> appends ok (for_each xs body).
Proof.
  intros Hbody. induction xs as [|x xs IH]; simpl.
  - apply appends_ret.
  - apply appends_bind; auto.
Qed.

Lemma appends_try_catch {A} (m : X A) (h : Error.t -> X A) :
  appends ok m -> (forall e, appends ok (h e)) -> appends ok (try_catch m h).
Proof.
  intros Hm Hh tr. destruct (Hm tr) as (e1 & E1 & H1). unfold try_catch.
  destruct (m tr) as [[e|a] tr1]; cbn [snd] in *; subst tr1.
  - destruct (Hh e (tr ++ e1)) as (e2 & E2 & H2). exists (e1 ++ e2).
    rewrite E2, forallb_app, H1, H2, app_assoc. auto.
  - exists e1. auto.
Qed.

Lemma appends_try_finally {A} (m : X A) (f : X unit) :
  appends ok m -> appends ok f -> appends ok (try_finally m f).
Proof.
  intros Hm Hf tr. destruct (Hm tr) as (e1 & E1 & H1). unfold try_finally.
  destruct (m tr) as [r tr1]; cbn [snd] in *; subst tr1.
  destruct (Hf (tr ++ e1)) as (e2 & E2 & H2).
  exists (e1 ++ e2). rewrite forallb_app, H1, H2, app_assoc.
  destruct (f (tr ++ e1)) as [[e|[]] tr2]; cbn [snd] in *; subst tr2; auto.
Qed.

End Appends.

Lemma appends_weaken {A} (ok ok' : Event -> bool) (m : X A) :
  (forall ev, ok ev = true -> ok' ev = true) -> appends ok m -> appends ok' m.
Proof.
  intros Hok Hm tr. destruct (Hm tr) as (evs & E & H). exists evs. split; [exact E|].
  rewrite forallb_forall in *. auto.
Qed.

Create HintDb appends discriminated.

Ltac prove_appends :=
  repeat first
    [ progress intros
    | solve [auto with appends]
    | apply appends_bind
    | apply appends_when
    | apply appends_for_each
    | apply appends_try_catch
    | apply appends_ret
    | apply appends_throw
    | apply appends_emit; reflexivity
    | apply appends_attempt; reflexivity
    | apply appends_attempt_value; reflexivity
    | match goal with
      | |- appends _ (if ?b then _ else _) => destruct b eqn:?
      | |- appends _ (match ?x with _ => _ end) => destruct x eqn:?
      end ].


Lemma emit_run ev tr : emit ev tr = (inr tt, tr ++ [ev]).
Proof. reflexivity. Qed.

Lemma deletions_app a b : deletions (a ++ b) = deletions a ++ deletions b.
Proof. apply omap_app. Qed.

Lemma skips_app a b : skips (a ++ b) = skips a ++ skips b.
Proof. apply omap_app. Qed.

Lemma isFontFile_spec p :
  isFontFile p = true
  <-> In (JS.toLowerCase (extension p)) ["woff"; "woff2"; "ttf"; "otf"].
Proof.
  unfold isFontFile, JS.array_includes, fontExtensions.
  rewrite existsb_exists. split.
  - intros (x & Hin & Heq). apply String.eqb_eq in Heq. subst x. exact Hin.
  - intros Hin. exists (JS.toLowerCase (extension p)).
    split; [exact Hin | apply String.eqb_refl].
Qed.

(** [isFontFile] holds of the paths whose extension is one of the four
    font extensions but for the case of its letters, and of no other. *)
Lemma isFontFile_font p : isFontFile p = true <-> font_extension (extension p).
Proof.
  rewrite isFontFile_spec. unfold font_extension. split.
  - intros Hin. exists (JS.toLowerCase (extension p)). split; [exact Hin|].
    cbv [In] in Hin.
    repeat (destruct Hin as [Hw|Hin];
            [apply (TrimFacts.toLowerCase_same _ _); [rewrite <- Hw; reflexivity | reflexivity]|]).
    destruct Hin.
  - intros (w & Hin & Hsame).
    assert (E : JS.toLowerCase (extension p) = w).
    { cbv [In] in Hin.
      repeat (destruct Hin as [<-|Hin];
              [apply TrimFacts.toLowerCase_same; [reflexivity | exact Hsame]|]).
      destruct Hin. }
    rewrite E. exact Hin.
Qed.

Lemma isFontFile_not_font p : isFontFile p = false <-> ~ font_extension (extension p).
Proof.
  rewrite <- isFontFile_font. destruct (isFontFile p); split; congruence.
Qed.

Section Manager.

Variable host : Host.

Lemma appends_validateExportInputs files destination :
  appends inner_event (validateExportInputs host files destination).
Proof. unfold validateExportInputs, validateVaultStructure. prove_appends. Qed.

Lemma total_validateExportInputs files destination :
  Eff.total (validateExportInputs host files destination).
Proof.
  unfold validateExportInputs.
  destruct (length files =? 0)%nat; [apply EffFacts.yields_ret; exact I|].
  destruct (negb (isAbsolute destination)); [apply EffFacts.yields_ret; exact I|].
  destruct (negb (isDirectory destination)); [apply EffFacts.yields_ret; exact I|].
  apply EffFacts.total_bind.
  - destruct (negb (exists_ destination)); [|apply EffFacts.yields_ret; exact I].
    apply EffFacts.yields_try_catch; [auto|].
    intros e. apply EffFacts.yields_ret. exact I.
  - intros [failure|]; [apply EffFacts.yields_ret; exact I|].
    unfold validateVaultStructure.
    destruct (negb (exists_ (new_Path host ".obsidian"))); [prove_total|].
    unfold emit. prove_total.
Qed.

(** The three ways one turn of the cleanup loop can go. *)
Lemma cleanup_one_skipped destination deletedFile tr :
  let filePath := new_Path_in host deletedFile (path destination) in
  isFontFile filePath = true ->
  cleanup_one host destination deletedFile tr
  = (inr tt, tr ++ [Progress "Deleting Old Files" (skipping filePath) "var(--color-yellow)"]).
Proof. intros filePath H. unfold cleanup_one. fold filePath. rewrite H. reflexivity. Qed.

Lemma cleanup_one_deleted destination deletedFile tr :
  let filePath := new_Path_in host deletedFile (path destination) in
  isFontFile filePath = false ->
  delete host tr filePath = None ->
  cleanup_one host destination deletedFile tr
  = (inr tt, tr ++ [ Delete filePath;
                     Progress "Deleting Old Files" ("Deleting: " +:+ path filePath)
                       "var(--color-red)" ]).
Proof.
  intros filePath H Hd. unfold cleanup_one. fold filePath. rewrite H.
  unfold try_catch, bind, attempt. rewrite Hd. cbn. rewrite <- List.app_assoc. reflexivity.
Qed.

Lemma cleanup_one_failed destination deletedFile tr e :
  let filePath := new_Path_in host deletedFile (path destination) in
  isFontFile filePath = false ->
  delete host tr filePath = Some e ->
  cleanup_one host destination deletedFile tr
  = (inr tt, tr ++ [Delete filePath; Log (could_not_delete filePath e)]).
Proof.
  intros filePath H Hd. unfold cleanup_one. fold filePath. rewrite H.
  unfold try_catch, bind, attempt. rewrite Hd. unfold emit, modify.
  rewrite <- List.app_assoc. reflexivity.
Qed.

Lemma cleanup_one_run destination deletedFile tr :
  let filePath := new_Path_in host deletedFile (path destination) in
  exists evs,
    cleanup_one host destination deletedFile tr = (inr tt, tr ++ evs)
    /\ forallb inner_event evs = true
    /\ deletions evs = (if isFontFile filePath then [] else [filePath])
    /\ skips evs = (if isFontFile filePath then [skipping filePath] else []).
Proof.
  intros filePath. destruct (isFontFile filePath) eqn:Hfont.
  - eexists. split; [apply cleanup_one_skipped; exact Hfont|]. repeat split.
  - destruct (delete host tr filePath) as [e|] eqn:Hd.
    + eexists. split; [apply cleanup_one_failed; eassumption|].
      repeat split. cbn [forallb inner_event]. fold filePath. rewrite Hfont. reflexivity.
    + eexists. split; [apply cleanup_one_deleted; eassumption|].
      repeat split. cbn [forallb inner_event]. fold filePath. rewrite Hfont. reflexivity.
Qed.

(** The whole loop: it never stops early, whatever the deletions do. *)
Lemma cleanup_loop_run destination files : forall tr,
  let paths := List.map (fun f => new_Path_in host f (path destination)) files in
  exists evs,
    for_each files (cleanup_one host destination) tr = (inr tt, tr ++ evs)
    /\ forallb inner_event evs = true
    /\ deletions evs = List.filter (fun p => negb (isFontFile p)) paths
    /\ skips evs = List.map skipping (List.filter isFontFile paths).
Proof.
  induction files as [|f files IH]; intros tr; cbn zeta.
  - exists []. cbn. rewrite app_nil_r. repeat split.
  - destruct (cleanup_one_run destination f tr) as (e1 & E1 & H1 & D1 & S1).
    destruct (IH (tr ++ e1)) as (e2 & E2 & H2 & D2 & S2).
    exists (e1 ++ e2). cbn [for_each]. unfold bind. rewrite E1, E2.
    rewrite app_assoc, forallb_app, H1, H2, deletions_app, skips_app, D1, D2, S1, S2.
    cbn [List.map List.filter].
    destruct (isFontFile (new_Path_in host f (path destination))); repeat split.
Qed.

Lemma cleanupOldFiles_run website destination tr :
  exists evs,
    cleanupOldFiles host website destination tr = (inr tt, tr ++ evs)
    /\ forallb inner_event evs = true
    /\ deletions evs
       = List.filter (fun p => negb (isFontFile p)) (deleted_paths host website destination)
    /\ skips evs = List.map skipping (List.filter isFontFile (deleted_paths host website destination)).
Proof.
  unfold cleanupOldFiles, deleted_paths.
  destruct (deletedFiles (index website)) as [[|f files]|]; cbn [default].
  1, 3: exists []; cbn; rewrite app_nil_r; repeat split.
  set (all := f :: files).
  destruct (cleanup_loop_run destination all (tr ++ [AddToProgressCap (length all)]))
    as (e1 & E1 & H1 & D1 & S1).
  unfold bind, emit, modify. rewrite E1.
  unfold try_catch, attempt.
  destruct (removeEmptyDirectories host _ (path destination)) as [e|].
  - exists ([AddToProgressCap (length all)] ++ e1
            ++ [RemoveEmptyDirectories (path destination); Log (could_not_sweep e)]).
    split; [cbn; rewrite <- !List.app_assoc; reflexivity|].
    rewrite !forallb_app, !deletions_app, !skips_app, H1, D1, S1.
    cbn. rewrite !app_nil_r. repeat split.
  - exists ([AddToProgressCap (length all)] ++ e1
            ++ [RemoveEmptyDirectories (path destination)]).
    split; [cbn; rewrite <- !List.app_assoc; reflexivity|].
    rewrite !forallb_app, !deletions_app, !skips_app, H1, D1, S1.
    cbn. rewrite !app_nil_r. repeat split.
Qed.

End Manager.


Section Files.

Variable host : Host.

Lemma appends_cleanupOldFiles website destination :
  appends inner_event (cleanupOldFiles host website destination).
Proof.
  intros tr. destruct (cleanupOldFiles_run host website destination tr) as (evs & E & H & _).
  exists evs. rewrite E. auto.
Qed.

Lemma appends_saveWebsiteFiles website : appends inner_event (saveWebsiteFiles host website).
Proof. unfold saveWebsiteFiles. prove_appends. Qed.

Hint Resolve appends_cleanupOldFiles appends_saveWebsiteFiles : appends.

Lemma appends_exportFiles_try files destination saveFiles deleteOld :
  appends inner_event (exportFiles_try host files destination saveFiles deleteOld).
Proof. unfold exportFiles_try. prove_appends. Qed.

(** What [exportFiles] runs between [beginBatch] and [endBatch]. *)
Lemma batch_body_run files destination saveFiles deleteOld tr :
  exists result mid,
    try_catch (exportFiles_try host files destination saveFiles deleteOld)
      (fun error =>
         emit (Notice ("❌ Export Failed: " +:+ Error.message error)) ;;;
         emit (LogError (inl error) "Export Failed") ;;;
         ret None) tr
    = (inr result, tr ++ mid)
    /\ forallb inner_event mid = true.
Proof.
  match goal with |- context [try_catch ?m ?h] =>
    assert (Happ : appends inner_event (try_catch m h))
      by (apply appends_try_catch; [apply appends_exportFiles_try | prove_appends]);
    assert (Htot : Eff.total (try_catch m h))
      by (apply EffFacts.yields_try_catch; [auto | intros; unfold emit; prove_total])
  end.
  destruct (Happ tr) as (mid & E & H). destruct (Htot tr) as (result & tr' & E' & _).
  rewrite E' in E. cbn [snd] in E. subst tr'. exists result, mid. auto.
Qed.

(** An export whose inputs are valid: the trace it leaves. *)
Lemma exportFiles_valid_run files destination saveFiles deleteOld tr v tr1 :
  validateExportInputs host files destination tr = (inr v, tr1) ->
  isValid v = true ->
  exists result mid,
    exportFiles host files destination saveFiles deleteOld tr
    = (inr result, tr1 ++ [BeginBatch] ++ mid ++ [EndBatch])
    /\ forallb inner_event mid = true.
Proof.
  intros Hv Hvalid.
  destruct (batch_body_run files destination saveFiles deleteOld (tr1 ++ [BeginBatch]))
    as (result & mid & E & H).
  exists result, mid. split; [|exact H].
  unfold exportFiles, bind. rewrite Hv, Hvalid. cbn [negb].
  rewrite (emit_run BeginBatch tr1). unfold try_finally.
  unfold bind in E. rewrite E, emit_run, <- !List.app_assoc. reflexivity.
Qed.

Lemma validateExportInputs_run files destination tr :
  exists v pre,
    validateExportInputs host files destination tr = (inr v, tr ++ pre)
    /\ forallb inner_event pre = true.
Proof.
  destruct (total_validateExportInputs host files destination tr) as (v & tr1 & E & _).
  destruct (appends_validateExportInputs host files destination tr) as (pre & E1 & H).
  rewrite E in E1. cbn [snd] in E1. subst tr1. eauto.
Qed.

Lemma count_inner_begin evs : forallb inner_event evs = true -> count is_begin evs = 0%nat.
Proof.
  unfold count. induction evs as [|ev evs IH]; [reflexivity|]. cbn [forallb].
  intros H. apply andb_true_iff in H as [Hev Hevs].
  destruct ev; cbn in *; try discriminate; auto.
Qed.

Lemma count_inner_end evs : forallb inner_event evs = true -> count is_end evs = 0%nat.
Proof.
  unfold count. induction evs as [|ev evs IH]; [reflexivity|]. cbn [forallb].
  intros H. apply andb_true_iff in H as [Hev Hevs].
  destruct ev; cbn in *; try discriminate; auto.
Qed.

Lemma count_app f a b : count f (a ++ b) = (count f a + count f b)%nat.
Proof. unfold count. rewrite List.filter_app, length_app. reflexivity. Qed.

Lemma deletions_inner evs :
  forallb inner_event evs = true -> Forall (fun p => isFontFile p = false) (deletions evs).
Proof.
  induction evs as [|ev evs IH]; [constructor|]. cbn [forallb].
  intros H. apply andb_true_iff in H as [Hev Hevs].
  destruct ev; cbn [deletions omap deleted_of]; auto.
  change (deletions (Delete p :: evs)) with (p :: deletions evs).
  constructor; [|auto]. cbn [inner_event] in Hev. apply negb_true_iff in Hev. exact Hev.
Qed.

End Files.


(** C5.  [isFontFile] holds exactly of the paths whose extension is woff,
    woff2, ttf or otf in small or capital letters.  Cleanup always returns.
    The paths it hands to [delete] are, in order, exactly the deleted files
    that are not fonts, so deletion is attempted for every deleted file
    whose extension is not a font extension; the deleted files that are
    fonts are each reported as skipped and never handed to [delete].  No
    run of [exportFiles] hands a font file to [delete] either. *)
Theorem font_files_are_skipped (host : Host) (website : Website) (destination : Path)
    (tr : list Event) :
  (forall p, isFontFile p = true <-> font_extension (extension p))
  /\ (exists evs,
        cleanupOldFiles host website destination tr = (inr tt, tr ++ evs)
        /\ deletions evs
           = List.filter (fun p => negb (isFontFile p)) (deleted_paths host website destination)
        /\ skips evs
           = List.map skipping (List.filter isFontFile (deleted_paths host website destination))
        /\ Forall (fun p => ~ font_extension (extension p)) (deletions evs)
        /\ (forall p, In p (deleted_paths host website destination) ->
                      ~ font_extension (extension p) -> In p (deletions evs))
        /\ (forall p, In p (deleted_paths host website destination) ->
                      font_extension (extension p) ->
                      In (skipping p) (skips evs) /\ ~ In p (deletions evs)))
  /\ (forall files saveFiles deleteOld,
        exists evs,
          snd (exportFiles host files destination saveFiles deleteOld tr) = tr ++ evs
          /\ Forall (fun p => ~ font_extension (extension p)) (deletions evs)).
Proof.
  assert (Hfont : forall evs, forallb inner_event evs = true ->
            Forall (fun p => ~ font_extension (extension p)) (deletions evs)).
  { intros evs H. eapply Forall_impl; [apply deletions_inner; exact H|].
    intros p Hp. apply isFontFile_not_font. exact Hp. }
  split; [apply isFontFile_font|]. split.
  - destruct (cleanupOldFiles_run host website destination tr) as (evs & E & H & D & S).
    exists evs. split; [exact E|]. split; [exact D|]. split; [exact S|].
    split; [apply Hfont; exact H|]. split.
    + intros p Hin Hp. rewrite D. apply List.filter_In. split; [exact Hin|].
      apply isFontFile_not_font in Hp. rewrite Hp. reflexivity.
    + intros p Hin Hp. apply isFontFile_font in Hp. split.
      * rewrite S. apply List.in_map. apply List.filter_In. auto.
      * rewrite D. intros Hdel. apply List.filter_In in Hdel as [_ Hdel].
        rewrite Hp in Hdel. discriminate.
  - intros files saveFiles deleteOld.
    destruct (validateExportInputs_run host files destination tr) as (v & pre & Ev & Hpre).
    destruct (isValid v) eqn:Hvalid.
    + destruct (exportFiles_valid_run host files destination saveFiles deleteOld _ _ _ Ev Hvalid)
        as (result & mid & E & Hmid).
      exists (pre ++ [BeginBatch] ++ mid ++ [EndBatch]). rewrite E. cbn [snd].
      split; [rewrite <- !List.app_assoc; reflexivity|].
      rewrite !deletions_app. cbn [deletions omap deleted_of]. rewrite !app_nil_r.
      change (omap deleted_of [BeginBatch]) with (@nil Path). cbn [app].
      apply Forall_app. split; apply Hfont; assumption.
    + exists (pre ++ [ Notice ("❌ Export validation failed: " +:+ default "undefined" (error v));
                       LogError (inr (default "undefined" (error v))) "Export Validation Failed" ]).
      unfold exportFiles, bind. rewrite Ev, Hvalid. cbn [negb].
      rewrite !emit_run. cbn [snd]. split; [rewrite <- !List.app_assoc; reflexivity|].
      rewrite deletions_app. cbn [deletions omap deleted_of]. rewrite app_nil_r.
      apply Hfont. exact Hpre.
Qed.

Lemma saveWebsiteFiles_ok (host : Host) (website : Website) (tr : list Event) :
  (forall tr' files, downloadAttachments host tr' files = None) ->
  exists evs,
    saveWebsiteFiles host website tr = (inr tt, tr ++ evs)
    /\ In (DownloadAttachments [ websiteDataAttachment (index website);
                                 indexDataAttachment (index website) ]) evs.
Proof.
  intros Hdl. unfold saveWebsiteFiles, try_catch, bind, when, attempt. cbv zeta.
  destruct (0 <? length _)%nat; rewrite ?Hdl; cbn -[List.filter app];
    rewrite ?Hdl; rewrite ?emit_run; rewrite <- ?List.app_assoc;
    eexists; (split; [reflexivity|]); cbn; auto.
Qed.

(** C8.  Cleanup never throws: a deletion that fails is logged as a
    warning and the loop goes on to the remaining files (every file that
    is not a font is still handed to [delete]); a sweep of empty
    directories that fails is logged as a warning too.  An export whose
    build and downloads work therefore reaches the save step and returns
    the website, whatever the deletions and the sweep did. *)
Theorem cleanup_failures_are_not_fatal (host : Host) :
  (forall website destination tr,
     exists evs,
       cleanupOldFiles host website destination tr = (inr tt, tr ++ evs)
       /\ deletions evs
          = List.filter (fun p => negb (isFontFile p)) (deleted_paths host website destination))
  /\ (forall destination deletedFile tr e,
        let filePath := new_Path_in host deletedFile (path destination) in
        isFontFile filePath = false ->
        delete host tr filePath = Some e ->
        cleanup_one host destination deletedFile tr
        = (inr tt, tr ++ [Delete filePath; Log (could_not_delete filePath e)]))
  /\ (forall website destination tr e,
        (forall tr', removeEmptyDirectories host tr' (path destination) = Some e) ->
        deleted_paths host website destination <> [] ->
        exists evs,
          cleanupOldFiles host website destination tr
          = (inr tt, tr ++ evs ++ [Log (could_not_sweep e)]))
  /\ (forall files destination website tr v tr1,
        validateExportInputs host files destination tr = (inr v, tr1) ->
        isValid v = true ->
        (forall tr', build host tr' files destination = inr (Some website)) ->
        (forall tr' fs, downloadAttachments host tr' fs = None) ->
        exists tr2,
          exportFiles host files destination true true tr = (inr (Some website), tr2)
          /\ In (DownloadAttachments [ websiteDataAttachment (index website);
                                       indexDataAttachment (index website) ]) tr2
          /\ In (Log "Web export completed successfully") tr2).
Proof.
  split; [|split; [|split]].
  - intros website destination tr.
    destruct (cleanupOldFiles_run host website destination tr) as (evs & E & _ & D & _).
    eauto.
  - intros destination deletedFile tr e filePath. apply cleanup_one_failed.
  - intros website destination tr e Hsweep Hfiles.
    unfold cleanupOldFiles, deleted_paths in *.
    destruct (deletedFiles (index website)) as [[|f files]|];
      try (exfalso; apply Hfiles; reflexivity).
    set (all := f :: files).
    destruct (cleanup_loop_run host destination all (tr ++ [AddToProgressCap (length all)]))
      as (e1 & E1 & _).
    unfold bind. rewrite emit_run, E1. unfold try_catch, attempt. rewrite Hsweep, emit_run.
    exists ([AddToProgressCap (length all)] ++ e1 ++ [RemoveEmptyDirectories (path destination)]).
    rewrite <- !List.app_assoc. reflexivity.
  - intros files destination website tr v tr1 Hv Hvalid Hbuild Hdl.
    unfold exportFiles, bind. rewrite Hv, Hvalid. cbn [negb].
    rewrite emit_run. unfold try_finally, try_catch, exportFiles_try, bind, attempt_value.
    rewrite emit_run, Hbuild. cbn [when].
    match goal with |- context [cleanupOldFiles host website destination ?t] =>
      destruct (cleanupOldFiles_run host website destination t) as (e1 & E1 & _) end.
    rewrite E1.
    match goal with |- context [saveWebsiteFiles host website ?t] =>
      destruct (saveWebsiteFiles_ok host website t Hdl) as (e2 & E2 & Hin) end.
    rewrite E2, !emit_run. eexists. split; [reflexivity|].
    rewrite !in_app_iff. cbn [In]. auto 10.
Qed.

(** C10.  An export whose inputs pass validation calls [beginBatch] once,
    then runs the build, cleanup and save steps, none of which opens or
    closes a batch, and calls [endBatch] once as its last action, whether
    those steps complete, are cancelled or throw; and it returns without
    throwing. *)
Theorem batch_is_always_closed (host : Host) (files : list TFile) (destination : Path)
    (saveFiles deleteOld : bool) (tr : list Event) (v : Validation) (tr1 : list Event) :
  validateExportInputs host files destination tr = (inr v, tr1) ->
  isValid v = true ->
  exists result pre mid,
    tr1 = tr ++ pre
    /\ exportFiles host files destination saveFiles deleteOld tr
       = (inr result, tr ++ pre ++ [BeginBatch] ++ mid ++ [EndBatch])
    /\ count is_begin pre = 0%nat /\ count is_end pre = 0%nat
    /\ count is_begin mid = 0%nat /\ count is_end mid = 0%nat
    /\ count is_begin (pre ++ [BeginBatch] ++ mid ++ [EndBatch]) = 1%nat
    /\ count is_end (pre ++ [BeginBatch] ++ mid ++ [EndBatch]) = 1%nat.
Proof.
  intros Hv Hvalid.
  destruct (validateExportInputs_run host files destination tr) as (v' & pre & Ev & Hpre).
  rewrite Hv in Ev. injection Ev as <- ->.
  destruct (exportFiles_valid_run host files destination saveFiles deleteOld _ _ _ Hv Hvalid)
    as (result & mid & E & Hmid).
  exists result, pre, mid.
  pose proof (count_inner_begin pre Hpre) as B1. pose proof (count_inner_end pre Hpre) as E1.
  pose proof (count_inner_begin mid Hmid) as B2. pose proof (count_inner_end mid Hmid) as E2.
  split; [reflexivity|]. split; [rewrite E, <- !List.app_assoc; reflexivity|].
  repeat split; try assumption.
  - rewrite !count_app, B1, B2. reflexivity.
  - rewrite !count_app, E1, E2. reflexivity.
Qed.


(** An export whose build throws still closes its batch. *)
Lemma batch_is_always_closed_witness :
  exists result pre mid,
    [] = [] ++ pre
    /\ exportFiles Samples.host_build_throws Samples.one_file (Samples.path_object "/out")
         true true []
       = (inr result, [] ++ pre ++ [BeginBatch] ++ mid ++ [EndBatch])
    /\ count is_begin pre = 0%nat /\ count is_end pre = 0%nat
    /\ count is_begin mid = 0%nat /\ count is_end mid = 0%nat
    /\ count is_begin (pre ++ [BeginBatch] ++ mid ++ [EndBatch]) = 1%nat
    /\ count is_end (pre ++ [BeginBatch] ++ mid ++ [EndBatch]) = 1%nat.
Proof.
  apply (batch_is_always_closed Samples.host_build_throws Samples.one_file
           (Samples.path_object "/out") true true [] valid []).
  - vm_compute. reflexivity.
  - reflexivity.
Defined.

Example exportFiles_build_throws :
  exportFiles Samples.host_build_throws Samples.one_file (Samples.path_object "/out")
    true true []
  = (inr None,
     [ BeginBatch;
       Log "Starting web-optimized export...";
       Build Samples.one_file (Samples.path_object "/out");
       Notice "❌ Export Failed: render failed";
       LogError (inl (Error.make "render failed")) "Export Failed";
       EndBatch ]).
Proof. vm_compute. reflexivity. Qed.

(** Every deletion fails and the sweep fails, and the export completes. *)
Lemma cleanup_failures_are_not_fatal_witness :
  exists tr2,
    exportFiles Samples.host_cleanup_fails Samples.one_file (Samples.path_object "/out")
      true true []
    = (inr (Some Samples.website_with_old_files), tr2)
    /\ In (DownloadAttachments
             [ websiteDataAttachment (index Samples.website_with_old_files);
               indexDataAttachment (index Samples.website_with_old_files) ]) tr2
    /\ In (Log "Web export completed successfully") tr2.
Proof.
  destruct (cleanup_failures_are_not_fatal Samples.host_cleanup_fails) as (_ & _ & _ & Hexport).
  apply (Hexport Samples.one_file (Samples.path_object "/out") Samples.website_with_old_files
           [] valid []).
  - vm_compute. reflexivity.
  - reflexivity.
  - reflexivity.
  - reflexivity.
Defined.

Example cleanup_with_failing_deletions :
  let r := cleanupOldFiles Samples.host_cleanup_fails Samples.website_with_old_files
             (Samples.path_object "/out") [] in
  fst r = inr tt
  /\ List.map path (deletions (snd r)) = ["/out/old/page.html"; "/out/old/img.png"]
  /\ skips (snd r) = ["Skipping: /out/fonts/Inter.WOFF2"]
  /\ List.last (snd r) BeginBatch = Log (could_not_sweep Samples.EACCES).
Proof. cbv zeta. repeat split; vm_compute; reflexivity. Qed.

End ExportFacts.

(* ===================================================================== *)
(** * Further properties of the code *)
(* ===================================================================== *)

(** ** Strings *)
Module StringFacts.
Import TrimFacts WebConfigFacts.

Lemma all_chars_impl (p q : ascii -> bool) s :
  (forall c, p c = true -> q c = true) ->
  JS.all_chars p s = true -> JS.all_chars q s = true.
Proof.
  intros Hpq. induction s as [|c s IH]; simpl; [reflexivity|].
  intros H. apply andb_true_iff in H as [Hc Hs]. rewrite (Hpq c Hc), IH; auto.
Qed.

(** [trim] returns a part of the string. *)
Lemma all_chars_trim p s : JS.all_chars p s = true -> JS.all_chars p (JS.trim s) = true.
Proof.
  intros H. destruct (trim_split s) as (b & a & _ & _ & E). rewrite E in H.
  rewrite !all_chars_app in H. apply andb_true_iff in H as [_ H].
  apply andb_true_iff in H as [H _]. exact H.
Qed.

Lemma split_not_nil sep s : JS.split sep s <> [].
Proof.
  destruct s as [|c s]; simpl; [discriminate|].
  destruct (Ascii.eqb c sep); [discriminate|]. destruct (JS.split sep s); discriminate.
Qed.

(** A beginning without the separator stays in the first piece. *)
Lemma split_app sep w rest :
  JS.all_chars (fun c => negb (Ascii.eqb c sep)) w = true ->
  JS.split sep (w +:+ rest)
  = match JS.split sep rest with
    | [] => []
    | h :: t => (w +:+ h) :: t
    end.
Proof.
  induction w as [|c w IH]; intros Hw.
  - rewrite RegexFacts.append_nil. destruct (JS.split sep rest); reflexivity.
  - simpl in Hw. apply andb_true_iff in Hw as [Hc Hw]. apply negb_true_iff in Hc.
    rewrite RegexFacts.append_cons. simpl. rewrite Hc, (IH Hw).
    destruct (JS.split sep rest) as [|h t] eqn:E; [destruct (split_not_nil _ _ E)|].
    reflexivity.
Qed.

(** The pieces of [s.split(sep)] do not contain the separator. *)
Lemma split_pieces sep s :
  Forall (fun piece => JS.all_chars (fun c => negb (Ascii.eqb c sep)) piece = true)
    (JS.split sep s).
Proof.
  induction s as [|c s IH]; simpl; [repeat constructor|].
  destruct (Ascii.eqb c sep) eqn:E; [constructor; [reflexivity | exact IH]|].
  destruct (JS.split sep s) as [|h t]; [repeat constructor; simpl; rewrite E; reflexivity|].
  apply Forall_cons in IH as [Hh Ht]. constructor; [|exact Ht].
  simpl. rewrite E, Hh. reflexivity.
Qed.

(** Splitting keeps what the characters of the string satisfy. *)
Lemma split_all_chars p sep s :
  JS.all_chars p s = true -> Forall (fun piece => JS.all_chars p piece = true) (JS.split sep s).
Proof.
  induction s as [|c s IH]; simpl; [repeat constructor|].
  intros H. apply andb_true_iff in H as [Hc Hs]. specialize (IH Hs).
  destruct (Ascii.eqb c sep); [constructor; [reflexivity | exact IH]|].
  destruct (JS.split sep s) as [|h t]; [repeat constructor; simpl; rewrite Hc; reflexivity|].
  apply Forall_cons in IH as [Hh Ht]. constructor; [|exact Ht].
  simpl. rewrite Hc, Hh. reflexivity.
Qed.

Lemma includes_char s c :
  JS.all_chars (fun x => negb (Ascii.eqb x c)) s = true ->
  JS.includes s (String c EmptyString) = false.
Proof.
  induction s as [|x s IH]; simpl; [reflexivity|].
  intros H. apply andb_true_iff in H as [Hx Hs]. rewrite (IH Hs), orb_false_r.
  apply negb_true_iff in Hx. rewrite Ascii.eqb_sym in Hx.
  destruct (Ascii.ascii_dec c x) as [->|Hne].
  - rewrite Ascii.eqb_refl in Hx. discriminate.
  - destruct s; destruct (Ascii.ascii_dec c x); congruence.
Qed.

End StringFacts.

(** ** VaultValidator: what makes a vault valid, and the directory walks *)

Module VaultChecks.
Import FS VaultValidator VaultValidatorFacts.

Section Checks.
Variable J : string -> option Error.t.

Lemma errors_validateJsonFile v p fileName r :
  errors (validateJsonFile J v p fileName r) = errors r ++ json_errors J v p fileName.
Proof.
  unfold validateJsonFile, json_errors. cbv zeta.
  destruct (json_file_error J _ _); [reflexivity | symmetry; apply app_nil_r].
Qed.

Lemma invalid_json_nil v p fileName :
  invalid_json J v p fileName = [] <-> absent_or_parses J v p = true.
Proof.
  unfold invalid_json, absent_or_parses, json_errors. cbv zeta.
  destruct (existsSync v p); [|simpl; tauto].
  destruct (json_file_error J _ _); simpl; split; congruence.
Qed.

Lemma invalid_json_codes v p fileName :
  Forall (fun e => ValidationError.code e = "INVALID_JSON"
                   /\ ValidationError.severity e = ValidationError.error
                   /\ ValidationError.path e = Some (join_all (vaultPath v) p))
    (invalid_json J v p fileName)
  /\ (length (invalid_json J v p fileName) <= 1)%nat.
Proof.
  unfold invalid_json, json_errors. cbv zeta.
  destruct (existsSync v p); [|split; [constructor | simpl; lia]].
  destruct (json_file_error J _ _); simpl; split; try lia; repeat constructor.
Qed.

Lemma exists_prefix v p q :
  existsSync v (p ++ q) = true -> q <> [] -> isDirectory (at_path v p) = true.
Proof.
  unfold existsSync, at_path. destruct (root v) as [n|]; [|discriminate].
  revert n. induction p as [|a p IH]; intros n; simpl.
  - destruct q as [|b q]; [congruence|]. simpl. destruct n; try discriminate. reflexivity.
  - destruct n as [| rd es |]; try discriminate.
    destruct (entry a es) as [child|]; [apply IH | discriminate].
Qed.

Lemma isDirectory_exists v p : isDirectory (at_path v p) = true -> existsSync v p = true.
Proof. unfold existsSync. destruct (at_path v p) as [[]|]; simpl; congruence. Qed.

Lemma not_exists_prefix v p q :
  existsSync v p = false -> q <> [] -> existsSync v (p ++ q) = false.
Proof.
  intros H Hq. destruct (existsSync v (p ++ q)) eqn:E; [|reflexivity].
  apply exists_prefix in E; [|exact Hq]. apply isDirectory_exists in E. congruence.
Qed.

Lemma invalid_json_below v p q fileName :
  existsSync v p = false -> q <> [] -> invalid_json J v (p ++ q) fileName = [].
Proof.
  intros H Hq. unfold invalid_json. rewrite (not_exists_prefix v p q H Hq). reflexivity.
Qed.

Lemma errors_validateObsidianConfig v r :
  errors (validateObsidianConfig J v r)
  = errors r
    ++ invalid_json J v [".obsidian"; "app.json"] "app.json"
    ++ invalid_json J v [".obsidian"; "workspace.json"] "workspace.json"
    ++ invalid_json J v [".obsidian"; "community-plugins.json"] "community-plugins.json"
    ++ invalid_json J v [".obsidian"; "core-plugins.json"] "core-plugins.json".
Proof.
  unfold validateObsidianConfig.
  destruct (existsSync v [".obsidian"]) eqn:Hobs; cbn [negb].
  - unfold invalid_json. cbv zeta.
    destruct (existsSync v [".obsidian"; "app.json"]),
      (existsSync v [".obsidian"; "workspace.json"]),
      (existsSync v [".obsidian"; "community-plugins.json"]),
      (existsSync v [".obsidian"; "core-plugins.json"]),
      (existsSync v [".obsidian"; "plugins"]); cbn [negb];
      repeat first [rewrite errors_validateJsonFile | rewrite errors_push_warning];
      rewrite ?app_nil_r, <- ?List.app_assoc; reflexivity.
  - assert (Hbelow : forall name fileName,
              invalid_json J v [".obsidian"; name] fileName = [])
      by (intros name fileName;
          apply (invalid_json_below v [".obsidian"] [name]); [assumption | discriminate]).
    rewrite !Hbelow. symmetry. apply app_nil_r.
Qed.

Lemma errors_validatePluginConfig v r :
  errors (validatePluginConfig J v r)
  = errors r
    ++ invalid_json J v [".obsidian"; "plugins"; "webpage-html-export"; "data.json"]
         "HTML Export plugin data.json".
Proof.
  unfold validatePluginConfig. cbv zeta. cbn [app].
  destruct (existsSync v [".obsidian"; "plugins"]) eqn:Hplugins; cbn [negb].
  - rewrite errors_fold_left
      by (intros r0 a; destruct (existsSync v [".obsidian"; "plugins"; a]); reflexivity).
    unfold invalid_json.
    destruct (existsSync v [".obsidian"; "plugins"; "webpage-html-export"]) eqn:Hdir.
    + destruct (existsSync v [".obsidian"; "plugins"; "webpage-html-export"; "data.json"]).
      * apply errors_validateJsonFile.
      * symmetry. apply app_nil_r.
    + pose proof (not_exists_prefix v [".obsidian"; "plugins"; "webpage-html-export"]
                    ["data.json"] Hdir ltac:(discriminate)) as Hdata.
      cbn [app] in Hdata. rewrite Hdata. symmetry. apply app_nil_r.
  - pose proof (invalid_json_below v [".obsidian"; "plugins"]
                  ["webpage-html-export"; "data.json"] "HTML Export plugin data.json"
                  Hplugins ltac:(discriminate)) as Hdata.
    cbn [app] in Hdata. rewrite Hdata. symmetry. apply app_nil_r.
Qed.

(** The error list of a validation, in full. *)
Lemma validateVault_errors_split v :
  ValidationResult.errors (validateVault J v)
  = errors (validateBasicStructure v empty_report)
    ++ flat_map (fun f => invalid_json J v (fst f) (snd f)) checked_json_files.
Proof.
  rewrite validateVault_errors, errors_validatePluginConfig, errors_validateObsidianConfig.
  cbn [flat_map checked_json_files fst snd]. rewrite app_nil_r, <- !List.app_assoc. reflexivity.
Qed.

Lemma structural_errors v :
  let structural := errors (validateBasicStructure v empty_report) in
  Forall (fun e => In (ValidationError.code e) error_codes
                   /\ ValidationError.severity e = ValidationError.error) structural
  /\ (length structural <= 1)%nat
  /\ (structural = [] <->
      isDirectory (root v) && isDirectory (at_path v [".obsidian"]) = true).
Proof.
  cbv zeta. unfold validateBasicStructure.
  assert (Hroot : isDirectory (root v) = true -> exists_node (root v) = true).
  { destruct (root v) as [[]|]; simpl; congruence. }
  pose proof (isDirectory_exists v [".obsidian"]) as Hobs.
  destruct (exists_node (root v)); cbn [negb].
  2: { split; [repeat constructor; simpl; tauto|]. split; [simpl; lia|].
       destruct (isDirectory (root v)); [specialize (Hroot eq_refl); discriminate|].
       simpl; split; congruence. }
  destruct (isDirectory (root v)); cbn [negb andb].
  2: { split; [repeat constructor; simpl; tauto|]. split; [simpl; lia|]. simpl; split; congruence. }
  destruct (existsSync v [".obsidian"]); cbn [negb].
  2: { split; [repeat constructor; simpl; tauto|]. split; [simpl; lia|].
       destruct (isDirectory (at_path v [".obsidian"])); [specialize (Hobs eq_refl); discriminate|].
       simpl; split; congruence. }
  destruct (isDirectory (at_path v [".obsidian"])); cbn [negb].
  - split; [constructor|]. split; [simpl; lia|]. tauto.
  - split; [repeat constructor; simpl; tauto|]. split; [simpl; lia|]. simpl; split; congruence.
Qed.

Lemma json_errors v (files : list (list string * string)) :
  let json := flat_map (fun f => invalid_json J v (fst f) (snd f)) files in
  Forall (fun e => In (ValidationError.code e) error_codes
                   /\ ValidationError.severity e = ValidationError.error) json
  /\ (length json <= length files)%nat
  /\ (json = [] <-> forallb (fun f => absent_or_parses J v (fst f)) files = true).
Proof.
  cbv zeta. induction files as [|[p fileName] files (IH1 & IH2 & IH3)].
  - split; [constructor|]. split; [simpl; lia|]. simpl; tauto.
  - cbn [flat_map forallb fst snd].
    destruct (invalid_json_codes v p fileName) as [Hc Hl].
    split; [|split].
    + apply Forall_app. split; [|exact IH1].
      eapply Forall_impl; [exact Hc|]. intros e (-> & He & _). split; [simpl; tauto | exact He].
    + rewrite length_app. simpl. lia.
    + rewrite andb_true_iff, <- IH3, <- invalid_json_nil. apply app_nil.
Qed.

Lemma filter_all {A} (f : A -> bool) (l : list A) :
  Forall (fun x => f x = true) l -> List.filter f l = l.
Proof.
  induction 1 as [|x l Hx Hl IH]; simpl; [reflexivity|]. rewrite Hx, IH. reflexivity.
Qed.

Lemma length_zero_nil {A} (l : list A) : (length l =? 0)%nat = true <-> l = [].
Proof. destruct l; simpl; split; congruence. Qed.

Lemma validateVault_all_errors v :
  Forall (fun e => In (ValidationError.code e) error_codes
                   /\ ValidationError.severity e = ValidationError.error)
    (ValidationResult.errors (validateVault J v)).
Proof.
  rewrite validateVault_errors_split. apply Forall_app. split.
  - apply structural_errors.
  - apply json_errors.
Qed.

Lemma isValid_no_errors v :
  ValidationResult.isValid (validateVault J v) = true
  <-> ValidationResult.errors (validateVault J v) = [].
Proof.
  pose proof (validateVault_all_errors v) as Hall.
  unfold validateVault in *. cbn [ValidationResult.isValid ValidationResult.errors] in *.
  rewrite filter_all.
  - apply length_zero_nil.
  - eapply Forall_impl; [exact Hall|]. intros e [_ He]. unfold is_error. rewrite He. reflexivity.
Qed.

(** X1.  A vault is valid exactly when its path is a directory, [.obsidian]
    in it is a directory, and each of the five configuration files the
    validator parses is absent or holds text that [JSON.parse] accepts.
    Nothing else (notes, assets, sizes, depth, other plugins) bears on
    validity. *)
Theorem validateVault_valid_iff (v : VaultValidator.t) :
  ValidationResult.isValid (validateVault J v)
  = isDirectory (root v) && isDirectory (at_path v [".obsidian"])
    && forallb (fun f => absent_or_parses J v (fst f)) checked_json_files.
Proof.
  apply eq_true_iff_eq. rewrite isValid_no_errors, validateVault_errors_split.
  rewrite app_nil, andb_true_iff.
  destruct (structural_errors v) as (_ & _ & ->).
  destruct (json_errors v checked_json_files) as (_ & _ & ->). reflexivity.
Qed.


(** X3.  For a vault path that is missing or is not a directory the later
    checks are not cut short: the result holds the single error
    VAULT_NOT_FOUND or VAULT_NOT_DIRECTORY, the content check still adds the
    warning NO_MARKDOWN_FILES, and there are no suggestions. *)
Theorem validateVault_path_not_a_directory (v : VaultValidator.t) :
  isDirectory (root v) = false ->
  let result := validateVault J v in
  ValidationResult.isValid result = false
  /\ ValidationResult.errors result
     = [ if exists_node (root v)
         then mk_error "VAULT_NOT_DIRECTORY"
                ("Vault path is not a directory: " +:+ vaultPath v) (vaultPath v)
         else mk_error "VAULT_NOT_FOUND"
                ("Vault directory not found: " +:+ vaultPath v) (vaultPath v) ]
  /\ List.map ValidationWarning.code (ValidationResult.warnings result) = ["NO_MARKDOWN_FILES"]
  /\ ValidationResult.suggestions result = [].
Proof.
  intros Hroot. destruct v as [vaultPath [[size content | readable entries |]|]];
    try discriminate Hroot; repeat split.
Qed.

End Checks.

(** A vault path at which nothing exists. *)
Lemma validateVault_path_not_a_directory_witness :
  List.map ValidationError.code
    (ValidationResult.errors (validateVault Samples.json_accepts_all Samples.vault_missing))
  = ["VAULT_NOT_FOUND"]
  /\ List.map ValidationWarning.code
       (ValidationResult.warnings
          (validateVault Samples.json_accepts_all Samples.vault_missing))
     = ["NO_MARKDOWN_FILES"].
Proof.
  destruct (validateVault_path_not_a_directory Samples.json_accepts_all
              Samples.vault_missing eq_refl) as (_ & He & Hw & _).
  rewrite He. split; [reflexivity | exact Hw].
Defined.

Lemma Node_induction (P : Node -> Prop) :
  (forall size content, P (File size content)) ->
  (forall readable entries, Forall (fun e => P (snd e)) entries -> P (Dir readable entries)) ->
  P Broken -> forall n, P n.
Proof.
  intros HF HD HB. fix IH 1. intros [size content | readable entries |].
  - apply HF.
  - apply HD.
    refine ((fix go (l : list (string * Node)) : Forall (fun e => P (snd e)) l :=
               match l with
               | [] => @List.Forall_nil _ _
               | (name, child) :: r => @List.Forall_cons _ _ (name, child) r (IH child) (go r)
               end) entries).
  - exact HB.
Qed.

Lemma findLargeFiles_sound dir : forall prefix threshold rel size,
  In (rel, size) (findLargeFiles prefix dir threshold) ->
  exists p content,
    p <> [] /\ rel = relative (prefix ++ p)
    /\ reaches p dir (File size content)
    /\ visible p
    /\ (threshold < size)%N.
Proof.
  induction dir as [s c | readable entries IH |] using Node_induction;
    intros prefix threshold rel size Hin; try (destruct Hin).
  destruct readable; [|destruct Hin].
  cbn [findLargeFiles] in Hin.
  assert (Hsub : forall items, (forall e, In e items -> In e entries) ->
            Forall (fun e => forall prefix threshold rel size,
              In (rel, size) (findLargeFiles prefix (snd e) threshold) ->
              exists p content, p <> [] /\ rel = relative (prefix ++ p)
                /\ reaches p (snd e) (File size content) /\ visible p /\ (threshold < size)%N) items ->
            In (rel, size)
              ((fix loop (items : list (string * Node)) : list (string * N) :=
                  match items with
                  | [] => []
                  | (item, child) :: rest =>
                      if JS.startsWith item "." then loop rest
                      else match child with
                           | Broken => []
                           | Dir _ _ => findLargeFiles (prefix ++ [item]) child threshold ++ loop rest
                           | File size _ =>
                               (if (threshold <? size)%N
                                then [(relative (prefix ++ [item]), size)] else []) ++ loop rest
                           end
                  end) items) ->
            exists p content, p <> [] /\ rel = relative (prefix ++ p)
              /\ reaches p (Dir true entries) (File size content) /\ visible p /\ (threshold < size)%N).
  { induction items as [|[item child] rest IHr]; intros Hsubset HF Hi; [destruct Hi|].
    apply Forall_cons in HF as [Hchild Hrest].
    assert (Hhere : In (item, child) entries) by (apply Hsubset; left; reflexivity).
    assert (Hmore : forall e, In e rest -> In e entries) by (intros e He; apply Hsubset; right; exact He).
    destruct (JS.startsWith item ".") eqn:Hdot; [apply IHr; assumption|].
    destruct child as [fsize content | rd es |].
    - apply in_app_iff in Hi as [Hi | Hi]; [|apply IHr; assumption].
      destruct (threshold <? fsize)%N eqn:Hlt; [|destruct Hi].
      destruct Hi as [Hi | []]. injection Hi as <- <-.
      exists [item], content. split; [discriminate|]. split; [reflexivity|].
      split; [econstructor; [exact Hhere | constructor]|].
      split; [constructor; [exact Hdot | constructor]|].
      apply N.ltb_lt. exact Hlt.
    - apply in_app_iff in Hi as [Hi | Hi]; [|apply IHr; assumption].
      apply Hchild in Hi as (p & content & Hne & -> & Hreach & Hvis & Hlt).
      exists (item :: p), content. split; [discriminate|].
      split; [rewrite <- List.app_assoc; reflexivity|].
      split; [econstructor; eassumption|].
      split; [constructor; assumption | exact Hlt].
    - destruct Hi. }
  apply (Hsub entries); auto.
Qed.

(** X4.  Whatever [findLargeFiles] reports is a regular file of the tree:
    it is found along names none of which begins with a dot, through
    directories that can be listed; the reported path is that path, relative
    to the vault; and the reported size is the file's size and is above the
    threshold. *)
Theorem large_files_are_files_above_the_threshold
    (dir : Node) (prefix : list string) (threshold : N) :
  Forall (fun f =>
            exists p content,
              p <> [] /\ fst f = relative (prefix ++ p)
              /\ reaches p dir (File (snd f) content)
              /\ visible p
              /\ (threshold < snd f)%N)
    (findLargeFiles prefix dir threshold).
Proof.
  apply List.Forall_forall. intros [rel size] Hin.
  apply (findLargeFiles_sound dir prefix threshold rel size Hin).
Qed.

(** X5.  An entry on which [statSync] throws ends a directory walk without
    any notice.  The recursive count of files and the directory size are
    those of the entries listed before it, whatever follows; the
    non-recursive count is 0; the search for large files and the depth stop
    at it too, unless its name begins with a dot, in which case they skip it
    before looking at it. *)
Theorem walks_stop_at_an_entry_that_cannot_be_read
    (extension name : string) (before after : list (string * Node)) (threshold : N) :
  let listing := before ++ (name, Broken) :: after in
  countFilesWithExtension extension (Dir true listing)
  = countFilesWithExtension extension (Dir true before)
  /\ getDirectorySize (Dir true listing) = getDirectorySize (Dir true before)
  /\ countFilesInDirectory (Some (Dir true listing)) = 0%N
  /\ (JS.startsWith name "." = false ->
      findLargeFiles [] (Dir true listing) threshold
      = findLargeFiles [] (Dir true before) threshold
      /\ getMaxDirectoryDepth (Dir true listing) 0 = getMaxDirectoryDepth (Dir true before) 0).
Proof.
  cbv zeta. split; [|split; [|split]].
  - cbn [countFilesWithExtension].
    induction before as [|[item child] before IH]; [reflexivity|].
    cbn [app]. destruct child; rewrite ?IH; reflexivity.
  - cbn [getDirectorySize].
    induction before as [|[item child] before IH]; [reflexivity|].
    cbn [app]. destruct child; rewrite ?IH; reflexivity.
  - unfold countFilesInDirectory. rewrite existsb_app. cbn. rewrite orb_true_r. reflexivity.
  - intros Hname. split.
    + cbn [findLargeFiles]. generalize (@nil string) as prefix.
      induction before as [|[item child] before IH]; intros prefix.
      * cbn [app]. rewrite Hname. reflexivity.
      * cbn [app]. destruct (JS.startsWith item "."); [apply IH|].
        destruct child; rewrite ?IH; reflexivity.
    + cbn [getMaxDirectoryDepth]. generalize 0%N at 2 4 as maxDepth.
      induction before as [|[item child] before IH]; intros maxDepth.
      * cbn [app]. rewrite Hname. reflexivity.
      * cbn [app]. destruct (JS.startsWith item "."); [apply IH|].
        destruct child; rewrite ?IH; reflexivity.
Qed.

End VaultChecks.

(** ** Migration of the legacy settings *)

Module MigrationFacts.
Import WebConfig WebConfigFacts.

Lemma migrate_feature_keeps_rest o set :
  (forall b, keeps_rest (set b)) -> keeps_rest (migrate_feature o set).
Proof. intros H c. destruct o as [o|]; [apply H | repeat split]. Qed.

Lemma migrate_site legacy :
  let config := migrateFromLegacyConfig legacy in
  version config = version DEFAULT_WEB_CONFIG
  /\ name (site config)
     = match siteName legacy with
       | Some v => if JS.truthy v then v else name (site DEFAULT_WEB_CONFIG)
       | None => name (site DEFAULT_WEB_CONFIG)
       end
  /\ description (site config) = description (site DEFAULT_WEB_CONFIG)
  /\ url (site config) = url (site DEFAULT_WEB_CONFIG)
  /\ seo config = seo DEFAULT_WEB_CONFIG
  /\ excludePatterns (advanced config) = excludePatterns (advanced DEFAULT_WEB_CONFIG).
Proof.
  cbv zeta. unfold migrateFromLegacyConfig, JSON_clone.
  set (c1 := migrate_string (siteName legacy) set_name DEFAULT_WEB_CONFIG).
  set (c2 := migrate_string (faviconPath legacy) _ c1).
  set (c10 := migrate_feature (sidebarOptions legacy) _ _).
  assert (H10 : version c10 = version c2 /\ site c10 = site c2
                /\ seo c10 = seo c2 /\ advanced c10 = advanced c2).
  { subst c10.
    repeat (match goal with
            | |- context [migrate_feature ?o ?s ?c] =>
                let H := fresh "H" in
                assert (H : keeps_rest (migrate_feature o s))
                  by (apply migrate_feature_keeps_rest; intros b c'; repeat split);
                destruct (H c) as (-> & -> & -> & ->); clear H
            end).
    repeat split. }
  destruct H10 as (Hv & Hs & He & Ha).
  assert (H2 : version c2 = version DEFAULT_WEB_CONFIG
               /\ name (site c2) = match siteName legacy with
                                   | Some v => if JS.truthy v then v else name (site DEFAULT_WEB_CONFIG)
                                   | None => name (site DEFAULT_WEB_CONFIG)
                                   end
               /\ description (site c2) = description (site DEFAULT_WEB_CONFIG)
               /\ url (site c2) = url (site DEFAULT_WEB_CONFIG)
               /\ seo c2 = seo DEFAULT_WEB_CONFIG
               /\ advanced c2 = advanced DEFAULT_WEB_CONFIG).
  { subst c2 c1. unfold migrate_string.
    destruct (siteName legacy) as [v|]; [destruct (JS.truthy v)|];
      (destruct (faviconPath legacy) as [f|]; [destruct (JS.truthy f)|]); repeat split. }
  destruct H2 as (H2v & H2n & H2d & H2u & H2e & H2a).
  unfold migrate_boolean.
  destruct (legacy_slugifyPaths legacy), (legacy_offlineResources legacy);
    cbn [set_offlineResources set_slugifyPaths set_advanced version site seo advanced excludePatterns];
    rewrite ?Hv, ?Hs, ?He, ?Ha, ?H2a; auto 10.
Qed.

Lemma migrate_features legacy :
  let enabled_or_true o := match o with Some o => default true (enabled o) | None => true end in
  features (migrateFromLegacyConfig legacy)
  = {| search := enabled_or_true (searchOptions legacy);
       graphView := enabled_or_true (graphViewOptions legacy);
       navigation := enabled_or_true (fileNavigationOptions legacy);
       themeToggle := enabled_or_true (themeToggleOptions legacy);
       backlinks := enabled_or_true (backlinkOptions legacy);
       tags := enabled_or_true (tagOptions legacy);
       outline := enabled_or_true (outlineOptions legacy);
       sidebar := enabled_or_true (sidebarOptions legacy) |}.
Proof.
  cbv zeta. unfold migrateFromLegacyConfig, JSON_clone.
  set (c1 := migrate_string (siteName legacy) set_name DEFAULT_WEB_CONFIG).
  set (c2 := migrate_string (faviconPath legacy) _ c1).
  assert (H2 : features c2 = features DEFAULT_WEB_CONFIG).
  { subst c2 c1. unfold migrate_string.
    destruct (siteName legacy) as [v|]; [destruct (JS.truthy v)|];
      (destruct (faviconPath legacy) as [f|]; [destruct (JS.truthy f)|]); reflexivity. }
  clearbody c2. clear c1.
  unfold migrate_boolean.
  destruct (legacy_slugifyPaths legacy), (legacy_offlineResources legacy);
    cbn [set_offlineResources set_slugifyPaths set_advanced features];
    unfold migrate_feature;
    destruct (searchOptions legacy), (graphViewOptions legacy), (fileNavigationOptions legacy),
      (themeToggleOptions legacy), (backlinkOptions legacy), (tagOptions legacy),
      (outlineOptions legacy), (sidebarOptions legacy);
    cbn -[default]; rewrite ?H2; reflexivity.
Qed.

(** X6.  A configuration migrated from legacy options fails validation in
    one way only: with a legacy site name that is not empty but holds white
    space only, for which the one error is that the site name is required.
    The migration never touches version, description, URL, the SEO section
    or the exclude patterns, which are the defaults'; and a feature is off
    in the result exactly when its legacy options exist with [enabled]
    false (options without [enabled] turn it on). *)
Theorem migrated_config_validation (URL_parses : string -> bool) (legacy : LegacyConfig) :
  URL_parses "https://example.com" = true ->
  let config := migrateFromLegacyConfig legacy in
  (forall v, siteName legacy = Some v -> v <> EmptyString -> JS.blank v ->
             validateWebConfig URL_parses config = ["Site name is required"])
  /\ ((forall v, siteName legacy = Some v -> v = EmptyString \/ ~ JS.blank v) ->
      validateWebConfig URL_parses config = [])
  /\ version config = version DEFAULT_WEB_CONFIG
  /\ description (site config) = description (site DEFAULT_WEB_CONFIG)
  /\ url (site config) = url (site DEFAULT_WEB_CONFIG)
  /\ seo config = seo DEFAULT_WEB_CONFIG
  /\ excludePatterns (advanced config) = excludePatterns (advanced DEFAULT_WEB_CONFIG)
  /\ Forall (fun '(options, feature) =>
               feature (features config) = false
               <-> exists o, options legacy = Some o /\ enabled o = Some false)
       migrated_features.
Proof.
  intros Hurl. cbv zeta.
  destruct (migrate_site legacy) as (Hv & Hn & Hd & Hu & He & Hx).
  assert (Hvalidate :
            validateWebConfig URL_parses (migrateFromLegacyConfig legacy)
            = match siteName legacy with
              | Some v => if JS.truthy v && JS.is_empty (JS.trim v)
                          then ["Site name is required"] else []
              | None => []
              end).
  { unfold validateWebConfig. rewrite Hn, Hd, Hu, He.
    cbn [googleAnalyticsId seo DEFAULT_WEB_CONFIG].
    change (missing (description (site DEFAULT_WEB_CONFIG))) with false.
    change (missing (url (site DEFAULT_WEB_CONFIG))) with false.
    change (url (site DEFAULT_WEB_CONFIG)) with "https://example.com". rewrite Hurl.
    change (missing (name (site DEFAULT_WEB_CONFIG))) with false.
    unfold missing.
    destruct (siteName legacy) as [v|]; [|reflexivity].
    destruct (JS.truthy v) eqn:Hv'; [|reflexivity].
    rewrite Hv'. cbn [negb orb andb]. destruct (JS.is_empty (JS.trim v)); reflexivity. }
  split; [|split; [|split; [|split; [|split; [|split; [|split]]]]]]; try assumption.
  - intros v Hname Hne Hblank. rewrite Hvalidate, Hname.
    apply TrimFacts.is_empty_trim in Hblank. rewrite Hblank.
    destruct v; [congruence | reflexivity].
  - intros Hname. rewrite Hvalidate. destruct (siteName legacy) as [v|]; [|reflexivity].
    destruct (Hname v eq_refl) as [-> | Hblank]; [reflexivity|].
    destruct (JS.is_empty (JS.trim v)) eqn:E;
      [apply TrimFacts.is_empty_trim in E; contradiction|].
    rewrite andb_false_r. reflexivity.
  - rewrite migrate_features. unfold migrated_features.
    assert (Hrule : forall o : option LegacyFeatureOptions,
              match o with Some o => default true (enabled o) | None => true end = false
              <-> exists o', o = Some o' /\ enabled o' = Some false).
    { intros [[[[]|]]|]; cbn; split; try discriminate; eauto;
        intros (o' & Ho & He'); try discriminate; injection Ho as <-; discriminate. }
    repeat constructor; apply Hrule.
Qed.

(** Legacy options whose site name is a space and a no-break space. *)
Lemma migrated_config_validation_witness :
  validateWebConfig Samples.URL_accepts_example
    (migrateFromLegacyConfig Samples.legacy_blank_name)
  = ["Site name is required"].
Proof.
  destruct (migrated_config_validation Samples.URL_accepts_example
              Samples.legacy_blank_name eq_refl) as (H & _).
  apply (H (JS.of_units [32; 160]%N)); [reflexivity | discriminate|].
  exists [32; 160]%N. split; [|reflexivity].
  repeat constructor; unfold JS.space_unit; lia.
Defined.
End MigrationFacts.

(** ** The settings tab: saving and loading *)

Module SettingsTabFacts.
Import Eff WebConfig WebSettingsTab.

Lemma Object_assign_as_partial (c d : WebConfig.t) :
  EnhancedDockerIntegration.Object_assign d (as_partial c) = c.
Proof. destruct c, d. reflexivity. Qed.

Section Tab.
Variable host : Host.

Lemma saveConfig_run s :
  exists evs,
    saveConfig host s
    = (inr tt,
       {| config := config s;
          stored := match saveData_fails host (data_of (config s)) with
                    | None => Some (data_of (config s))
                    | Some _ => stored s
                    end;
          events := events s ++ evs |})
    /\ In (SaveData (data_of (config s))) evs.
Proof.
  unfold saveConfig, bind, this_config, when, try_catch, saveData, emit, modify, ret.
  cbv zeta.
  destruct (0 <? length _)%nat; cbn [config stored events];
    destruct (saveData_fails host (data_of (config s))); cbn [config stored events];
    rewrite <- ?List.app_assoc; eexists; (split; [reflexivity|]); cbn; auto.
Qed.

(** X7.  Round trip.  [saveConfig] stores the configuration even when it
    fails validation, and a settings tab opened afterwards on the stored data
    loads exactly the configuration that was saved. *)
Theorem saved_config_loads_back (s : State) :
  saveData_fails host (data_of (config s)) = None ->
  loadData_fails host (Some (data_of (config s))) = None ->
  let saved := snd (saveConfig host s) in
  fst (saveConfig host s) = inr tt
  /\ stored saved = Some (data_of (config s))
  /\ fst (loadConfig host (reopened saved)) = inr tt
  /\ config (snd (loadConfig host (reopened saved))) = config s.
Proof.
  intros Hsave Hload. cbv zeta.
  destruct (saveConfig_run s) as (evs & E & _). rewrite E, Hsave. cbn [fst snd stored].
  split; [reflexivity|]. split; [reflexivity|].
  unfold loadConfig, try_catch, bind, loadData, reopened. cbn [stored config events].
  rewrite Hload. cbn [data_of webConfig]. unfold set_config, modify. cbn [fst snd config].
  split; [reflexivity | apply Object_assign_as_partial].
Qed.

Lemma loadConfig_run s :
  exists s', loadConfig host s = (inr tt, s')
    /\ (forall e, loadData_fails host (stored s) = Some e ->
          config s' = DEFAULT_WEB_CONFIG /\ stored s' = stored s)
    /\ (loadData_fails host (stored s) = None ->
          config s'
          = match stored s with
            | Some {| webConfig := Some w |} =>
                EnhancedDockerIntegration.Object_assign DEFAULT_WEB_CONFIG w
            | Some {| webConfig := None; exportOptions := Some legacy |} =>
                migrateFromLegacyConfig legacy
            | _ =>
                match vaultName host with
                | Some n => if JS.truthy n then set_name n DEFAULT_WEB_CONFIG
                            else DEFAULT_WEB_CONFIG
                | None => DEFAULT_WEB_CONFIG
                end
            end
          /\ (stored s' = stored s \/ stored s' = Some (data_of (config s')))).
Proof.
  unfold loadConfig, try_catch, bind, loadData.
  destruct (loadData_fails host (stored s)) as [e|] eqn:Hl.
  - eexists. split; [reflexivity|]. split; [|discriminate].
    intros e' _. split; reflexivity.
  - destruct (stored s) as [[[w|] [legacy|]]|] eqn:Hs.
    1, 2: eexists; split; [reflexivity|]; split; [discriminate|]; intros _;
          split; [reflexivity | left; cbn; congruence].
    + cbn [set_config modify].
      match goal with |- context [saveConfig host ?s1] =>
        destruct (saveConfig_run s1) as (evs & E & _); rewrite E end.
      eexists; split; [reflexivity|]. split; [discriminate|]. intros _.
      cbn [config stored]. split; [reflexivity|].
      destruct (saveData_fails host _); [left; congruence | right; reflexivity].
    + destruct (vaultName host) as [n|]; [destruct (JS.truthy n)|];
        eexists; (split; [reflexivity|]); (split; [discriminate|]); intros _;
        (split; [reflexivity | left; cbn; congruence]).
    + destruct (vaultName host) as [n|]; [destruct (JS.truthy n)|];
        eexists; (split; [reflexivity|]); (split; [discriminate|]); intros _;
        (split; [reflexivity | left; cbn; congruence]).
Qed.

(** X8.  [loadConfig] never throws: when reading the stored data fails the
    configuration is the defaults.  Loading is stable: whenever reading
    works, a tab opened after a load (which may have migrated legacy options
    and stored the result, or failed to store it) loads the same
    configuration again. *)
Theorem loadConfig_never_throws_and_is_stable (s : State) :
  (exists s', loadConfig host s = (inr tt, s')
     /\ (forall e, loadData_fails host (stored s) = Some e -> config s' = DEFAULT_WEB_CONFIG))
  /\ ((forall d, loadData_fails host d = None) ->
      config (snd (loadConfig host (reopened (snd (loadConfig host s)))))
      = config (snd (loadConfig host s))).
Proof.
  split.
  - destruct (loadConfig_run s) as (s' & E & Hfail & _). exists s'. split; [exact E|].
    intros e He. apply (Hfail e He).
  - intros Hload.
    destruct (loadConfig_run s) as (s1 & E1 & _ & H1). rewrite E1. cbn [snd].
    destruct (H1 (Hload _)) as [Hc1 Hs1].
    destruct (loadConfig_run (reopened s1)) as (s2 & E2 & _ & H2). rewrite E2. cbn [snd].
    destruct (H2 (Hload _)) as [Hc2 _]. cbn [reopened stored] in Hc2.
    rewrite Hc2. destruct Hs1 as [-> | ->]; [symmetry; exact Hc1|].
    cbn [data_of webConfig]. apply Object_assign_as_partial.
Qed.

End Tab.

(** The configuration with a blank site name is saved and loaded back. *)
Lemma saved_config_loads_back_witness :
  let s := Samples.tab_with_blank_name in
  config (snd (loadConfig Samples.tab_host (reopened (snd (saveConfig Samples.tab_host s)))))
  = Samples.config_blank_name
  /\ validateWebConfig Samples.URL_accepts_example Samples.config_blank_name
     = ["Site name is required"].
Proof.
  cbv zeta. split; [|reflexivity].
  apply (saved_config_loads_back Samples.tab_host
           Samples.tab_with_blank_name
           eq_refl eq_refl).
Defined.
End SettingsTabFacts.

(** ** DockerConfigLoader: the variables that are not booleans *)

Module LoaderVariables.
Import WebConfig DockerConfigLoader ConfigLoaderFacts TrimFacts WebConfigFacts StringFacts.

Lemma env_truthy_ext (env1 env2 : Env) x :
  env1 !! x = env2 !! x -> env_truthy env1 x = env_truthy env2 x.
Proof. intros H. unfold env_truthy. rewrite H. reflexivity. Qed.

Lemma parseBooleanEnv_ext (env1 env2 : Env) x d :
  env1 !! x = env2 !! x -> parseBooleanEnv env1 x d = parseBooleanEnv env2 x d.
Proof. intros H. unfold parseBooleanEnv. rewrite H. reflexivity. Qed.

Ltac is_supported :=
  unfold supported_names, getSupportedEnvironmentVariables; cbn [List.map fst In];
  repeat first [left; reflexivity | right].

Section WithJSON.

Variable JSON_parse : string -> JsonParse.

Section Frame.

Variables env1 env2 : Env.
Hypothesis Hagree : forall x, In x supported_names -> env1 !! x = env2 !! x.

Ltac same_truthy :=
  repeat match goal with
         | |- context [env_truthy env1 ?x] =>
             rewrite (env_truthy_ext env1 env2 x) by (apply Hagree; is_supported)
         end.

Ltac same_parses :=
  repeat match goal with
         | |- context [parseBooleanEnv env1 ?x ?d] =>
             rewrite (parseBooleanEnv_ext env1 env2 x d) by (apply Hagree; is_supported);
             let b := fresh "b" in let w := fresh "w" in
             destruct (parseBooleanEnv env2 x d) as [b w]
         end.

Lemma loadSiteInformation_ext c : loadSiteInformation env1 c = loadSiteInformation env2 c.
Proof using Hagree. unfold loadSiteInformation. same_truthy. reflexivity. Qed.

Lemma loadFeatures_ext c : loadFeatures env1 c = loadFeatures env2 c.
Proof using Hagree.
  rewrite !loadFeatures_spec. cbv zeta. same_parses. reflexivity.
Qed.

Lemma loadSeo_ext c : loadSeo JSON_parse env1 c = loadSeo JSON_parse env2 c.
Proof using Hagree.
  unfold loadSeo. same_truthy.
  destruct (env_truthy env2 "OBSIDIAN_GOOGLE_ANALYTICS_ID");
    unfold wbind; cbv zeta; same_parses; reflexivity.
Qed.

Lemma loadAdvanced_ext c : loadAdvanced env1 c = loadAdvanced env2 c.
Proof using Hagree.
  unfold loadAdvanced. same_truthy.
  destruct (env_truthy env2 "OBSIDIAN_CUSTOM_CSS"),
    (env_truthy env2 "OBSIDIAN_EXCLUDE_PATTERNS");
    unfold wbind; cbv zeta; same_parses; reflexivity.
Qed.

Lemma loadFromEnvironment_ext :
  loadFromEnvironment JSON_parse env1 = loadFromEnvironment JSON_parse env2.
Proof using Hagree.
  rewrite !loadFromEnvironment_unfold. cbv zeta.
  rewrite loadSiteInformation_ext, loadFeatures_ext, loadSeo_ext, loadAdvanced_ext.
  reflexivity.
Qed.

End Frame.

(** X9.  The loader reads the environment through the supported variables
    only: two environments that agree on the names listed by
    [getSupportedEnvironmentVariables] give the same configuration and the
    same warnings. *)
Theorem only_supported_variables_are_read (env1 env2 : Env) :
  Forall (fun x => env1 !! x = env2 !! x) supported_names ->
  loadFromEnvironment JSON_parse env1 = loadFromEnvironment JSON_parse env2.
Proof.
  intros H. apply loadFromEnvironment_ext. apply List.Forall_forall. exact H.
Qed.


Lemma loadSiteInformation_strings env c :
  let c1 := loadSiteInformation env c in
  version c1 = version c
  /\ name (site c1) = default (name (site c)) (env_truthy env "OBSIDIAN_SITE_NAME")
  /\ description (site c1)
     = default (description (site c)) (env_truthy env "OBSIDIAN_SITE_DESCRIPTION")
  /\ url (site c1) = default (url (site c)) (env_truthy env "OBSIDIAN_SITE_URL")
  /\ favicon (site c1)
     = match env_truthy env "OBSIDIAN_SITE_FAVICON" with
       | Some v => Some v
       | None => favicon (site c)
       end.
Proof.
  unfold loadSiteInformation.
  destruct (env_truthy env "OBSIDIAN_SITE_NAME"),
    (env_truthy env "OBSIDIAN_SITE_DESCRIPTION"),
    (env_truthy env "OBSIDIAN_SITE_URL"),
    (env_truthy env "OBSIDIAN_SITE_FAVICON"); repeat split.
Qed.

Lemma loadSeo_strings env c :
  let r := loadSeo JSON_parse env c in
  version (fst r) = version c
  /\ site (fst r) = site c
  /\ googleAnalyticsId (seo (fst r))
     = match env_truthy env "OBSIDIAN_GOOGLE_ANALYTICS_ID" with
       | Some v => Some v
       | None => googleAnalyticsId (seo c)
       end.
Proof.
  unfold loadSeo, wbind, wret, console_warn.
  destruct (env_truthy env "OBSIDIAN_GOOGLE_ANALYTICS_ID");
    cbn -[parseBooleanEnv env_truthy]; name_parses;
    (destruct (env_truthy env "OBSIDIAN_CUSTOM_META_TAGS") as [v|];
     [destruct (JSON_parse v)|]); cbn; repeat split.
Qed.

Lemma loadAdvanced_strings env c :
  let r := loadAdvanced env c in
  version (fst r) = version c
  /\ site (fst r) = site c
  /\ customCSS (advanced (fst r))
     = match env_truthy env "OBSIDIAN_CUSTOM_CSS" with
       | Some v => Some v
       | None => customCSS (advanced c)
       end
  /\ excludePatterns (advanced (fst r))
     = match env_truthy env "OBSIDIAN_EXCLUDE_PATTERNS" with
       | Some v =>
           List.filter (fun pattern => (0 <? String.length pattern)%nat)
             (List.map JS.trim (JS.split "," v))
       | None => excludePatterns (advanced c)
       end.
Proof.
  unfold loadAdvanced, wbind, wret.
  destruct (env_truthy env "OBSIDIAN_CUSTOM_CSS"),
    (env_truthy env "OBSIDIAN_EXCLUDE_PATTERNS");
    cbn -[parseBooleanEnv JS.split JS.trim List.filter]; name_parses; cbn -[JS.split JS.trim List.filter];
    repeat split.
Qed.

(** What the loaded configuration holds in its string fields. *)
Lemma loaded_strings env :
  let loaded := fst (loadFromEnvironment JSON_parse env) in
  version loaded = version DEFAULT_WEB_CONFIG
  /\ name (site loaded)
     = default (name (site DEFAULT_WEB_CONFIG)) (env_truthy env "OBSIDIAN_SITE_NAME")
  /\ description (site loaded)
     = default (description (site DEFAULT_WEB_CONFIG))
         (env_truthy env "OBSIDIAN_SITE_DESCRIPTION")
  /\ url (site loaded)
     = default (url (site DEFAULT_WEB_CONFIG)) (env_truthy env "OBSIDIAN_SITE_URL")
  /\ favicon (site loaded) = env_truthy env "OBSIDIAN_SITE_FAVICON"
  /\ googleAnalyticsId (seo loaded) = env_truthy env "OBSIDIAN_GOOGLE_ANALYTICS_ID"
  /\ customCSS (advanced loaded) = env_truthy env "OBSIDIAN_CUSTOM_CSS"
  /\ excludePatterns (advanced loaded)
     = match env_truthy env "OBSIDIAN_EXCLUDE_PATTERNS" with
       | Some v =>
           List.filter (fun pattern => (0 <? String.length pattern)%nat)
             (List.map JS.trim (JS.split "," v))
       | None => excludePatterns (advanced DEFAULT_WEB_CONFIG)
       end.
Proof.
  cbv zeta. rewrite loadFromEnvironment_unfold. cbv zeta. cbn [fst].
  destruct (loadSiteInformation_strings env DEFAULT_WEB_CONFIG) as (Hv1 & Hn & Hd & Hu & Hf).
  destruct (loadSiteInformation_frame env DEFAULT_WEB_CONFIG) as (_ & Hs1 & Ha1).
  set (c1 := loadSiteInformation env DEFAULT_WEB_CONFIG) in *.
  pose proof (loadFeatures_spec env c1) as H2. cbv zeta in H2.
  set (r2 := loadFeatures env c1) in *.
  assert (H2c : version (fst r2) = version c1 /\ site (fst r2) = site c1
                /\ seo (fst r2) = seo c1 /\ advanced (fst r2) = advanced c1)
    by (rewrite H2; repeat split).
  destruct H2c as (Hv2 & Hs2 & He2 & Ha2).
  destruct (loadSeo_strings env (fst r2)) as (Hv3 & Hs3 & Hg).
  destruct (loadSeo_spec JSON_parse env (fst r2)) as (_ & Ha3 & _).
  set (r3 := loadSeo JSON_parse env (fst r2)) in *.
  destruct (loadAdvanced_strings env (fst r3)) as (Hv4 & Hs4 & Hc & Hx).
  destruct (loadAdvanced_spec env (fst r3)) as (_ & He4 & _).
  set (r4 := loadAdvanced env (fst r3)) in *.
  rewrite Hv4, Hs4, He4, Hc, Hx, Hv3, Hs3, Hg, Ha3, Hv2, Hs2, He2, Ha2, Hs1, Ha1.
  rewrite Hv1, Hn, Hd, Hu, Hf.
  repeat split;
    match goal with |- context [env_truthy env ?x] => destruct (env_truthy env x) end;
    reflexivity.
Qed.

(** X10.  Each of the six string variables: when it is set to a non-empty
    text the field holds that text, unchanged; when it is unset or set to
    the empty string the field keeps its default. *)
Theorem string_variables_loaded (env : Env) :
  Forall (fun '(x, field) =>
            field (fst (loadFromEnvironment JSON_parse env))
            = match env !! x with
              | Some v => if JS.truthy v then Some v else field DEFAULT_WEB_CONFIG
              | None => field DEFAULT_WEB_CONFIG
              end)
    string_variables.
Proof.
  destruct (loaded_strings env) as (_ & Hn & Hd & Hu & Hf & Hg & Hc & _).
  unfold string_variables.
  repeat constructor; cbv beta;
    rewrite ?Hn, ?Hd, ?Hu, ?Hf, ?Hg, ?Hc; unfold env_truthy;
    match goal with |- context [env !! ?x] => destruct (env !! x) as [v|] end;
    try destruct (JS.truthy v); reflexivity.
Qed.

Lemma env_truthy_Some (env : Env) x v :
  env !! x = Some v -> v <> EmptyString -> env_truthy env x = Some v.
Proof.
  intros H Hv. unfold env_truthy. rewrite H. destruct v; [congruence | reflexivity].
Qed.

Lemma nonempty_length s : (0 <? String.length s)%nat = negb (JS.is_empty s).
Proof. destruct s; reflexivity. Qed.

Lemma space_no_comma w :
  JS.is_ws w = true -> JS.all_chars (fun c => negb (Ascii.eqb c ",")) w = true.
Proof. intros Hw. each_space Hw; reflexivity. Qed.

(** The pieces of a text of commas and white space hold white space
    only. *)
Lemma split_separators v :
  separators v -> Forall JS.blank (JS.split "," v).
Proof.
  intros (us & Hus & ->). induction us as [|u us IH].
  - repeat constructor. apply blank_empty.
  - apply List.Forall_cons_iff in Hus as [Hu Hus]. specialize (IH Hus).
    cbn [JS.of_units]. destruct Hu as [-> | Hu].
    + change (JS.encode_unit 44 +:+ JS.of_units us) with (String "," (JS.of_units us)).
      cbn [JS.split]. rewrite Ascii.eqb_refl. constructor; [apply blank_empty | exact IH].
    + assert (Hw : JS.is_ws (JS.encode_unit u) = true) by (apply is_ws_unit; eauto).
      rewrite split_app.
      * destruct (JS.split "," (JS.of_units us)) as [|h t]; [constructor|].
        apply List.Forall_cons_iff in IH as [Hh Ht]. constructor; [|exact Ht].
        apply blank_word; assumption.
      * apply space_no_comma. exact Hw.
Qed.

(** X11.  A non-empty [OBSIDIAN_EXCLUDE_PATTERNS] replaces the default
    patterns by the comma-separated pieces of its text, trimmed, the empty
    ones dropped: every pattern is non-empty, neither begins nor ends with
    a white-space code unit (a no-break space is one) and holds no comma.
    A text of commas and white space only leaves no pattern at all, so
    nothing is excluded any more. *)
Theorem exclude_patterns_are_trimmed_and_not_empty (env : Env) (v : string) :
  env !! "OBSIDIAN_EXCLUDE_PATTERNS" = Some v ->
  v <> EmptyString ->
  let patterns := excludePatterns (advanced (fst (loadFromEnvironment JSON_parse env))) in
  patterns
  = List.filter (fun pattern => negb (JS.is_empty pattern)) (List.map JS.trim (JS.split "," v))
  /\ Forall (fun pattern =>
               pattern <> EmptyString
               /\ ~ JS.starts_with_space pattern
               /\ ~ JS.ends_with_space pattern
               /\ JS.includes pattern "," = false) patterns
  /\ (separators v -> patterns = []).
Proof.
  intros Hv Hne. cbv zeta.
  destruct (loaded_strings env) as (_ & _ & _ & _ & _ & _ & _ & ->).
  rewrite (env_truthy_Some env _ v Hv Hne).
  rewrite (List.filter_ext _ _ nonempty_length).
  split; [reflexivity|]. split.
  - apply List.Forall_forall. intros pattern Hin.
    apply List.filter_In in Hin as [Hin Hlen].
    apply List.in_map_iff in Hin as (piece & <- & Hpiece).
    split; [|split; [|split]].
    + intros E. rewrite E in Hlen. discriminate.
    + apply trim_clean.
    + apply trim_clean.
    + apply includes_char, all_chars_trim.
      pose proof (split_pieces "," v) as Hall.
      rewrite List.Forall_forall in Hall. apply Hall. exact Hpiece.
  - intros Hsep. apply split_separators in Hsep.
    induction (JS.split "," v) as [|piece pieces IH]; [reflexivity|].
    apply List.Forall_cons_iff in Hsep as [Hpiece Hsep].
    cbn [List.map List.filter].
    apply is_empty_trim in Hpiece. rewrite Hpiece. cbn [negb]. apply IH. exact Hsep.
Qed.

(** X12.  [logEnvironmentConfig] masks the analytics id in the list of
    variables, and only there: the configuration it prints just before holds
    the id itself.  Every other supported variable that is set is listed
    with its value. *)
Theorem analytics_id_is_masked_in_the_variable_list_only
    (URL_parses : string -> bool) (env : Env) (id : string) :
  env !! "OBSIDIAN_GOOGLE_ANALYTICS_ID" = Some id ->
  id <> EmptyString ->
  let lines := logEnvironmentConfig JSON_parse URL_parses env in
  In (Printed "  OBSIDIAN_GOOGLE_ANALYTICS_ID=***") lines
  /\ (exists config,
        In (PrintedConfig config) lines /\ googleAnalyticsId (seo config) = Some id)
  /\ (forall x value,
        In x supported_names -> x <> "OBSIDIAN_GOOGLE_ANALYTICS_ID" ->
        env !! x = Some value ->
        In (Printed ("  " +:+ x +:+ "=" +:+ value)) lines).
Proof.
  intros Hid Hne. cbv zeta. unfold logEnvironmentConfig.
  destruct (loaded_strings env) as (_ & _ & _ & _ & _ & Hg & _).
  rewrite (env_truthy_Some env _ id Hid Hne) in Hg.
  destruct (loadFromEnvironment JSON_parse env) as [config warnings]. cbn [fst] in Hg.
  cbv zeta. fold supported_names.
  split; [|split].
  - rewrite !in_app_iff. right; right; left.
    apply in_flat_map. exists "OBSIDIAN_GOOGLE_ANALYTICS_ID".
    split; [is_supported|]. unfold variable_line. rewrite Hid. left. reflexivity.
  - exists config. split; [|exact Hg].
    rewrite !in_app_iff. right; left. cbn. auto.
  - intros x value Hx Hother Hvalue.
    rewrite !in_app_iff. right; right; left.
    apply in_flat_map. exists x. split; [exact Hx|].
    unfold variable_line. rewrite Hvalue. left.
    unfold supported_names, getSupportedEnvironmentVariables in Hx. cbn [List.map fst In] in Hx.
    repeat (destruct Hx as [<- | Hx]; [first [congruence | reflexivity]|]).
    destruct Hx.
Qed.

End WithJSON.

(** Patterns given with white space around them, an empty piece and a
    piece that is a no-break space. *)
Lemma exclude_patterns_are_trimmed_and_not_empty_witness :
  excludePatterns
    (advanced (fst (loadFromEnvironment Samples.json_rejects_all
                      {[ "OBSIDIAN_EXCLUDE_PATTERNS" := Samples.padded_patterns ]})))
  = ["Private/**"; "Drafts/**"].
Proof.
  assert (Hset : ({[ "OBSIDIAN_EXCLUDE_PATTERNS" := Samples.padded_patterns ]} : Env)
                 !! "OBSIDIAN_EXCLUDE_PATTERNS" = Some Samples.padded_patterns)
    by (vm_compute; reflexivity).
  destruct (exclude_patterns_are_trimmed_and_not_empty Samples.json_rejects_all _ _ Hset
              ltac:(discriminate)) as (H & _).
  rewrite H. vm_compute. reflexivity.
Defined.

(** An environment that sets the analytics id. *)
Lemma analytics_id_is_masked_in_the_variable_list_only_witness :
  let lines := logEnvironmentConfig Samples.json_rejects_all Samples.URL_accepts_example
                 {[ "OBSIDIAN_GOOGLE_ANALYTICS_ID" := "G-ABC123" ]} in
  In (Printed "  OBSIDIAN_GOOGLE_ANALYTICS_ID=***") lines
  /\ exists config,
       In (PrintedConfig config) lines /\ googleAnalyticsId (seo config) = Some "G-ABC123".
Proof.
  cbv zeta.
  assert (Hset : ({[ "OBSIDIAN_GOOGLE_ANALYTICS_ID" := "G-ABC123" ]} : Env)
                 !! "OBSIDIAN_GOOGLE_ANALYTICS_ID" = Some "G-ABC123")
    by (vm_compute; reflexivity).
  destruct (analytics_id_is_masked_in_the_variable_list_only Samples.json_rejects_all
              Samples.URL_accepts_example _ _ Hset ltac:(discriminate))
    as (H1 & H2 & _).
  split; assumption.
Defined.

(** A variable the loader does not know changes nothing. *)
Lemma only_supported_variables_are_read_witness :
  loadFromEnvironment Samples.json_rejects_all
    {[ "OBSIDIAN_SITE_NAME" := "Notes"; "HOME" := "/root" ]}
  = loadFromEnvironment Samples.json_rejects_all {[ "OBSIDIAN_SITE_NAME" := "Notes" ]}.
Proof.
  apply only_supported_variables_are_read.
  unfold supported_names, getSupportedEnvironmentVariables. cbn [List.map fst].
  repeat constructor.
Defined.
End LoaderVariables.

(** ** DockerLogger: what a call records and writes *)

Module LoggerInvariants.
Import Eff DockerLogger LoggerFacts.

Lemma draw_progress_run entry p :
  draw_progress entry p
  = match progress entry with
    | Some info =>
        match generateProgressBar (percentage info) with
        | inl e => (inl e, p)
        | inr _ => (inr tt, p)
        end
    | None => (inr tt, p)
    end.
Proof.
  unfold draw_progress. destruct (progress entry) as [info|]; [|reflexivity].
  destruct (generateProgressBar (percentage info)); reflexivity.
Qed.

(** An entry whose progress bar cannot be drawn: [outputLog] throws before
    it writes. *)
Lemma outputLog_throws entry info e p :
  progress entry = Some info ->
  generateProgressBar (percentage info) = inl e ->
  outputLog entry p = (inl e, p).
Proof.
  intros Hinfo Hbar. unfold outputLog, bind, this.
  rewrite draw_progress_run, Hinfo, Hbar. reflexivity.
Qed.

Lemma outputLog_run entry p :
  drawable (progress entry) = true ->
  outputLog entry p
  = (inr tt, {| logger := logger p;
                console := console p ++ console_output (logger p) entry;
                ticks := ticks p |}).
Proof.
  intros Hdraw.
  assert (Hbar : draw_progress entry p = (inr tt, p)).
  { rewrite draw_progress_run. unfold drawable in Hdraw.
    destruct (progress entry) as [info|]; [|reflexivity].
    destruct (generateProgressBar (percentage info)); [discriminate | reflexivity]. }
  unfold outputLog, console_output, bind, this. rewrite Hbar.
  unfold when, write, modify, ret.
  destruct (level entry);
    cbv [LogLevel.eqb LogLevel.leb LogLevel.value N.eqb N.leb N.compare Pos.eqb
         Pos.compare Pos.compare_cont];
    cbn [andb];
    rewrite ?andb_false_r, ?andb_true_r; cbn [stream_of];
    repeat match goal with
           | |- context [if ?b then _ else _] => destruct b; cbn [logger console ticks app]
           end;
    rewrite <- ?List.app_assoc; cbn [app]; rewrite ?app_nil_r; reflexivity.
Qed.

Section WithClock.
Variable Date_now : nat -> Z.

Lemma log_run level message context error progress duration p :
  LogLevel.ltb level (logLevel (logger p)) = false ->
  drawable progress = true ->
  let entry := {| timestamp := Date_now (ticks p); level := level; message := message;
                  context := context; error := error;
                  duration := duration; progress := progress |} in
  log Date_now level message context error progress duration p
  = (inr tt, {| logger := with_entry (logger p) entry;
                console := console p ++ console_output (logger p) entry;
                ticks := S (ticks p) |}).
Proof.
  intros H Hdraw. cbv zeta. unfold log, bind, this. rewrite H.
  unfold now, push_entry, modify. cbn [logger console ticks].
  rewrite outputLog_run by exact Hdraw. reflexivity.
Qed.

(** A call at or above the level with a progress bar that cannot be drawn:
    the entry is stored, nothing is written, and the error is thrown. *)
Lemma log_throws level message context error info duration e p :
  LogLevel.ltb level (logLevel (logger p)) = false ->
  generateProgressBar (percentage info) = inl e ->
  let entry := {| timestamp := Date_now (ticks p); level := level; message := message;
                  context := context; error := error;
                  duration := duration; progress := Some info |} in
  log Date_now level message context error (Some info) duration p
  = (inl e, {| logger := with_entry (logger p) entry;
               console := console p;
               ticks := S (ticks p) |}).
Proof.
  intros H Hbar. cbv zeta. unfold log, bind, this. rewrite H.
  unfold now, push_entry, modify. cbn [logger console ticks].
  rewrite (outputLog_throws _ info e) by (try reflexivity; exact Hbar). reflexivity.
Qed.

Lemma ERROR_is_never_below l : LogLevel.ltb LogLevel.ERROR l = false.
Proof. destruct l; reflexivity. Qed.

Lemma filter_snoc {A} (f : A -> bool) l x :
  List.filter f (l ++ [x]) = List.filter f l ++ (if f x then [x] else []).
Proof. rewrite List.filter_app. simpl. destruct (f x); reflexivity. Qed.

(** X13.  A call of [error] is never filtered, whatever the level of the
    logger: it stores one entry of level ERROR, writes its line to
    [console.error] (and, in CI, the annotation), reads the clock once, and
    from then on the summary counts one error more and says FAILED. *)
Theorem errors_are_always_recorded (message : string) (error : option Error.t)
    (context : option Context) (p : Process) :
  let entry := {| timestamp := Date_now (ticks p); level := LogLevel.ERROR;
                  message := message; context := context; error := error;
                  duration := None; progress := None |} in
  exists rest,
    error_ Date_now message error context p
    = (inr tt, {| logger := with_entry (logger p) entry;
                  console := console p ++ Line console_error entry :: rest;
                  ticks := S (ticks p) |})
    /\ (isCI (logger p) = true -> In (CIAnnotation entry) rest)
    /\ forall t1,
         errorCount (summary_of (with_entry (logger p) entry) t1)
         = S (errorCount (summary_of (logger p) t1))
         /\ status (summary_of (with_entry (logger p) entry) t1) = false.
Proof.
  cbv zeta. unfold error_.
  rewrite log_run by (try apply ERROR_is_never_below; reflexivity).
  eexists. split; [reflexivity|]. split.
  - intros Hci. rewrite Hci. cbn. rewrite !in_app_iff. cbn. auto.
  - intros t1. unfold status, errorCount, summary_of, with_entry.
    cbn [errorEntries logEntries]. rewrite filter_snoc. cbn [has_level level].
    change (LogLevel.eqb LogLevel.ERROR LogLevel.ERROR) with true.
    rewrite length_app. cbn [length]. rewrite Nat.add_1_r. split; reflexivity.
Qed.

(** X14.  Logging only appends.  A call of [log] leaves level, CI flag and
    start time alone; it adds at most one entry, of the level it was called
    with, which is not below the logger's level; so when every stored entry
    was at or above the level before, this is so after, and a summary that
    said FAILED before says FAILED after.  The call returns normally
    exactly when it is below the level or the progress bar of the entry can
    be drawn, and then the lines it writes are those of the entries it
    adds; otherwise it throws what [generateProgressBar] throws, with the
    entry stored and nothing written. *)
Theorem logging_only_appends (level : LogLevel.t) (message : string)
    (context : option Context) (error : option Error.t)
    (progress : option ProgressInfo) (duration : option Z) (p : Process) :
  let run := log Date_now level message context error progress duration p in
  let after := snd run in
  (fst run = inr tt
   <-> LogLevel.ltb level (logLevel (logger p)) = true \/ drawable progress = true)
  /\ logLevel (logger after) = logLevel (logger p)
  /\ isCI (logger after) = isCI (logger p)
  /\ startTime (logger after) = startTime (logger p)
  /\ (exists new lines,
        logEntries (logger after) = logEntries (logger p) ++ new
        /\ console after = console p ++ lines
        /\ (length new <= 1)%nat
        /\ (fst run = inr tt -> omap line_entry lines = new)
        /\ (forall e, fst run = inl e ->
                      lines = [] /\ length new = 1%nat
                      /\ exists info, progress = Some info
                                      /\ generateProgressBar (percentage info) = inl e)
        /\ Forall (fun e => DockerLogger.level e = level
                            /\ LogLevel.leb (logLevel (logger p)) level = true) new)
  /\ (Forall (fun e => LogLevel.leb (logLevel (logger p)) (DockerLogger.level e) = true)
        (logEntries (logger p)) ->
      Forall (fun e => LogLevel.leb (logLevel (logger after)) (DockerLogger.level e) = true)
        (logEntries (logger after)))
  /\ (forall t0 t1,
        status (summary_of (logger p) t0) = false ->
        status (summary_of (logger after) t1) = false).
Proof.
  cbv zeta.
  destruct (LogLevel.ltb level (logLevel (logger p))) eqn:Hlow.
  - rewrite (log_below Date_now p level message context error progress duration Hlow).
    cbn [fst snd].
    split; [split; auto|]. split; [reflexivity|]. split; [reflexivity|]. split; [reflexivity|].
    split; [|split; [auto | intros t0 t1 H; exact H]].
    exists [], []. rewrite !app_nil_r.
    split; [reflexivity|]. split; [reflexivity|]. split; [simpl; lia|].
    split; [reflexivity|]. split; [discriminate | constructor].
  - assert (Hleb : LogLevel.leb (logLevel (logger p)) level = true).
    { unfold LogLevel.ltb, LogLevel.leb in *. apply N.leb_le. apply N.ltb_ge in Hlow. exact Hlow. }
    assert (Hfailed : forall entry t0 t1,
              status (summary_of (logger p) t0) = false ->
              status (summary_of (with_entry (logger p) entry) t1) = false).
    { intros entry t0 t1. unfold status, errorCount, summary_of, with_entry.
      cbn [errorEntries logEntries]. rewrite List.filter_app, length_app.
      destruct (length (List.filter (has_level LogLevel.ERROR) (logEntries (logger p))));
        [discriminate | reflexivity]. }
    destruct (drawable progress) eqn:Hdraw.
    + rewrite log_run by assumption.
      cbn [fst snd logger console with_entry logLevel isCI startTime logEntries].
      split; [split; auto|].
      split; [reflexivity|]. split; [reflexivity|]. split; [reflexivity|].
      split; [|split].
      * eexists [_], _. split; [reflexivity|]. split; [reflexivity|]. split; [simpl; lia|].
        split; [|split; [discriminate | repeat constructor; exact Hleb]].
        intros _. unfold console_output. cbn [app omap line_entry].
        repeat match goal with |- context [if ?b then _ else _] => destruct b end; reflexivity.
      * intros Hall. apply Forall_app. split; [exact Hall|]. repeat constructor. exact Hleb.
      * apply Hfailed.
    + unfold drawable in Hdraw. destruct progress as [info|]; [|discriminate].
      destruct (generateProgressBar (percentage info)) as [e|bar] eqn:Hbar; [|discriminate].
      rewrite (log_throws level message context error info duration e p Hlow Hbar).
      cbn [fst snd logger console with_entry logLevel isCI startTime logEntries].
      split; [split; [discriminate | intros [H|H]; discriminate]|].
      split; [reflexivity|]. split; [reflexivity|]. split; [reflexivity|].
      split; [|split].
      * eexists [_], []. split; [reflexivity|]. split; [rewrite app_nil_r; reflexivity|].
        split; [simpl; lia|]. split; [discriminate|].
        split; [|repeat constructor; exact Hleb].
        intros e' [= <-]. split; [reflexivity|]. split; [reflexivity|]. eauto.
      * intros Hall. apply Forall_app. split; [exact Hall|]. repeat constructor. exact Hleb.
      * apply Hfailed.
Qed.

End WithClock.

Lemma upper_of_lower c : JS.upper_char (JS.lower_char c) = JS.upper_char c.
Proof. destruct c as [[] [] [] [] [] [] [] []]; reflexivity. Qed.

Lemma upper_of_upper c : JS.upper_char (JS.upper_char c) = JS.upper_char c.
Proof. destruct c as [[] [] [] [] [] [] [] []]; reflexivity. Qed.

Lemma toUpperCase_toLowerCase s : JS.toUpperCase (JS.toLowerCase s) = JS.toUpperCase s.
Proof. induction s as [|c s IH]; simpl; [reflexivity|]. rewrite upper_of_lower, IH. reflexivity. Qed.

Lemma toUpperCase_idempotent s : JS.toUpperCase (JS.toUpperCase s) = JS.toUpperCase s.
Proof. induction s as [|c s IH]; simpl; [reflexivity|]. rewrite upper_of_upper, IH. reflexivity. Qed.

(** X15.  [parseLogLevel] ignores case and nothing else: the result is the
    level whose name the text is when put in upper case, and INFO for every
    other text. *)
Theorem parseLogLevel_ignores_case (s : string) :
  parseLogLevel (JS.toLowerCase s) = parseLogLevel s
  /\ parseLogLevel (JS.toUpperCase s) = parseLogLevel s
  /\ (forall l, JS.toUpperCase s = level_name l -> parseLogLevel s = l)
  /\ (forall l, parseLogLevel s = l -> l <> LogLevel.INFO -> JS.toUpperCase s = level_name l).
Proof.
  unfold parseLogLevel. rewrite toUpperCase_toLowerCase, toUpperCase_idempotent.
  split; [reflexivity|]. split; [reflexivity|]. split.
  - intros l ->. destruct l; reflexivity.
  - intros l Hl Hinfo.
    destruct (String.eqb_spec (JS.toUpperCase s) "DEBUG") as [->|_]; [subst l; reflexivity|].
    destruct (String.eqb_spec (JS.toUpperCase s) "INFO") as [->|_]; [congruence|].
    destruct (String.eqb_spec (JS.toUpperCase s) "WARN") as [->|_]; [subst l; reflexivity|].
    destruct (String.eqb_spec (JS.toUpperCase s) "ERROR") as [->|_]; [subst l; reflexivity|].
    congruence.
Qed.

(** A bar past the longest string is refused by the first [repeat]; a
    percentage just above 102 leaves a negative count of spaces. *)
Example generateProgressBar_too_long :
  generateProgressBar (Integer 10000000000) = inl InvalidStringLength
  /\ generateProgressBar (Integer 103) = inl (RangeError "-1").
Proof. split; vm_compute; reflexivity. Qed.

(** X16.  The progress bar.  For a percentage from -2 to 102 the bar has
    twenty cells, of which the filled ones are the percentage divided by
    five and rounded, followed by the percentage itself; for any other
    integer percentage one of the two [repeat] calls is given a negative
    count, or a count past the longest string, and the function throws a
    RangeError, as it does for an infinite percentage (what [progress]
    computes for a total of 0).  [outputLog]
    draws the bar of every entry with progress information before it writes,
    so it throws that error, having written nothing. *)
Theorem generateProgressBar_range (percentage : Z) :
  ((-2 <= percentage <= 102)%Z ->
   exists filled : nat,
     (filled <= 20)%nat
     /\ (-2 <= 5 * Z.of_nat filled - percentage <= 2)%Z
     /\ generateProgressBar (Integer percentage)
        = inr ("[" +:+ copies filled "█" +:+ copies (20 - filled) " " +:+ "] "
               +:+ JS.show_Z percentage +:+ "%"))
  /\ ((percentage < -2 \/ 102 < percentage)%Z ->
      exists e, generateProgressBar (Integer percentage) = inl e
                /\ Error.name e = "RangeError")
  /\ (exists e, generateProgressBar Infinity = inl e /\ Error.name e = "RangeError")
  /\ (exists e, generateProgressBar NegInfinity = inl e /\ Error.name e = "RangeError")
  /\ (forall entry info p,
        progress entry = Some info ->
        match generateProgressBar (DockerLogger.percentage info) with
        | inl e => outputLog entry p = (inl e, p)
        | inr _ =>
            outputLog entry p
            = (inr tt, {| logger := logger p;
                          console := console p ++ console_output (logger p) entry;
                          ticks := ticks p |})
        end).
Proof.
  split; [|split; [|split; [|split; [|]]]];
    try (eexists; split; reflexivity).
  - unfold generateProgressBar, repeat_string, filled_cells. cbv zeta.
    assert (Hdiv : (10 * ((2 * percentage + 5) / 10) <= 2 * percentage + 5
                    < 10 * ((2 * percentage + 5) / 10) + 10)%Z)
      by (Z.div_mod_to_equations; lia).
    set (filled := ((2 * percentage + 5) / 10)%Z) in *.
    intros Hrange. exists (Z.to_nat filled).
    split; [lia|]. split; [lia|].
    change (JS.code_unit_length "█") with 1%nat.
    change (JS.code_unit_length " ") with 1%nat.
    change (Z.of_nat 1) with 1%Z. rewrite !Z.mul_1_r. unfold MAX_STRING_LENGTH.
    destruct (filled <? 0)%Z eqn:E1; [lia|].
    destruct (536870888 <? filled)%Z eqn:L1; [lia|].
    destruct (20 - filled <? 0)%Z eqn:E2; [lia|].
    destruct (536870888 <? 20 - filled)%Z eqn:L2; [lia|].
    replace (Z.to_nat (20 - filled)) with (20 - Z.to_nat filled)%nat by lia.
    reflexivity.
  - unfold generateProgressBar, repeat_string, filled_cells. cbv zeta.
    assert (Hdiv : (10 * ((2 * percentage + 5) / 10) <= 2 * percentage + 5
                    < 10 * ((2 * percentage + 5) / 10) + 10)%Z)
      by (Z.div_mod_to_equations; lia).
    set (filled := ((2 * percentage + 5) / 10)%Z) in *.
    intros Hout.
    destruct (filled <? 0)%Z eqn:E1; [eexists; split; reflexivity|].
    destruct (MAX_STRING_LENGTH <? filled * Z.of_nat (JS.code_unit_length "█"))%Z;
      [eexists; split; reflexivity|].
    destruct (20 - filled <? 0)%Z eqn:E2; [eexists; split; reflexivity|].
    lia.
  - intros entry info p Hinfo.
    destruct (generateProgressBar (DockerLogger.percentage info)) as [e|bar] eqn:Hbar.
    + apply (outputLog_throws entry info e p Hinfo Hbar).
    + apply outputLog_run. rewrite Hinfo. unfold drawable. rewrite Hbar. reflexivity.
Qed.

End LoggerInvariants.

(** ** EnhancedDockerIntegration: what a run reports *)

Module IntegrationOutcomes.
Import Eff DockerLogger EnhancedDockerIntegration LoggerFacts IntegrationFacts.

Section Run.
Variable h : Host.

Hypothesis rounds : rounds_exactly h.

(** The six progress bars of [performExport] can be drawn. *)
Lemma total_reported_progress stage c :
  In c [0; 20; 40; 60; 80; 100]%Z ->
  Eff.total (progress_ (Date_now h) (round_percentage h) stage c 100%Z None).
Proof using rounds.
  intros Hc. apply total_progress. unfold drawable. cbn [percentage].
  rewrite (rounds c Hc). cbv [In] in Hc.
  repeat (destruct Hc as [<-|Hc]; [reflexivity|]). destruct Hc.
Qed.

(** The result of the class's own [performExport]. *)
Lemma performExport_result vaultPath outputPath config :
  yields (performExport h vaultPath outputPath config)
    (fun result =>
       result = {| DockerExportResult.success := true;
                   DockerExportResult.outputPath := outputPath;
                   DockerExportResult.duration := 0%Z;
                   DockerExportResult.filesGenerated := 150%Z;
                   DockerExportResult.warnings := [];
                   DockerExportResult.errors := [];
                   DockerExportResult.validationResult := None |}).
Proof using rounds.
  unfold performExport, delay. cbv zeta. apply EffFacts.yields_try_catch_body.
  repeat (apply EffFacts.yields_seq;
          [first [ apply total_reported_progress; cbn [In]; tauto
                 | apply (EffFacts.yields_ret _ (fun _ => True) I) ]|];
          intros _).
  apply EffFacts.yields_ret. reflexivity.
Qed.

Lemma exportForDocker_try_outcome options startTime operationId :
  yields (exportForDocker_try h (own_steps h) options startTime operationId) (outcome h options).
Proof using rounds.
  unfold exportForDocker_try, outcome. cbv zeta.
  set (V := VaultValidator.validateVault _ _).
  apply EffFacts.yields_seq; [prove_total|]. intros _.
  apply EffFacts.yields_seq; [apply total_loadConfiguration|]. intros config.
  destruct (bool_decide (DockerExportOptions.validateVault options = Some false)) eqn:Hskip;
    cbn [negb].
  - apply (EffFacts.yields_bind _ _ (fun validated => validated = inr None));
      [apply EffFacts.yields_ret; reflexivity|].
    intros validated ->.
    apply EffFacts.yields_seq; [prove_total|]. intros _.
    eapply EffFacts.yields_bind; [apply performExport_result|].
    intros exportResult ->.
    apply EffFacts.yields_seq; [prove_total|]. intros t1. cbv zeta.
    apply EffFacts.yields_seq; [prove_total|]. intros _.
    apply EffFacts.yields_seq; [prove_total|]. intros _.
    apply EffFacts.yields_seq; [prove_total|]. intros report.
    apply EffFacts.yields_seq; [prove_total|]. intros _.
    apply EffFacts.yields_ret. repeat split.
  - apply (EffFacts.yields_bind _ _
             (fun validated =>
                match validated with
                | inl result =>
                    ValidationResult.isValid V = false
                    /\ DockerExportResult.outputPath result = DockerExportOptions.outputPath options
                    /\ DockerExportResult.success result = false
                    /\ DockerExportResult.filesGenerated result = 0%Z
                    /\ DockerExportResult.errors result
                       = List.map ValidationError.message (ValidationResult.errors V)
                    /\ DockerExportResult.warnings result
                       = List.map ValidationWarning.message (ValidationResult.warnings V)
                    /\ DockerExportResult.validationResult result = Some V
                | inr validationResult =>
                    ValidationResult.isValid V = true /\ validationResult = Some V
                end)).
    + apply EffFacts.yields_seq; [prove_total|]. intros _.
      apply (EffFacts.yields_bind _ _ (fun result => result = V));
        [apply validateVault_yields|].
      intros result ->.
      destruct (ValidationResult.isValid V) eqn:EV; cbn [negb].
      * apply EffFacts.yields_seq; [prove_total|]. intros _.
        apply EffFacts.yields_ret. split; reflexivity.
      * cbv zeta.
        apply EffFacts.yields_seq; [prove_total|]. intros _.
        apply EffFacts.yields_seq; [prove_total|]. intros t1.
        apply EffFacts.yields_ret. repeat split.
    + intros [result | validationResult].
      * intros (HV & Hresult). apply EffFacts.yields_ret. cbv beta.
        change (VaultValidator.validateVault (JSON_parse_error h)
                  (new_VaultValidator h (DockerExportOptions.vaultPath options))) with V.
        rewrite HV. tauto.
      * intros [HV ->].
        apply EffFacts.yields_seq; [prove_total|]. intros _.
        eapply EffFacts.yields_bind; [apply performExport_result|].
        intros exportResult ->.
        apply EffFacts.yields_seq; [prove_total|]. intros t1. cbv zeta.
        apply EffFacts.yields_seq; [prove_total|]. intros _.
        apply EffFacts.yields_seq; [prove_total|]. intros _.
        apply EffFacts.yields_seq; [prove_total|]. intros report.
        apply EffFacts.yields_seq; [prove_total|]. intros _.
        apply EffFacts.yields_ret. cbv beta.
        change (VaultValidator.validateVault (JSON_parse_error h)
                  (new_VaultValidator h (DockerExportOptions.vaultPath options))) with V.
        rewrite HV. repeat split.
Qed.

(** X17.  What a run with the class's own methods and without
    configuration overrides reports, given that the six percentages of the
    simulated export are computed exactly.  It always returns.  With
    validation switched off, or with a valid vault, it reports success, 150
    generated files (the export is simulated) and no errors or warnings,
    the warnings of the validation included; with an invalid vault it
    reports failure, no files, and the messages of the validation's errors
    and warnings.  The validation result is attached whenever validation
    ran. *)
Theorem exportForDocker_outcome (options : DockerExportOptions.t) :
  DockerExportOptions.configOverrides options = None ->
  yields (exportForDocker h options) (outcome h options).
Proof using rounds.
  intros _. unfold exportForDocker, exportForDocker_with.
  apply EffFacts.yields_seq; [apply total_exportForDocker_start|].
  intros [startTime operationId].
  apply EffFacts.yields_try_catch_body. apply exportForDocker_try_outcome.
Qed.

End Run.

(** A vault with its configuration directory, exported from the command
    line: success and 150 files. *)
Lemma exportForDocker_outcome_witness :
  let h := Samples.host_with_vault Samples.vault_with_config in
  exists result p',
    exportForDocker h (cli_options h) (Samples.process_started h) = (inr result, p')
    /\ DockerExportResult.success result = true
    /\ DockerExportResult.filesGenerated result = 150%Z.
Proof.
  cbv zeta.
  assert (Hrounds : rounds_exactly (Samples.host_with_vault Samples.vault_with_config)).
  { intros c Hc. cbv [In] in Hc.
    repeat (destruct Hc as [<-|Hc]; [reflexivity|]). destruct Hc. }
  destruct (exportForDocker_outcome (Samples.host_with_vault Samples.vault_with_config)
              Hrounds
              (cli_options (Samples.host_with_vault Samples.vault_with_config))
              eq_refl
              (Samples.process_started (Samples.host_with_vault Samples.vault_with_config)))
    as (result & p' & E & Houtcome).
  exists result, p'. split; [exact E|].
  destruct Houtcome as (_ & Houtcome). revert Houtcome.
  change (bool_decide (DockerExportOptions.validateVault
            (cli_options (Samples.host_with_vault Samples.vault_with_config)) = Some false))
    with false.
  replace (ValidationResult.isValid _) with true by (vm_compute; reflexivity).
  intros (Hs & Hf & _). split; assumption.
Defined.

End IntegrationOutcomes.

Module CatchFacts.
Import Eff DockerLogger EnhancedDockerIntegration LoggerFacts LoggerInvariants IntegrationFacts.

Section Run.
Variable h : Host.

Lemma extends_refl p : extends p p.
Proof. repeat split; exists []; symmetry; apply app_nil_r. Qed.

Lemma extends_trans p q r : extends p q -> extends q r -> extends p r.
Proof.
  intros (H1 & H2 & H3 & (n1 & H4) & (l1 & H5)) (G1 & G2 & G3 & (n2 & G4) & (l2 & G5)).
  repeat split; try congruence.
  - exists (n1 ++ n2). rewrite G4, H4, List.app_assoc. reflexivity.
  - exists (l1 ++ l2). rewrite G5, H5, List.app_assoc. reflexivity.
Qed.

Lemma log_extends level message context error progress duration p :
  drawable progress = true ->
  exists p', log (Date_now h) level message context error progress duration p = (inr tt, p')
             /\ extends p p'.
Proof.
  intros Hdraw. destruct (LogLevel.ltb level (logLevel (logger p))) eqn:Hlow.
  - rewrite (log_below (Date_now h) p level message context error progress duration Hlow).
    eexists. split; [reflexivity | apply extends_refl].
  - rewrite log_run by assumption. eexists. split; [reflexivity|].
    repeat split; cbn; eauto.
Qed.

Lemma endOperation_extends operation operationId context p :
  exists p', endOperation (Date_now h) operation operationId context p = (inr tt, p')
             /\ extends p p'.
Proof.
  unfold endOperation, bind, now. cbv zeta.
  match goal with |- context [log ?d ?l ?m ?c ?e ?pr ?du ?q] =>
    destruct (log_extends l m c e pr du q eq_refl) as (p' & E & Hext) end.
  exists p'. split; [exact E|].
  eapply extends_trans; [|exact Hext]. repeat split; cbn; exists []; symmetry; apply app_nil_r.
Qed.

(** The error entry and the events the [catch] block adds after
    [endOperation]. *)
Lemma report_error_run (message : string) (e : Error.t) (p : Process) :
  let report_error :=
    if bool_decide (Error.code e = Some "ENOENT") then
      errorWithTroubleshooting (Date_now h) message DockerTroubleshooting.VAULT_NOT_FOUND (Some e)
    else if bool_decide (Error.code e = Some "EACCES") then
      errorWithTroubleshooting (Date_now h) message DockerTroubleshooting.PERMISSION_DENIED (Some e)
    else if JS.includes (Error.message e) "out of memory" then
      errorWithTroubleshooting (Date_now h) message DockerTroubleshooting.OUT_OF_MEMORY (Some e)
    else error_ (Date_now h) message (Some e) None in
  exists entry p' lines,
    report_error p = (inr tt, p')
    /\ In entry (logEntries (logger p'))
    /\ level entry = LogLevel.ERROR
    /\ DockerLogger.message entry = message
    /\ error entry = Some e
    /\ console p' = console p ++ lines
    /\ In (Line console_error entry) lines.
Proof.
  cbv zeta.
  assert (Herr : forall context,
            exists entry p' lines,
              error_ (Date_now h) message (Some e) context p = (inr tt, p')
              /\ In entry (logEntries (logger p'))
              /\ level entry = LogLevel.ERROR
              /\ DockerLogger.message entry = message
              /\ error entry = Some e
              /\ console p' = console p ++ lines
              /\ In (Line console_error entry) lines).
  { intros context. unfold error_.
    rewrite log_run by (try apply ERROR_is_never_below; reflexivity).
    eexists _, _, _. split; [reflexivity|].
    cbn [logger console with_entry logEntries].
    split; [apply in_app_iff; right; left; reflexivity|].
    split; [reflexivity|]. split; [reflexivity|]. split; [reflexivity|].
    split; [reflexivity|]. left. reflexivity. }
  assert (Htrouble : forall info,
            exists entry p' lines,
              errorWithTroubleshooting (Date_now h) message info (Some e) p = (inr tt, p')
              /\ In entry (logEntries (logger p'))
              /\ level entry = LogLevel.ERROR
              /\ DockerLogger.message entry = message
              /\ error entry = Some e
              /\ console p' = console p ++ lines
              /\ In (Line console_error entry) lines).
  { intros info. unfold errorWithTroubleshooting.
    destruct (Herr (Some [("troubleshooting", VTroubleshooting info)]))
      as (entry & p1 & lines & E & Hin & Hl & Hm & He & Hc & Hline).
    unfold bind. rewrite E. unfold this, when, write, modify, ret.
    destruct (isCI (logger p1)).
    - exists entry, {| logger := logger p1;
                       console := console p1 ++ [TroubleshootingBlock info];
                       ticks := ticks p1 |}, (lines ++ [TroubleshootingBlock info]).
      split; [reflexivity|]. cbn [logger console].
      rewrite Hc, <- List.app_assoc, in_app_iff.
      split; [exact Hin|]. split; [exact Hl|]. split; [exact Hm|]. split; [exact He|].
      split; [reflexivity | left; exact Hline].
    - exists entry, p1, lines.
      split; [reflexivity|]. split; [exact Hin|]. split; [exact Hl|]. split; [exact Hm|].
      split; [exact He|]. split; [exact Hc | exact Hline]. }
  destruct (bool_decide (Error.code e = Some "ENOENT")); [apply Htrouble|].
  destruct (bool_decide (Error.code e = Some "EACCES")); [apply Htrouble|].
  destruct (JS.includes (Error.message e) "out of memory"); [apply Htrouble|].
  apply Herr.
Qed.

Lemma exportForDocker_catch_run options startTime operationId e p :
  exists result p' written report entry,
    exportForDocker_catch h options startTime operationId e p = (inr result, p')
    /\ DockerExportResult.success result = false
    /\ DockerExportResult.filesGenerated result = 0%Z
    /\ console p' = console p ++ written ++ [SummaryPrinted report]
    /\ status report = false
    /\ In entry (errorEntries report)
    /\ DockerLogger.message entry = "Docker export failed: " +:+ Error.message e
    /\ error entry = Some e
    /\ In (Line console_error entry) written.
Proof.
  unfold exportForDocker_catch. cbv zeta.
  destruct (endOperation_extends "Docker Export" operationId (Some [("success", VBoolean false)]) p)
    as (p1 & E1 & Hext1).
  unfold bind at 1. rewrite E1.
  destruct (report_error_run ("Docker export failed: " +:+ Error.message e) e p1)
    as (entry & p2 & l2 & E2 & Hin & Hl & Hm & He & Hc2 & Hline).
  cbv zeta in E2. unfold bind at 1. rewrite E2.
  unfold generateSummaryReport, bind, now, this, write, modify, ret. cbn [logger console ticks].
  assert (Hfilter : In entry (List.filter (has_level LogLevel.ERROR) (logEntries (logger p2)))).
  { apply List.filter_In. split; [exact Hin|]. unfold has_level. rewrite Hl. reflexivity. }
  destruct Hext1 as (_ & _ & _ & _ & (l1 & Hc1)).
  eexists _, _, (l1 ++ l2), _, entry. split; [reflexivity|].
  split; [reflexivity|]. split; [reflexivity|].
  cbn [console]. split; [rewrite Hc2, Hc1, <- !List.app_assoc; reflexivity|].
  split.
  { unfold status, errorCount, summary_of. cbn [errorEntries].
    destruct (List.filter _ _); [destruct Hfilter | reflexivity]. }
  split; [exact Hfilter|]. split; [exact Hm|]. split; [exact He|].
  apply in_app_iff. right. exact Hline.
Qed.

(** X18.  Whatever is thrown inside the [try] block of [exportForDocker] is
    reported: the result is a failure with no files, an ERROR entry with the
    thrown error and the text "Docker export failed: ..." is logged and
    written to [console.error], and the last thing written is a summary that
    lists this entry and says FAILED. *)
Theorem thrown_errors_are_reported (steps : Steps) (options : DockerExportOptions.t)
    (p : Process) (startTime operationId : Z) (p1 : Process) (e : Error.t) (p2 : Process) :
  exportForDocker_start h options p = (inr (startTime, operationId), p1) ->
  exportForDocker_try h steps options startTime operationId p1 = (inl e, p2) ->
  exists result p' written report entry,
    exportForDocker_with h steps options p = (inr result, p')
    /\ DockerExportResult.success result = false
    /\ DockerExportResult.filesGenerated result = 0%Z
    /\ console p' = console p2 ++ written ++ [SummaryPrinted report]
    /\ status report = false
    /\ In entry (errorEntries report)
    /\ DockerLogger.message entry = "Docker export failed: " +:+ Error.message e
    /\ error entry = Some e
    /\ In (Line console_error entry) written.
Proof.
  intros Hstart Htry.
  destruct (exportForDocker_catch_run options startTime operationId e p2)
    as (result & p' & written & report & entry & E & Hrest).
  exists result, p', written, report, entry.
  split; [unfold exportForDocker_with, bind, try_catch; rewrite Hstart, Htry; exact E|].
  exact Hrest.
Qed.

End Run.

(** A validation that throws: the run ends with a FAILED summary. *)
Lemma thrown_errors_are_reported_witness :
  let h := Samples.host_with_vault Samples.vault_three_notes in
  exists result p' report,
    exportForDocker_with h (Samples.steps_validation_throws h) (cli_options h)
      (Samples.process_started h) = (inr result, p')
    /\ DockerExportResult.success result = false
    /\ List.last (console p') (WarnText EmptyString) = SummaryPrinted report
    /\ status report = false.
Proof.
  cbv zeta.
  edestruct (thrown_errors_are_reported (Samples.host_with_vault Samples.vault_three_notes)
               (Samples.steps_validation_throws
                  (Samples.host_with_vault Samples.vault_three_notes))
               (cli_options (Samples.host_with_vault Samples.vault_three_notes))
               (Samples.process_started (Samples.host_with_vault Samples.vault_three_notes)))
    as (result & p' & written & report & entry & E & Hs & _ & Hc & Hst & _).
  - vm_compute. reflexivity.
  - vm_compute. reflexivity.
  - exists result, p', report. split; [exact E|]. split; [exact Hs|]. split; [|exact Hst].
    rewrite Hc, List.app_assoc. apply List.last_last.
Defined.
End CatchFacts.

(** ** WebExportManager: inputs, flags and failures *)

Module ManagerTraces.
Import Eff WebExportManager ExportFacts.

Section Manager.
Variable host : Host.

(** X19.  The inputs of an export are valid exactly when there is a file
    to export, the destination is absolute and a directory path, it exists
    or can be created, and [.obsidian] exists.  The directory is created
    only when the first three hold and it does not exist yet; a result that
    is not valid carries a reason. *)
Theorem validateExportInputs_valid_iff (files : list TFile) (destination : Path)
    (tr : list Event) :
  exists v created warned,
    validateExportInputs host files destination tr = (inr v, tr ++ created ++ warned)
    /\ isValid v
       = negb (length files =? 0)%nat && isAbsolute destination && isDirectory destination
         && (exists_ destination
             || bool_decide (createDirectory host tr destination = None))
         && exists_ (new_Path host ".obsidian")
    /\ (isValid v = false -> is_Some (error v) /\ warned = [])
    /\ created
       = (if negb (length files =? 0)%nat && isAbsolute destination && isDirectory destination
             && negb (exists_ destination)
          then [CreateDirectory destination] else [])
    /\ (warned = [] \/ warned = [Log "Warning: app.json not found in .obsidian directory. Some features may not work correctly."]).
Proof.
  unfold validateExportInputs, validateVaultStructure.
  destruct (length files =? 0)%nat; cbn [negb andb].
  { exists (invalid "No files selected for export"), [], []. rewrite !app_nil_r.
    repeat split; eauto. }
  destruct (isAbsolute destination); cbn [negb andb].
  2: { exists (invalid "Export path must be absolute"), [], []. rewrite !app_nil_r.
       repeat split; eauto. }
  destruct (isDirectory destination); cbn [negb andb].
  2: { exists (invalid "Export path must be a directory"), [], []. rewrite !app_nil_r.
       repeat split; eauto. }
  unfold bind, try_catch, attempt, ret, when, emit, modify.
  destruct (exists_ destination); cbn [negb orb].
  - destruct (exists_ (new_Path host ".obsidian")); cbn [negb andb].
    + destruct (exists_ (joinString host (new_Path host ".obsidian") "app.json")); cbn [negb isValid valid].
      * exists valid, [], []. rewrite !app_nil_r. repeat split; eauto; discriminate.
      * eexists valid, [], [_]. split; [reflexivity|]. repeat split; eauto; discriminate.
    + eexists (invalid _), [], []. rewrite !app_nil_r. repeat split; eauto.
  - destruct (createDirectory host tr destination) as [e|]; cbn [bool_decide andb].
    + eexists (invalid _), [_], []. rewrite !app_nil_r.
      rewrite bool_decide_eq_false_2 by discriminate. repeat split; eauto.
    + rewrite bool_decide_eq_true_2 by reflexivity. cbn [andb].
      destruct (exists_ (new_Path host ".obsidian")); cbn [negb andb].
      * destruct (exists_ (joinString host (new_Path host ".obsidian") "app.json")); cbn [negb isValid valid].
        -- eexists valid, [_], []. rewrite !app_nil_r. repeat split; eauto; discriminate.
        -- eexists valid, [_], [_]. split; [rewrite <- List.app_assoc; reflexivity|].
           repeat split; eauto; discriminate.
      * eexists (invalid _), [_], []. rewrite !app_nil_r. repeat split; eauto.
Qed.


(** X20.  An export whose inputs fail validation returns [undefined]
    after showing and logging the reason, and does no work: it builds,
    deletes and saves nothing and opens no batch.  The one thing it may have
    done is to create the destination directory; with an empty list of files
    it has not done that either. *)
Theorem invalid_inputs_stop_the_export (files : list TFile) (destination : Path)
    (saveFiles deleteOld : bool) (tr : list Event) (v : Validation) (tr1 : list Event) :
  validateExportInputs host files destination tr = (inr v, tr1) ->
  isValid v = false ->
  exists reason created,
    error v = Some reason
    /\ exportFiles host files destination saveFiles deleteOld tr
       = (inr None, tr ++ created ++ validation_failed reason)
    /\ (created = [] \/ created = [CreateDirectory destination])
    /\ (length files = 0%nat -> reason = "No files selected for export" /\ created = [])
    /\ forallb (fun ev => negb (works ev)) (created ++ validation_failed reason) = true.
Proof.
  intros Hv Hinvalid.
  destruct (validateExportInputs_valid_iff files destination tr)
    as (v' & created & warned & E & Hvalid & Hreason & Hcreated & _).
  rewrite Hv in E. injection E as <- ->.
  destruct (Hreason Hinvalid) as [[reason Hr] ->]. rewrite app_nil_r in *.
  exists reason, created. split; [exact Hr|].
  split.
  { unfold exportFiles, bind. rewrite Hv, Hinvalid, Hr. cbn [negb default].
    rewrite !emit_run, <- !List.app_assoc. reflexivity. }
  assert (Hc : created = [] \/ created = [CreateDirectory destination]).
  { rewrite Hcreated.
    match goal with |- context [if ?b then _ else _] => destruct b end; auto. }
  split; [exact Hc|]. split.
  - intros Hlen. revert Hv. unfold validateExportInputs. rewrite Hlen. cbn.
    intros Hv. injection Hv as <- Htr. cbn in Hr. injection Hr as <-.
    split; [reflexivity|].
    destruct Hc as [-> | ->]; [reflexivity|].
    apply (f_equal (@length Event)) in Htr. rewrite length_app in Htr. simpl in Htr. lia.
  - rewrite forallb_app. destruct Hc as [-> | ->]; reflexivity.
Qed.

(** X21.  The flags are respected.  With [deleteOld] false no run of
    [exportFiles] deletes a file or sweeps directories; with [saveFiles]
    false no run downloads anything; and the plugin's [exportVault(path)],
    which passes [deleteOld] false, never removes anything. *)
Theorem flags_are_respected (files : list TFile) (destination : Path) :
  (forall saveFiles, appends (fun ev => negb (removes ev))
                       (exportFiles host files destination saveFiles false))
  /\ (forall deleteOld, appends (fun ev => negb (saves ev))
                          (exportFiles host files destination false deleteOld))
  /\ (forall getFiles path, appends (fun ev => negb (removes ev))
                              (plugin_exportVault host getFiles path)).
Proof.
  assert (Hkeep : forall files destination saveFiles,
            appends (fun ev => negb (removes ev))
              (exportFiles host files destination saveFiles false)).
  { clear files destination. intros files destination saveFiles.
    unfold exportFiles, exportFiles_try, validateExportInputs, validateVaultStructure,
      saveWebsiteFiles.
    cbn [when]. prove_appends; apply appends_try_finally; prove_appends. }
  split; [apply Hkeep|]. split.
  2: { intros getFiles path. unfold plugin_exportVault, exportVault. cbv zeta.
       apply appends_bind; [apply Hkeep | intros; apply appends_ret]. }
  - intros deleteOld.
    unfold exportFiles, exportFiles_try, validateExportInputs, validateVaultStructure,
      cleanupOldFiles, cleanup_one.
    cbn [when]. prove_appends; apply appends_try_finally; prove_appends.
Qed.

Lemma cleanupOldFiles_saves_nothing website destination :
  appends (fun ev => negb (saves ev)) (cleanupOldFiles host website destination).
Proof. unfold cleanupOldFiles, cleanup_one. prove_appends. Qed.

(** X22.  When saving fails after a successful build, the export returns
    [undefined]; the error is shown and logged with the text "Failed to save
    website files: ..." put before its message; only the first download was
    attempted; the batch is closed; and the old files were deleted before:
    the trace holds the deletions of every old file that is not a font
    (none with [deleteOld] false), and nothing undoes them. *)
Theorem failed_save_is_reported (files : list TFile) (destination : Path) (deleteOld : bool)
    (website : Website) (e : Error.t) (tr : list Event) (v : Validation) (tr1 : list Event) :
  validateExportInputs host files destination tr = (inr v, tr1) ->
  isValid v = true ->
  (forall tr', build host tr' files destination = inr (Some website)) ->
  (forall tr' attachments, downloadAttachments host tr' attachments = Some e) ->
  let assetFiles :=
    List.filter (fun f => negb (isWebpage f)) (newFiles (index website))
    ++ List.filter (fun f => negb (isWebpage f)) (updatedFiles (index website)) in
  let attempted :=
    if (0 <? length assetFiles)%nat then assetFiles
    else [ websiteDataAttachment (index website); indexDataAttachment (index website) ] in
  let wrapped := Error.make ("Failed to save website files: " +:+ Error.message e) in
  exists cleanup,
    exportFiles host files destination true deleteOld tr
    = (inr None,
       tr1 ++ [BeginBatch; Log "Starting web-optimized export..."; Build files destination]
       ++ cleanup
       ++ [ DownloadAttachments attempted;
            Notice ("❌ Export Failed: " +:+ Error.message wrapped);
            LogError (inl wrapped) "Export Failed";
            EndBatch ])
    /\ deletions cleanup
       = (if deleteOld
          then List.filter (fun p => negb (isFontFile p)) (deleted_paths host website destination)
          else [])
    /\ forallb (fun ev => negb (saves ev)) cleanup = true.
Proof.
  intros Hv Hvalid Hbuild Hdl. cbv zeta.
  assert (Hclean : forall t, exists cleanup,
            when deleteOld (cleanupOldFiles host website destination) t = (inr tt, t ++ cleanup)
            /\ deletions cleanup
               = (if deleteOld
                  then List.filter (fun p => negb (isFontFile p))
                         (deleted_paths host website destination)
                  else [])
            /\ forallb (fun ev => negb (saves ev)) cleanup = true).
  { intros t. destruct deleteOld; cbn [when].
    - destruct (cleanupOldFiles_run host website destination t) as (evs & E & _ & D & _).
      exists evs. split; [exact E|]. split; [exact D|].
      destruct (cleanupOldFiles_saves_nothing website destination t) as (evs' & E' & H').
      rewrite E in E'. cbn [snd] in E'. apply app_inv_head in E'. subst evs'. exact H'.
    - exists []. rewrite app_nil_r. repeat split. }
  match goal with |- context [Build files destination] =>
    destruct (Hclean (tr1 ++ [BeginBatch] ++ [Log "Starting web-optimized export..."]
                      ++ [Build files destination])) as (cleanup & Ec & Hd & Hs) end.
  exists cleanup. split; [|split; assumption].
  unfold exportFiles, bind. rewrite Hv, Hvalid. cbn [negb].
  rewrite emit_run. unfold try_finally, try_catch, exportFiles_try, bind, attempt_value.
  rewrite emit_run, Hbuild.
  rewrite <- !List.app_assoc in *. cbn [app] in *. rewrite Ec.
  cbn [when]. unfold saveWebsiteFiles, try_catch, bind, when, attempt, throw.
  destruct (0 <? length _)%nat; cbv [ret]; cbn beta iota; rewrite ?Hdl; cbn beta iota;
    rewrite ?Hdl; rewrite !emit_run; rewrite <- ?List.app_assoc; reflexivity.
Qed.

Lemma exportFiles_returns files destination saveFiles deleteOld tr :
  exists result tr', exportFiles host files destination saveFiles deleteOld tr = (inr result, tr').
Proof.
  destruct (validateExportInputs_run host files destination tr) as (v & pre & Ev & _).
  destruct (isValid v) eqn:Hvalid.
  - destruct (exportFiles_valid_run host files destination saveFiles deleteOld _ _ _ Ev Hvalid)
      as (result & mid & E & _). eauto.
  - unfold exportFiles, bind. rewrite Ev, Hvalid. cbn [negb]. rewrite !emit_run. eauto.
Qed.

(** X23.  [exportForWeb] never throws and returns what [exportFiles]
    returns for the chosen files and destination (the vault's files and
    [/output] when they are absent), saving and deleting old files; it
    announces success exactly when a website was returned.  A list of files
    that is given but empty is not replaced by the vault's files: the export
    then fails validation with "No files selected for export". *)
Theorem exportForWeb_announces_a_returned_website (getFiles : list TFile)
    (files : option (list TFile)) (destination : option Path) (tr : list Event) :
  let filesToExport := default getFiles files in
  let exportPath := default (new_Path host "/output") destination in
  (exists result tr',
     exportFiles host filesToExport exportPath true true tr = (inr result, tr')
     /\ exportForWeb host getFiles files destination tr
        = (inr result,
           tr' ++ match result with
                  | Some _ =>
                      [ Notice ("✅ Web export completed successfully!" +:+ JS.newline +:+ JS.newline
                                +:+ "Files saved to: " +:+ path exportPath);
                        Log ("Web export completed: " +:+ JS.show_nat (length filesToExport)
                             +:+ " files exported to " +:+ path exportPath) ]
                  | None => []
                  end))
  /\ (files = Some [] ->
      exportForWeb host getFiles files destination tr
      = (inr None, tr ++ validation_failed "No files selected for export")).
Proof.
  cbv zeta. split.
  - destruct (exportFiles_returns (default getFiles files)
                (default (new_Path host "/output") destination) true true tr)
      as (result & tr' & E).
    exists result, tr'. split; [exact E|].
    unfold exportForWeb, bind. cbv zeta. rewrite E.
    destruct result; rewrite ?emit_run, <- ?List.app_assoc, ?app_nil_r; reflexivity.
  - intros ->. unfold exportForWeb, exportFiles, validateExportInputs, bind. cbn.
    rewrite <- List.app_assoc. reflexivity.
Qed.
End Manager.

(** An export of no files. *)
Lemma invalid_inputs_stop_the_export_witness :
  exportFiles Samples.host_build_throws [] (Samples.path_object "/out") true true []
  = (inr None, validation_failed "No files selected for export").
Proof.
  destruct (invalid_inputs_stop_the_export Samples.host_build_throws []
              (Samples.path_object "/out") true true []
              (invalid "No files selected for export") [] eq_refl eq_refl)
    as (reason & created & Hr & E & _ & Hempty & _).
  destruct (Hempty eq_refl) as [-> ->]. exact E.
Defined.

(** Every download fails: the old files are gone and the batch is closed. *)
Lemma failed_save_is_reported_witness :
  exists tr,
    exportFiles Samples.host_saving_fails Samples.one_file (Samples.path_object "/out") true true []
    = (inr None, tr)
    /\ List.map path (deletions tr) = ["/out/old/page.html"; "/out/old/img.png"]
    /\ In (Notice "❌ Export Failed: Failed to save website files: disk full") tr
    /\ List.last tr BeginBatch = EndBatch.
Proof.
  edestruct (failed_save_is_reported Samples.host_saving_fails Samples.one_file
               (Samples.path_object "/out") true Samples.website_with_old_files
               (Error.make "disk full") [] valid [])
    as (cleanup & E & Hd & _).
  - vm_compute. reflexivity.
  - reflexivity.
  - reflexivity.
  - reflexivity.
  - eexists. split; [exact E|]. cbv zeta in E.
    split; [|split].
    + rewrite !deletions_app, Hd. vm_compute. reflexivity.
    + rewrite !in_app_iff. right. right. cbn. auto.
    + match goal with
      | |- context [?x ++ ?y ++ [?a; ?n; ?l; EndBatch]] =>
          replace (x ++ y ++ [a; n; l; EndBatch]) with ((x ++ y ++ [a; n; l]) ++ [EndBatch])
            by (rewrite <- !List.app_assoc; reflexivity)
      end.
      apply List.last_last.
Defined.
End ManagerTraces.

(** ** The plugin's update check *)

Module PluginFacts.
Import Eff HTMLExportPlugin.

Lemma append_empty s : s +:+ EmptyString = s.
Proof. induction s as [|c s IH]; [reflexivity|]. change (String c s +:+ EmptyString) with (String c (s +:+ EmptyString)). rewrite IH. reflexivity. Qed.

Section Plugin.
Variable h : Host.

(** What a check leaves behind, by what it fetched. *)
Lemma checkForUpdates_run (s : State) :
  exists info s',
    checkForUpdates h s = (inr info, s')
    /\ updateInfo s' = info
    /\ currentVersion info = manifest_version h
    /\ match fetched h s with
       | Some m =>
           latestVersion info = default (manifest_version h) (version m)
           /\ updateAvailable info = string_lt (manifest_version h) (latestVersion info)
           /\ updateNote info = default EmptyString (manifest_updateNote m)
       | None =>
           info = {| updateAvailable := false;
                     latestVersion := manifest_version h;
                     currentVersion := manifest_version h;
                     updateNote := EmptyString |}
           /\ logged s' = logged s ++ ["Could not check for update"]
       end.
Proof.
  unfold checkForUpdates, fetched, requested_url. cbv zeta.
  unfold try_catch, bind, now, request, read_json, throw, ret, when, set_updateInfo,
    get_updateInfo, ExportLog_log, modify.
  destruct (JS.endsWith (manifest_version h) "b"); cbn [ticks updateInfo logged];
    rewrite ?append_empty;
    (destruct (requestUrl h _) as [e | [st [e | m]]]; cbn [status json];
     [ | destruct (st =? 200)%Z; cbn [negb] | destruct (st =? 200)%Z; cbn [negb] ]);
    try (eexists _, _; split; [reflexivity|]; cbn; repeat split; fail).
  all: try match goal with
           | |- context [string_lt ?a ?b] => destruct (string_lt a b) eqn:Hlt
           end;
    eexists _, _; (split; [reflexivity|]); cbn; repeat split; try assumption; auto.
Qed.

Lemma compare_same_prefix p a b : String.compare (p +:+ a) (p +:+ b) = String.compare a b.
Proof.
  induction p as [|c p IH]; [reflexivity|].
  change (String c p +:+ a) with (String c (p +:+ a)).
  change (String c p +:+ b) with (String c (p +:+ b)).
  cbn [String.compare]. unfold Ascii.compare. rewrite N.compare_refl. exact IH.
Qed.

Lemma string_lt_irreflexive a : string_lt a a = false.
Proof.
  unfold string_lt, String.ltb.
  replace (String.compare a a) with Eq; [reflexivity|].
  induction a as [|c a IH]; [reflexivity|].
  cbn [String.compare]. unfold Ascii.compare. rewrite N.compare_refl. exact IH.
Qed.

Lemma nine_is_not_below_ten p r1 r2 :
  string_lt (p +:+ "9" +:+ r1) (p +:+ "10" +:+ r2) = false.
Proof. unfold string_lt, String.ltb. rewrite compare_same_prefix. reflexivity. Qed.

(** X24.  The update check never throws, and always leaves the static
    [updateInfo] equal to what it returns, with the plugin's own version as
    current version.  When the manifest cannot be fetched (the request
    fails, the status is not 200, or the body is not JSON) it reports no
    update, with the current version as latest, and logs that it could not
    check.  It reports an update only for a fetched manifest that names a
    version other than the current one. *)
Theorem checkForUpdates_never_throws (s : State) :
  exists info s',
    checkForUpdates h s = (inr info, s')
    /\ updateInfo s' = info
    /\ currentVersion info = manifest_version h
    /\ (fetched h s = None ->
        info = {| updateAvailable := false;
                  latestVersion := manifest_version h;
                  currentVersion := manifest_version h;
                  updateNote := EmptyString |}
        /\ logged s' = logged s ++ ["Could not check for update"])
    /\ (updateAvailable info = true ->
        exists m, fetched h s = Some m
                  /\ version m = Some (latestVersion info)
                  /\ latestVersion info <> manifest_version h).
Proof.
  destruct (checkForUpdates_run s) as (info & s' & E & Hs & Hc & Hf).
  exists info, s'. split; [exact E|]. split; [exact Hs|]. split; [exact Hc|].
  destruct (fetched h s) as [m|].
  - destruct Hf as (Hl & Ha & Hn). split; [discriminate|].
    intros Hav. exists m. split; [reflexivity|].
    rewrite Ha in Hav.
    destruct (version m) as [v|]; cbn [default id] in Hl.
    + split; [congruence|]. intros Heq. rewrite Heq, string_lt_irreflexive in Hav. discriminate.
    + rewrite Hl, string_lt_irreflexive in Hav. discriminate.
  - destruct Hf as (-> & Hlog). split; [auto|]. cbn. discriminate.
Qed.

(** X25.  The update check compares the two version texts as strings,
    character by character.  A current version whose text has a 9 where the
    latest has 10 (as 1.9.0 against 1.10.0) is therefore not below it, and
    no update is reported. *)
Theorem update_check_compares_text (s : State) (m : Manifest) (latest : string) :
  fetched h s = Some m ->
  version m = Some latest ->
  exists info s',
    checkForUpdates h s = (inr info, s')
    /\ latestVersion info = latest
    /\ updateAvailable info = string_lt (manifest_version h) latest
    /\ forall prefix rest1 rest2,
         manifest_version h = prefix +:+ "9" +:+ rest1 ->
         latest = prefix +:+ "10" +:+ rest2 ->
         updateAvailable info = false.
Proof.
  intros Hm Hv.
  destruct (checkForUpdates_run s) as (info & s' & E & _ & _ & Hf).
  rewrite Hm, Hv in Hf. cbn [default id] in Hf. destruct Hf as (Hl & Ha & _).
  exists info, s'. split; [exact E|]. split; [exact Hl|].
  rewrite Hl in Ha. split; [exact Ha|].
  intros prefix rest1 rest2 Hcur Hlat. rewrite Ha, Hcur, Hlat.
  apply nine_is_not_below_ten.
Qed.

End Plugin.

(** Version 1.9.0 is not told of version 1.10.0. *)
Lemma update_check_compares_text_witness :
  exists s',
    checkForUpdates Samples.plugin_at_1_9
      Samples.plugin_started
    = (inr {| updateAvailable := false; latestVersion := "1.10.0";
              currentVersion := "1.9.0"; updateNote := EmptyString |}, s').
Proof.
  destruct (update_check_compares_text Samples.plugin_at_1_9
              Samples.plugin_started
              {| version := Some "1.10.0"; manifest_updateNote := None |} "1.10.0"
              eq_refl eq_refl) as (info & s' & E & _).
  exists s'. rewrite E. vm_compute in E. injection E as <- _. reflexivity.
Defined.
End PluginFacts.

(** ** DockerLogger: the JSON export *)

Module ExportedLogFacts.
Import Eff DockerLogger.

Lemma two_filters {A} (f g : A -> bool) (l : list A) :
  (forall x, f x = true -> g x = false) ->
  (length (List.filter f l) + length (List.filter g l) <= length l)%nat.
Proof.
  intros Hfg. induction l as [|x l IH]; simpl; [lia|].
  destruct (f x) eqn:Hf; [rewrite (Hfg x Hf); simpl; lia|].
  destruct (g x); simpl; lia.
Qed.

(** X26.  The JSON export of the log agrees with the summary report: same
    error count, same warning count, and [success] exactly when the summary
    says SUCCESS.  It holds all stored entries, errors and warnings are
    among them, and producing it changes neither the logger nor the
    console. *)
Theorem exported_log_agrees_with_summary (Date_now : nat -> Z) (p : Process) :
  exists export p',
    exportLogsAsJSON Date_now p = (inr export, p')
    /\ logger p' = logger p
    /\ console p' = console p
    /\ entries export = logEntries (logger p)
    /\ totalEntries export = length (logEntries (logger p))
    /\ (export_errorCount export + export_warningCount export <= totalEntries export)%nat
    /\ forall t1,
         export_errorCount export = errorCount (summary_of (logger p) t1)
         /\ export_warningCount export = warningCount (summary_of (logger p) t1)
         /\ export_success export = status (summary_of (logger p) t1).
Proof.
  eexists _, _. split; [reflexivity|]. cbn.
  split; [reflexivity|]. split; [reflexivity|]. split; [reflexivity|]. split; [reflexivity|].
  split; [|intros t1; repeat split].
  apply two_filters. intros e He. unfold has_level, LogLevel.eqb in *.
  apply N.eqb_eq in He. apply N.eqb_neq. rewrite He. discriminate.
Qed.
End ExportedLogFacts.

(** ** DockerConfigLoader: the meta tags variable *)

Module MetaTagFacts.
Import WebConfig DockerConfigLoader ConfigLoaderFacts.

Section WithJSON.
Variable JSON_parse : string -> JsonParse.

Lemma parseBooleanEnv_warnings env x d m :
  In m (snd (parseBooleanEnv env x d)) -> m = invalid_boolean_message x (default EmptyString (env !! x)) d.
Proof.
  unfold parseBooleanEnv. destruct (env !! x) as [v|]; [|intros []].
  cbv zeta. destruct (_ || _); [intros []|]. destruct (_ || _); [intros []|].
  cbn. intros [<- | []]. reflexivity.
Qed.

Lemma invalid_boolean_is_not_meta x v d : invalid_boolean_message x v d <> invalid_meta_tags.
Proof. unfold invalid_boolean_message. destruct x; discriminate. Qed.


Lemma loadSeo_meta env c :
  let p1 := parseBooleanEnv env "OBSIDIAN_GENERATE_SITEMAP" (generateSitemap (seo c)) in
  let p2 := parseBooleanEnv env "OBSIDIAN_GENERATE_ROBOTS_TXT" (generateRobotsTxt (seo c)) in
  let r := loadSeo JSON_parse env c in
  customMetaTags (seo (fst r))
  = match env_truthy env "OBSIDIAN_CUSTOM_META_TAGS" with
    | Some v => match JSON_parse v with
                | JsonArray metaTags => Some metaTags
                | _ => customMetaTags (seo c)
                end
    | None => customMetaTags (seo c)
    end
  /\ snd r
     = snd p1 ++ snd p2
       ++ match env_truthy env "OBSIDIAN_CUSTOM_META_TAGS" with
          | Some v => match JSON_parse v with
                      | JsonThrows => [invalid_meta_tags]
                      | _ => []
                      end
          | None => []
          end.
Proof.
  unfold loadSeo, wbind, wret, console_warn.
  destruct (env_truthy env "OBSIDIAN_GOOGLE_ANALYTICS_ID");
    cbn -[parseBooleanEnv env_truthy]; name_parses;
    (destruct (env_truthy env "OBSIDIAN_CUSTOM_META_TAGS") as [v|];
     [destruct (JSON_parse v)|]); cbn; rewrite ?app_nil_r; split; reflexivity.
Qed.

(** X27.  The meta tags variable.  When it is set to non-empty text that
    parses to an array, the tags are that array; in every other case the
    defaults are kept.  The warning about its format is written exactly when
    the text is not JSON: text that parses to something other than an array
    is ignored without a word. *)
Theorem custom_meta_tags_loaded (env : Env) :
  let r := loadFromEnvironment JSON_parse env in
  customMetaTags (seo (fst r))
  = match env !! "OBSIDIAN_CUSTOM_META_TAGS" with
    | Some v =>
        if JS.truthy v then
          match JSON_parse v with
          | JsonArray metaTags => Some metaTags
          | _ => customMetaTags (seo DEFAULT_WEB_CONFIG)
          end
        else customMetaTags (seo DEFAULT_WEB_CONFIG)
    | None => customMetaTags (seo DEFAULT_WEB_CONFIG)
    end
  /\ (In invalid_meta_tags (snd r)
      <-> exists v, env !! "OBSIDIAN_CUSTOM_META_TAGS" = Some v
                    /\ v <> EmptyString /\ JSON_parse v = JsonThrows).
Proof.
  cbv zeta. rewrite loadFromEnvironment_unfold. cbv zeta. cbn [fst snd].
  destruct (loadSiteInformation_frame env DEFAULT_WEB_CONFIG) as (_ & Hs1 & _).
  set (c1 := loadSiteInformation env DEFAULT_WEB_CONFIG) in *.
  pose proof (loadFeatures_spec env c1) as H2. cbv zeta in H2.
  set (r2 := loadFeatures env c1) in *.
  assert (Hseo2 : seo (fst r2) = seo DEFAULT_WEB_CONFIG) by (rewrite H2; exact Hs1).
  destruct (loadSeo_meta env (fst r2)) as (Hmeta & Hw3).
  set (r3 := loadSeo JSON_parse env (fst r2)) in *.
  destruct (loadAdvanced_spec env (fst r3)) as (_ & Hs4 & _ & _ & _ & _ & Hw4).
  set (r4 := loadAdvanced env (fst r3)) in *.
  rewrite Hs4, Hmeta, Hseo2.
  assert (Hw2 := f_equal snd H2). cbn [snd] in Hw2.
  assert (Htruthy : env_truthy env "OBSIDIAN_CUSTOM_META_TAGS"
                    = match env !! "OBSIDIAN_CUSTOM_META_TAGS" with
                      | Some v => if JS.truthy v then Some v else None
                      | None => None
                      end) by reflexivity.
  split.
  - rewrite Htruthy. destruct (env !! "OBSIDIAN_CUSTOM_META_TAGS") as [v|]; [|reflexivity].
    destruct (JS.truthy v); reflexivity.
  - rewrite Hw2, Hw3, Hw4, !in_app_iff.
    assert (Hnot : forall x d, ~ In invalid_meta_tags (snd (parseBooleanEnv env x d))).
    { intros x d Hin. apply parseBooleanEnv_warnings in Hin.
      symmetry in Hin. exact (invalid_boolean_is_not_meta _ _ _ Hin). }
    split.
    + intros H.
      repeat match type of H with
             | _ \/ _ => destruct H as [H | H]
             | In _ (snd (parseBooleanEnv _ _ _)) => exfalso; exact (Hnot _ _ H)
             | In _ [] => destruct H
             end.
      unfold env_truthy in H.
      destruct (env !! "OBSIDIAN_CUSTOM_META_TAGS") as [v|]; [|destruct H].
      destruct v as [|ch v]; [destruct H|]. cbn [JS.truthy JS.is_empty negb] in H.
      exists (String ch v). split; [reflexivity|]. split; [discriminate|].
      destruct (JSON_parse (String ch v)); [reflexivity | destruct H | destruct H].
    + intros (v & Hv & Hne & Hthrows).
      right. left. right. right.
      rewrite Htruthy, Hv. destruct v; [congruence|]. cbn [JS.truthy JS.is_empty negb].
      rewrite Hthrows. left. reflexivity.
Qed.

End WithJSON.
End MetaTagFacts.
